(** * DocuVault prescription pipeline: a shallow embedding

    The development follows the Python sources under [extraction/]:
    [schema.py] (the pydantic record schema), [ocr_parser.py] (the regex
    fallback structurer), [llm_extractor.py] and [vision_extractor.py] (the
    two remote strategies) and [prescription_processor.py] (classifier,
    router, orchestrator and batch driver), and the badge and statistics
    helpers of [app.py].

    Modelling conventions.
    - A Python [str] is a list of Unicode code points ([list N]); literals
      are written [u "..."] and decoded from UTF-8.
    - A Python [float] that carries a confidence is a rational ([Q]); the
      literals [0.5], [0.6], [0.7], [0.0], [1.0] are the rationals of the
      same name.
    - [time.time()] reads a clock held in the state; the clock advances only
      while a collaborator (OCR engine, remote service) is running.
    - Exceptions are values of [exn]; stateful code lives in the monad [M].
    - Logging is not modelled. *)

From Stdlib Require Import String Ascii List NArith ZArith QArith Bool Lia.
Import ListNotations.
Close Scope Q_scope.

Set Implicit Arguments.

(* ================================================================= *)
(** ** Numbers *)

(** [a < b] on confidences. *)
Definition Qltb (a b : Q) : bool := negb (Qle_bool b a).

(* ================================================================= *)
(** ** Python strings *)

Definition str := list N.

(** UTF-8 decoding of a source literal ([need] continuation bytes are still
    expected for the code point accumulated in [acc]). *)
Fixpoint utf8_go (need : nat) (acc : N) (bs : list N) : str :=
  match bs with
  | [] => []
  | b :: bs' =>
      match need with
      | O =>
          if (b <? 128)%N then b :: utf8_go 0 0 bs'
          else if (b <? 224)%N then utf8_go 1 (b - 192) bs'
          else if (b <? 240)%N then utf8_go 2 (b - 224) bs'
          else utf8_go 3 (b - 240) bs'
      | S O => (acc * 64 + (b - 128))%N :: utf8_go 0 0 bs'
      | S n => utf8_go n (acc * 64 + (b - 128))%N bs'
      end
  end.

Definition u (s : string) : str :=
  utf8_go 0 0 (map N_of_ascii (list_ascii_of_string s)).

Fixpoint str_eqb (a b : str) : bool :=
  match a, b with
  | [], [] => true
  | x :: a', y :: b' => (x =? y)%N && str_eqb a' b'
  | _, _ => false
  end.

(** *** Character classes of the Unicode database

    The tables are those of Unicode 14.0, the version CPython 3.11 carries.
    [str.isspace] and the regex class [\s] accept exactly the characters of
    [isspace]; [\d] is the decimal-digit category; [\w] is the alphanumeric
    characters and the underscore.  [lower_char] is the simple lower-case
    mapping, which the IGNORECASE comparison uses; [str.lower] differs from
    it on U+0130, whose lower case is two characters.  The word-final form
    that [str.lower] gives the Greek capital sigma is left out: the letter
    is lowered to its medial form everywhere. *)

Definition in_range (lo hi c : N) : bool := ((lo <=? c) && (c <=? hi))%N.

Definition in_ranges (l : list (N * N)) (c : N) : bool :=
  existsb (fun r => in_range (fst r) (snd r) c) l.

Definition isspace (c : N) : bool :=
  in_range 9 13 c || in_range 28 32 c || (c =? 133)%N || (c =? 160)%N
  || (c =? 5760)%N || in_range 8192 8202 c || in_range 8232 8233 c
  || (c =? 8239)%N || (c =? 8287)%N || (c =? 12288)%N.

Definition decimal_ranges : list (N * N) :=
  [(48, 57); (1632, 1641); (1776, 1785); (1984, 1993); (2406, 2415);
   (2534, 2543); (2662, 2671); (2790, 2799); (2918, 2927); (3046, 3055);
   (3174, 3183); (3302, 3311); (3430, 3439); (3558, 3567); (3664, 3673);
   (3792, 3801); (3872, 3881); (4160, 4169); (4240, 4249); (6112, 6121);
   (6160, 6169); (6470, 6479); (6608, 6617); (6784, 6793); (6800, 6809);
   (6992, 7001); (7088, 7097); (7232, 7241); (7248, 7257); (42528, 42537);
   (43216, 43225); (43264, 43273); (43472, 43481); (43504, 43513); (43600, 43609);
   (44016, 44025); (65296, 65305); (66720, 66729); (68912, 68921); (69734, 69743);
   (69872, 69881); (69942, 69951); (70096, 70105); (70384, 70393); (70736, 70745);
   (70864, 70873); (71248, 71257); (71360, 71369); (71472, 71481); (71904, 71913);
   (72016, 72025); (72784, 72793); (73040, 73049); (73120, 73129); (92768, 92777);
   (92864, 92873); (93008, 93017); (120782, 120831); (123200, 123209); (123632, 123641);
   (125264, 125273); (130032, 130041)]%N.

Definition isdecimal (c : N) : bool := in_ranges decimal_ranges c.

(** The simple case mapping as runs [(first, last, step, image of first)]:
    every [step]-th character from [first] to [last] is mapped, the images
    keeping the distance.  The runs are in increasing order. *)
Definition lower_table : list (N * N * N * N) :=
  [(65, 90, 1, 97); (192, 214, 1, 224); (216, 222, 1, 248); (256, 302, 2, 257);
   (304, 304, 1, 105); (306, 310, 2, 307); (313, 327, 2, 314); (330, 374, 2, 331);
   (376, 376, 1, 255); (377, 381, 2, 378); (385, 385, 1, 595); (386, 388, 2, 387);
   (390, 390, 1, 596); (391, 391, 1, 392); (393, 394, 1, 598); (395, 395, 1, 396);
   (398, 398, 1, 477); (399, 399, 1, 601); (400, 400, 1, 603); (401, 401, 1, 402);
   (403, 403, 1, 608); (404, 404, 1, 611); (406, 406, 1, 617); (407, 407, 1, 616);
   (408, 408, 1, 409); (412, 412, 1, 623); (413, 413, 1, 626); (415, 415, 1, 629);
   (416, 420, 2, 417); (422, 422, 1, 640); (423, 423, 1, 424); (425, 425, 1, 643);
   (428, 428, 1, 429); (430, 430, 1, 648); (431, 431, 1, 432); (433, 434, 1, 650);
   (435, 437, 2, 436); (439, 439, 1, 658); (440, 440, 1, 441); (444, 444, 1, 445);
   (452, 452, 1, 454); (453, 453, 1, 454); (455, 455, 1, 457); (456, 456, 1, 457);
   (458, 458, 1, 460); (459, 475, 2, 460); (478, 494, 2, 479); (497, 497, 1, 499);
   (498, 500, 2, 499); (502, 502, 1, 405); (503, 503, 1, 447); (504, 542, 2, 505);
   (544, 544, 1, 414); (546, 562, 2, 547); (570, 570, 1, 11365); (571, 571, 1, 572);
   (573, 573, 1, 410); (574, 574, 1, 11366); (577, 577, 1, 578); (579, 579, 1, 384);
   (580, 580, 1, 649); (581, 581, 1, 652); (582, 590, 2, 583); (880, 882, 2, 881);
   (886, 886, 1, 887); (895, 895, 1, 1011); (902, 902, 1, 940); (904, 906, 1, 941);
   (908, 908, 1, 972); (910, 911, 1, 973); (913, 929, 1, 945); (931, 939, 1, 963);
   (975, 975, 1, 983); (984, 1006, 2, 985); (1012, 1012, 1, 952); (1015, 1015, 1, 1016);
   (1017, 1017, 1, 1010); (1018, 1018, 1, 1019); (1021, 1023, 1, 891); (1024, 1039, 1, 1104);
   (1040, 1071, 1, 1072); (1120, 1152, 2, 1121); (1162, 1214, 2, 1163); (1216, 1216, 1, 1231);
   (1217, 1229, 2, 1218); (1232, 1326, 2, 1233); (1329, 1366, 1, 1377); (4256, 4293, 1, 11520);
   (4295, 4295, 1, 11559); (4301, 4301, 1, 11565); (5024, 5103, 1, 43888); (5104, 5109, 1, 5112);
   (7312, 7354, 1, 4304); (7357, 7359, 1, 4349); (7680, 7828, 2, 7681); (7838, 7838, 1, 223);
   (7840, 7934, 2, 7841); (7944, 7951, 1, 7936); (7960, 7965, 1, 7952); (7976, 7983, 1, 7968);
   (7992, 7999, 1, 7984); (8008, 8013, 1, 8000); (8025, 8031, 2, 8017); (8040, 8047, 1, 8032);
   (8072, 8079, 1, 8064); (8088, 8095, 1, 8080); (8104, 8111, 1, 8096); (8120, 8121, 1, 8112);
   (8122, 8123, 1, 8048); (8124, 8124, 1, 8115); (8136, 8139, 1, 8050); (8140, 8140, 1, 8131);
   (8152, 8153, 1, 8144); (8154, 8155, 1, 8054); (8168, 8169, 1, 8160); (8170, 8171, 1, 8058);
   (8172, 8172, 1, 8165); (8184, 8185, 1, 8056); (8186, 8187, 1, 8060); (8188, 8188, 1, 8179);
   (8486, 8486, 1, 969); (8490, 8490, 1, 107); (8491, 8491, 1, 229); (8498, 8498, 1, 8526);
   (8544, 8559, 1, 8560); (8579, 8579, 1, 8580); (9398, 9423, 1, 9424); (11264, 11311, 1, 11312);
   (11360, 11360, 1, 11361); (11362, 11362, 1, 619); (11363, 11363, 1, 7549); (11364, 11364, 1, 637);
   (11367, 11371, 2, 11368); (11373, 11373, 1, 593); (11374, 11374, 1, 625); (11375, 11375, 1, 592);
   (11376, 11376, 1, 594); (11378, 11378, 1, 11379); (11381, 11381, 1, 11382); (11390, 11391, 1, 575);
   (11392, 11490, 2, 11393); (11499, 11501, 2, 11500); (11506, 11506, 1, 11507); (42560, 42604, 2, 42561);
   (42624, 42650, 2, 42625); (42786, 42798, 2, 42787); (42802, 42862, 2, 42803); (42873, 42875, 2, 42874);
   (42877, 42877, 1, 7545); (42878, 42886, 2, 42879); (42891, 42891, 1, 42892); (42893, 42893, 1, 613);
   (42896, 42898, 2, 42897); (42902, 42920, 2, 42903); (42922, 42922, 1, 614); (42923, 42923, 1, 604);
   (42924, 42924, 1, 609); (42925, 42925, 1, 620); (42926, 42926, 1, 618); (42928, 42928, 1, 670);
   (42929, 42929, 1, 647); (42930, 42930, 1, 669); (42931, 42931, 1, 43859); (42932, 42946, 2, 42933);
   (42948, 42948, 1, 42900); (42949, 42949, 1, 642); (42950, 42950, 1, 7566); (42951, 42953, 2, 42952);
   (42960, 42960, 1, 42961); (42966, 42968, 2, 42967); (42997, 42997, 1, 42998); (65313, 65338, 1, 65345);
   (66560, 66599, 1, 66600); (66736, 66771, 1, 66776); (66928, 66938, 1, 66967); (66940, 66954, 1, 66979);
   (66956, 66962, 1, 66995); (66964, 66965, 1, 67003); (68736, 68786, 1, 68800); (71840, 71871, 1, 71872);
   (93760, 93791, 1, 93792); (125184, 125217, 1, 125218)]%N.

Fixpoint case_lookup (table : list (N * N * N * N)) (c : N) : N :=
  match table with
  | [] => c
  | (first, last, step, image) :: rest =>
      if (c <? first)%N then c
      else if ((c <=? last) && ((c - first) mod step =? 0))%N
           then (image + (c - first))%N
           else case_lookup rest c
  end.

Definition lower_char (c : N) : N := case_lookup lower_table c.

(** The characters that have a lower case or an upper case other than
    themselves. *)
Definition cased_ranges : list (N * N) :=
  [(65, 90); (97, 122); (181, 181); (192, 214); (216, 246);
   (248, 311); (313, 396); (398, 410); (412, 425); (428, 441);
   (444, 445); (447, 447); (452, 544); (546, 563); (570, 596);
   (598, 599); (601, 601); (603, 604); (608, 609); (611, 611);
   (613, 614); (616, 620); (623, 623); (625, 626); (629, 629);
   (637, 637); (640, 640); (642, 643); (647, 652); (658, 658);
   (669, 670); (837, 837); (880, 883); (886, 887); (891, 893);
   (895, 895); (902, 902); (904, 906); (908, 908); (910, 929);
   (931, 977); (981, 1013); (1015, 1019); (1021, 1153); (1162, 1327);
   (1329, 1366); (1377, 1415); (4256, 4293); (4295, 4295); (4301, 4301);
   (4304, 4346); (4349, 4351); (5024, 5109); (5112, 5117); (7296, 7304);
   (7312, 7354); (7357, 7359); (7545, 7545); (7549, 7549); (7566, 7566);
   (7680, 7835); (7838, 7838); (7840, 7957); (7960, 7965); (7968, 8005);
   (8008, 8013); (8016, 8023); (8025, 8025); (8027, 8027); (8029, 8029);
   (8031, 8061); (8064, 8116); (8118, 8124); (8126, 8126); (8130, 8132);
   (8134, 8140); (8144, 8147); (8150, 8155); (8160, 8172); (8178, 8180);
   (8182, 8188); (8486, 8486); (8490, 8491); (8498, 8498); (8526, 8526);
   (8544, 8575); (8579, 8580); (9398, 9449); (11264, 11376); (11378, 11379);
   (11381, 11382); (11390, 11491); (11499, 11502); (11506, 11507); (11520, 11557);
   (11559, 11559); (11565, 11565); (42560, 42605); (42624, 42651); (42786, 42799);
   (42802, 42863); (42873, 42887); (42891, 42893); (42896, 42900); (42902, 42926);
   (42928, 42954); (42960, 42961); (42966, 42969); (42997, 42998); (43859, 43859);
   (43888, 43967); (64256, 64262); (64275, 64279); (65313, 65338); (65345, 65370);
   (66560, 66639); (66736, 66771); (66776, 66811); (66928, 66938); (66940, 66954);
   (66956, 66962); (66964, 66965); (66967, 66977); (66979, 66993); (66995, 67001);
   (67003, 67004); (68736, 68786); (68800, 68850); (71840, 71903); (93760, 93823);
   (125184, 125251)]%N.

Definition iscased (c : N) : bool := in_ranges cased_ranges c.

Definition lower_chars (c : N) : str :=
  if (c =? 304)%N then [105; 775]%N else [lower_char c].

Definition lower (s : str) : str := flat_map lower_chars s.

Definition word_ranges : list (N * N) :=
  [(48, 57); (65, 90); (95, 95); (97, 122); (170, 170);
   (178, 179); (181, 181); (185, 186); (188, 190); (192, 214);
   (216, 246); (248, 705); (710, 721); (736, 740); (748, 748);
   (750, 750); (880, 884); (886, 887); (890, 893); (895, 895);
   (902, 902); (904, 906); (908, 908); (910, 929); (931, 1013);
   (1015, 1153); (1162, 1327); (1329, 1366); (1369, 1369); (1376, 1416);
   (1488, 1514); (1519, 1522); (1568, 1610); (1632, 1641); (1646, 1647);
   (1649, 1747); (1749, 1749); (1765, 1766); (1774, 1788); (1791, 1791);
   (1808, 1808); (1810, 1839); (1869, 1957); (1969, 1969); (1984, 2026);
   (2036, 2037); (2042, 2042); (2048, 2069); (2074, 2074); (2084, 2084);
   (2088, 2088); (2112, 2136); (2144, 2154); (2160, 2183); (2185, 2190);
   (2208, 2249); (2308, 2361); (2365, 2365); (2384, 2384); (2392, 2401);
   (2406, 2415); (2417, 2432); (2437, 2444); (2447, 2448); (2451, 2472);
   (2474, 2480); (2482, 2482); (2486, 2489); (2493, 2493); (2510, 2510);
   (2524, 2525); (2527, 2529); (2534, 2545); (2548, 2553); (2556, 2556);
   (2565, 2570); (2575, 2576); (2579, 2600); (2602, 2608); (2610, 2611);
   (2613, 2614); (2616, 2617); (2649, 2652); (2654, 2654); (2662, 2671);
   (2674, 2676); (2693, 2701); (2703, 2705); (2707, 2728); (2730, 2736);
   (2738, 2739); (2741, 2745); (2749, 2749); (2768, 2768); (2784, 2785);
   (2790, 2799); (2809, 2809); (2821, 2828); (2831, 2832); (2835, 2856);
   (2858, 2864); (2866, 2867); (2869, 2873); (2877, 2877); (2908, 2909);
   (2911, 2913); (2918, 2927); (2929, 2935); (2947, 2947); (2949, 2954);
   (2958, 2960); (2962, 2965); (2969, 2970); (2972, 2972); (2974, 2975);
   (2979, 2980); (2984, 2986); (2990, 3001); (3024, 3024); (3046, 3058);
   (3077, 3084); (3086, 3088); (3090, 3112); (3114, 3129); (3133, 3133);
   (3160, 3162); (3165, 3165); (3168, 3169); (3174, 3183); (3192, 3198);
   (3200, 3200); (3205, 3212); (3214, 3216); (3218, 3240); (3242, 3251);
   (3253, 3257); (3261, 3261); (3293, 3294); (3296, 3297); (3302, 3311);
   (3313, 3314); (3332, 3340); (3342, 3344); (3346, 3386); (3389, 3389);
   (3406, 3406); (3412, 3414); (3416, 3425); (3430, 3448); (3450, 3455);
   (3461, 3478); (3482, 3505); (3507, 3515); (3517, 3517); (3520, 3526);
   (3558, 3567); (3585, 3632); (3634, 3635); (3648, 3654); (3664, 3673);
   (3713, 3714); (3716, 3716); (3718, 3722); (3724, 3747); (3749, 3749);
   (3751, 3760); (3762, 3763); (3773, 3773); (3776, 3780); (3782, 3782);
   (3792, 3801); (3804, 3807); (3840, 3840); (3872, 3891); (3904, 3911);
   (3913, 3948); (3976, 3980); (4096, 4138); (4159, 4169); (4176, 4181);
   (4186, 4189); (4193, 4193); (4197, 4198); (4206, 4208); (4213, 4225);
   (4238, 4238); (4240, 4249); (4256, 4293); (4295, 4295); (4301, 4301);
   (4304, 4346); (4348, 4680); (4682, 4685); (4688, 4694); (4696, 4696);
   (4698, 4701); (4704, 4744); (4746, 4749); (4752, 4784); (4786, 4789);
   (4792, 4798); (4800, 4800); (4802, 4805); (4808, 4822); (4824, 4880);
   (4882, 4885); (4888, 4954); (4969, 4988); (4992, 5007); (5024, 5109);
   (5112, 5117); (5121, 5740); (5743, 5759); (5761, 5786); (5792, 5866);
   (5870, 5880); (5888, 5905); (5919, 5937); (5952, 5969); (5984, 5996);
   (5998, 6000); (6016, 6067); (6103, 6103); (6108, 6108); (6112, 6121);
   (6128, 6137); (6160, 6169); (6176, 6264); (6272, 6276); (6279, 6312);
   (6314, 6314); (6320, 6389); (6400, 6430); (6470, 6509); (6512, 6516);
   (6528, 6571); (6576, 6601); (6608, 6618); (6656, 6678); (6688, 6740);
   (6784, 6793); (6800, 6809); (6823, 6823); (6917, 6963); (6981, 6988);
   (6992, 7001); (7043, 7072); (7086, 7141); (7168, 7203); (7232, 7241);
   (7245, 7293); (7296, 7304); (7312, 7354); (7357, 7359); (7401, 7404);
   (7406, 7411); (7413, 7414); (7418, 7418); (7424, 7615); (7680, 7957);
   (7960, 7965); (7968, 8005); (8008, 8013); (8016, 8023); (8025, 8025);
   (8027, 8027); (8029, 8029); (8031, 8061); (8064, 8116); (8118, 8124);
   (8126, 8126); (8130, 8132); (8134, 8140); (8144, 8147); (8150, 8155);
   (8160, 8172); (8178, 8180); (8182, 8188); (8304, 8305); (8308, 8313);
   (8319, 8329); (8336, 8348); (8450, 8450); (8455, 8455); (8458, 8467);
   (8469, 8469); (8473, 8477); (8484, 8484); (8486, 8486); (8488, 8488);
   (8490, 8493); (8495, 8505); (8508, 8511); (8517, 8521); (8526, 8526);
   (8528, 8585); (9312, 9371); (9450, 9471); (10102, 10131); (11264, 11492);
   (11499, 11502); (11506, 11507); (11517, 11517); (11520, 11557); (11559, 11559);
   (11565, 11565); (11568, 11623); (11631, 11631); (11648, 11670); (11680, 11686);
   (11688, 11694); (11696, 11702); (11704, 11710); (11712, 11718); (11720, 11726);
   (11728, 11734); (11736, 11742); (11823, 11823); (12293, 12295); (12321, 12329);
   (12337, 12341); (12344, 12348); (12353, 12438); (12445, 12447); (12449, 12538);
   (12540, 12543); (12549, 12591); (12593, 12686); (12690, 12693); (12704, 12735);
   (12784, 12799); (12832, 12841); (12872, 12879); (12881, 12895); (12928, 12937);
   (12977, 12991); (13312, 19903); (19968, 42124); (42192, 42237); (42240, 42508);
   (42512, 42539); (42560, 42606); (42623, 42653); (42656, 42735); (42775, 42783);
   (42786, 42888); (42891, 42954); (42960, 42961); (42963, 42963); (42965, 42969);
   (42994, 43009); (43011, 43013); (43015, 43018); (43020, 43042); (43056, 43061);
   (43072, 43123); (43138, 43187); (43216, 43225); (43250, 43255); (43259, 43259);
   (43261, 43262); (43264, 43301); (43312, 43334); (43360, 43388); (43396, 43442);
   (43471, 43481); (43488, 43492); (43494, 43518); (43520, 43560); (43584, 43586);
   (43588, 43595); (43600, 43609); (43616, 43638); (43642, 43642); (43646, 43695);
   (43697, 43697); (43701, 43702); (43705, 43709); (43712, 43712); (43714, 43714);
   (43739, 43741); (43744, 43754); (43762, 43764); (43777, 43782); (43785, 43790);
   (43793, 43798); (43808, 43814); (43816, 43822); (43824, 43866); (43868, 43881);
   (43888, 44002); (44016, 44025); (44032, 55203); (55216, 55238); (55243, 55291);
   (63744, 64109); (64112, 64217); (64256, 64262); (64275, 64279); (64285, 64285);
   (64287, 64296); (64298, 64310); (64312, 64316); (64318, 64318); (64320, 64321);
   (64323, 64324); (64326, 64433); (64467, 64829); (64848, 64911); (64914, 64967);
   (65008, 65019); (65136, 65140); (65142, 65276); (65296, 65305); (65313, 65338);
   (65345, 65370); (65382, 65470); (65474, 65479); (65482, 65487); (65490, 65495);
   (65498, 65500); (65536, 65547); (65549, 65574); (65576, 65594); (65596, 65597);
   (65599, 65613); (65616, 65629); (65664, 65786); (65799, 65843); (65856, 65912);
   (65930, 65931); (66176, 66204); (66208, 66256); (66273, 66299); (66304, 66339);
   (66349, 66378); (66384, 66421); (66432, 66461); (66464, 66499); (66504, 66511);
   (66513, 66517); (66560, 66717); (66720, 66729); (66736, 66771); (66776, 66811);
   (66816, 66855); (66864, 66915); (66928, 66938); (66940, 66954); (66956, 66962);
   (66964, 66965); (66967, 66977); (66979, 66993); (66995, 67001); (67003, 67004);
   (67072, 67382); (67392, 67413); (67424, 67431); (67456, 67461); (67463, 67504);
   (67506, 67514); (67584, 67589); (67592, 67592); (67594, 67637); (67639, 67640);
   (67644, 67644); (67647, 67669); (67672, 67702); (67705, 67742); (67751, 67759);
   (67808, 67826); (67828, 67829); (67835, 67867); (67872, 67897); (67968, 68023);
   (68028, 68047); (68050, 68096); (68112, 68115); (68117, 68119); (68121, 68149);
   (68160, 68168); (68192, 68222); (68224, 68255); (68288, 68295); (68297, 68324);
   (68331, 68335); (68352, 68405); (68416, 68437); (68440, 68466); (68472, 68497);
   (68521, 68527); (68608, 68680); (68736, 68786); (68800, 68850); (68858, 68899);
   (68912, 68921); (69216, 69246); (69248, 69289); (69296, 69297); (69376, 69415);
   (69424, 69445); (69457, 69460); (69488, 69505); (69552, 69579); (69600, 69622);
   (69635, 69687); (69714, 69743); (69745, 69746); (69749, 69749); (69763, 69807);
   (69840, 69864); (69872, 69881); (69891, 69926); (69942, 69951); (69956, 69956);
   (69959, 69959); (69968, 70002); (70006, 70006); (70019, 70066); (70081, 70084);
   (70096, 70106); (70108, 70108); (70113, 70132); (70144, 70161); (70163, 70187);
   (70272, 70278); (70280, 70280); (70282, 70285); (70287, 70301); (70303, 70312);
   (70320, 70366); (70384, 70393); (70405, 70412); (70415, 70416); (70419, 70440);
   (70442, 70448); (70450, 70451); (70453, 70457); (70461, 70461); (70480, 70480);
   (70493, 70497); (70656, 70708); (70727, 70730); (70736, 70745); (70751, 70753);
   (70784, 70831); (70852, 70853); (70855, 70855); (70864, 70873); (71040, 71086);
   (71128, 71131); (71168, 71215); (71236, 71236); (71248, 71257); (71296, 71338);
   (71352, 71352); (71360, 71369); (71424, 71450); (71472, 71483); (71488, 71494);
   (71680, 71723); (71840, 71922); (71935, 71942); (71945, 71945); (71948, 71955);
   (71957, 71958); (71960, 71983); (71999, 71999); (72001, 72001); (72016, 72025);
   (72096, 72103); (72106, 72144); (72161, 72161); (72163, 72163); (72192, 72192);
   (72203, 72242); (72250, 72250); (72272, 72272); (72284, 72329); (72349, 72349);
   (72368, 72440); (72704, 72712); (72714, 72750); (72768, 72768); (72784, 72812);
   (72818, 72847); (72960, 72966); (72968, 72969); (72971, 73008); (73030, 73030);
   (73040, 73049); (73056, 73061); (73063, 73064); (73066, 73097); (73112, 73112);
   (73120, 73129); (73440, 73458); (73648, 73648); (73664, 73684); (73728, 74649);
   (74752, 74862); (74880, 75075); (77712, 77808); (77824, 78894); (82944, 83526);
   (92160, 92728); (92736, 92766); (92768, 92777); (92784, 92862); (92864, 92873);
   (92880, 92909); (92928, 92975); (92992, 92995); (93008, 93017); (93019, 93025);
   (93027, 93047); (93053, 93071); (93760, 93846); (93952, 94026); (94032, 94032);
   (94099, 94111); (94176, 94177); (94179, 94179); (94208, 100343); (100352, 101589);
   (101632, 101640); (110576, 110579); (110581, 110587); (110589, 110590); (110592, 110882);
   (110928, 110930); (110948, 110951); (110960, 111355); (113664, 113770); (113776, 113788);
   (113792, 113800); (113808, 113817); (119520, 119539); (119648, 119672); (119808, 119892);
   (119894, 119964); (119966, 119967); (119970, 119970); (119973, 119974); (119977, 119980);
   (119982, 119993); (119995, 119995); (119997, 120003); (120005, 120069); (120071, 120074);
   (120077, 120084); (120086, 120092); (120094, 120121); (120123, 120126); (120128, 120132);
   (120134, 120134); (120138, 120144); (120146, 120485); (120488, 120512); (120514, 120538);
   (120540, 120570); (120572, 120596); (120598, 120628); (120630, 120654); (120656, 120686);
   (120688, 120712); (120714, 120744); (120746, 120770); (120772, 120779); (120782, 120831);
   (122624, 122654); (123136, 123180); (123191, 123197); (123200, 123209); (123214, 123214);
   (123536, 123565); (123584, 123627); (123632, 123641); (124896, 124902); (124904, 124907);
   (124909, 124910); (124912, 124926); (124928, 125124); (125127, 125135); (125184, 125251);
   (125259, 125259); (125264, 125273); (126065, 126123); (126125, 126127); (126129, 126132);
   (126209, 126253); (126255, 126269); (126464, 126467); (126469, 126495); (126497, 126498);
   (126500, 126500); (126503, 126503); (126505, 126514); (126516, 126519); (126521, 126521);
   (126523, 126523); (126530, 126530); (126535, 126535); (126537, 126537); (126539, 126539);
   (126541, 126543); (126545, 126546); (126548, 126548); (126551, 126551); (126553, 126553);
   (126555, 126555); (126557, 126557); (126559, 126559); (126561, 126562); (126564, 126564);
   (126567, 126570); (126572, 126578); (126580, 126583); (126585, 126588); (126590, 126590);
   (126592, 126601); (126603, 126619); (126625, 126627); (126629, 126633); (126635, 126651);
   (127232, 127244); (130032, 130041); (131072, 173791); (173824, 177976); (177984, 178205);
   (178208, 183969); (183984, 191456); (194560, 195101); (196608, 201546)]%N.

(** [\w]: alphanumeric or underscore. *)
Definition isword (c : N) : bool := in_ranges word_ranges c.

(** *** The [str] methods the parser uses *)

Fixpoint lstrip (s : str) : str :=
  match s with
  | c :: s' => if isspace c then lstrip s' else s
  | [] => []
  end.

Definition rstrip (s : str) : str := rev (lstrip (rev s)).

Definition strip (s : str) : str := rstrip (lstrip s).

Fixpoint startswith (s p : str) : bool :=
  match p, s with
  | [], _ => true
  | x :: p', y :: s' => (x =? y)%N && startswith s' p'
  | _ :: _, [] => false
  end.

(** [p in s] *)
Fixpoint contains (s p : str) : bool :=
  startswith s p || match s with [] => false | _ :: s' => contains s' p end.

(** [s.split(sep)] for a one-character separator. *)
Fixpoint split_on (sep : N) (s : str) : list str :=
  match s with
  | [] => [[]]
  | c :: s' =>
      if (c =? sep)%N then [] :: split_on sep s'
      else match split_on sep s' with
           | l :: ls => (c :: l) :: ls
           | [] => [[c]]
           end
  end.

(** [s.replace(old, new)] for a non-empty [old]: every non-overlapping
    occurrence, leftmost first.  [skip] counts the characters of the
    occurrence being dropped.  (An empty [old] never reaches this function:
    every call is guarded by the truth value of [old].) *)
Fixpoint replace_go (old new : str) (skip : nat) (s : str) : str :=
  match s with
  | [] => []
  | c :: s' =>
      match skip with
      | S k => replace_go old new k s'
      | O =>
          if startswith s old
          then match old with
               | [] => c :: replace_go old new 0 s'
               | _ :: o => new ++ replace_go old new (length o) s'
               end
          else c :: replace_go old new 0 s'
      end
  end.

Definition replace (s old new : str) : str := replace_go old new 0 s.

(* ================================================================= *)
(** ** Regular expressions ([re])

    A backtracking matcher with the priorities of Python's [re]: leftmost
    start, alternatives in order, greedy repetitions longest first and lazy
    ones shortest first.  The abstract syntax mirrors the pattern text:
    every pattern below is named after the source variable that holds it
    and lists its parts in the order of the source literal. *)

Module Re.

Inductive item :=
| IChar (c : N)       (* a literal member of a class *)
| ISpace              (* \s *)
| IDigit.             (* \d *)

Inductive re :=
| Lit (c : N)                       (* a literal character *)
| Dot                               (* . under DOTALL *)
| Cls (neg : bool) (l : list item)  (* [...] and [^...] *)
| Emp                               (* the empty pattern *)
| Seq (r1 r2 : re)
| Alt (r1 r2 : re)
| Rep (greedy : bool) (lo : nat) (hi : option nat) (r : re)
| Grp (i : nat) (r : re)            (* the i-th capturing group *)
| Bol                               (* ^ without MULTILINE *)
| Eol                               (* $ without MULTILINE *)
| WordB.                            (* \b *)

(** The position of the matcher: the character before it and the text
    after it. *)
Definition pos := (option N * str)%type.

Definition caps := list (nat * str).

(** The lower-case characters that share their upper case with another
    lower-case character ([re._casefix._EXTRA_CASES]). *)
Definition extra_table : list (N * list N) :=
  [(105, [305]); (115, [383]); (181, [956]);
   (305, [105]); (383, [115]); (837, [953; 8126]);
   (912, [8147]); (944, [8163]); (946, [976]);
   (949, [1013]); (952, [977]); (953, [837; 8126]);
   (954, [1008]); (956, [181]); (960, [982]);
   (961, [1009]); (962, [963]); (963, [962]);
   (966, [981]); (976, [946]); (977, [952]);
   (981, [966]); (982, [960]); (1008, [954]);
   (1009, [961]); (1013, [949]); (1074, [7296]);
   (1076, [7297]); (1086, [7298]); (1089, [7299]);
   (1090, [7300; 7301]); (1098, [7302]); (1123, [7303]);
   (7296, [1074]); (7297, [1076]); (7298, [1086]);
   (7299, [1089]); (7300, [1090; 7301]); (7301, [1090; 7300]);
   (7302, [1098]); (7303, [1123]); (7304, [42571]);
   (7777, [7835]); (7835, [7777]); (8126, [837; 953]);
   (8147, [912]); (8163, [944]); (42571, [7304]);
   (64261, [64262]); (64262, [64261])]%N.

Definition extra_cases (lo : N) : list N :=
  match find (fun e => (fst e =? lo)%N) extra_table with
  | Some e => snd e
  | None => []
  end.

(** A literal of the pattern against a character of the text.  Under
    IGNORECASE a cased literal is compiled to its lower case, together with
    its extra cases, and the lower case of the character is looked up among
    them; a literal without case is compared as it is.  (A class is
    compared item by item: no class of this code base holds a cased
    letter.) *)
Definition char_eq (ic : bool) (c d : N) : bool :=
  if ic
  then if iscased c
       then let lo := lower_char c in
            existsb (N.eqb (lower_char d)) (lo :: extra_cases lo)
       else (c =? d)%N
  else (c =? d)%N.

Definition item_has (ic : bool) (d : N) (i : item) : bool :=
  match i with
  | IChar c => char_eq ic c d
  | ISpace => isspace d
  | IDigit => isdecimal d
  end.

Definition below (hi : option nat) (n : nat) : bool :=
  match hi with
  | None => true
  | Some h => (n <? h)%nat
  end.

Definition shorter (p' p : pos) : bool :=
  (length (snd p') <? length (snd p))%nat.

Definition consumed (p p' : pos) : str :=
  firstn (length (snd p) - length (snd p')) (snd p).

Definition at_word_boundary (p : pos) : bool :=
  let before := match fst p with Some c => isword c | None => false end in
  let after := match snd p with c :: _ => isword c | [] => false end in
  xorb before after.

Definition at_end (p : pos) : bool :=
  match snd p with
  | [] => true
  | [c] => (c =? 10)%N
  | _ => false
  end.

Section Matcher.
Variable ic : bool.          (* re.IGNORECASE *)
Variable R : Type.

Definition K := pos -> caps -> option R.

(** The loop of a repetition whose body is matched by [body]: [n]
    iterations are done, and [fuel] bounds the ones still possible.  One
    iteration has to consume a character (no pattern of this code base
    repeats a body that can match the empty string). *)
Fixpoint rep_loop (body : pos -> caps -> K -> option R) (greedy : bool)
    (lo : nat) (hi : option nat) (k : K) (fuel n : nat) (p : pos)
    (cs : caps) : option R :=
  let stop (_ : unit) := if (lo <=? n)%nat then k p cs else None in
  match fuel with
  | O => stop tt
  | S fuel' =>
      let more (_ : unit) :=
        if below hi n
        then body p cs (fun p' cs' =>
               if shorter p' p
               then rep_loop body greedy lo hi k fuel' (S n) p' cs'
               else None)
        else None in
      if greedy
      then match more tt with Some x => Some x | None => stop tt end
      else match stop tt with Some x => Some x | None => more tt end
  end.

Fixpoint m (r : re) : pos -> caps -> K -> option R :=
  match r with
  | Lit c => fun p cs k =>
      match snd p with
      | d :: s' => if char_eq ic c d then k (Some d, s') cs else None
      | [] => None
      end
  | Dot => fun p cs k =>
      match snd p with
      | d :: s' => k (Some d, s') cs
      | [] => None
      end
  | Cls neg l => fun p cs k =>
      match snd p with
      | d :: s' =>
          if xorb neg (existsb (item_has ic d) l) then k (Some d, s') cs
          else None
      | [] => None
      end
  | Emp => fun p cs k => k p cs
  | Seq r1 r2 => fun p cs k => m r1 p cs (fun p' cs' => m r2 p' cs' k)
  | Alt r1 r2 => fun p cs k =>
      match m r1 p cs k with
      | Some x => Some x
      | None => m r2 p cs k
      end
  | Rep greedy lo hi r1 => fun p cs k =>
      rep_loop (m r1) greedy lo hi k (length (snd p)) O p cs
  | Grp i r1 => fun p cs k =>
      m r1 p cs (fun p' cs' => k p' ((i, consumed p p') :: cs'))
  | Bol => fun p cs k =>
      match fst p with None => k p cs | Some _ => None end
  | Eol => fun p cs k => if at_end p then k p cs else None
  | WordB => fun p cs k => if at_word_boundary p then k p cs else None
  end.
End Matcher.

(** A match object: where it starts, [group(0)], the groups and the text
    that follows the match. *)
Record Match := {
  m_start : nat;
  m_whole : str;
  m_groups : caps;
  m_after : str
}.

Definition match_at (ic : bool) (r : re) (start : nat) (p : pos)
  : option Match :=
  m ic r p [] (fun p' cs =>
    Some {| m_start := start; m_whole := consumed p p';
            m_groups := cs; m_after := snd p' |}).

(** [re.match]: at the start of the string only. *)
Definition re_match (ic : bool) (r : re) (s : str) : option Match :=
  match_at ic r 0 (None, s).

(** [re.search]: the leftmost start that matches. *)
Fixpoint search_from (ic : bool) (r : re) (start : nat) (prev : option N)
    (s : str) : option Match :=
  match match_at ic r start (prev, s) with
  | Some x => Some x
  | None =>
      match s with
      | [] => None
      | c :: s' => search_from ic r (S start) (Some c) s'
      end
  end.

Definition search (ic : bool) (r : re) (s : str) : option Match :=
  search_from ic r 0 None s.

(** [match.group(i)]: [None] when the group took no part in the match. *)
Fixpoint lookup (i : nat) (cs : caps) : option str :=
  match cs with
  | [] => None
  | (j, v) :: cs' => if (i =? j)%nat then Some v else lookup i cs'
  end.

Definition group (mt : Match) (i : nat) : option str :=
  match i with
  | O => Some (m_whole mt)
  | _ => lookup i (m_groups mt)
  end.

(** [re.sub(r, repl, s)] for a literal replacement: every non-overlapping
    match is replaced, leftmost first.  [skip] counts the characters of the
    match being dropped; a match that consumes nothing is passed over (no
    pattern given to [re.sub] here can match the empty string). *)
Fixpoint sub_go (ic : bool) (r : re) (repl : str) (skip : nat)
    (prev : option N) (s : str) : str :=
  match s with
  | [] => []
  | c :: s' =>
      match skip with
      | S k => sub_go ic r repl k (Some c) s'
      | O =>
          match match_at ic r 0 (prev, s) with
          | Some mt =>
              match length (m_whole mt) with
              | O => c :: sub_go ic r repl 0 (Some c) s'
              | S k => repl ++ sub_go ic r repl k (Some c) s'
              end
          | None => c :: sub_go ic r repl 0 (Some c) s'
          end
      end
  end.

Definition sub (ic : bool) (r : re) (repl : str) (s : str) : str :=
  sub_go ic r repl 0 None s.

(** Pattern combinators, named after the regex operators. *)
Definition star (r : re) := Rep true 0 None r.           (* r* *)
Definition star_lazy (r : re) := Rep false 0 None r.     (* r*? *)
Definition plus (r : re) := Rep true 1 None r.           (* r+ *)
Definition opt (r : re) := Rep true 0 (Some 1) r.        (* r? *)
Definition rep (lo hi : nat) (r : re) := Rep true lo (Some hi) r.  (* r{lo,hi} *)
Definition atleast (lo : nat) (r : re) := Rep true lo None r.      (* r{lo,} *)

Fixpoint seq (l : list re) : re :=
  match l with
  | [] => Emp
  | [r] => r
  | r :: l' => Seq r (seq l')
  end.

Fixpoint alt (l : list re) : re :=
  match l with
  | [] => Cls false []
  | [r] => r
  | r :: l' => Alt r (alt l')
  end.

(** A literal word, character by character. *)
Definition word (s : string) : re := seq (map Lit (u s)).

Definition s_ := Cls false [ISpace].        (* \s *)
Definition d_ := Cls false [IDigit].        (* \d *)
Definition not_nl := Cls true [IChar 10].   (* [^\n] *)

End Re.

(* ================================================================= *)
(** ** Exceptions *)

Inductive exn :=
| ValueError (msg : str)
| JSONDecodeError (msg : str)        (* a subclass of ValueError *)
| RecursionError
| TypeError (msg : str)
| ValidationError (loc : str)        (* pydantic; [loc] is the first offending field *)
| FileNotFoundError (msg : str)
| OSError (msg : str)                (* [open] or [read] failed on an existing path *)
| CollaboratorError (msg : str).     (* raised inside the OCR engine or a remote client *)

(** [str(e)].  The text pydantic renders for a [ValidationError] is
    summarised by the offending location. *)
Definition exn_str (e : exn) : str :=
  match e with
  | ValueError msg => msg
  | JSONDecodeError msg => msg
  | RecursionError => u "maximum recursion depth exceeded"
  | TypeError msg => msg
  | ValidationError loc => u "1 validation error: " ++ loc
  | FileNotFoundError msg => msg
  | OSError msg => msg
  | CollaboratorError msg => msg
  end.

(** A computation that returns or raises. *)
Definition res (A : Type) := (exn + A)%type.

Definition raise {A} (e : exn) : res A := inl e.
Definition ok {A} (a : A) : res A := inr a.

Definition rbind {A B} (x : res A) (f : A -> res B) : res B :=
  match x with
  | inl e => inl e
  | inr a => f a
  end.

Declare Scope res_scope.
Delimit Scope res_scope with res.
Notation "x <- c ;; k" := (rbind c (fun x => k))
  (at level 61, c at next level, right associativity) : res_scope.
Notation "' pat <- c ;; k" := (rbind c (fun x => match x with pat => k end))
  (at level 61, pat pattern, c at next level, right associativity) : res_scope.

(* ================================================================= *)
(** ** [json.loads] *)

(** The Python values [json.loads] builds.  An object becomes a [dict],
    kept as an association list in insertion order. *)
#[warnings="-register-all"]
Inductive json :=
| JNull
| JBool (b : bool)
| JInt (z : Z)
| JFloat (q : Q)
| JNonFinite                     (* NaN, Infinity, -Infinity *)
| JStr (s : str)
| JList (l : list json)
| JDict (d : list (str * json)).

Module Dict.
Section Dict.
Variable V : Type.

Fixpoint get (k : str) (d : list (str * V)) : option V :=
  match d with
  | [] => None
  | (k', v) :: d' => if str_eqb k k' then Some v else get k d'
  end.

(** [d[k] = v]: an existing key keeps its place. *)
Fixpoint set (k : str) (v : V) (d : list (str * V)) : list (str * V) :=
  match d with
  | [] => [(k, v)]
  | (k', v') :: d' =>
      if str_eqb k k' then (k, v) :: d' else (k', v') :: set k v d'
  end.

Definition has (k : str) (d : list (str * V)) : bool :=
  match get k d with Some _ => true | None => false end.
End Dict.
End Dict.

Module Json.

Local Open Scope res_scope.
Local Open Scope N_scope.

Definition err {A} (msg : string) : res A := raise (JSONDecodeError (u msg)).

Definition is_ws (c : N) : bool :=
  (c =? 32) || (c =? 9) || (c =? 10) || (c =? 13).

Fixpoint skip_ws (s : str) : str :=
  match s with
  | c :: s' => if is_ws c then skip_ws s' else s
  | [] => []
  end.

Definition hex_val (c : N) : option N :=
  if in_range 48 57 c then Some (c - 48)
  else if in_range 97 102 c then Some (c - 87)
  else if in_range 65 70 c then Some (c - 55)
  else None.

Definition hex4 (a b c d : N) : option N :=
  match hex_val a, hex_val b, hex_val c, hex_val d with
  | Some x, Some y, Some z, Some w => Some (((x * 16 + y) * 16 + z) * 16 + w)
  | _, _, _, _ => None
  end.

(** The body of a string literal, after the opening quote. *)
Fixpoint scan_string (acc : str) (s : str) : res (str * str) :=
  match s with
  | [] => err "Unterminated string starting at"
  | c :: rest =>
      if c =? 34 (* the closing quote *) then ok (rev acc, rest)
      else if c =? 92 (* a backslash *) then
        match rest with
        | [] => err "Unterminated string starting at"
        | e :: rest =>
            if e =? 117 (* u *) then
              match rest with
              | a :: b :: c :: d :: rest' =>
                  match hex4 a b c d with
                  | None => err "Invalid \uXXXX escape"
                  | Some hi =>
                      match rest' with
                      | b1 :: u1 :: a2 :: b2 :: c2 :: d2 :: rest'' =>
                          match hex4 a2 b2 c2 d2 with
                          | Some lo =>
                              if (b1 =? 92) && (u1 =? 117)
                                 && in_range 55296 56319 hi
                                 && in_range 56320 57343 lo
                              then scan_string
                                     ((65536 + (hi - 55296) * 1024
                                       + (lo - 56320)) :: acc)
                                     rest''
                              else scan_string (hi :: acc) rest'
                          | None => scan_string (hi :: acc) rest'
                          end
                      | _ => scan_string (hi :: acc) rest'
                      end
                  end
              | _ => err "Invalid \uXXXX escape"
              end
            else
              let simple (c : N) := scan_string (c :: acc) rest in
              if e =? 34 then simple 34
              else if e =? 92 then simple 92
              else if e =? 47 then simple 47
              else if e =? 98 then simple 8
              else if e =? 102 then simple 12
              else if e =? 110 then simple 10
              else if e =? 114 then simple 13
              else if e =? 116 then simple 9
              else err "Invalid \escape"
        end
      else if c <? 32 then err "Invalid control character at"
      else scan_string (c :: acc) rest
  end.

(** A run of ASCII digits, most significant first. *)
Fixpoint digits (s : str) : list N * str :=
  match s with
  | c :: s' =>
      if in_range 48 57 c
      then let '(ds, rest) := digits s' in ((c - 48) :: ds, rest)
      else ([], s)
  | [] => ([], [])
  end.

Definition nat_of_digits (ds : list N) : N :=
  fold_left (fun acc d => acc * 10 + d) ds 0.

(** [s] without its first character when that character is [c]. *)
Definition after (c : N) (s : str) : option str :=
  match s with
  | d :: t => if d =? c then Some t else None
  | [] => None
  end.

(** The fraction of a number: a point and at least one digit. *)
Definition scan_fraction (s : str) : list N * str :=
  match after 46 s with
  | Some t =>
      match digits t with
      | ([], _) => ([], s)
      | (ds, rest) => (ds, rest)
      end
  | None => ([], s)
  end.

(** The exponent of a number: e or E, an optional sign and at least one
    digit. *)
Definition scan_exponent (s : str) : option Z * str :=
  match (match after 101 s with Some t => Some t | None => after 69 s end) with
  | Some t =>
      let '(eneg, t') :=
        match after 45 t, after 43 t with
        | Some t', _ => (true, t')
        | None, Some t' => (false, t')
        | None, None => (false, t)
        end in
      match digits t' with
      | ([], _) => (None, s)
      | (ds, rest) =>
          (Some (if eneg then (- Z.of_N (nat_of_digits ds))%Z
                 else Z.of_N (nat_of_digits ds)), rest)
      end
  | None => (None, s)
  end.

(** A number: an optional minus sign, an integer part without leading
    zeros, an optional fraction and an optional exponent.  It is an [int]
    when there is neither fraction nor exponent, a [float] otherwise. *)
Definition scan_number (s : str) : option (json * str) :=
  let '(neg, s0) :=
    match after 45 s with Some t => (true, t) | None => (false, s) end in
  let '(ip, s1) :=
    match after 48 s0 with
    | Some t => ([0], t)
    | None => digits s0
    end in
  match ip with
  | [] => None
  | _ =>
      let '(fp, s2) := scan_fraction s1 in
      let '(ex, s3) := scan_exponent s2 in
      let sign (z : Z) := if neg then (- z)%Z else z in
      match fp, ex with
      | [], None => Some (JInt (sign (Z.of_N (nat_of_digits ip))), s3)
      | _, _ =>
          let mant := sign (Z.of_N (nat_of_digits (ip ++ fp))) in
          let e := (match ex with Some e => e | None => 0 end
                    - Z.of_nat (length fp))%Z in
          let q := if (0 <=? e)%Z then Qmake (mant * 10 ^ e) 1
                   else Qmake mant (Z.to_pos (10 ^ (- e))) in
          Some (JFloat q, s3)
      end
  end.

(** The literals, and the three spellings Python adds to JSON. *)
Definition scan_literal (s : str) : res (json * str) :=
  if startswith s (u "null") then ok (JNull, skipn 4 s)
  else if startswith s (u "true") then ok (JBool true, skipn 4 s)
  else if startswith s (u "false") then ok (JBool false, skipn 5 s)
  else
    match scan_number s with
    | Some r => ok r
    | None =>
        if startswith s (u "NaN") then ok (JNonFinite, skipn 3 s)
        else if startswith s (u "Infinity") then ok (JNonFinite, skipn 8 s)
        else if startswith s (u "-Infinity") then ok (JNonFinite, skipn 9 s)
        else err "Expecting value"
    end.

Inductive mode :=
| MValue
| MElems (acc : list json)              (* inside [ ... ], before an element *)
| MMembers (acc : list (str * json)).   (* inside { ... }, before a key *)

(** The scanner.  [fuel] bounds the depth of the calls, as the interpreter's
    recursion limit does; [loads] supplies twice the length of the text,
    which no text can use up (lemma [loads_fuel_suffices]). *)
Fixpoint scan (fuel : nat) (md : mode) (s : str) : res (json * str) :=
  match fuel with
  | O => raise RecursionError
  | S fuel' =>
      match md with
      | MValue =>
          match after 34 s, after 123 s, after 91 s with
          | Some rest, _, _ =>
              '(v, rest') <- scan_string [] rest ;; ok (JStr v, rest')
          | None, Some rest, _ =>
              match after 125 (skip_ws rest) with
              | Some rest' => ok (JDict [], rest')
              | None => scan fuel' (MMembers []) (skip_ws rest)
              end
          | None, None, Some rest =>
              match after 93 (skip_ws rest) with
              | Some rest' => ok (JList [], rest')
              | None => scan fuel' (MElems []) (skip_ws rest)
              end
          | None, None, None => scan_literal s
          end
      | MElems acc =>
          '(v, rest) <- scan fuel' MValue s ;;
          match after 93 (skip_ws rest), after 44 (skip_ws rest) with
          | Some rest', _ => ok (JList (acc ++ [v]), rest')
          | None, Some rest' =>
              scan fuel' (MElems (acc ++ [v])) (skip_ws rest')
          | None, None => err "Expecting ',' delimiter"
          end
      | MMembers acc =>
          match after 34 s with
          | Some rest =>
              '(k, rest1) <- scan_string [] rest ;;
              match after 58 (skip_ws rest1) with
              | Some rest2 =>
                  '(v, rest3) <- scan fuel' MValue (skip_ws rest2) ;;
                  let acc' := Dict.set k v acc in
                  match after 125 (skip_ws rest3), after 44 (skip_ws rest3) with
                  | Some rest', _ => ok (JDict acc', rest')
                  | None, Some rest' =>
                      scan fuel' (MMembers acc') (skip_ws rest')
                  | None, None => err "Expecting ',' delimiter"
                  end
              | None => err "Expecting ':' delimiter"
              end
          | None => err "Expecting property name enclosed in double quotes"
          end
      end
  end.

(** [json.loads(s)] *)
Definition loads (s : str) : res json :=
  '(v, rest) <- scan (2 * length s + 2) MValue (skip_ws s) ;;
  match skip_ws rest with
  | [] => ok v
  | _ => err "Extra data"
  end.

End Json.

(** A JSON text is written with an apostrophe wherever the text has a
    double quote: [uq "{'a': 1}"] is the text [{"a": 1}]. *)
Definition uq (s : string) : str :=
  map (fun c => if (c =? 39)%N then 34%N else c) (u s).

(* ================================================================= *)
(** ** [schema.py]: the record schema and its validation

    Constructing a pydantic model validates every field that is given and
    fills the others with their defaults; unknown keys are ignored.  The
    conversions are those of pydantic's lax mode: a [str] field takes only a
    string; a [bool] field also takes 0, 1 and the usual words; a [float]
    field also takes an integer, a boolean or a string holding a number
    (modelled with the number syntax of JSON); an [int] field also takes a
    boolean, a float without fraction or a string holding an integer. *)

Module Schema.

Local Open Scope res_scope.

Inductive pyfloat := Finite (q : Q) | NonFinite.

Definition conv (A : Type) := json -> res A.

Definition bad {A} : res A := raise (ValidationError []).

Definition as_str : conv str := fun v =>
  match v with JStr s => ok s | _ => bad end.

Definition true_words : list str :=
  map u ["1"; "on"; "t"; "true"; "y"; "yes"]%string.
Definition false_words : list str :=
  map u ["0"; "off"; "f"; "false"; "n"; "no"]%string.

Definition as_bool : conv bool := fun v =>
  match v with
  | JBool b => ok b
  | JInt 0 => ok false
  | JInt 1 => ok true
  | JFloat q =>
      if Qeq_bool q 0 then ok false
      else if Qeq_bool q 1 then ok true else bad
  | JStr s =>
      if existsb (str_eqb (lower s)) true_words then ok true
      else if existsb (str_eqb (lower s)) false_words then ok false
      else bad
  | _ => bad
  end.

Definition as_float : conv pyfloat := fun v =>
  match v with
  | JInt z => ok (Finite (inject_Z z))
  | JFloat q => ok (Finite q)
  | JNonFinite => ok NonFinite
  | JBool b => ok (Finite (if b then 1%Q else 0%Q))
  | JStr s =>
      match Json.scan_number s with
      | Some (JInt z, []) => ok (Finite (inject_Z z))
      | Some (JFloat q, []) => ok (Finite q)
      | _ => bad
      end
  | _ => bad
  end.

Definition as_int : conv Z := fun v =>
  match v with
  | JInt z => ok z
  | JBool b => ok (if b then 1%Z else 0%Z)
  | JFloat q =>
      if (Z.pos (Qden q) * (Qnum q / Z.pos (Qden q)) =? Qnum q)%Z
      then ok (Qnum q / Z.pos (Qden q))%Z else bad
  | JStr s =>
      match Json.scan_number s with
      | Some (JInt z, []) => ok z
      | _ => bad
      end
  | _ => bad
  end.

(** [Field(ge=0.0, le=1.0)] *)
Definition in_unit (q : Q) : bool := Qle_bool 0 q && Qle_bool q 1.

Definition check_unit (f : pyfloat) : res Q :=
  match f with
  | Finite q => if in_unit q then ok q else bad
  | NonFinite => bad
  end.

Definition as_unit_float : conv Q := fun v =>
  f <- as_float v ;; check_unit f.

(** [Optional[T]] *)
Definition optional {A} (c : conv A) : conv (option A) := fun v =>
  match v with
  | JNull => ok None
  | _ => a <- c v ;; ok (Some a)
  end.

(** The location of an error inside a field or a list item. *)
Definition under (key loc : str) : str :=
  match loc with
  | [] => key
  | _ => key ++ u "." ++ loc
  end.

Definition at_loc {A} (key : str) (r : res A) : res A :=
  match r with
  | inl (ValidationError loc) => inl (ValidationError (under key loc))
  | _ => r
  end.

Definition digit_str (n : nat) : str := [(48 + N.of_nat n)%N].

Fixpoint nat_str_go (fuel n : nat) (acc : str) : str :=
  match fuel with
  | O => acc
  | S fuel' =>
      let acc' := digit_str (n mod 10) ++ acc in
      if (n <? 10)%nat then acc' else nat_str_go fuel' (n / 10) acc'
  end.

Definition nat_str (n : nat) : str := nat_str_go (S n) n [].

(** [List[T]] *)
Fixpoint items {A} (c : conv A) (i : nat) (l : list json) : res (list A) :=
  match l with
  | [] => ok []
  | v :: l' =>
      a <- at_loc (nat_str i) (c v) ;;
      rest <- items c (S i) l' ;;
      ok (a :: rest)
  end.

Definition list_of {A} (c : conv A) : conv (list A) := fun v =>
  match v with
  | JList l => items c 0 l
  | _ => bad
  end.

(** A field with a default, and a required field. *)
Definition field {A} (d : list (str * json)) (key : string) (dflt : A)
    (c : conv A) : res A :=
  match Dict.get (u key) d with
  | None => ok dflt
  | Some v => at_loc (u key) (c v)
  end.

Definition required {A} (d : list (str * json)) (key : string) (c : conv A)
  : res A :=
  match Dict.get (u key) d with
  | None => raise (ValidationError (u key))
  | Some v => at_loc (u key) (c v)
  end.

Inductive PrescriptionType := HANDWRITTEN | PRINTED | MIXED | DIGITAL.

Definition PrescriptionType_value (t : PrescriptionType) : str :=
  match t with
  | HANDWRITTEN => u "handwritten"
  | PRINTED => u "printed"
  | MIXED => u "mixed"
  | DIGITAL => u "digital"
  end.

Definition as_PrescriptionType : conv PrescriptionType := fun v =>
  match v with
  | JStr s =>
      match filter (fun t => str_eqb s (PrescriptionType_value t))
                   [HANDWRITTEN; PRINTED; MIXED; DIGITAL] with
      | t :: _ => ok t
      | [] => bad
      end
  | _ => bad
  end.

Module SignatureInfo.
Record t := mk {
  is_present : bool;
  signer_name : option str;
  signer_title : option str;
  location : option str;
  is_legible : option bool;
  confidence : option Q
}.

Definition default : t := mk false None None None None None.

Definition validate : conv t := fun v =>
  match v with
  | JDict d =>
      a <- field d "is_present" false as_bool ;;
      b <- field d "signer_name" None (optional as_str) ;;
      c <- field d "signer_title" None (optional as_str) ;;
      e <- field d "location" None (optional as_str) ;;
      f <- field d "is_legible" None (optional as_bool) ;;
      g <- field d "confidence" None (optional as_unit_float) ;;
      ok (mk a b c e f g)
  | _ => bad
  end.
End SignatureInfo.

Module MedicationItem.
Record t := mk {
  name : str;
  dosage : option str;
  quantity : option str;
  frequency : option str;
  duration : option str;
  instructions : option str;
  is_handwritten : option bool
}.

Definition validate : conv t := fun v =>
  match v with
  | JDict d =>
      a <- required d "name" as_str ;;
      b <- field d "dosage" None (optional as_str) ;;
      c <- field d "quantity" None (optional as_str) ;;
      e <- field d "frequency" None (optional as_str) ;;
      f <- field d "duration" None (optional as_str) ;;
      g <- field d "instructions" None (optional as_str) ;;
      h <- field d "is_handwritten" None (optional as_bool) ;;
      ok (mk a b c e f g h)
  | _ => bad
  end.
End MedicationItem.

Module PatientInfo.
Record t := mk {
  name : option str;
  age : option str;
  gender : option str;
  address : option str;
  phone : option str;
  patient_id : option str
}.

Definition default : t := mk None None None None None None.

Definition validate : conv t := fun v =>
  match v with
  | JDict d =>
      a <- field d "name" None (optional as_str) ;;
      b <- field d "age" None (optional as_str) ;;
      c <- field d "gender" None (optional as_str) ;;
      e <- field d "address" None (optional as_str) ;;
      f <- field d "phone" None (optional as_str) ;;
      g <- field d "patient_id" None (optional as_str) ;;
      ok (mk a b c e f g)
  | _ => bad
  end.
End PatientInfo.

Module DoctorInfo.
Record t := mk {
  name : option str;
  title : option str;
  specialty : option str;
  license_number : option str;
  phone : option str;
  signature : option SignatureInfo.t
}.

Definition default : t := mk None None None None None None.

Definition validate : conv t := fun v =>
  match v with
  | JDict d =>
      a <- field d "name" None (optional as_str) ;;
      b <- field d "title" None (optional as_str) ;;
      c <- field d "specialty" None (optional as_str) ;;
      e <- field d "license_number" None (optional as_str) ;;
      f <- field d "phone" None (optional as_str) ;;
      g <- field d "signature" None (optional SignatureInfo.validate) ;;
      ok (mk a b c e f g)
  | _ => bad
  end.
End DoctorInfo.

Module HospitalInfo.
Record t := mk {
  name : option str;
  department : option str;
  address : option str;
  phone : option str;
  pharmacy_counter : option str
}.

Definition default : t := mk None None None None None.

Definition validate : conv t := fun v =>
  match v with
  | JDict d =>
      a <- field d "name" None (optional as_str) ;;
      b <- field d "department" None (optional as_str) ;;
      c <- field d "address" None (optional as_str) ;;
      e <- field d "phone" None (optional as_str) ;;
      f <- field d "pharmacy_counter" None (optional as_str) ;;
      ok (mk a b c e f)
  | _ => bad
  end.
End HospitalInfo.

Module HandwritingAnalysis.
Record t := mk {
  has_handwritten_content : bool;
  handwritten_sections : list str;
  ocr_confidence : option Q;
  llm_interpretation : option str;
  unclear_text : list str
}.

Definition validate : conv t := fun v =>
  match v with
  | JDict d =>
      a <- field d "has_handwritten_content" false as_bool ;;
      b <- field d "handwritten_sections" [] (list_of as_str) ;;
      c <- field d "ocr_confidence" None (optional as_unit_float) ;;
      e <- field d "llm_interpretation" None (optional as_str) ;;
      f <- field d "unclear_text" [] (list_of as_str) ;;
      ok (mk a b c e f)
  | _ => bad
  end.
End HandwritingAnalysis.

Module ExtractedPrescription.
Record t := mk {
  document_type : str;
  prescription_type : option PrescriptionType;
  prescription_number : option str;
  barcode : option str;
  issue_date : option str;
  patient : PatientInfo.t;
  doctor : DoctorInfo.t;
  hospital : HospitalInfo.t;
  diagnosis : option str;
  medications : list MedicationItem.t;
  doctor_signature : option SignatureInfo.t;
  handwriting_analysis : option HandwritingAnalysis.t;
  notes : option str;
  total_items : option Z;
  extraction_method : option str;
  confidence_score : option Q;
  ocr_confidence : option Q;
  llm_enhanced : bool;
  ocr_text : option str
}.

(** The constructor called on the keyword arguments of a [dict]. *)
Definition validate : conv t := fun v =>
  match v with
  | JDict d =>
      f1 <- field d "document_type" (u "prescription") as_str ;;
      f2 <- field d "prescription_type" None (optional as_PrescriptionType) ;;
      f3 <- field d "prescription_number" None (optional as_str) ;;
      f4 <- field d "barcode" None (optional as_str) ;;
      f5 <- field d "issue_date" None (optional as_str) ;;
      f6 <- field d "patient" PatientInfo.default PatientInfo.validate ;;
      f7 <- field d "doctor" DoctorInfo.default DoctorInfo.validate ;;
      f8 <- field d "hospital" HospitalInfo.default HospitalInfo.validate ;;
      f9 <- field d "diagnosis" None (optional as_str) ;;
      f10 <- field d "medications" [] (list_of MedicationItem.validate) ;;
      f11 <- field d "doctor_signature" None
               (optional SignatureInfo.validate) ;;
      f12 <- field d "handwriting_analysis" None
               (optional HandwritingAnalysis.validate) ;;
      f13 <- field d "notes" None (optional as_str) ;;
      f14 <- field d "total_items" None (optional as_int) ;;
      f15 <- field d "extraction_method" None (optional as_str) ;;
      f16 <- field d "confidence_score" None (optional as_unit_float) ;;
      f17 <- field d "ocr_confidence" None (optional as_unit_float) ;;
      f18 <- field d "llm_enhanced" false as_bool ;;
      f19 <- field d "ocr_text" None (optional as_str) ;;
      ok (mk f1 f2 f3 f4 f5 f6 f7 f8 f9 f10 f11 f12 f13 f14 f15 f16 f17
             f18 f19)
  | _ => bad
  end.

(** The record with every default and the given [document_type]:
    [ExtractedPrescription(document_type=dt)]. *)
Definition of_type (dt : str) : t :=
  mk dt None None None None PatientInfo.default DoctorInfo.default
     HospitalInfo.default None [] None None None None None None None false
     None.

(** Attribute assignment (pydantic does not validate it). *)
Definition set_prescription_type (x : option PrescriptionType) (p : t) : t :=
  mk (document_type p) x (prescription_number p) (barcode p) (issue_date p)
     (patient p) (doctor p) (hospital p) (diagnosis p) (medications p)
     (doctor_signature p) (handwriting_analysis p) (notes p) (total_items p)
     (extraction_method p) (confidence_score p) (ocr_confidence p)
     (llm_enhanced p) (ocr_text p).

Definition set_doctor_signature (x : option SignatureInfo.t) (p : t) : t :=
  mk (document_type p) (prescription_type p) (prescription_number p)
     (barcode p) (issue_date p) (patient p) (doctor p) (hospital p)
     (diagnosis p) (medications p) x (handwriting_analysis p) (notes p)
     (total_items p) (extraction_method p) (confidence_score p)
     (ocr_confidence p) (llm_enhanced p) (ocr_text p).

Definition set_extraction_method (x : option str) (p : t) : t :=
  mk (document_type p) (prescription_type p) (prescription_number p)
     (barcode p) (issue_date p) (patient p) (doctor p) (hospital p)
     (diagnosis p) (medications p) (doctor_signature p)
     (handwriting_analysis p) (notes p) (total_items p) x
     (confidence_score p) (ocr_confidence p) (llm_enhanced p) (ocr_text p).

Definition set_ocr_confidence (x : option Q) (p : t) : t :=
  mk (document_type p) (prescription_type p) (prescription_number p)
     (barcode p) (issue_date p) (patient p) (doctor p) (hospital p)
     (diagnosis p) (medications p) (doctor_signature p)
     (handwriting_analysis p) (notes p) (total_items p)
     (extraction_method p) (confidence_score p) x (llm_enhanced p)
     (ocr_text p).

Definition set_llm_enhanced (x : bool) (p : t) : t :=
  mk (document_type p) (prescription_type p) (prescription_number p)
     (barcode p) (issue_date p) (patient p) (doctor p) (hospital p)
     (diagnosis p) (medications p) (doctor_signature p)
     (handwriting_analysis p) (notes p) (total_items p)
     (extraction_method p) (confidence_score p) (ocr_confidence p) x
     (ocr_text p).

Definition set_ocr_text (x : option str) (p : t) : t :=
  mk (document_type p) (prescription_type p) (prescription_number p)
     (barcode p) (issue_date p) (patient p) (doctor p) (hospital p)
     (diagnosis p) (medications p) (doctor_signature p)
     (handwriting_analysis p) (notes p) (total_items p)
     (extraction_method p) (confidence_score p) (ocr_confidence p)
     (llm_enhanced p) x.
End ExtractedPrescription.

End Schema.

(* ================================================================= *)
(** ** [ocr_parser.py]: the regex fallback structurer *)

Module OCRTextParser.

Import Re Schema.
Local Open Scope res_scope.

(** The character class of a colon or white space, repeated. *)
Definition colon_ws := star (Cls false [IChar 58; ISpace]).   (* [:\s]* *)
Definition rest_of_line := plus not_nl.                        (* [^\n]+ *)
Definition tail_of_line := star not_nl.                        (* [^\n]* *)
Definition name_chars := plus (Cls true [IChar 10; IDigit]).   (* [^\n\d]+ *)
Definition date_sep := Cls false [IChar 47; IChar 45].         (* [/-] *)

(** A keyword group, a colon or white space, then the captured value: the
    shape of most patterns of the class. *)
Definition labelled (labels : list re) (value : re) : re :=
  seq [alt labels; colon_ws; Grp 1 value].

Definition PATIENT_NAME_PATTERNS : list re :=
  [ labelled [ seq [word "Họ"; star s_; opt (seq [word "và"; star s_]);
                    word "tên"];
               word "Họ tên"; seq [word "Tên"; star s_; word "BN"];
               seq [word "Bệnh"; star s_; word "nhân"]; word "Patient" ]
             name_chars;
    labelled [ seq [word "HỌ"; star s_; word "TÊN"]; word "HO TEN" ]
             name_chars ].

Definition PATIENT_AGE_PATTERNS : list re :=
  [ labelled [word "Tuổi"; word "Năm sinh"; word "Age"; word "NS"] (plus d_);
    seq [Grp 1 (rep 1 3 d_); star s_;
         alt [word "tuổi"; seq [word "t"; WordB]]] ].

Definition PATIENT_GENDER_PATTERNS : list re :=
  [ labelled [word "Giới"; word "Giới tính"; word "GT"; word "Sex";
              word "Gender"]
             (alt [word "Nam"; word "Nữ"; word "Male"; word "Female"]);
    seq [WordB; Grp 1 (alt [word "Nam"; word "Nữ"]); WordB] ].

Definition PATIENT_ADDRESS_PATTERNS : list re :=
  [ labelled [word "Địa chỉ"; word "Đ/c"; word "Address"] rest_of_line ].

Definition DOCTOR_NAME_PATTERNS : list re :=
  [ labelled [ word "Bác sĩ"; word "BS";
               seq [word "ThS"; opt (Lit 46); word "BS"];
               seq [word "TS"; opt (Lit 46); word "BS"];
               seq [word "PGS"; opt (Lit 46); word "TS"];
               seq [word "GS"; opt (Lit 46); word "TS"];
               seq [word "Dr"; opt (Lit 46)] ]
             rest_of_line;
    labelled [word "Người kê đơn"; word "Bác sĩ điều trị"] rest_of_line ].

Definition HOSPITAL_PATTERNS : list re :=
  [ labelled [word "Bệnh viện"; word "BV"; word "Phòng khám"; word "PK";
              word "Hospital"; word "Clinic"] rest_of_line;
    Grp 1 (seq [word "Bệnh Viện"; rest_of_line]) ].

Definition DEPARTMENT_PATTERNS : list re :=
  [ labelled [word "Khoa"; word "K."; word "Department"] rest_of_line ].

Definition DIAGNOSIS_PATTERNS : list re :=
  [ labelled [word "Chẩn đoán"; word "CĐ"; word "Diagnosis"] rest_of_line;
    labelled [word "CHẨN ĐOÁN"] rest_of_line ].

Definition date_shape : re :=
  seq [rep 1 2 d_; date_sep; rep 1 2 d_; date_sep; rep 2 4 d_].

Definition DATE_PATTERNS : list re :=
  [ labelled [word "Ngày"; word "Date"] date_shape;
    Grp 1 date_shape ].

Definition PRESCRIPTION_NUMBER_PATTERNS : list re :=
  [ labelled [word "Số"; word "Mã"; word "SĐT";
              seq [word "No"; opt (Lit 46)]; word "Number"] (atleast 6 d_);
    labelled [word "Mã đơn thuốc"] (plus d_) ].

Definition MEDICATION_KEYWORDS : list str :=
  map u [ "mg"; "ml"; "viên"; "tablet"; "capsule"; "gói"; "ống"; "chai";
          "ngày"; "lần"; "sáng"; "trưa"; "tối"; "sau ăn"; "trước ăn";
          "uống"; "tiêm"; "bôi"; "nhỏ" ]%string.

(** The patterns of [_is_medication_line] and [_parse_medication_line]. *)
Definition numbered : re :=               (* ^\d+[.\)]\s* *)
  seq [Bol; plus d_; Cls false [IChar 46; IChar 41]; star s_].
Definition bulleted : re :=               (* ^[-•*]\s* *)
  seq [Bol; Cls false [IChar 45; IChar 8226; IChar 42]; star s_].
Definition dosage_re : re :=              (* (\d+\s*(?:mg|ml|g|mcg|iu)) *)
  Grp 1 (seq [plus d_; star s_;
              alt [word "mg"; word "ml"; word "g"; word "mcg"; word "iu"]]).
(** [qty]: an "x", "SL" or "số lượng" label (the last two with an optional
    colon), white space and the digits of group 1; or the digits of group 2,
    white space and a count unit. *)
Definition qty_re : re :=
  Alt (seq [alt [word "x"; seq [word "SL"; opt (Lit 58)];
                 seq [word "số lượng"; opt (Lit 58)]];
            star s_; Grp 1 (plus d_)])
      (seq [Grp 2 (plus d_); star s_;
            alt [word "viên"; word "tablet"; word "capsule"; word "gói";
                 word "ống"]]).
(** [freq_patterns], in order: "ngày", white space, an optional "uống" with
    white space, digits, white space, "lần" or "viên", the rest of the
    line; "sáng", white space, digits, white space, "viên", the rest of the
    line; a time of day, anything, "viên", the rest of the line; "sau ăn"
    and the rest of the line; "trước ăn" and the rest of the line. *)
Definition freq_patterns : list re :=
  [ Grp 1 (seq [word "ngày"; star s_; opt (seq [word "uống"; star s_]);
                plus d_; star s_; alt [word "lần"; word "viên"];
                tail_of_line]);
    Grp 1 (seq [word "sáng"; star s_; plus d_; star s_; word "viên";
                tail_of_line]);
    Grp 1 (seq [alt [word "sáng"; word "trưa"; word "tối"]; tail_of_line;
                word "viên"; tail_of_line]);
    Grp 1 (seq [word "sau ăn"; tail_of_line]);
    Grp 1 (seq [word "trước ăn"; tail_of_line]) ].
Definition spaces : re := plus s_.                                  (* \s+ *)
Definition trailing_commas : re :=                                  (* [,\s]+$ *)
  seq [plus (Cls false [IChar 44; ISpace]); Eol].
Definition trailing_punct : re :=                                   (* [:\s,]+$ *)
  seq [plus (Cls false [IChar 58; ISpace; IChar 44]); Eol].
Definition title_re : re :=
  Grp 1 (alt [ seq [word "ThS"; opt (Lit 46); word "BS"];
               seq [word "TS"; opt (Lit 46); word "BS"];
               seq [word "PGS"; opt (Lit 46); word "TS"];
               seq [word "GS"; opt (Lit 46); word "TS"];
               word "BS"; seq [word "Dr"; opt (Lit 46)] ]).

(** The truth value of an optional string. *)
Definition truthy (s : option str) : option str :=
  match s with
  | Some [] => None
  | _ => s
  end.

Fixpoint _find_first_match (text : str) (patterns : list re) : option str :=
  match patterns with
  | [] => None
  | pattern :: rest =>
      match search true pattern text with
      | Some mt =>
          match group mt 1 with
          | Some g => Some (strip g)
          | None => None
          end
      | None => _find_first_match text rest
      end
  end.

Definition _clean_text (text : option str) : option str :=
  match truthy text with
  | None => None
  | Some t =>
      let t := strip (sub false spaces (u " ") t) in
      let t := sub false trailing_punct [] t in
      truthy (Some t)
  end.

Definition _extract_patient_info (text : str) : PatientInfo.t :=
  let name := _find_first_match text PATIENT_NAME_PATTERNS in
  let age := _find_first_match text PATIENT_AGE_PATTERNS in
  let gender := _find_first_match text PATIENT_GENDER_PATTERNS in
  let address := _find_first_match text PATIENT_ADDRESS_PATTERNS in
  PatientInfo.mk (_clean_text name) age gender (_clean_text address)
                 None None.

Definition _extract_doctor_info (text : str) : DoctorInfo.t :=
  let name := _find_first_match text DOCTOR_NAME_PATTERNS in
  let '(name, title) :=
    match truthy name with
    | Some n =>
        match re_match false title_re n with
        | Some mt =>
            let title := m_whole mt in
            (Some (strip (skipn (length title) n)), Some title)
        | None => (name, None)
        end
    | None => (name, None)
    end in
  DoctorInfo.mk (_clean_text name) title None None None None.

Definition _extract_hospital_info (text : str) : HospitalInfo.t :=
  let name := _find_first_match text HOSPITAL_PATTERNS in
  let department := _find_first_match text DEPARTMENT_PATTERNS in
  HospitalInfo.mk (_clean_text name) (_clean_text department) None None None.

Definition _is_medication_line (line : str) : bool :=
  match re_match false numbered line with
  | Some _ => true
  | None =>
      if existsb (startswith line) [u "-"; u "•"; u "*"] then true
      else
        let line_lower := lower line in
        let keyword_count :=
          length (filter (fun kw => contains line_lower kw)
                         MEDICATION_KEYWORDS) in
        (2 <=? keyword_count)%nat
  end.

Fixpoint first_frequency (patterns : list re) (line : str) : option str :=
  match patterns with
  | [] => None
  | pattern :: rest =>
      match search true pattern line with
      | Some mt =>
          match group mt 1 with
          | Some g => Some (strip g)
          | None => None
          end
      | None => first_frequency rest line
      end
  end.

(** The name that is left of [line] once the dosage and the frequency are
    taken out. *)
Definition clean_name (line : str) (dosage frequency : option str) : str :=
  let name := line in
  let name := match truthy dosage with
              | Some d => replace name d []
              | None => name
              end in
  let name := match truthy frequency with
              | Some f => replace name f []
              | None => name
              end in
  let name := strip (sub false spaces (u " ") name) in
  sub false trailing_commas [] name.

Definition _parse_medication_line (line : str) : option MedicationItem.t :=
  let line := sub false numbered [] line in
  let line := sub false bulleted [] line in
  let line := strip line in
  if (length line <? 3)%nat then None
  else
    let dosage :=
      match search true dosage_re line with
      | Some mt => group mt 1
      | None => None
      end in
    let quantity :=
      match search true qty_re line with
      | Some mt =>
          match truthy (group mt 1) with
          | Some g => Some g
          | None => group mt 2
          end
      | None => None
      end in
    let frequency := first_frequency freq_patterns line in
    let name := clean_name line dosage frequency in
    let name := if (length name <? 2)%nat then line else name in
    Some (MedicationItem.mk name dosage quantity frequency None None None).

Definition _extract_medications (text : str) : list MedicationItem.t :=
  let lines := split_on 10 text in
  let medications :=
    flat_map (fun line =>
      let line := strip line in
      match line with
      | [] => []
      | _ =>
          if _is_medication_line line
          then match _parse_medication_line line with
               | Some med => [med]
               | None => []
               end
          else []
      end) lines in
  match medications with
  | _ :: _ => medications
  | [] =>
      flat_map (fun line =>
        let line := strip line in
        if existsb (fun kw => contains (lower line) kw) MEDICATION_KEYWORDS
        then match _parse_medication_line line with
             | Some med => [med]
             | None => []
             end
        else []) lines
  end.

Definition _extract_diagnosis (text : str) : option str :=
  _clean_text (_find_first_match text DIAGNOSIS_PATTERNS).

Definition _extract_date (text : str) : option str :=
  _find_first_match text DATE_PATTERNS.

Definition _extract_prescription_number (text : str) : option str :=
  _find_first_match text PRESCRIPTION_NUMBER_PATTERNS.

(** [parse]: the constructor validates the two confidence fields, so an
    OCR confidence outside [0, 1] raises. *)
Definition parse (ocr_text : str) (ocr_confidence : Q)
  : res ExtractedPrescription.t :=
  let patient := _extract_patient_info ocr_text in
  let doctor := _extract_doctor_info ocr_text in
  let hospital := _extract_hospital_info ocr_text in
  let medications := _extract_medications ocr_text in
  let diagnosis := _extract_diagnosis ocr_text in
  let issue_date := _extract_date ocr_text in
  let prescription_number := _extract_prescription_number ocr_text in
  let prescription_type :=
    if Qltb ocr_confidence 0.5 then HANDWRITTEN
    else if Qltb ocr_confidence 0.7 then MIXED
    else PRINTED in
  confidence_score <-
    at_loc (u "confidence_score") (check_unit (Finite ocr_confidence)) ;;
  ocr_conf <-
    at_loc (u "ocr_confidence") (check_unit (Finite ocr_confidence)) ;;
  ok (ExtractedPrescription.mk
        (u "prescription") (Some prescription_type) prescription_number None
        issue_date patient doctor hospital diagnosis medications None None
        None (Some (Z.of_nat (length medications))) (Some (u "ocr_only"))
        (Some confidence_score) (Some ocr_conf) false (Some ocr_text)).

End OCRTextParser.

(* ================================================================= *)
(** ** Paths, the collaborators and the state *)

(** A [pathlib.Path] (POSIX flavour): the anchor ("/" or nothing) and the
    components after it.  An input path is modelled by this value. *)
Module Path.
Record t := mk { anchor : str; parts : list str }.

Definition name (p : t) : str := last (parts p) [].
Definition parent (p : t) : t := mk (anchor p) (removelast (parts p)).

Fixpoint join (l : list str) : str :=
  match l with
  | [] => []
  | [x] => x
  | x :: l' => x ++ u "/" ++ join l'
  end.

(** [str(p)] *)
Definition to_str (p : t) : str :=
  match anchor p, parts p with
  | [], [] => u "."
  | a, l => a ++ join l
  end.

(** [s.rfind(c)] for one character: the index of its last occurrence. *)
Fixpoint rfind (c : N) (s : str) : option nat :=
  match s with
  | [] => None
  | d :: s' =>
      match rfind c s' with
      | Some i => Some (S i)
      | None => if (d =? c)%N then Some O else None
      end
  end.

(** [p.suffix]: the name from its last dot on, when that dot is neither the
    first nor the last character of the name. *)
Definition suffix (p : t) : str :=
  let name := name p in
  match rfind 46 name with
  | Some i =>
      if (0 <? i)%nat && (i <? length name - 1)%nat then skipn i name else []
  | None => []
  end.
End Path.

(** What a remote service is asked.  The prompt text is a fixed template
    around these arguments. *)
Inductive TextPrompt :=
| ExtractionPrompt (ocr_text : str) (document_type : option str).

Inductive VisionPrompt :=
| PrescriptionPrompt (ocr_text : option str) (ocr_confidence : option Q)
| SignaturePrompt.

(** The answer of a collaborator: the text it returns or the exception it
    raises, and the time it took. *)
Record Reply (A : Type) := { outcome : res A; elapsed : Z }.

(** A remote client, indexed by the number of calls made so far. *)
Definition TextClient := nat -> TextPrompt -> Reply str.
Definition VisionClient := nat -> Path.t -> VisionPrompt -> Reply str.

(** The collaborators of one run.  [vision] and [llm_text] are the module
    globals [vision_extractor] and [llm_extractor]: [None] when the
    extractor could not be constructed. *)
Record World := {
  ocr_engine : Path.t -> Reply (str * Q);   (* extract_with_fallback: text, confidence *)
  image_exists : Path.t -> bool;
  image_open : Path.t -> option exn;        (* what opening and reading the file raises, if anything *)
  vision : option VisionClient;
  llm_text : option TextClient
}.

Record State := { clock : Z; llm_calls : nat; vision_calls : nat }.

Definition M (A : Type) := State -> res A * State.

Module MonadM.
Definition ret {A} (a : A) : M A := fun st => (inr a, st).
Definition throw {A} (e : exn) : M A := fun st => (inl e, st).
Definition bind {A B} (x : M A) (f : A -> M B) : M B := fun st =>
  match x st with
  | (inl e, st') => (inl e, st')
  | (inr a, st') => f a st'
  end.
(** [try: body except Exception as e: handler(e)] *)
Definition try_except {A} (body : M A) (handler : exn -> M A) : M A :=
  fun st =>
    match body st with
    | (inl e, st') => handler e st'
    | r => r
    end.
Definition lift {A} (r : res A) : M A := fun st => (r, st).
(** [time.time()] *)
Definition now : M Z := fun st => (inr (clock st), st).
Definition tick (d : Z) (st : State) : State :=
  {| clock := clock st + d; llm_calls := llm_calls st;
     vision_calls := vision_calls st |}.
End MonadM.

Declare Scope m_scope.
Delimit Scope m_scope with M.
Notation "x <- c ;; k" := (MonadM.bind c (fun x => k))
  (at level 61, c at next level, right associativity) : m_scope.
Notation "' pat <- c ;; k" :=
  (MonadM.bind c (fun x => match x with pat => k end))
  (at level 61, pat pattern, c at next level, right associativity) : m_scope.

Import MonadM.

Definition call_ocr (w : World) (p : Path.t) : M (str * Q) := fun st =>
  let r := ocr_engine w p in
  (outcome r, tick (elapsed r) st).

Definition call_text (c : TextClient) (q : TextPrompt) : M str := fun st =>
  let r := c (llm_calls st) q in
  (outcome r,
   {| clock := clock st + elapsed r; llm_calls := S (llm_calls st);
      vision_calls := vision_calls st |}).

Definition call_vision (c : VisionClient) (p : Path.t) (q : VisionPrompt)
  : M str := fun st =>
  let r := c (vision_calls st) p q in
  (outcome r,
   {| clock := clock st + elapsed r; llm_calls := llm_calls st;
      vision_calls := S (vision_calls st) |}).

(** The request of [read_handwritten_text]: a transcription of the image,
    with the region to look at when a hint is given.  It goes to the same
    remote service as the two requests of [VisionPrompt] and counts as a
    call to it. *)
Inductive TranscriptionPrompt :=
| HandwritingPrompt (region_hint : option str).

Definition TranscriptionClient := nat -> Path.t -> TranscriptionPrompt -> Reply str.

Definition call_transcription (c : TranscriptionClient) (p : Path.t)
    (q : TranscriptionPrompt) : M str := fun st =>
  let r := c (vision_calls st) p q in
  (outcome r,
   {| clock := clock st + elapsed r; llm_calls := llm_calls st;
      vision_calls := S (vision_calls st) |}).

(* ================================================================= *)
(** ** [extract_json_from_response]

    The method has the same text in [LLMExtractor] and in
    [VisionExtractor]. *)

Module Response.
Import Re.
Local Open Scope res_scope.

(** Three backquotes, an optional "json", white space, group 1 (a brace,
    as few characters as possible, a brace), white space, three
    backquotes; DOTALL. *)
Definition fenced : re :=
  seq [word "```"; opt (word "json"); star s_;
       Grp 1 (seq [Lit 123; star_lazy Dot; Lit 125]);
       star s_; word "```"].

(** A brace, as many characters as possible, a brace; DOTALL. *)
Definition braces : re := seq [Lit 123; star Dot; Lit 125].

Definition extract_json_from_response (text : str) : res json :=
  match search false fenced text with
  | Some json_match =>
      match group json_match 1 with
      | Some g => Json.loads g
      | None => raise (TypeError (u "the JSON object must be str"))
      end
  | None =>
      match search false braces text with
      | Some json_match => Json.loads (m_whole json_match)
      | None => raise (ValueError (u "No valid JSON found in LLM response"))
      end
  end.
End Response.

(* ================================================================= *)
(** ** [llm_extractor.py] *)

Module LLMExtractor.
Import Schema.
Local Open Scope m_scope.

Definition extract_json_from_response := Response.extract_json_from_response.

Definition unknown_document : ExtractedPrescription.t :=
  ExtractedPrescription.of_type (u "unknown").

Section WithClient.
Variable client : TextClient.

(** [extract]: one attempt.  Both handlers return the same minimal
    document. *)
Definition extract (ocr_text : str) (document_type : option str)
  : M (ExtractedPrescription.t * Z) :=
  start_time <- now ;;
  try_except
    (response_text <- call_text client
                        (ExtractionPrompt ocr_text document_type) ;;
     raw_json <- lift (extract_json_from_response response_text) ;;
     document <- lift (ExtractedPrescription.validate raw_json) ;;
     t <- now ;;
     ret (document, t - start_time)%Z)
    (fun e =>
       t <- now ;;
       ret (unknown_document, t - start_time)%Z).

(** The body of the [for attempt in range(max_retries + 1)] loop, with
    [n] attempts still to make. *)
Fixpoint retry_loop (n : nat) (ocr_text : str)
    (document_type : option str) (total_time : Z)
  : M (ExtractedPrescription.t * Z) :=
  match n with
  | O => ret (unknown_document, total_time)
  | S n' =>
      r <- try_except
             ('(document, processing_time) <-
                extract ocr_text document_type ;;
              let total_time := (total_time + processing_time)%Z in
              if negb (str_eqb (ExtractedPrescription.document_type
                                  document) (u "unknown"))
              then ret (Some document, total_time)
              else ret (None, total_time))
             (fun e => ret (None, total_time)) ;;
      match r with
      | (Some document, total_time) => ret (document, total_time)
      | (None, total_time) =>
          retry_loop n' ocr_text document_type total_time
      end
  end.

Definition extract_with_retry (ocr_text : str)
    (document_type : option str) (max_retries : Z)
  : M (ExtractedPrescription.t * Z) :=
  retry_loop (Z.to_nat (max_retries + 1)) ocr_text document_type 0%Z.
End WithClient.
End LLMExtractor.

(* ================================================================= *)
(** ** [vision_extractor.py] *)

Module VisionExtractor.
Import Schema.
Local Open Scope m_scope.

Definition extract_json_from_response := Response.extract_json_from_response.

(** [encode_image] (the bytes themselves go to the remote service with
    the path). *)
Definition encode_image (w : World) (image_path : Path.t) : M unit :=
  if image_exists w image_path
  then match image_open w image_path with
       | Some e => throw e
       | None => ret tt
       end
  else throw (FileNotFoundError
                (u "Image not found: " ++ Path.to_str image_path)).

(** [get_image_media_type]: the type listed for the lower-cased suffix,
    JPEG for every other suffix. *)
Definition media_types : list (str * str) :=
  [ (u ".jpg", u "image/jpeg");
    (u ".jpeg", u "image/jpeg");
    (u ".png", u "image/png");
    (u ".gif", u "image/gif");
    (u ".webp", u "image/webp") ].

Definition get_image_media_type (image_path : Path.t) : str :=
  let ext := lower (Path.suffix image_path) in
  match Dict.get ext media_types with
  | Some media_type => media_type
  | None => u "image/jpeg"
  end.

(** [raw_json[key] = value] *)
Definition setitem (raw_json : json) (key : string) (value : json)
  : res json :=
  match raw_json with
  | JDict d => ok (JDict (Dict.set (u key) value d))
  | _ => raise (TypeError (u "object does not support item assignment"))
  end.

(** The truth value of an optional float. *)
Definition nonzero (c : option Q) : option Q :=
  match c with
  | Some q => if Qeq_bool q 0 then None else Some q
  | None => None
  end.

(** The truth value of an optional string. *)
Definition nonempty (s : option str) : option str :=
  match s with
  | Some [] => None
  | _ => s
  end.

(** The record both handlers of [extract_from_image] return. *)
Definition failed_document : ExtractedPrescription.t :=
  ExtractedPrescription.set_llm_enhanced true
    (ExtractedPrescription.set_extraction_method (Some (u "llm_vision"))
       (ExtractedPrescription.of_type (u "prescription"))).

Section WithClient.
Variable w : World.
Variable client : VisionClient.

Definition extract_from_image (image_path : Path.t)
    (ocr_text : option str) (ocr_confidence : option Q)
  : M (ExtractedPrescription.t * Z) :=
  start_time <- now ;;
  try_except
    (_ <- encode_image w image_path ;;
     let prompt :=
       PrescriptionPrompt (nonempty ocr_text)
         (match nonempty ocr_text with
          | Some _ => nonzero ocr_confidence
          | None => None
          end) in
     response_text <- call_vision client image_path prompt ;;
     raw_json <- lift (extract_json_from_response response_text) ;;
     raw_json <- lift (setitem raw_json "extraction_method"
                         (JStr (u "llm_vision"))) ;;
     raw_json <- lift (setitem raw_json "llm_enhanced" (JBool true)) ;;
     raw_json <- lift (match nonzero ocr_confidence with
                       | Some c => setitem raw_json "ocr_confidence"
                                     (JFloat c)
                       | None => ok raw_json
                       end) ;;
     prescription <- lift (ExtractedPrescription.validate raw_json) ;;
     t <- now ;;
     ret (prescription, t - start_time)%Z)
    (fun e =>
       t <- now ;;
       ret (failed_document, t - start_time)%Z).

Definition analyze_signature_only (image_path : Path.t)
  : M (SignatureInfo.t * Z) :=
  start_time <- now ;;
  try_except
    (_ <- encode_image w image_path ;;
     response_text <- call_vision client image_path SignaturePrompt ;;
     raw_json <- lift (extract_json_from_response response_text) ;;
     signature_info <- lift (SignatureInfo.validate raw_json) ;;
     t <- now ;;
     ret (signature_info, t - start_time)%Z)
    (fun e =>
       t <- now ;;
       ret (SignatureInfo.default, t - start_time)%Z).
End WithClient.

(** [read_handwritten_text]: the transcription the service returns, or the
    empty string when anything fails. *)
Definition read_handwritten_text (w : World) (client : TranscriptionClient)
    (image_path : Path.t) (region_hint : option str) : M (str * Z) :=
  start_time <- now ;;
  try_except
    (_ <- encode_image w image_path ;;
     extracted_text <- call_transcription client image_path
                         (HandwritingPrompt (nonempty region_hint)) ;;
     t <- now ;;
     ret (extracted_text, t - start_time)%Z)
    (fun e =>
       t <- now ;;
       ret ([], t - start_time)%Z).
End VisionExtractor.

(* ================================================================= *)
(** ** [prescription_processor.py] *)

Module PrescriptionProcessor.
Import Schema.
Local Open Scope m_scope.

Definition HANDWRITING_CONFIDENCE_THRESHOLD : Q := 0.6.
Definition VISION_ALWAYS_FOR_SIGNATURES : bool := true.

(** One entry of [metadata["processing_stages"]].  A [reason] text is
    formatted from the fields kept here. *)
Inductive Stage :=
| StageOcr (time : Z) (confidence : Q) (text_length : nat)
| StageVision (time : Z) (prescription_type : PrescriptionType)
              (ocr_confidence : Q)
| StageLlmText (time : Z) (ocr_confidence : Q)
| StageRegex
| StageSignature (time : Z) (signature_found : bool).

Definition stage_name (s : Stage) : str :=
  match s with
  | StageOcr _ _ _ => u "ocr"
  | StageVision _ _ _ => u "vision"
  | StageLlmText _ _ => u "llm_text_structuring"
  | StageRegex => u "ocr_parsing_regex"
  | StageSignature _ _ => u "signature_detection"
  end.

Inductive MetaVal :=
| MStr (s : str)
| MBool (b : bool)
| MTime (t : Z)
| MFloat (q : Q)
| MStages (l : list Stage).

(** The metadata [dict]. *)
Definition Metadata := list (str * MetaVal).

Definition setm (key : string) (v : MetaVal) (md : Metadata) : Metadata :=
  Dict.set (u key) v md.

Definition getm (key : string) (md : Metadata) : option MetaVal :=
  Dict.get (u key) md.

Definition stages (md : Metadata) : list Stage :=
  match getm "processing_stages" md with
  | Some (MStages l) => l
  | _ => []
  end.

(** [metadata["processing_stages"].append(s)] *)
Definition add_stage (s : Stage) (md : Metadata) : Metadata :=
  setm "processing_stages" (MStages (stages md ++ [s])) md.

Definition classify_prescription_type (image_path : Path.t)
    (ocr_confidence : Q) : PrescriptionType :=
  let parent_folder := lower (Path.name (Path.parent image_path)) in
  if contains parent_folder (u "handwrit") then HANDWRITTEN
  else if contains parent_folder (u "print") then PRINTED
  else if contains parent_folder (u "mixed") then MIXED
  else if contains parent_folder (u "screen")
          || contains parent_folder (u "digital") then DIGITAL
  else if Qltb ocr_confidence 0.5 then HANDWRITTEN
  else if Qltb ocr_confidence 0.7 then MIXED
  else PRINTED.

Definition needs_vision_enhancement (ocr_confidence : Q)
    (prescription_type : PrescriptionType) : bool :=
  match prescription_type with
  | HANDWRITTEN => true
  | MIXED => true
  | _ => Qltb ocr_confidence HANDWRITING_CONFIDENCE_THRESHOLD
  end.

(** [prescription.confidence_score or ocr_confidence] *)
Definition final_confidence (p : ExtractedPrescription.t)
    (ocr_confidence : Q) : Q :=
  match VisionExtractor.nonzero (ExtractedPrescription.confidence_score p) with
  | Some c => c
  | None => ocr_confidence
  end.

Definition Result := (ExtractedPrescription.t * Metadata)%type.

Section WithWorld.
Variable w : World.

(** Stage 2 of [process]: the primary strategy. *)
Definition primary_stage (image_path : Path.t) (force_vision : bool)
    (ocr_text : str) (ocr_confidence : Q)
    (prescription_type : PrescriptionType) (metadata : Metadata)
  : M Result :=
  let use_vision :=
    force_vision
    || needs_vision_enhancement ocr_confidence prescription_type in
  match (if use_vision then vision w else None) with
  | Some vision_client =>
      '(prescription, vision_time) <-
        VisionExtractor.extract_from_image w vision_client image_path
          (Some ocr_text) (Some ocr_confidence) ;;
      let metadata := setm "vision_used" (MBool true) metadata in
      let metadata :=
        setm "extraction_method" (MStr (u "ocr_plus_llm_vision"))
             metadata in
      let metadata :=
        add_stage (StageVision vision_time prescription_type
                               ocr_confidence) metadata in
      let prescription :=
        ExtractedPrescription.set_prescription_type
          (Some prescription_type) prescription in
      let prescription :=
        ExtractedPrescription.set_extraction_method
          (Some (u "ocr_plus_llm")) prescription in
      let prescription :=
        ExtractedPrescription.set_ocr_confidence
          (Some ocr_confidence) prescription in
      let prescription :=
        ExtractedPrescription.set_llm_enhanced true prescription in
      ret (prescription, metadata)
  | None =>
      match llm_text w with
      | Some text_client =>
          '(prescription, llm_time) <-
            LLMExtractor.extract text_client ocr_text
              (Some (u "prescription")) ;;
          let metadata :=
            setm "extraction_method" (MStr (u "ocr_plus_llm_text"))
                 metadata in
          let metadata := setm "vision_used" (MBool false) metadata in
          let metadata := setm "llm_text_used" (MBool true) metadata in
          let metadata :=
            add_stage (StageLlmText llm_time ocr_confidence) metadata in
          let prescription :=
            ExtractedPrescription.set_prescription_type
              (Some prescription_type) prescription in
          let prescription :=
            ExtractedPrescription.set_extraction_method
              (Some (u "ocr_plus_llm_text")) prescription in
          let prescription :=
            ExtractedPrescription.set_ocr_confidence
              (Some ocr_confidence) prescription in
          let prescription :=
            ExtractedPrescription.set_llm_enhanced true prescription in
          ret (prescription, metadata)
      | None =>
          prescription <- lift (OCRTextParser.parse ocr_text
                                  ocr_confidence) ;;
          let prescription :=
            ExtractedPrescription.set_prescription_type
              (Some prescription_type) prescription in
          let metadata :=
            setm "extraction_method" (MStr (u "ocr_only_regex"))
                 metadata in
          let metadata := setm "vision_used" (MBool false) metadata in
          let metadata := add_stage StageRegex metadata in
          ret (prescription, metadata)
      end
  end.

(** Stage 3 of [process]: signature detection. *)
Definition signature_stage (image_path : Path.t)
    (prescription : ExtractedPrescription.t) (metadata : Metadata)
  : M Result :=
  match (if VISION_ALWAYS_FOR_SIGNATURES then vision w else None),
        ExtractedPrescription.doctor_signature prescription with
  | Some vision_client, None =>
      '(signature_info, sig_time) <-
        VisionExtractor.analyze_signature_only w vision_client
          image_path ;;
      let prescription :=
        ExtractedPrescription.set_doctor_signature
          (Some signature_info) prescription in
      let metadata :=
        add_stage (StageSignature sig_time
                     (SignatureInfo.is_present signature_info))
                  metadata in
      ret (prescription, metadata)
  | _, _ => ret (prescription, metadata)
  end.

Definition initial_metadata (image_path : Path.t) : Metadata :=
  [ (u "file_name", MStr (Path.name image_path));
    (u "file_path", MStr (Path.to_str image_path));
    (u "ocr_used", MBool true);
    (u "vision_used", MBool false);
    (u "extraction_method", MStr (u "ocr_only"));
    (u "processing_stages", MStages []) ].

Definition process (image_path : Path.t) (force_vision : bool)
  : M Result :=
  start_time <- now ;;
  let metadata := initial_metadata image_path in
  (* Stage 1: OCR extraction *)
  ocr_start <- now ;;
  '(ocr_text, ocr_confidence) <- call_ocr w image_path ;;
  t <- now ;;
  let ocr_time := (t - ocr_start)%Z in
  let metadata :=
    add_stage (StageOcr ocr_time ocr_confidence (length ocr_text))
              metadata in
  let prescription_type :=
    classify_prescription_type image_path ocr_confidence in
  '(prescription, metadata) <-
    primary_stage image_path force_vision ocr_text ocr_confidence
                  prescription_type metadata ;;
  let prescription :=
    ExtractedPrescription.set_ocr_text (Some ocr_text) prescription in
  '(prescription, metadata) <-
    signature_stage image_path prescription metadata ;;
  t <- now ;;
  let total_time := (t - start_time)%Z in
  let metadata := setm "total_processing_time" (MTime total_time) metadata in
  let metadata :=
    setm "final_confidence"
         (MFloat (final_confidence prescription ocr_confidence))
         metadata in
  ret (prescription, metadata).

(** The entry appended when [process] raises. *)
Definition error_entry (path : Path.t) (e : exn) : Result :=
  (ExtractedPrescription.of_type (u "prescription"),
   [ (u "error", MStr (exn_str e));
     (u "file_path", MStr (Path.to_str path)) ]).

(** The [for] loop of [process_batch], appending to [results]. *)
Fixpoint batch_loop (image_paths : list Path.t) (force_vision : bool)
    (results : list Result) : M (list Result) :=
  match image_paths with
  | [] => ret results
  | path :: rest =>
      entry <- try_except (process path force_vision)
                 (fun e => ret (error_entry path e)) ;;
      batch_loop rest force_vision (results ++ [entry])
  end.

Definition process_batch (image_paths : list Path.t)
    (force_vision : bool) : M (list Result) :=
  batch_loop image_paths force_vision [].
End WithWorld.

(** The tier the orchestrator runs, as [process] branches on it. *)
Inductive Tier := LocalFallback | TextAnalysis | ImageAnalysis.

Definition select_tier (force_vision : bool) (ocr_confidence : Q)
    (prescription_type : PrescriptionType)
    (vision_available llm_text_available : bool) : Tier :=
  let use_vision :=
    force_vision
    || needs_vision_enhancement ocr_confidence prescription_type in
  if use_vision && vision_available then ImageAnalysis
  else if llm_text_available then TextAnalysis
  else LocalFallback.

(** [process_prescription]: the module-level function, on the global
    processor. *)
Definition process_prescription (w : World) (image_path : Path.t)
    (force_vision : bool) : M Result :=
  process w image_path force_vision.

End PrescriptionProcessor.

(* ================================================================= *)
(** ** [app.py]: the helpers of the user interface

    The session list [st.session_state.processed_prescriptions] is passed
    to the functions that read it. *)

Module App.
Import Schema PrescriptionProcessor.

Definition badges : list (str * (str * str)) :=
  [ (u "handwritten", (u "✍️ Handwritten", u "warning"));
    (u "printed", (u "🖨️ Printed", u "success"));
    (u "mixed", (u "📝 Mixed", u "info"));
    (u "digital", (u "💻 Digital", u "secondary")) ].

Definition get_prescription_type_badge (rx_type : str) : str * str :=
  match Dict.get rx_type badges with
  | Some badge => badge
  | None => (u "❓ Unknown", u "secondary")
  end.

(** One entry of the session list (the image bytes and the time stamp are
    left out). *)
Record Item := {
  filename : str;
  prescription : ExtractedPrescription.t;
  metadata : Metadata
}.

Record Stats := {
  total : nat;
  with_signature : nat;
  total_meds : nat;
  llm_enhanced : nat
}.

(** [p.doctor_signature and p.doctor_signature.is_present] *)
Definition signature_present (p : ExtractedPrescription.t) : bool :=
  match ExtractedPrescription.doctor_signature p with
  | Some s => SignatureInfo.is_present s
  | None => false
  end.

Definition get_prescription_stats (prescriptions : list Item) : Stats :=
  match prescriptions with
  | [] => {| total := 0; with_signature := 0; total_meds := 0;
             llm_enhanced := 0 |}
  | _ =>
      {| total := length prescriptions;
         with_signature :=
           list_sum (map (fun p => if signature_present (prescription p)
                                   then 1 else 0)%nat prescriptions);
         total_meds :=
           list_sum (map (fun p => length (ExtractedPrescription.medications
                                             (prescription p)))
                         prescriptions);
         llm_enhanced :=
           list_sum (map (fun p => if ExtractedPrescription.llm_enhanced
                                        (prescription p)
                                   then 1 else 0)%nat prescriptions) |}
  end.

(** The type shown for a record in [render_library_tab]: the value of the
    enumeration member or the string held by the field, and "unknown" for
    an empty field. *)
Definition rx_type_str (rx : ExtractedPrescription.t) : str :=
  match ExtractedPrescription.prescription_type rx with
  | Some rx_type => PrescriptionType_value rx_type
  | None => u "unknown"
  end.

(** The extraction-method badge of [render_library_tab]. *)
Definition method_badge (meta : Metadata) (rx : ExtractedPrescription.t)
  : str * str :=
  let extraction_method :=
    match getm "extraction_method" meta with
    | Some (MStr s) => s
    | _ => []
    end in
  if str_eqb extraction_method (u "ocr_plus_llm_vision")
  then (u "👁️ LLM Vision", u "info")
  else if str_eqb extraction_method (u "ocr_plus_llm_text")
  then (u "🤖 LLM Text", u "warning")
  else if ExtractedPrescription.llm_enhanced rx
  then (u "🤖 LLM", u "info")
  else (u "📝 Regex", u "secondary").

End App.

(* ================================================================= *)
(** ** Vocabulary of the statements

    The definitions below are not part of the program: they name what the
    theorems talk about (the router as the specification words it, the
    outcome of one attempt, the trace of a batch) and fix the concrete
    collaborators of the worked scenarios. *)

Unset Implicit Arguments.

Import Schema MonadM PrescriptionProcessor Re OCRTextParser.
Local Open Scope Z_scope.

(** The tier as the spec words it. *)
Definition route_spec (override : bool) (confidence : Q)
    (document_type : PrescriptionType) (image_available text_available : bool)
  : Tier :=
  if override && image_available then ImageAnalysis
  else if (match document_type with HANDWRITTEN | MIXED => true | _ => false end)
          && image_available then ImageAnalysis
  else if Qltb confidence 0.6 && image_available then ImageAnalysis
  else if text_available then TextAnalysis
  else LocalFallback.

Definition available {A} (x : option A) : bool :=
  match x with Some _ => true | None => false end.

(** One text-analysis attempt, before the handlers: the reply is parsed and
    validated. *)
Definition text_attempt (r : res str) : res ExtractedPrescription.t :=
  (text <- r ;;
   raw_json <- Response.extract_json_from_response text ;;
   ExtractedPrescription.validate raw_json)%res.

(** The document [extract] returns from the reply. *)
Definition attempt_document (r : res str) : ExtractedPrescription.t :=
  match text_attempt r with
  | inr d => d
  | inl _ => LLMExtractor.unknown_document
  end.

Definition after_text (st : State) (d : Z) : State :=
  {| clock := clock st + d; llm_calls := S (llm_calls st);
     vision_calls := vision_calls st |}.

(** Elapsed time of the [n] calls that start at call number [k]. *)
Fixpoint elapsed_sum (client : TextClient) (q : TextPrompt) (k n : nat) : Z :=
  match n with
  | O => 0
  | S n' => elapsed (client k q) + elapsed_sum client q (S k) n'
  end.

Definition attempt_fails (client : TextClient) (q : TextPrompt) (k : nat) : Prop :=
  ExtractedPrescription.document_type (attempt_document (outcome (client k q)))
  = u "unknown".

Definition after_text_calls (st : State) (n : nat) (d : Z) : State :=
  {| clock := clock st + d; llm_calls := (llm_calls st + n)%nat;
     vision_calls := vision_calls st |}.

Definition after_vision (st : State) (d : Z) : State :=
  {| clock := clock st + d; llm_calls := llm_calls st;
     vision_calls := S (vision_calls st) |}.

Definition vision_prompt (ocr_text : option str) (ocr_confidence : option Q)
  : VisionPrompt :=
  PrescriptionPrompt (VisionExtractor.nonempty ocr_text)
    (match VisionExtractor.nonempty ocr_text with
     | Some _ => VisionExtractor.nonzero ocr_confidence
     | None => None
     end).

(** One image-analysis attempt, before the handlers. *)
Definition vision_attempt (ocr_confidence : option Q) (r : res str)
  : res ExtractedPrescription.t :=
  (text <- r ;;
   raw_json <- Response.extract_json_from_response text ;;
   raw_json <- VisionExtractor.setitem raw_json "extraction_method"
                 (JStr (u "llm_vision")) ;;
   raw_json <- VisionExtractor.setitem raw_json "llm_enhanced" (JBool true) ;;
   raw_json <- match VisionExtractor.nonzero ocr_confidence with
               | Some c => VisionExtractor.setitem raw_json "ocr_confidence"
                             (JFloat c)
               | None => ok raw_json
               end ;;
   ExtractedPrescription.validate raw_json)%res.

(** The record [extract_from_image] returns from the reply. *)
Definition vision_document (ocr_confidence : option Q) (r : res str)
  : ExtractedPrescription.t :=
  match vision_attempt ocr_confidence r with
  | inr d => d
  | inl _ => VisionExtractor.failed_document
  end.

(** One attempt of the signature stage, before the handler. *)
Definition signature_attempt (r : res str) : res SignatureInfo.t :=
  (text <- r ;;
   raw_json <- Response.extract_json_from_response text ;;
   SignatureInfo.validate raw_json)%res.

(** The signature [analyze_signature_only] returns from the reply. *)
Definition signature_of (r : res str) : SignatureInfo.t :=
  match signature_attempt r with
  | inr s => s
  | inl _ => SignatureInfo.default
  end.

Definition record_tag (t : Tier) : str :=
  match t with
  | LocalFallback => u "ocr_only"
  | TextAnalysis => u "ocr_plus_llm_text"
  | ImageAnalysis => u "ocr_plus_llm"
  end.

Definition metadata_tag (t : Tier) : str :=
  match t with
  | LocalFallback => u "ocr_only_regex"
  | TextAnalysis => u "ocr_plus_llm_text"
  | ImageAnalysis => u "ocr_plus_llm_vision"
  end.

Definition primary_stage_name (t : Tier) : str :=
  match t with
  | LocalFallback => u "ocr_parsing_regex"
  | TextAnalysis => u "llm_text_structuring"
  | ImageAnalysis => u "vision"
  end.

Definition tier_of (w : World) (fv : bool) (conf : Q) (ty : PrescriptionType)
  : Tier :=
  select_tier fv conf ty (available (vision w)) (available (llm_text w)).

(** What stage 2 does to the record a remote strategy returned. *)
Definition decorate (tag : str) (ty : PrescriptionType) (conf : Q)
    (p : ExtractedPrescription.t) : ExtractedPrescription.t :=
  ExtractedPrescription.set_llm_enhanced true
    (ExtractedPrescription.set_ocr_confidence (Some conf)
       (ExtractedPrescription.set_extraction_method (Some tag)
          (ExtractedPrescription.set_prescription_type (Some ty) p))).

Definition is_signature_stage (s : Stage) : bool :=
  match s with StageSignature _ _ => true | _ => false end.

(** [encode_image] returns: the file exists and can be opened and read. *)
Definition image_readable (w : World) (path : Path.t) : bool :=
  image_exists w path
  && match image_open w path with None => true | Some _ => false end.

(** The signature stage ran: its entry is in the processing stages. *)
Definition signature_stage_ran (md : Metadata) : bool :=
  existsb is_signature_stage (stages md).

Module Scenario.
Definition st0 : State := {| clock := 0; llm_calls := 0; vision_calls := 0 |}.

Definition rx_path : Path.t := Path.mk [] [u "uploads"; u "rx_001.png"].

Definition amoxicillin_line : str :=
  u "1. Amoxicillin 500mg 2 viên sáng sau ăn".


Definition prose : str := u "Sorry, I cannot read this document.".

Definition ocr_fixed (text : str) (conf : Q) (d : Z)
  : Path.t -> Reply (str * Q) :=
  fun _ => {| outcome := inr (text, conf); elapsed := d |}.

Definition text_always (r : res str) (d : Z) : TextClient :=
  fun _ _ => {| outcome := r; elapsed := d |}.

Definition vision_always (r : res str) (d : Z) : VisionClient :=
  fun _ _ _ => {| outcome := r; elapsed := d |}.

(** Confidence 0.8, text analysis only, and the service answers in prose. *)
Definition text_only : World :=
  {| ocr_engine := ocr_fixed amoxicillin_line 0.8%Q 5;
     image_exists := fun _ => true;
     image_open := fun _ => None;
     vision := None;
     llm_text := Some (text_always (inr prose) 7) |}.

(** Confidence 0.45, image analysis only, and the service answers in
    prose. *)
Definition vision_only : World :=
  {| ocr_engine := ocr_fixed amoxicillin_line 0.45%Q 5;
     image_exists := fun _ => true;
     image_open := fun _ => None;
     vision := Some (vision_always (inr prose) 11);
     llm_text := None |}.

(** A text service that answers in prose once and then with the
    round-trip response. *)
Definition round_trip_response : str :=
  uq "```json{'document_type':'prescription','medications':[]}```".

Definition text_recovering : TextClient :=
  fun n _ =>
    {| outcome := inr (if (n =? 0)%nat then prose else round_trip_response);
       elapsed := 7 |}.

(** Confidence 0.8 and no remote strategy. *)
Definition local_only (text : str) : World :=
  {| ocr_engine := ocr_fixed text 0.8%Q 5;
     image_exists := fun _ => true;
     image_open := fun _ => None;
     vision := None;
     llm_text := None |}.
(** The image service answers the prescription prompt with a document
    that already has a signature, and the signature prompt in prose. *)
Definition signed_reply : str :=
  uq "```json{'document_type':'prescription','medications':[],'doctor_signature':{'is_present':true,'confidence':0.9}}```".

Definition signing_client : VisionClient :=
  fun _ _ q =>
    match q with
    | PrescriptionPrompt _ _ => {| outcome := inr signed_reply; elapsed := 11 |}
    | SignaturePrompt => {| outcome := inr prose; elapsed := 3 |}
    end.

Definition vision_signed : World :=
  {| ocr_engine := ocr_fixed amoxicillin_line 0.45%Q 5;
     image_exists := fun _ => true;
     image_open := fun _ => None;
     vision := Some signing_client;
     llm_text := None |}.
End Scenario.

(** The lower-cased name of the parent directory, where the hint is looked
    for. *)
Definition folder_hint (path : Path.t) : str :=
  lower (Path.name (Path.parent path)).

Definition has_keyword (path : Path.t) (kw : string) : bool :=
  contains (folder_hint path) (u kw).

Definition no_hint (path : Path.t) : Prop :=
  has_keyword path "handwrit" = false
  /\ has_keyword path "print" = false
  /\ has_keyword path "mixed" = false
  /\ has_keyword path "screen" = false
  /\ has_keyword path "digital" = false.

(** How clear a document of that type is. *)
Definition clarity (t : PrescriptionType) : nat :=
  match t with
  | HANDWRITTEN => 0
  | MIXED => 1
  | PRINTED => 2
  | DIGITAL => 3
  end.

(** A batch run, document by document: the state is threaded through, and
    every document contributes its result or its error entry. *)
Inductive batch_trace (w : World) (fv : bool)
  : State -> list Path.t -> list Result -> State -> Prop :=
| bt_done st : batch_trace w fv st [] [] st
| bt_processed st path rest p md st1 results st2 :
    process w path fv st = (inr (p, md), st1) ->
    batch_trace w fv st1 rest results st2 ->
    batch_trace w fv st (path :: rest) ((p, md) :: results) st2
| bt_failed st path rest e st1 results st2 :
    process w path fv st = (inl e, st1) ->
    batch_trace w fv st1 rest results st2 ->
    batch_trace w fv st (path :: rest) (error_entry path e :: results) st2.

(** The record stage 2 hands to stage 3 in a run of [process], when the run
    gets that far. *)
Definition primary_record (w : World) (path : Path.t) (fv : bool) (st : State)
  : option ExtractedPrescription.t :=
  let r := ocr_engine w path in
  match outcome r with
  | inr (text, conf) =>
      match primary_stage w path fv text conf
              (classify_prescription_type path conf)
              (add_stage (StageOcr (elapsed r) conf (length text))
                         (initial_metadata path))
              (tick (elapsed r) st) with
      | (inr (p1, _), _) => Some p1
      | _ => None
      end
  | inl _ => None
  end.

(** The OCR text, the record and the state at the end of stage 2 in a run
    of [process], when the run gets that far. *)
Definition primary_run (w : World) (path : Path.t) (fv : bool) (st : State)
  : option (str * ExtractedPrescription.t * State) :=
  let r := ocr_engine w path in
  match outcome r with
  | inr (text, conf) =>
      match primary_stage w path fv text conf
              (classify_prescription_type path conf)
              (add_stage (StageOcr (elapsed r) conf (length text))
                         (initial_metadata path))
              (tick (elapsed r) st) with
      | (inr (p1, _), st2) => Some (text, p1, st2)
      | _ => None
      end
  | inl _ => None
  end.

(** What the greedy [.*] followed by [k] computes: [k] at the end of the
    text first, then ever closer to the start. *)
Fixpoint longest_first {R} (k : pos -> option R) (prev : option N) (s : str)
  : option R :=
  match s with
  | [] => k (prev, [])
  | c :: s' =>
      match longest_first k (Some c) s' with
      | Some x => Some x
      | None => k (prev, s)
      end
  end.

Definition round_trip_response : str := Scenario.round_trip_response.

(** A confidence field: absent or in [0, 1]. *)
Definition unit_or_absent (o : option Q) : Prop :=
  match o with
  | None => True
  | Some q => (0 <= q)%Q /\ (q <= 1)%Q
  end.

(** A result that can only fail with a validation error. *)
Definition validation_only {A} (r : res A) : Prop :=
  forall e, r = inl e -> exists loc, e = ValidationError loc.

Definition conv_validation_only {A} (c : conv A) : Prop :=
  forall v, validation_only (c v).

Module ResponseSpec.
Import Re.
(** The fence as the spec words it: tagged as JSON. *)
Definition fenced_json : re :=
  seq [word "```"; word "json"; star s_;
       Grp 1 (seq [Lit 123; star_lazy Dot; Lit 125]);
       star s_; word "```"].

(** The extraction order as the spec words it. *)
Definition extract_json_spec (text : str) : res json :=
  match search false fenced_json text with
  | Some json_match =>
      match group json_match 1 with
      | Some g => Json.loads g
      | None => raise (TypeError (u "the JSON object must be str"))
      end
  | None =>
      match search false Response.braces text with
      | Some json_match => Json.loads (m_whole json_match)
      | None => raise (ValueError (u "No valid JSON found in LLM response"))
      end
  end.
End ResponseSpec.



(** The fuel [Json.scan] needs on a text, by mode. *)
Definition fuel_needed (md : Json.mode) (s : str) : nat :=
  match md with
  | Json.MValue => 2 * length s + 1
  | _ => 2 * length s + 2
  end.

(** Further collaborators of the worked examples. *)
Module Cases.
(** The OCR engine fails on every image. *)
Definition ocr_failing : World :=
  {| ocr_engine := fun _ => {| outcome := inl (CollaboratorError (u "OCR engine crashed"));
                               elapsed := 2 |};
     image_exists := fun _ => true;
     image_open := fun _ => None;
     vision := Some (Scenario.vision_always (inr Scenario.prose) 11);
     llm_text := Some (Scenario.text_always (inr Scenario.prose) 7) |}.

(** No remote strategy, and an OCR confidence given in percent. *)
Definition percent_confidence : World :=
  {| ocr_engine := Scenario.ocr_fixed Scenario.amoxicillin_line 80%Q 5;
     image_exists := fun _ => true;
     image_open := fun _ => None;
     vision := None;
     llm_text := None |}.

(** Both remote strategies answer, but the image file is gone. *)
Definition image_missing : World :=
  {| ocr_engine := Scenario.ocr_fixed Scenario.amoxicillin_line 0.45%Q 5;
     image_exists := fun _ => false;
     image_open := fun _ => None;
     vision := Some (Scenario.vision_always (inr Scenario.signed_reply) 11);
     llm_text := Some (Scenario.text_always (inr Scenario.round_trip_response) 7) |}.

(** Both remote strategies answer, but the path is a directory. *)
Definition image_unreadable : World :=
  {| ocr_engine := Scenario.ocr_fixed Scenario.amoxicillin_line 0.45%Q 5;
     image_exists := fun _ => true;
     image_open := fun _ => Some (OSError (u "[Errno 21] Is a directory"));
     vision := Some (Scenario.vision_always (inr Scenario.signed_reply) 11);
     llm_text := Some (Scenario.text_always (inr Scenario.round_trip_response) 7) |}.
End Cases.

(** The keys the constructor of [ExtractedPrescription] reads. *)
Definition ExtractedPrescription_fields : list string :=
  [ "document_type"; "prescription_type"; "prescription_number"; "barcode";
    "issue_date"; "patient"; "doctor"; "hospital"; "diagnosis";
    "medications"; "doctor_signature"; "handwriting_analysis"; "notes";
    "total_items"; "extraction_method"; "confidence_score";
    "ocr_confidence"; "llm_enhanced"; "ocr_text" ]%string.

Definition known_key (k : str) : bool :=
  existsb (fun f => str_eqb (u f) k) ExtractedPrescription_fields.


(** *** What a pattern can match

    The words a pattern matches wherever it is tried (the anchors and the
    word boundary match the empty word), and the bodies of its groups. *)
Module ReSpec.
Import Re.

Definition in_class (ic neg : bool) (l : list item) (d : N) : bool :=
  xorb neg (existsb (item_has ic d) l).

Fixpoint lang (ic : bool) (r : re) (w : str) : Prop :=
  match r with
  | Lit c => exists d, w = [d] /\ char_eq ic c d = true
  | Dot => exists d, w = [d]
  | Cls neg l => exists d, w = [d] /\ in_class ic neg l d = true
  | Emp => w = []
  | Seq r1 r2 =>
      exists w1 w2, w = w1 ++ w2 /\ lang ic r1 w1 /\ lang ic r2 w2
  | Alt r1 r2 => lang ic r1 w \/ lang ic r2 w
  | Rep _ lo hi r1 =>
      exists ws, w = concat ws /\ Forall (lang ic r1) ws
                 /\ (lo <= length ws)%nat
                 /\ match hi with
                    | Some h => (length ws <= h)%nat
                    | None => True
                    end
  | Grp _ r1 => lang ic r1 w
  | Bol | Eol | WordB => w = []
  end.

Fixpoint group_bodies (i : nat) (r : re) : list re :=
  match r with
  | Seq r1 r2 | Alt r1 r2 => group_bodies i r1 ++ group_bodies i r2
  | Rep _ _ _ r1 => group_bodies i r1
  | Grp j r1 => (if (i =? j)%nat then [r1] else []) ++ group_bodies i r1
  | _ => []
  end.

(** The groups after a match of [r]: a group is as it was before, or holds
    a word of one of the bodies [r] has for it. *)
Definition caps_ok (ic : bool) (r : re) (cs cs' : caps) : Prop :=
  forall i,
    lookup i cs' = lookup i cs
    \/ exists body g, In body (group_bodies i r)
                      /\ lookup i cs' = Some g /\ lang ic body g.

(** [r] gives group [i] a value whenever it matches. *)
Fixpoint sets_group (i : nat) (r : re) : bool :=
  match r with
  | Seq r1 r2 => sets_group i r1 || sets_group i r2
  | Alt r1 r2 => sets_group i r1 && sets_group i r2
  | Rep _ lo _ r1 => (0 <? lo)%nat && sets_group i r1
  | Grp j r1 => (i =? j)%nat || sets_group i r1
  | _ => false
  end.

Definition caps_set (r : re) (cs' : caps) : Prop :=
  forall i, sets_group i r = true -> lookup i cs' <> None.

(** What a successful run of a matcher for [r] guarantees: the
    continuation was entered after a word of [r], with the groups of
    [r]. *)
Definition sound_for (ic : bool) {R : Type} (r : re)
    (f : pos -> caps -> K R -> option R) : Prop :=
  forall p cs (k : K R) x,
    f p cs k = Some x ->
    exists p' cs' w,
      k p' cs' = Some x /\ snd p = w ++ snd p'
      /\ lang ic r w /\ caps_ok ic r cs cs' /\ caps_set r cs'.

(** A match object holds a word of the pattern, found in the text, and
    each of its groups a word of a body the pattern has for that group. *)
Definition sound_match (ic : bool) (r : re) (s : str) (mt : Match) : Prop :=
  lang ic r (m_whole mt)
  /\ (exists pre, s = pre ++ m_whole mt ++ m_after mt)
  /\ (forall i g, lookup i (m_groups mt) = Some g ->
                  exists body, In body (group_bodies i r) /\ lang ic body g)
  /\ (forall i, sets_group i r = true -> lookup i (m_groups mt) <> None).
End ReSpec.


(** *** The shape of the extracted values *)

(** A non-empty run of decimal digits. *)
Definition all_digits (s : str) : Prop :=
  s <> [] /\ Forall (fun c => isdecimal c = true) s.

(** One or two digits, a slash or a hyphen, one or two digits, a slash or
    a hyphen, two to four digits. *)
Definition date_like (s : str) : Prop :=
  exists d1 s1 d2 s2 d3,
    s = d1 ++ s1 :: d2 ++ s2 :: d3
    /\ Forall (fun c => isdecimal c = true) (d1 ++ d2 ++ d3)
    /\ (1 <= length d1 <= 2)%nat /\ (1 <= length d2 <= 2)%nat
    /\ (2 <= length d3 <= 4)%nat
    /\ In s1 [47; 45]%N /\ In s2 [47; 45]%N.

(** The spellings [_extract_doctor_info] knows a title by. *)
Definition doctor_titles : list str :=
  map u [ "ThS.BS"; "ThSBS"; "TS.BS"; "TSBS"; "PGS.TS"; "PGSTS"; "GS.TS";
          "GSTS"; "BS"; "Dr."; "Dr" ]%string.

Definition genders : list str := map u ["nam"; "nữ"; "male"; "female"]%string.

Definition dosage_units : list str :=
  map u ["mg"; "ml"; "g"; "mcg"; "iu"]%string.

(** A text that spells a lower-case word as IGNORECASE accepts it: letter
    by letter the lower case of the text is the word; for an i of the word
    the text may also have a dotless i (U+0131). *)
Definition spells (word text : str) : Prop :=
  Forall2 (fun c d => lower_char d = c \/ (c = 105 /\ d = 305)%N) word text.


(** *** The steps of [_clean_text] as list functions *)

(** [re.sub(r"\s+", " ", s)]: every run of white space becomes one space
    ([in_run] says that the character before was white space). *)
Fixpoint collapse_go (in_run : bool) (s : str) : str :=
  match s with
  | [] => []
  | c :: s' =>
      if isspace c
      then if in_run then collapse_go true s' else 32%N :: collapse_go true s'
      else c :: collapse_go false s'
  end.

Definition collapse (s : str) : str := collapse_go false s.

(** The characters [_clean_text] removes from the end: colon, white space
    and comma. *)
Definition punct (c : N) : bool := (c =? 58)%N || isspace c || (c =? 44)%N.

(** [re.sub] of the pattern [[:\s,]+$] by the empty text: the text without
    its longest suffix of such characters. *)
Fixpoint drop_trailing (P : N -> bool) (s : str) : str :=
  match s with
  | [] => []
  | c :: s' => if forallb P s then [] else c :: drop_trailing P s'
  end.

(** White space inside a cleaned text: single spaces only. *)
Fixpoint single_spaced (s : str) : bool :=
  match s with
  | [] => true
  | c :: s' =>
      (if isspace c
       then (c =? 32)%N
            && match s' with d :: _ => negb (isspace d) | [] => true end
       else true)
      && single_spaced s'
  end.

(** A text after its leading white space, and the length of that white
    space: where the greedy [\s+] stops. *)
Fixpoint after_spaces (s : str) : str :=
  match s with
  | c :: s' => if isspace c then after_spaces s' else s
  | [] => []
  end.

Fixpoint count_spaces (s : str) : nat :=
  match s with
  | c :: s' => if isspace c then S (count_spaces s') else O
  | [] => O
  end.

(* ================================================================= *)
(** ** Lemmas and theorems *)

Lemma Qltb_lt (a b : Q) : Qltb a b = true <-> (a < b)%Q.
Proof.
  unfold Qltb. rewrite negb_true_iff. split; intros H.
  - apply Qnot_le_lt. intros Hle. apply Qle_bool_iff in Hle. congruence.
  - destruct (Qle_bool b a) eqn:E; [|reflexivity].
    apply Qle_bool_iff in E. exfalso. now apply (Qlt_not_le a b).
Qed.

Lemma str_eqb_eq (a b : str) : str_eqb a b = true <-> a = b.
Proof.
  revert b; induction a as [|x a IH]; intros [|y b]; simpl; split;
    try congruence; try reflexivity.
  - intros H. apply andb_true_iff in H as [H1 H2].
    apply N.eqb_eq in H1. apply IH in H2. congruence.
  - intros H. injection H as -> ->. rewrite N.eqb_refl. simpl. now apply IH.
Qed.

Lemma str_eqb_refl (a : str) : str_eqb a a = true.
Proof. now apply str_eqb_eq. Qed.

Ltac run_eq :=
  unfold ret;
  repeat match goal with
         | |- (_, _) = (_, _) => f_equal
         | |- inr _ = inr _ => f_equal
         | |- Build_State _ _ _ = Build_State _ _ _ => f_equal
         end;
  try reflexivity; try lia.

Lemma select_tier_route_spec fv c ty va la :
  select_tier fv c ty va la = route_spec fv c ty va la.
Proof.
  unfold select_tier, route_spec, needs_vision_enhancement,
    HANDWRITING_CONFIDENCE_THRESHOLD.
  destruct fv, ty, va, la, (Qltb c 0.6); reflexivity.
Qed.

Lemma extract_eq client text dt st :
  let r := client (llm_calls st) (ExtractionPrompt text dt) in
  LLMExtractor.extract client text dt st =
  (inr (attempt_document (outcome r), elapsed r), after_text st (elapsed r)).
Proof.
  cbv zeta. unfold LLMExtractor.extract, bind, try_except, now, call_text, lift, ret,
    attempt_document, text_attempt, rbind,
    LLMExtractor.extract_json_from_response, after_text.
  cbn [clock].
  destruct (outcome (client (llm_calls st) (ExtractionPrompt text dt))) as [e|txt].
  - cbn [clock]. run_eq.
  - destruct (Response.extract_json_from_response txt) as [e|j].
    + cbn [clock]. run_eq.
    + destruct (ExtractedPrescription.validate j) as [e|d]; cbn [clock]; run_eq.
Qed.

Lemma retry_loop_all_fail client text dt :
  forall n st total,
    (forall i, (i < n)%nat ->
       attempt_fails client (ExtractionPrompt text dt) (llm_calls st + i)%nat) ->
    LLMExtractor.retry_loop client n text dt total st =
    (inr (LLMExtractor.unknown_document,
          total + elapsed_sum client (ExtractionPrompt text dt) (llm_calls st) n),
     after_text_calls st n
       (elapsed_sum client (ExtractionPrompt text dt) (llm_calls st) n)).
Proof.
  induction n as [|n IH]; intros st total Hfail.
  - cbn. unfold ret, after_text_calls. destruct st; cbn.
    run_eq.
  - cbn [LLMExtractor.retry_loop]. unfold bind at 1. unfold try_except.
    unfold bind at 1. rewrite extract_eq. cbv zeta.
    pose proof (Hfail 0%nat ltac:(lia)) as H0. unfold attempt_fails in H0.
    rewrite Nat.add_0_r in H0. rewrite H0. cbn [str_eqb negb].
    rewrite str_eqb_refl. cbn [negb ret].
    rewrite IH.
    + cbn [elapsed_sum after_text llm_calls]. unfold after_text_calls.
      cbn [clock llm_calls vision_calls after_text].
      run_eq.
    + intros i Hi. cbn [after_text llm_calls].
      replace (S (llm_calls st) + i)%nat with (llm_calls st + S i)%nat by lia.
      apply Hfail. lia.
Qed.

Lemma retry_loop_first_success client text dt :
  forall n st total k,
    (k < n)%nat ->
    (forall i, (i < k)%nat ->
       attempt_fails client (ExtractionPrompt text dt) (llm_calls st + i)%nat) ->
    ~ attempt_fails client (ExtractionPrompt text dt) (llm_calls st + k)%nat ->
    LLMExtractor.retry_loop client n text dt total st =
    (inr (attempt_document
            (outcome (client (llm_calls st + k)%nat (ExtractionPrompt text dt))),
          total + elapsed_sum client (ExtractionPrompt text dt) (llm_calls st) (S k)),
     after_text_calls st (S k)
       (elapsed_sum client (ExtractionPrompt text dt) (llm_calls st) (S k))).
Proof.
  induction n as [|n IH]; intros st total k Hk Hfail Hok; [lia|].
  cbn [LLMExtractor.retry_loop]. unfold bind at 1. unfold try_except.
  unfold bind at 1. rewrite extract_eq. cbv zeta.
  destruct k as [|k].
  - unfold attempt_fails in Hok. rewrite Nat.add_0_r in Hok |- *.
    destruct (str_eqb _ (u "unknown")) eqn:E.
    + apply str_eqb_eq in E. contradiction.
    + cbn [negb ret elapsed_sum]. unfold after_text_calls, after_text.
      run_eq.
  - pose proof (Hfail 0%nat ltac:(lia)) as H0. unfold attempt_fails in H0.
    rewrite Nat.add_0_r in H0. rewrite H0. rewrite str_eqb_refl. cbn [negb ret].
    rewrite (IH _ _ k).
    + cbn [after_text llm_calls].
      replace (S (llm_calls st) + k)%nat with (llm_calls st + S k)%nat by lia.
      cbn [elapsed_sum]. unfold after_text_calls.
      cbn [clock llm_calls vision_calls after_text].
      run_eq.
    + lia.
    + intros i Hi. cbn [after_text llm_calls].
      replace (S (llm_calls st) + i)%nat with (llm_calls st + S i)%nat by lia.
      apply Hfail. lia.
    + cbn [after_text llm_calls].
      replace (S (llm_calls st) + k)%nat with (llm_calls st + S k)%nat by lia.
      exact Hok.
Qed.

Lemma retry_loop_returns client text dt :
  forall n st total, exists doc t st',
    LLMExtractor.retry_loop client n text dt total st = (inr (doc, t), st').
Proof.
  induction n as [|n IH]; intros st total.
  - cbn. unfold ret. eauto.
  - cbn [LLMExtractor.retry_loop]. unfold bind at 1. unfold try_except.
    unfold bind at 1. rewrite extract_eq. cbv zeta.
    destruct (negb _); [unfold ret; eauto | apply IH].
Qed.

Lemma missing_unreadable w path :
  image_exists w path = false -> image_readable w path = false.
Proof. unfold image_readable. now intros ->. Qed.

Lemma unopened_unreadable w path e :
  image_open w path = Some e -> image_readable w path = false.
Proof. unfold image_readable. intros ->. apply andb_false_r. Qed.

Lemma extract_from_image_eq w client path ocr_text ocr_confidence st :
  VisionExtractor.extract_from_image w client path ocr_text ocr_confidence st =
  if image_readable w path then
    let r := client (vision_calls st) path (vision_prompt ocr_text ocr_confidence) in
    (inr (vision_document ocr_confidence (outcome r), elapsed r),
     after_vision st (elapsed r))
  else (inr (VisionExtractor.failed_document, 0), st).
Proof.
  unfold VisionExtractor.extract_from_image, VisionExtractor.encode_image,
    bind, try_except, now, call_vision, lift, ret, throw, vision_document,
    vision_attempt,
    VisionExtractor.extract_json_from_response, after_vision, vision_prompt,
    rbind.
  unfold image_readable.
  destruct (image_exists w path); [|cbn [andb clock]; run_eq].
  destruct (image_open w path) as [oe|]; cbn [andb clock]; [run_eq|].
  destruct (outcome (client (vision_calls st) path _)) as [e|txt];
    cbn [clock]; [run_eq|].
  destruct (Response.extract_json_from_response txt) as [e|j];
    cbn [clock]; [run_eq|].
  destruct (VisionExtractor.setitem j _ _) as [e|j1]; cbn [clock]; [run_eq|].
  destruct (VisionExtractor.setitem j1 _ _) as [e|j2]; cbn [clock]; [run_eq|].
  destruct (match VisionExtractor.nonzero ocr_confidence with
            | Some c => _ | None => _ end) as [e|j3]; cbn [clock]; [run_eq|].
  destruct (ExtractedPrescription.validate j3) as [e|d]; cbn [clock]; run_eq.
Qed.

Lemma analyze_signature_only_eq w client path st :
  VisionExtractor.analyze_signature_only w client path st =
  if image_readable w path then
    let r := client (vision_calls st) path SignaturePrompt in
    (inr (signature_of (outcome r), elapsed r), after_vision st (elapsed r))
  else (inr (SignatureInfo.default, 0), st).
Proof.
  unfold VisionExtractor.analyze_signature_only, VisionExtractor.encode_image,
    bind, try_except, now, call_vision, lift, ret, throw, signature_of,
    signature_attempt,
    VisionExtractor.extract_json_from_response, after_vision, rbind.
  unfold image_readable.
  destruct (image_exists w path); [|cbn [andb clock]; run_eq].
  destruct (image_open w path) as [oe|]; cbn [andb clock]; [run_eq|].
  destruct (outcome (client (vision_calls st) path _)) as [e|txt];
    cbn [clock]; [run_eq|].
  destruct (Response.extract_json_from_response txt) as [e|j];
    cbn [clock]; [run_eq|].
  destruct (SignatureInfo.validate j) as [e|d]; cbn [clock]; run_eq.
Qed.

Lemma Dict_get_set_same {V} (k : str) (v : V) d :
  Dict.get k (Dict.set k v d) = Some v.
Proof.
  induction d as [|[k' v'] d IH]; cbn.
  - now rewrite str_eqb_refl.
  - destruct (str_eqb k k') eqn:E; cbn.
    + now rewrite str_eqb_refl.
    + now rewrite E.
Qed.

Lemma Dict_get_set_other {V} (k k' : str) (v : V) d :
  str_eqb k k' = false -> Dict.get k (Dict.set k' v d) = Dict.get k d.
Proof.
  intros Hne. induction d as [|[k2 v2] d IH]; cbn.
  - now rewrite Hne.
  - destruct (str_eqb k' k2) eqn:E; cbn.
    + apply str_eqb_eq in E. subst k2. now rewrite Hne.
    + destruct (str_eqb k k2); [reflexivity | exact IH].
Qed.

Lemma stages_add_stage s md : stages (add_stage s md) = stages md ++ [s].
Proof.
  unfold add_stage, stages at 1, getm, setm. now rewrite Dict_get_set_same.
Qed.

Lemma stages_setm key v md :
  str_eqb (u "processing_stages") (u key) = false ->
  stages (setm key v md) = stages md.
Proof.
  intros H. unfold stages, getm, setm. now rewrite Dict_get_set_other.
Qed.

Lemma getm_setm_same key v md : getm key (setm key v md) = Some v.
Proof. apply Dict_get_set_same. Qed.

Lemma getm_setm_other key key' v md :
  str_eqb (u key) (u key') = false ->
  getm key (setm key' v md) = getm key md.
Proof. apply Dict_get_set_other. Qed.

Lemma getm_add_stage key s md :
  str_eqb (u key) (u "processing_stages") = false ->
  getm key (add_stage s md) = getm key md.
Proof. apply Dict_get_set_other. Qed.

(* --- process --- *)
Lemma signature_stage_eq w path p md st :
  signature_stage w path p md st =
  match vision w, ExtractedPrescription.doctor_signature p with
  | Some client, None =>
      match VisionExtractor.analyze_signature_only w client path st with
      | (inr (s, t), st') =>
          (inr (ExtractedPrescription.set_doctor_signature (Some s) p,
                add_stage (StageSignature t (SignatureInfo.is_present s)) md),
           st')
      | (inl e, st') => (inl e, st')
      end
  | _, _ => (inr (p, md), st)
  end.
Proof.
  unfold signature_stage, VISION_ALWAYS_FOR_SIGNATURES, bind, ret.
  destruct (vision w) as [client|]; [|reflexivity].
  destruct (ExtractedPrescription.doctor_signature p); [reflexivity|].
  destruct (VisionExtractor.analyze_signature_only w client path st)
    as [[e|[s t]] st']; reflexivity.
Qed.

Lemma process_eq w path fv st :
  process w path fv st =
  let r := ocr_engine w path in
  let st1 := tick (elapsed r) st in
  match outcome r with
  | inl e => (inl e, st1)
  | inr (text, conf) =>
      let md0 := add_stage (StageOcr (elapsed r) conf (length text))
                           (initial_metadata path) in
      match primary_stage w path fv text conf
              (classify_prescription_type path conf) md0 st1 with
      | (inl e, st2) => (inl e, st2)
      | (inr (p1, md1), st2) =>
          match signature_stage w path
                  (ExtractedPrescription.set_ocr_text (Some text) p1) md1 st2
          with
          | (inl e, st3) => (inl e, st3)
          | (inr (p2, md2), st3) =>
              (inr (p2,
                    setm "final_confidence"
                      (MFloat (final_confidence p2 conf))
                      (setm "total_processing_time"
                         (MTime (clock st3 - clock st)) md2)),
               st3)
          end
      end
  end.
Proof.
  unfold process, bind, now, call_ocr, ret. cbv zeta.
  destruct (outcome (ocr_engine w path)) as [e|[text conf]]; [reflexivity|].
  replace (clock (tick (elapsed (ocr_engine w path)) st) - clock st)
    with (elapsed (ocr_engine w path)) by (cbn; lia).
  destruct (primary_stage _ _ _ _ _ _ _ _) as [[e|[p1 md1]] st2]; [reflexivity|].
  destruct (signature_stage _ _ _ _ _) as [[e|[p2 md2]] st3]; reflexivity.
Qed.

Ltac md_simpl :=
  repeat (rewrite stages_add_stage
          || (rewrite stages_setm by reflexivity)
          || rewrite getm_setm_same
          || (rewrite getm_setm_other by reflexivity)
          || (rewrite getm_add_stage by reflexivity)).

Lemma primary_stage_image w path fv text conf ty md st client :
  vision w = Some client ->
  tier_of w fv conf ty = ImageAnalysis ->
  primary_stage w path fv text conf ty md st =
  match VisionExtractor.extract_from_image w client path (Some text)
          (Some conf) st with
  | (inr (p, t), st') =>
      (inr (decorate (u "ocr_plus_llm") ty conf p,
            add_stage (StageVision t ty conf)
              (setm "extraction_method" (MStr (u "ocr_plus_llm_vision"))
                 (setm "vision_used" (MBool true) md))), st')
  | (inl e, st') => (inl e, st')
  end.
Proof.
  intros Hv Ht. unfold tier_of, select_tier in Ht. rewrite Hv in Ht.
  unfold primary_stage. cbv zeta.
  destruct (fv || needs_vision_enhancement conf ty).
  - rewrite Hv. unfold bind, ret.
    destruct (VisionExtractor.extract_from_image _ _ _ _ _ _)
      as [[e|[p t]] st']; reflexivity.
  - cbn in Ht. destruct (available (llm_text w)); discriminate.
Qed.

Lemma primary_stage_text w path fv text conf ty md st client :
  llm_text w = Some client ->
  tier_of w fv conf ty = TextAnalysis ->
  primary_stage w path fv text conf ty md st =
  match LLMExtractor.extract client text (Some (u "prescription")) st with
  | (inr (p, t), st') =>
      (inr (decorate (u "ocr_plus_llm_text") ty conf p,
            add_stage (StageLlmText t conf)
              (setm "llm_text_used" (MBool true)
                 (setm "vision_used" (MBool false)
                    (setm "extraction_method" (MStr (u "ocr_plus_llm_text"))
                       md)))), st')
  | (inl e, st') => (inl e, st')
  end.
Proof.
  intros Hl Ht. unfold tier_of, select_tier in Ht. rewrite Hl in Ht.
  unfold primary_stage. cbv zeta.
  assert (Hnone : (if fv || needs_vision_enhancement conf ty
                   then vision w else None) = None).
  { destruct (fv || needs_vision_enhancement conf ty); [|reflexivity].
    destruct (vision w); [discriminate Ht | reflexivity]. }
  rewrite Hnone, Hl. unfold bind, ret.
  destruct (LLMExtractor.extract _ _ _ _) as [[e|[p t]] st']; reflexivity.
Qed.

Lemma primary_stage_local w path fv text conf ty md st :
  tier_of w fv conf ty = LocalFallback ->
  primary_stage w path fv text conf ty md st =
  match OCRTextParser.parse text conf with
  | inr p =>
      (inr (ExtractedPrescription.set_prescription_type (Some ty) p,
            add_stage StageRegex
              (setm "vision_used" (MBool false)
                 (setm "extraction_method" (MStr (u "ocr_only_regex")) md))),
       st)
  | inl e => (inl e, st)
  end.
Proof.
  intros Ht. unfold tier_of, select_tier in Ht.
  unfold primary_stage. cbv zeta.
  assert (Hnone : (if fv || needs_vision_enhancement conf ty
                   then vision w else None) = None).
  { destruct (fv || needs_vision_enhancement conf ty); [|reflexivity].
    destruct (vision w); [|reflexivity].
    cbn in Ht. discriminate. }
  rewrite Hnone.
  destruct (llm_text w).
  - destruct (_ && _) in Ht; discriminate.
  - unfold bind, lift, ret.
    destruct (OCRTextParser.parse text conf); reflexivity.
Qed.

Lemma tier_image_available w fv conf ty :
  tier_of w fv conf ty = ImageAnalysis -> exists c, vision w = Some c.
Proof.
  unfold tier_of, select_tier. destruct (vision w); [eauto|].
  rewrite andb_false_r. destruct (available (llm_text w)); discriminate.
Qed.

Lemma tier_text_available w fv conf ty :
  tier_of w fv conf ty = TextAnalysis -> exists c, llm_text w = Some c.
Proof.
  unfold tier_of, select_tier. destruct (llm_text w); [eauto|].
  destruct (_ && _); discriminate.
Qed.

Lemma parse_inv text conf p :
  OCRTextParser.parse text conf = inr p ->
  ExtractedPrescription.document_type p = u "prescription"
  /\ ExtractedPrescription.extraction_method p = Some (u "ocr_only")
  /\ ExtractedPrescription.doctor_signature p = None
  /\ ExtractedPrescription.medications p = OCRTextParser._extract_medications text
  /\ ExtractedPrescription.confidence_score p = Some conf
  /\ ExtractedPrescription.ocr_confidence p = Some conf
  /\ in_unit conf = true.
Proof.
  unfold OCRTextParser.parse, check_unit, at_loc, rbind, bad, raise, ok.
  destruct (in_unit conf); [|discriminate].
  intros H. injection H as <-. cbn. repeat split; reflexivity.
Qed.

Lemma primary_stage_inv w path fv text conf ty md st p1 md1 st2 :
  primary_stage w path fv text conf ty md st = (inr (p1, md1), st2) ->
  ExtractedPrescription.extraction_method p1
    = Some (record_tag (tier_of w fv conf ty))
  /\ ExtractedPrescription.prescription_type p1 = Some ty
  /\ getm "extraction_method" md1
     = Some (MStr (metadata_tag (tier_of w fv conf ty)))
  /\ getm "error" md1 = getm "error" md
  /\ exists s, stages md1 = stages md ++ [s]
               /\ stage_name s = primary_stage_name (tier_of w fv conf ty).
Proof.
  intros H. destruct (tier_of w fv conf ty) eqn:Ht.
  - rewrite primary_stage_local in H by exact Ht.
    destruct (OCRTextParser.parse text conf) as [e|p] eqn:Hp; [discriminate|].
    injection H as <- <- <-. apply parse_inv in Hp.
    destruct Hp as (_ & Hm & _).
    repeat split; [exact Hm | md_simpl; reflexivity | md_simpl; reflexivity |].
    exists StageRegex. md_simpl. split; reflexivity.
  - destruct (tier_text_available _ _ _ _ Ht) as [c Hc].
    rewrite primary_stage_text with (client := c) in H by assumption.
    rewrite extract_eq in H. cbv zeta in H. injection H as <- <- <-.
    repeat split; [md_simpl; reflexivity | md_simpl; reflexivity |].
    eexists. md_simpl. split; reflexivity.
  - destruct (tier_image_available _ _ _ _ Ht) as [c Hc].
    rewrite primary_stage_image with (client := c) in H by assumption.
    rewrite extract_from_image_eq in H.
    destruct (image_readable w path) eqn:Hrd; cbv zeta in H; injection H as <- <- <-;
      (repeat split; [md_simpl; reflexivity | md_simpl; reflexivity |]);
      eexists; md_simpl; split; reflexivity.
Qed.

Lemma signature_stage_inv w path p0 md1 st r st' :
  signature_stage w path p0 md1 st = (r, st') ->
  match vision w, ExtractedPrescription.doctor_signature p0 with
  | Some client, None =>
      exists s t,
        VisionExtractor.analyze_signature_only w client path st
          = (inr (s, t), st')
        /\ r = inr (ExtractedPrescription.set_doctor_signature (Some s) p0,
                    add_stage (StageSignature t (SignatureInfo.is_present s))
                              md1)
  | _, _ => r = inr (p0, md1) /\ st' = st
  end.
Proof.
  rewrite signature_stage_eq.
  destruct (vision w) as [client|];
    [|intros H; injection H as <- <-; split; reflexivity].
  destruct (ExtractedPrescription.doctor_signature p0);
    [intros H; injection H as <- <-; split; reflexivity|].
  rewrite analyze_signature_only_eq.
  destruct (image_readable w path) eqn:Hrd; cbv zeta; intros H; injection H as <- <-;
    eauto.
Qed.

Lemma process_inv w path fv st p md st' :
  process w path fv st = (inr (p, md), st') ->
  exists text conf p1 md1 st2 md2,
    outcome (ocr_engine w path) = inr (text, conf)
    /\ primary_stage w path fv text conf
         (classify_prescription_type path conf)
         (add_stage (StageOcr (elapsed (ocr_engine w path)) conf
                              (length text))
                    (initial_metadata path))
         (tick (elapsed (ocr_engine w path)) st) = (inr (p1, md1), st2)
    /\ signature_stage w path
         (ExtractedPrescription.set_ocr_text (Some text) p1) md1 st2
       = (inr (p, md2), st')
    /\ md = setm "final_confidence" (MFloat (final_confidence p conf))
              (setm "total_processing_time" (MTime (clock st' - clock st))
                    md2).
Proof.
  rewrite process_eq. cbv zeta.
  destruct (outcome (ocr_engine w path)) as [e|[text conf]]; [discriminate|].
  destruct (primary_stage _ _ _ _ _ _ _ _) as [[e|[p1 md1]] st2] eqn:Hp;
    [discriminate|].
  destruct (signature_stage _ _ _ _ _) as [[e|[p2 md2]] st3] eqn:Hs;
    [discriminate|].
  intros H. injection H as <- <- <-.
  exists text, conf, p1, md1, st2, md2. repeat split; assumption.
Qed.

Lemma primary_name_not_signature s t :
  stage_name s = primary_stage_name t -> is_signature_stage s = false.
Proof.
  destruct s; try reflexivity.
  destruct t; intros H; vm_compute in H; discriminate H.
Qed.

Lemma stages_initial path : stages (initial_metadata path) = [].
Proof. reflexivity. Qed.

Lemma getm_error_initial path : getm "error" (initial_metadata path) = None.
Proof. reflexivity. Qed.

(** Everything a returning run of [process] went through. *)
Lemma process_trace w path fv st p md st' :
  process w path fv st = (inr (p, md), st') ->
  exists text conf p1 md1 st2 s1,
    outcome (ocr_engine w path) = inr (text, conf)
    /\ primary_stage w path fv text conf
         (classify_prescription_type path conf)
         (add_stage (StageOcr (elapsed (ocr_engine w path)) conf
                              (length text))
                    (initial_metadata path))
         (tick (elapsed (ocr_engine w path)) st) = (inr (p1, md1), st2)
    /\ ExtractedPrescription.extraction_method p
       = Some (record_tag (tier_of w fv conf
                             (classify_prescription_type path conf)))
    /\ getm "extraction_method" md
       = Some (MStr (metadata_tag (tier_of w fv conf
                                     (classify_prescription_type path conf))))
    /\ getm "error" md = None
    /\ stage_name s1
       = primary_stage_name (tier_of w fv conf
                               (classify_prescription_type path conf))
    /\ match vision w, ExtractedPrescription.doctor_signature p1 with
       | Some client, None =>
           exists s t,
             VisionExtractor.analyze_signature_only w client path st2
               = (inr (s, t), st')
             /\ p = ExtractedPrescription.set_doctor_signature (Some s)
                      (ExtractedPrescription.set_ocr_text (Some text) p1)
             /\ stages md
                = [StageOcr (elapsed (ocr_engine w path)) conf (length text);
                   s1; StageSignature t (SignatureInfo.is_present s)]
       | _, _ =>
           p = ExtractedPrescription.set_ocr_text (Some text) p1
           /\ st' = st2
           /\ stages md
              = [StageOcr (elapsed (ocr_engine w path)) conf (length text); s1]
       end.
Proof.
  intros H. apply process_inv in H.
  destruct H as (text & conf & p1 & md1 & st2 & md2 & Hocr & Hprim & Hsig & ->).
  pose proof Hprim as Hinv. apply primary_stage_inv in Hinv.
  destruct Hinv as (Hm & _ & Hmd & Herr & s1 & Hst & Hname).
  exists text, conf, p1, md1, st2, s1.
  split; [exact Hocr|]. split; [exact Hprim|].
  rewrite stages_add_stage, stages_initial in Hst. cbn [app] in Hst.
  rewrite getm_add_stage, getm_error_initial in Herr by reflexivity.
  apply signature_stage_inv in Hsig.
  change (ExtractedPrescription.doctor_signature
            (ExtractedPrescription.set_ocr_text (Some text) p1))
    with (ExtractedPrescription.doctor_signature p1) in Hsig.
  destruct (vision w) as [client|].
  - destruct (ExtractedPrescription.doctor_signature p1) as [sg|] eqn:Hd.
    + destruct Hsig as [Hr ->]. injection Hr as -> ->.
      md_simpl. repeat split; try assumption.
    + destruct Hsig as (s & t & Han & Hr). injection Hr as -> ->.
      md_simpl. repeat split; try assumption.
      exists s, t. rewrite Hst. repeat split; try assumption.
  - destruct Hsig as [Hr ->]. injection Hr as -> ->.
    md_simpl. repeat split; try assumption.
Qed.

(** C1.  The router returns one of the three tiers and follows the five
    rules in first-match-wins order; the override with image analysis
    available always yields image analysis; and the tier it names is the
    one [process] runs. *)
Theorem C1_router_first_match_wins :
  (forall override confidence ty image_available text_available,
      select_tier override confidence ty image_available text_available
      = route_spec override confidence ty image_available text_available)
  /\ (forall confidence ty text_available,
         select_tier true confidence ty true text_available = ImageAnalysis)
  /\ (forall w path override st p md st' text confidence,
         outcome (ocr_engine w path) = inr (text, confidence) ->
         process w path override st = (inr (p, md), st') ->
         getm "extraction_method" md
         = Some (MStr (metadata_tag
                         (route_spec override confidence
                            (classify_prescription_type path confidence)
                            (available (vision w))
                            (available (llm_text w)))))).
Proof.
  split; [|split].
  - intros. apply select_tier_route_spec.
  - intros. rewrite select_tier_route_spec. reflexivity.
  - intros w path fv st p md st' text conf Hocr H.
    apply process_trace in H.
    destruct H as (text' & conf' & p1 & md1 & st2 & s1 & Hocr' & _ & _ & Hmd & _).
    rewrite Hocr in Hocr'. injection Hocr' as <- <-.
    rewrite Hmd. unfold tier_of. now rewrite select_tier_route_spec.
Qed.

Lemma C1_witness :
  exists p md st',
    process Scenario.text_only Scenario.rx_path false Scenario.st0
    = (inr (p, md), st')
    /\ getm "extraction_method" md = Some (MStr (u "ocr_plus_llm_text")).
Proof.
  eexists _, _, _. split.
  - vm_compute. reflexivity.
  - eapply eq_trans.
    + eapply (proj2 (proj2 C1_router_first_match_wins)
                Scenario.text_only Scenario.rx_path false Scenario.st0).
      * reflexivity.
      * vm_compute. reflexivity.
    + vm_compute. reflexivity.
Defined.

Lemma classify_no_hint path c :
  no_hint path ->
  classify_prescription_type path c
  = if Qltb c 0.5 then HANDWRITTEN else if Qltb c 0.7 then MIXED else PRINTED.
Proof.
  intros (H1 & H2 & H3 & H4 & H5).
  unfold classify_prescription_type.
  unfold has_keyword, folder_hint in *.
  now rewrite H1, H2, H3, H4, H5.
Qed.

Lemma Qltb_ge (a b : Q) : Qltb a b = false <-> (b <= a)%Q.
Proof.
  unfold Qltb. rewrite negb_false_iff. apply Qle_bool_iff.
Qed.

(** C8.  A directory keyword wins outright (in the order handwrit, print,
    mixed, screen or digital); without one the type follows the
    breakpoints 0.5 and 0.7, and is monotone in the confidence. *)
Theorem C8_classifier :
  (forall path c, has_keyword path "handwrit" = true ->
      classify_prescription_type path c = HANDWRITTEN)
  /\ (forall path c, has_keyword path "handwrit" = false ->
         has_keyword path "print" = true ->
         classify_prescription_type path c = PRINTED)
  /\ (forall path c, has_keyword path "handwrit" = false ->
         has_keyword path "print" = false ->
         has_keyword path "mixed" = true ->
         classify_prescription_type path c = MIXED)
  /\ (forall path c, has_keyword path "handwrit" = false ->
         has_keyword path "print" = false ->
         has_keyword path "mixed" = false ->
         has_keyword path "screen" = true \/ has_keyword path "digital" = true ->
         classify_prescription_type path c = DIGITAL)
  /\ (forall path c, no_hint path -> (c < 0.5)%Q ->
         classify_prescription_type path c = HANDWRITTEN)
  /\ (forall path c, no_hint path -> (0.5 <= c)%Q -> (c < 0.7)%Q ->
         classify_prescription_type path c = MIXED)
  /\ (forall path c, no_hint path -> (0.7 <= c)%Q ->
         classify_prescription_type path c = PRINTED)
  /\ (forall path c1 c2, no_hint path -> (c1 < c2)%Q ->
         (clarity (classify_prescription_type path c1)
          <= clarity (classify_prescription_type path c2))%nat).
Proof.
  unfold has_keyword, folder_hint.
  repeat split.
  - intros path c H. unfold classify_prescription_type. now rewrite H.
  - intros path c H1 H2. unfold classify_prescription_type.
    now rewrite H1, H2.
  - intros path c H1 H2 H3. unfold classify_prescription_type.
    now rewrite H1, H2, H3.
  - intros path c H1 H2 H3 H4. unfold classify_prescription_type.
    rewrite H1, H2, H3.
    destruct H4 as [H4|H4]; rewrite H4; [reflexivity|].
    now rewrite orb_true_r.
  - intros path c Hn Hc. rewrite classify_no_hint by exact Hn.
    apply Qltb_lt in Hc. now rewrite Hc.
  - intros path c Hn Hlo Hhi. rewrite classify_no_hint by exact Hn.
    apply Qltb_ge in Hlo. apply Qltb_lt in Hhi. now rewrite Hlo, Hhi.
  - intros path c Hn Hc. rewrite classify_no_hint by exact Hn.
    assert (H5 : (0.5 <= c)%Q).
    { eapply Qle_trans; [|exact Hc]. discriminate. }
    apply Qltb_ge in Hc, H5. now rewrite Hc, H5.
  - intros path c1 c2 Hn Hlt. rewrite !classify_no_hint by exact Hn.
    destruct (Qltb c1 0.5) eqn:E1; [cbn; lia|].
    apply Qltb_ge in E1.
    assert (E2 : Qltb c2 0.5 = false).
    { apply Qltb_ge. apply Qlt_le_weak. eapply Qle_lt_trans; eassumption. }
    rewrite E2.
    destruct (Qltb c1 0.7) eqn:E3; [destruct (Qltb c2 0.7); cbn; lia|].
    apply Qltb_ge in E3.
    assert (E4 : Qltb c2 0.7 = false).
    { apply Qltb_ge. apply Qlt_le_weak. eapply Qle_lt_trans; eassumption. }
    rewrite E4. cbn. lia.
Qed.

Lemma C8_witness :
  classify_prescription_type
    (Path.mk [] [u "data"; u "Handwritten_2024"; u "a.png"]) 0.95%Q
  = HANDWRITTEN
  /\ classify_prescription_type
       (Path.mk [] [u "data"; u "printed"; u "a.png"]) 0.2%Q = PRINTED
  /\ classify_prescription_type
       (Path.mk [] [u "data"; u "Mixed"; u "a.png"]) 0.9%Q = MIXED
  /\ classify_prescription_type
       (Path.mk [] [u "data"; u "screenshots"; u "a.png"]) 0.2%Q = DIGITAL
  /\ classify_prescription_type Scenario.rx_path 0.45%Q = HANDWRITTEN
  /\ classify_prescription_type Scenario.rx_path 0.5%Q = MIXED
  /\ classify_prescription_type Scenario.rx_path 0.7%Q = PRINTED
  /\ (clarity (classify_prescription_type Scenario.rx_path 0.45%Q)
      <= clarity (classify_prescription_type Scenario.rx_path 0.65%Q))%nat.
Proof.
  destruct C8_classifier as (H1 & H2 & H3 & H4 & H5 & H6 & H7 & H8).
  split; [apply H1; reflexivity|].
  split; [apply H2; reflexivity|].
  split; [apply H3; reflexivity|].
  split; [apply H4; try reflexivity; left; reflexivity|].
  split; [apply H5; [repeat split | reflexivity]|].
  split; [apply H6; [repeat split | discriminate | reflexivity]|].
  split; [apply H7; [repeat split | discriminate]|].
  apply H8; [repeat split | reflexivity].
Defined.

Lemma batch_loop_trace w fv :
  forall paths acc st,
  exists results st',
    batch_loop w paths fv acc st = (inr (acc ++ results), st')
    /\ batch_trace w fv st paths results st'.
Proof.
  induction paths as [|path rest IH]; intros acc st.
  - exists [], st. cbn. unfold ret. rewrite app_nil_r. split; [reflexivity|].
    constructor.
  - cbn [batch_loop]. unfold bind, try_except.
    destruct (process w path fv st) as [[e|[p md]] st1] eqn:Hp.
    + unfold ret.
      destruct (IH (acc ++ [error_entry path e]) st1)
        as (results & st' & Hloop & Htrace).
      exists (error_entry path e :: results), st'.
      split; [|eapply bt_failed; eassumption].
      etransitivity; [exact Hloop|]. now rewrite <- app_assoc.
    + destruct (IH (acc ++ [(p, md)]) st1) as (results & st' & Hloop & Htrace).
      exists ((p, md) :: results), st'. cbv beta iota.
      split; [|eapply bt_processed; eassumption].
      etransitivity; [exact Hloop|]. now rewrite <- app_assoc.
Qed.

Lemma batch_trace_length w fv st paths results st' :
  batch_trace w fv st paths results st' -> length results = length paths.
Proof. induction 1; cbn; congruence. Qed.

(** C9.  [process_batch] never raises; it returns one entry per input, in
    input order; a document whose processing raises contributes the error
    entry with its path and the text of the exception, and the documents
    after it are still processed. *)
Theorem C9_batch_never_aborts :
  forall w paths force_vision st,
  exists results st',
    process_batch w paths force_vision st = (inr results, st')
    /\ length results = length paths
    /\ batch_trace w force_vision st paths results st'
    /\ forall path e,
         getm "error" (snd (error_entry path e)) = Some (MStr (exn_str e))
         /\ getm "file_path" (snd (error_entry path e))
            = Some (MStr (Path.to_str path)).
Proof.
  intros w paths fv st.
  destruct (batch_loop_trace w fv paths [] st) as (results & st' & Hloop & Ht).
  exists results, st'. unfold process_batch. rewrite Hloop.
  split; [reflexivity|]. split; [eapply batch_trace_length; eassumption|].
  split; [exact Ht|]. intros path e. split; reflexivity.
Qed.

Lemma process_no_error_key w path fv st p md st' :
  process w path fv st = (inr (p, md), st') -> getm "error" md = None.
Proof.
  intros H. apply process_trace in H.
  destruct H as (? & ? & ? & ? & ? & ? & _ & _ & _ & _ & H & _). exact H.
Qed.

Lemma batch_trace_error_entries w fv st paths results st' :
  batch_trace w fv st paths results st' ->
  Forall (fun r : Result =>
            getm "error" (snd r) <> None ->
            fst r = ExtractedPrescription.of_type (u "prescription"))
         results.
Proof.
  induction 1; constructor; try assumption.
  - cbn. intros Hk. apply process_no_error_key in H. contradiction.
  - intros _. reflexivity.
Qed.

(** Every record [process] returns has its type and its OCR text set. *)
Lemma process_classified w path fv st p md st' :
  process w path fv st = (inr (p, md), st') ->
  exists text conf,
    outcome (ocr_engine w path) = inr (text, conf)
    /\ ExtractedPrescription.prescription_type p
       = Some (classify_prescription_type path conf)
    /\ ExtractedPrescription.ocr_text p = Some text.
Proof.
  intros H. apply process_trace in H.
  destruct H as (text & conf & p1 & md1 & st2 & s1 & Hocr & Hprim & _ & _
                 & _ & _ & Hsig).
  exists text, conf. split; [exact Hocr|].
  apply primary_stage_inv in Hprim. destruct Hprim as (_ & Hty & _).
  destruct (vision w) as [client|].
  - destruct (ExtractedPrescription.doctor_signature p1).
    + destruct Hsig as (-> & _). split; [exact Hty | reflexivity].
    + destruct Hsig as (s & t & _ & -> & _). split; [exact Hty | reflexivity].
  - destruct Hsig as (-> & _). split; [exact Hty | reflexivity].
Qed.

(** C10 (as the code has it).  The record of an error entry is the default
    record: resolved document type "prescription", no medications, no
    signature, and neither a prescription type nor an OCR text.  A result
    of [process] never has the "error" key and an error entry always has
    it; a successful run can yield the same document type with no
    medications and no signature, so these three fields do not tell a
    failed document from a successful one.  The record itself does: every
    record [process] returns has its prescription type and its OCR text
    set, and so differs from the record of every error entry. *)
Theorem C10_error_entry_record :
  (forall path e,
      fst (error_entry path e) = ExtractedPrescription.of_type (u "prescription")
      /\ ExtractedPrescription.document_type (fst (error_entry path e))
         = u "prescription"
      /\ ExtractedPrescription.document_type (fst (error_entry path e))
         <> u "unknown"
      /\ ExtractedPrescription.medications (fst (error_entry path e)) = []
      /\ ExtractedPrescription.doctor_signature (fst (error_entry path e))
         = None
      /\ ExtractedPrescription.prescription_type (fst (error_entry path e))
         = None
      /\ ExtractedPrescription.ocr_text (fst (error_entry path e)) = None
      /\ getm "error" (snd (error_entry path e)) = Some (MStr (exn_str e)))
  /\ (forall w path force_vision st p md st',
         process w path force_vision st = (inr (p, md), st') ->
         getm "error" md = None)
  /\ (forall w paths force_vision st results st',
         process_batch w paths force_vision st = (inr results, st') ->
         Forall (fun r : Result =>
                   getm "error" (snd r) <> None ->
                   fst r = ExtractedPrescription.of_type (u "prescription"))
                results)
  /\ (exists p md st',
         process (Scenario.local_only []) Scenario.rx_path false Scenario.st0
         = (inr (p, md), st')
         /\ ExtractedPrescription.document_type p = u "prescription"
         /\ ExtractedPrescription.medications p = []
         /\ ExtractedPrescription.doctor_signature p = None)
  /\ (forall w path force_vision st p md st',
         process w path force_vision st = (inr (p, md), st') ->
         ExtractedPrescription.prescription_type p <> None
         /\ ExtractedPrescription.ocr_text p <> None
         /\ forall path' e, p <> fst (error_entry path' e)).
Proof.
  split; [|split; [|split; [|split]]].
  - intros path e. repeat split; try reflexivity.
    intros H. vm_compute in H. discriminate H.
  - intros. eapply process_no_error_key; eassumption.
  - intros w paths fv st results st' H.
    destruct (batch_loop_trace w fv paths [] st) as (r & s & Hloop & Ht).
    unfold process_batch in H. rewrite Hloop in H. injection H as <- <-.
    eapply batch_trace_error_entries; eassumption.
  - eexists _, _, _. split; [vm_compute; reflexivity|].
    repeat split; reflexivity.
  - intros w path fv st p md st' H. apply process_classified in H.
    destruct H as (text & conf & _ & Hty & Htext).
    split; [rewrite Hty; discriminate|].
    split; [rewrite Htext; discriminate|].
    intros path' e ->. discriminate Htext.
Qed.

Lemma C10_witness :
  (exists p md st',
      process (Scenario.local_only Scenario.amoxicillin_line)
              Scenario.rx_path false Scenario.st0 = (inr (p, md), st')
      /\ getm "error" md = None
      /\ ExtractedPrescription.prescription_type p <> None
      /\ ExtractedPrescription.ocr_text p <> None)
  /\ (exists results st',
         process_batch (Scenario.local_only Scenario.amoxicillin_line)
           [Scenario.rx_path; Scenario.rx_path] false Scenario.st0
         = (inr results, st')
         /\ Forall (fun r : Result =>
                      getm "error" (snd r) <> None ->
                      fst r = ExtractedPrescription.of_type (u "prescription"))
                   results).
Proof.
  destruct C10_error_entry_record as (_ & H2 & H3 & _ & H5).
  split.
  - eexists _, _, _. split.
    + vm_compute. reflexivity.
    + split.
      * eapply (H2 (Scenario.local_only Scenario.amoxicillin_line)
                   Scenario.rx_path false Scenario.st0).
        vm_compute. reflexivity.
      * edestruct (H5 (Scenario.local_only Scenario.amoxicillin_line)
                      Scenario.rx_path false Scenario.st0) as (A & B & _).
        { vm_compute. reflexivity. }
        split; [exact A | exact B].
  - eexists _, _. split.
    + vm_compute. reflexivity.
    + eapply (H3 (Scenario.local_only Scenario.amoxicillin_line)
                 [Scenario.rx_path; Scenario.rx_path] false Scenario.st0).
      vm_compute. reflexivity.
Defined.

(** The claim as worded fails: an empty successful document and a failed
    one differ in the record itself, not only in the "error" key. *)
Lemma C10_counterexample :
  exists p md st',
    process (Scenario.local_only []) Scenario.rx_path false Scenario.st0
    = (inr (p, md), st')
    /\ ExtractedPrescription.document_type p = u "prescription"
    /\ ExtractedPrescription.medications p = []
    /\ ExtractedPrescription.doctor_signature p = None
    /\ ExtractedPrescription.prescription_type p = Some PRINTED
    /\ ExtractedPrescription.ocr_text p = Some []
    /\ ExtractedPrescription.prescription_type
         (fst (error_entry Scenario.rx_path (ValueError []))) = None
    /\ ExtractedPrescription.ocr_text
         (fst (error_entry Scenario.rx_path (ValueError []))) = None
    /\ p <> fst (error_entry Scenario.rx_path (ValueError [])).
Proof.
  eexists _, _, _. split; [vm_compute; reflexivity|].
  repeat split; try reflexivity.
  intros H. vm_compute in H. discriminate H.
Qed.

(** C3 (as the code has it).  The record of a returning run carries
    "ocr_only", "ocr_plus_llm_text" or "ocr_plus_llm" for the local, text
    and image tier, and the metadata "ocr_only_regex", "ocr_plus_llm_text"
    or "ocr_plus_llm_vision"; the signature stage does not change either. *)
Theorem C3_extraction_method_values :
  forall w path force_vision st p md st',
    process w path force_vision st = (inr (p, md), st') ->
    exists text conf,
      outcome (ocr_engine w path) = inr (text, conf)
      /\ ExtractedPrescription.extraction_method p
         = Some (match select_tier force_vision conf
                         (classify_prescription_type path conf)
                         (available (vision w)) (available (llm_text w)) with
                 | LocalFallback => u "ocr_only"
                 | TextAnalysis => u "ocr_plus_llm_text"
                 | ImageAnalysis => u "ocr_plus_llm"
                 end)
      /\ getm "extraction_method" md
         = Some (MStr (match select_tier force_vision conf
                               (classify_prescription_type path conf)
                               (available (vision w))
                               (available (llm_text w)) with
                       | LocalFallback => u "ocr_only_regex"
                       | TextAnalysis => u "ocr_plus_llm_text"
                       | ImageAnalysis => u "ocr_plus_llm_vision"
                       end)).
Proof.
  intros w path fv st p md st' H. apply process_trace in H.
  destruct H as (text & conf & p1 & md1 & st2 & s1 & Hocr & _ & Hp & Hmd & _).
  exists text, conf. split; [exact Hocr|]. split; [exact Hp | exact Hmd].
Qed.

Lemma C3_witness :
  exists p md st',
    process Scenario.vision_only Scenario.rx_path false Scenario.st0
    = (inr (p, md), st')
    /\ ExtractedPrescription.extraction_method p = Some (u "ocr_plus_llm")
    /\ getm "extraction_method" md = Some (MStr (u "ocr_plus_llm_vision")).
Proof.
  eexists _, _, _. split; [vm_compute; reflexivity|].
  edestruct (C3_extraction_method_values
               Scenario.vision_only Scenario.rx_path false Scenario.st0)
    as (text & conf & Hocr & Hp & Hmd).
  { vm_compute. reflexivity. }
  vm_compute in Hocr. injection Hocr as Ht Hc. subst text conf.
  split; [exact Hp | exact Hmd].
Defined.

Lemma C3_counterexample :
  exists p md st',
    process Scenario.text_only Scenario.rx_path false Scenario.st0
    = (inr (p, md), st')
    /\ select_tier false 0.8%Q
         (classify_prescription_type Scenario.rx_path 0.8%Q) false true
       = TextAnalysis
    /\ ExtractedPrescription.extraction_method p
       = Some (u "ocr_plus_llm_text")
    /\ ExtractedPrescription.extraction_method p
       <> Some (u "remote_text_structuring").
Proof.
  eexists _, _, _. split; [vm_compute; reflexivity|].
  split; [reflexivity|]. split; [reflexivity|].
  intros H. vm_compute in H. discriminate H.
Qed.

Lemma signature_of_failure r e :
  signature_attempt r = inl e -> signature_of r = SignatureInfo.default.
Proof.
  unfold signature_of, signature_attempt. now intros ->.
Qed.

(** C4 (as the code has it).  The signature stage runs exactly when the
    image-analysis strategy is available and the record of the primary
    stage has no signature.  When it runs, [analyze_signature_only] is
    called once, on the state the primary stage left, and its result
    becomes the signature of the record; when it does not run, nothing is
    called and the record is that of the primary stage, so a signature the
    primary stage attached is kept.  [analyze_signature_only] never raises:
    when the image is missing or cannot be read it makes no call, and then,
    as when the remote call raises or its answer does not parse or
    validate, it returns [SignatureInfo(is_present=False)]; otherwise it
    makes one call and returns the signature of the answer. *)
Theorem C4_signature_stage :
  (forall w path force_vision st p md st',
      process w path force_vision st = (inr (p, md), st') ->
      exists text p1 st2,
        primary_run w path force_vision st = Some (text, p1, st2)
        /\ primary_record w path force_vision st = Some p1
        /\ (signature_stage_ran md = true <->
            available (vision w) = true
            /\ ExtractedPrescription.doctor_signature p1 = None)
        /\ match vision w, ExtractedPrescription.doctor_signature p1 with
           | Some client, None =>
               exists s t,
                 VisionExtractor.analyze_signature_only w client path st2
                 = (inr (s, t), st')
                 /\ p = ExtractedPrescription.set_doctor_signature (Some s)
                          (ExtractedPrescription.set_ocr_text (Some text) p1)
                 /\ In (StageSignature t (SignatureInfo.is_present s))
                       (stages md)
           | _, _ =>
               p = ExtractedPrescription.set_ocr_text (Some text) p1
               /\ st' = st2
           end
        /\ (forall s, ExtractedPrescription.doctor_signature p1 = Some s ->
                      ExtractedPrescription.doctor_signature p = Some s)
        /\ (signature_stage_ran md = false ->
            ExtractedPrescription.doctor_signature p
            = ExtractedPrescription.doctor_signature p1))
  /\ (forall w client path st,
         exists s t st',
           VisionExtractor.analyze_signature_only w client path st
           = (inr (s, t), st')
           /\ (image_exists w path = false -> s = SignatureInfo.default)
           /\ (image_readable w path = false ->
               s = SignatureInfo.default /\ st' = st)
           /\ (image_readable w path = true ->
               s = signature_of
                     (outcome (client (vision_calls st) path SignaturePrompt))
               /\ vision_calls st' = S (vision_calls st)
               /\ llm_calls st' = llm_calls st)
           /\ (forall e,
                  signature_attempt
                    (outcome (client (vision_calls st) path SignaturePrompt))
                  = inl e ->
                  s = SignatureInfo.default))
  /\ SignatureInfo.default
     = SignatureInfo.mk false None None None None None.
Proof.
  split; [|split; [|reflexivity]].
  - intros w path fv st p md st' H. apply process_trace in H.
    destruct H as (text & conf & p1 & md1 & st2 & s1 & Hocr & Hprim & _ & _
                   & _ & Hname & Hsig).
    exists text, p1, st2. split.
    { unfold primary_run. rewrite Hocr, Hprim. reflexivity. }
    split.
    { unfold primary_record. rewrite Hocr, Hprim. reflexivity. }
    apply primary_name_not_signature in Hname.
    unfold signature_stage_ran.
    destruct (vision w) as [client|].
    + destruct (ExtractedPrescription.doctor_signature p1) as [sg|] eqn:Hd.
      * destruct Hsig as (-> & -> & ->). cbn. rewrite Hname. cbn.
        repeat split; intros; try discriminate; try congruence;
          try (match goal with H : _ /\ _ |- _ => destruct H end;
               discriminate).
      * destruct Hsig as (s & t & Hcall & -> & ->). cbn. rewrite Hname. cbn.
        split; [split; [intros _; split; reflexivity | reflexivity]|].
        split.
        { exists s, t. split; [exact Hcall|]. split; [reflexivity|].
          right. right. now left. }
        split; intros; try discriminate; congruence.
    + destruct Hsig as (-> & -> & ->). cbn. rewrite Hname. cbn.
      repeat split; intros; try discriminate; try congruence;
        try (match goal with H : _ /\ _ |- _ => destruct H end;
             discriminate).
  - intros w client path st. rewrite analyze_signature_only_eq.
    destruct (image_readable w path) eqn:Hrd; cbv zeta.
    + eexists _, _, _. split; [reflexivity|].
      split; [now intros Hx; rewrite (missing_unreadable _ _ Hx) in Hrd|].
      split; [discriminate|].
      split; [intros _; repeat split; reflexivity|].
      intros e He. eapply signature_of_failure; eassumption.
    + eexists _, _, _. split; [reflexivity|].
      split; [reflexivity|]. split; [split; reflexivity|].
      split; [discriminate | reflexivity].
Qed.

Lemma C4_witness :
  (exists p md st',
      process Scenario.vision_signed Scenario.rx_path false Scenario.st0
      = (inr (p, md), st')
      /\ signature_stage_ran md = false
      /\ ExtractedPrescription.doctor_signature p
         = Some (SignatureInfo.mk true None None None None (Some 0.9%Q))
      /\ vision_calls st' = 1%nat)
  /\ (exists p md st',
         process Scenario.vision_only Scenario.rx_path false Scenario.st0
         = (inr (p, md), st')
         /\ signature_stage_ran md = true
         /\ ExtractedPrescription.doctor_signature p
            = Some SignatureInfo.default
         /\ vision_calls st' = 2%nat).
Proof.
  split.
  - eexists _, _, _. split; [vm_compute; reflexivity|].
    edestruct (proj1 C4_signature_stage
                 Scenario.vision_signed Scenario.rx_path false Scenario.st0)
      as (text & p1 & st2 & Hrun & Hp1 & Hiff & Hcall & Hkeep & _).
    { vm_compute. reflexivity. }
    vm_compute in Hp1. injection Hp1 as Hp1. subst p1.
    split; [reflexivity|]. split; [apply Hkeep; reflexivity|]. reflexivity.
  - eexists _, _, _. split; [vm_compute; reflexivity|].
    edestruct (proj1 C4_signature_stage
                 Scenario.vision_only Scenario.rx_path false Scenario.st0)
      as (text & p1 & st2 & Hrun & Hp1 & Hiff & Hcall & _).
    { vm_compute. reflexivity. }
    vm_compute in Hp1. injection Hp1 as Hp1. subst p1.
    split; [apply Hiff; split; reflexivity|].
    split; reflexivity.
Defined.

Lemma C4_counterexample :
  exists p md st' p1,
    process Scenario.text_only Scenario.rx_path false Scenario.st0
    = (inr (p, md), st')
    /\ primary_record Scenario.text_only Scenario.rx_path false Scenario.st0
       = Some p1
    /\ ExtractedPrescription.doctor_signature p1 = None
    /\ signature_stage_ran md = false
    /\ ExtractedPrescription.doctor_signature p = None.
Proof.
  eexists _, _, _, _. split; [vm_compute; reflexivity|].
  split; [vm_compute; reflexivity|].
  repeat split; reflexivity.
Qed.

Lemma text_attempt_failure r e :
  text_attempt r = inl e ->
  attempt_document r = LLMExtractor.unknown_document.
Proof. unfold attempt_document. now intros ->. Qed.

Lemma vision_attempt_failure c r e :
  vision_attempt c r = inl e ->
  vision_document c r = VisionExtractor.failed_document.
Proof. unfold vision_document. now intros ->. Qed.

Lemma primary_stage_calls w path fv text conf ty md st r st' :
  primary_stage w path fv text conf ty md st = (r, st') ->
  (llm_calls st' + vision_calls st' <= S (llm_calls st + vision_calls st))%nat.
Proof.
  intros H. destruct (tier_of w fv conf ty) eqn:Ht.
  - rewrite primary_stage_local in H by exact Ht.
    destruct (OCRTextParser.parse text conf); injection H as <- <-; lia.
  - destruct (tier_text_available _ _ _ _ Ht) as [c Hc].
    rewrite primary_stage_text with (client := c) in H by assumption.
    rewrite extract_eq in H. cbv zeta in H. injection H as <- <-. cbn. lia.
  - destruct (tier_image_available _ _ _ _ Ht) as [c Hc].
    rewrite primary_stage_image with (client := c) in H by assumption.
    rewrite extract_from_image_eq in H.
    destruct (image_readable w path) eqn:Hrd; cbv zeta in H; injection H as <- <-;
      cbn; lia.
Qed.

(** C2 (as the code has it).  [extract_with_retry] is the bounded retry
    loop: with [max_retries = 2] and three failing attempts it makes exactly
    three calls and returns the minimal "unknown" record with the elapsed
    times added up; it never raises; the first attempt with a resolved
    document type ends it.  The primary stage of [process] makes a single
    attempt: one remote call at most, the "unknown" record for a failed text
    attempt and a minimal "prescription" record for a failed image
    attempt. *)
Theorem C2_retry_and_single_attempt :
  (forall client ocr_text document_type st,
      (forall i, (i < 3)%nat ->
         attempt_fails client (ExtractionPrompt ocr_text document_type)
                       (llm_calls st + i)) ->
      LLMExtractor.extract_with_retry client ocr_text document_type 2 st
      = (inr (LLMExtractor.unknown_document,
              elapsed_sum client (ExtractionPrompt ocr_text document_type)
                          (llm_calls st) 3),
         after_text_calls st 3
           (elapsed_sum client (ExtractionPrompt ocr_text document_type)
                        (llm_calls st) 3)))
  /\ (ExtractedPrescription.document_type LLMExtractor.unknown_document
      = u "unknown"
      /\ ExtractedPrescription.medications LLMExtractor.unknown_document = []
      /\ ExtractedPrescription.doctor_signature LLMExtractor.unknown_document
         = None)
  /\ (forall r e, text_attempt r = inl e ->
        ExtractedPrescription.document_type (attempt_document r) = u "unknown")
  /\ (forall client ocr_text document_type max_retries st,
        exists doc t st',
          LLMExtractor.extract_with_retry client ocr_text document_type
            max_retries st = (inr (doc, t), st'))
  /\ (forall client ocr_text document_type max_retries st k,
        (k <= Z.to_nat max_retries)%nat -> 0 <= max_retries ->
        (forall i, (i < k)%nat ->
           attempt_fails client (ExtractionPrompt ocr_text document_type)
                         (llm_calls st + i)) ->
        ~ attempt_fails client (ExtractionPrompt ocr_text document_type)
                        (llm_calls st + k) ->
        LLMExtractor.extract_with_retry client ocr_text document_type
          max_retries st
        = (inr (attempt_document
                  (outcome (client (llm_calls st + k)%nat
                              (ExtractionPrompt ocr_text document_type))),
                elapsed_sum client (ExtractionPrompt ocr_text document_type)
                            (llm_calls st) (S k)),
           after_text_calls st (S k)
             (elapsed_sum client (ExtractionPrompt ocr_text document_type)
                          (llm_calls st) (S k))))
  /\ (forall w path force_vision text conf ty md st r st',
        primary_stage w path force_vision text conf ty md st = (r, st') ->
        (llm_calls st' + vision_calls st'
         <= S (llm_calls st + vision_calls st))%nat)
  /\ (forall w path force_vision text conf ty md st client,
        llm_text w = Some client ->
        tier_of w force_vision conf ty = TextAnalysis ->
        exists md',
          primary_stage w path force_vision text conf ty md st
          = (inr (decorate (u "ocr_plus_llm_text") ty conf
                    (attempt_document
                       (outcome (client (llm_calls st)
                                   (ExtractionPrompt text
                                      (Some (u "prescription")))))), md'),
             after_text st
               (elapsed (client (llm_calls st)
                           (ExtractionPrompt text (Some (u "prescription")))))))
  /\ (forall w path force_vision text conf ty md st client,
        vision w = Some client ->
        tier_of w force_vision conf ty = ImageAnalysis ->
        exists p md' st',
          primary_stage w path force_vision text conf ty md st
          = (inr (decorate (u "ocr_plus_llm") ty conf p, md'), st')
          /\ (image_exists w path = false ->
              p = VisionExtractor.failed_document)
          /\ (forall e,
                vision_attempt (Some conf)
                  (outcome (client (vision_calls st) path
                              (vision_prompt (Some text) (Some conf))))
                = inl e ->
                p = VisionExtractor.failed_document))
  /\ (ExtractedPrescription.document_type VisionExtractor.failed_document
      = u "prescription"
      /\ ExtractedPrescription.medications VisionExtractor.failed_document = []
      /\ ExtractedPrescription.doctor_signature VisionExtractor.failed_document
         = None).
Proof.
  split; [|split; [|split; [|split; [|split; [|split; [|split; [|split]]]]]]].
  - intros client text dt st Hfail.
    unfold LLMExtractor.extract_with_retry. change (Z.to_nat (2 + 1)) with 3%nat.
    rewrite retry_loop_all_fail by exact Hfail. reflexivity.
  - repeat split; reflexivity.
  - intros r e H. apply text_attempt_failure in H. rewrite H. reflexivity.
  - intros. apply retry_loop_returns.
  - intros client text dt mr st k Hk Hmr Hfail Hok.
    unfold LLMExtractor.extract_with_retry.
    rewrite retry_loop_first_success with (k := k); try assumption.
    + reflexivity.
    + lia.
  - intros. eapply primary_stage_calls; eassumption.
  - intros w path fv text conf ty md st client Hc Ht.
    rewrite primary_stage_text with (client := client) by assumption.
    rewrite extract_eq. cbv zeta. eexists. reflexivity.
  - intros w path fv text conf ty md st client Hc Ht.
    rewrite primary_stage_image with (client := client) by assumption.
    rewrite extract_from_image_eq.
    destruct (image_readable w path) eqn:Hrd; cbv zeta.
    + eexists _, _, _. split; [reflexivity|]. split; [now intros Hx; rewrite (missing_unreadable _ _ Hx) in Hrd|].
      intros e He. eapply vision_attempt_failure; eassumption.
    + eexists _, _, _. split; [reflexivity|]. split; reflexivity.
  - repeat split; reflexivity.
Qed.

Lemma C2_witness :
  LLMExtractor.extract_with_retry
    (Scenario.text_always (inr Scenario.prose) 7)
    Scenario.amoxicillin_line None 2 Scenario.st0
  = (inr (LLMExtractor.unknown_document, 21),
     {| clock := 21; llm_calls := 3; vision_calls := 0 |})
  /\ ExtractedPrescription.document_type
       (attempt_document (inr Scenario.prose)) = u "unknown"
  /\ LLMExtractor.extract_with_retry Scenario.text_recovering
       Scenario.amoxicillin_line None 2 Scenario.st0
     = (inr (ExtractedPrescription.of_type (u "prescription"), 14),
        {| clock := 14; llm_calls := 2; vision_calls := 0 |})
  /\ (exists r st',
         primary_stage Scenario.text_only Scenario.rx_path false
           Scenario.amoxicillin_line 0.8%Q PRINTED [] Scenario.st0 = (r, st')
         /\ (llm_calls st' + vision_calls st' <= 1)%nat)
  /\ (exists md',
         primary_stage Scenario.text_only Scenario.rx_path false
           Scenario.amoxicillin_line 0.8%Q PRINTED [] Scenario.st0
         = (inr (decorate (u "ocr_plus_llm_text") PRINTED 0.8%Q
                   LLMExtractor.unknown_document, md'),
            {| clock := 7; llm_calls := 1; vision_calls := 0 |}))
  /\ (exists md' st',
         primary_stage Scenario.vision_only Scenario.rx_path false
           Scenario.amoxicillin_line 0.45%Q HANDWRITTEN [] Scenario.st0
         = (inr (decorate (u "ocr_plus_llm") HANDWRITTEN 0.45%Q
                   VisionExtractor.failed_document, md'), st')).
Proof.
  destruct C2_retry_and_single_attempt
    as (H1 & _ & H3 & _ & H5 & H6 & H7 & H8 & _).
  split; [|split; [|split; [|split; [|split]]]].
  - eapply eq_trans.
    + apply (H1 (Scenario.text_always (inr Scenario.prose) 7)
                Scenario.amoxicillin_line None Scenario.st0).
      intros i _. vm_compute. reflexivity.
    + vm_compute. reflexivity.
  - eapply (H3 (inr Scenario.prose)). vm_compute. reflexivity.
  - eapply eq_trans.
    + apply (H5 Scenario.text_recovering Scenario.amoxicillin_line None 2
                Scenario.st0 1%nat).
      * vm_compute. lia.
      * lia.
      * intros [|i] Hi; [vm_compute; reflexivity | lia].
      * intros H. vm_compute in H. discriminate H.
    + vm_compute. reflexivity.
  - eexists _, _. split; [vm_compute; reflexivity|].
    eapply (H6 Scenario.text_only Scenario.rx_path false
               Scenario.amoxicillin_line 0.8%Q PRINTED [] Scenario.st0).
    vm_compute. reflexivity.
  - edestruct (H7 Scenario.text_only Scenario.rx_path false
                  Scenario.amoxicillin_line 0.8%Q PRINTED [] Scenario.st0)
      as [md' Hrun]; [reflexivity | reflexivity |].
    exists md'. rewrite Hrun. vm_compute. reflexivity.
  - edestruct (H8 Scenario.vision_only Scenario.rx_path false
                  Scenario.amoxicillin_line 0.45%Q HANDWRITTEN []
                  Scenario.st0)
      as (p & md' & st' & Hrun & _ & Hfail); [reflexivity | reflexivity |].
    exists md', st'. rewrite Hrun.
    rewrite (Hfail (ValueError (u "No valid JSON found in LLM response")))
      by (vm_compute; reflexivity).
    reflexivity.
Defined.

Lemma C2_counterexample :
  (exists p md st',
      process Scenario.text_only Scenario.rx_path false Scenario.st0
      = (inr (p, md), st')
      /\ ExtractedPrescription.document_type p = u "unknown"
      /\ llm_calls st' = 1%nat
      /\ llm_calls st' <> 3%nat)
  /\ (exists p md st',
         process Scenario.vision_only Scenario.rx_path false Scenario.st0
         = (inr (p, md), st')
         /\ vision_attempt (Some 0.45%Q) (inr Scenario.prose)
            = inl (ValueError (u "No valid JSON found in LLM response"))
         /\ ExtractedPrescription.document_type p = u "prescription"
         /\ ExtractedPrescription.document_type p <> u "unknown"
         /\ stages md
            = [StageOcr 5 0.45%Q 39; StageVision 11 HANDWRITTEN 0.45%Q;
               StageSignature 11 false]).
Proof.
  split.
  - eexists _, _, _. split; [vm_compute; reflexivity|].
    split; [reflexivity|]. split; [reflexivity|]. discriminate.
  - eexists _, _, _. split; [vm_compute; reflexivity|].
    split; [vm_compute; reflexivity|].
    split; [reflexivity|].
    split; [intros H; vm_compute in H; discriminate H|].
    vm_compute. reflexivity.
Qed.

Lemma star_dot_longest_first {R} (k : pos -> caps -> option R) cs :
  forall s fuel n prev,
    (length s <= fuel)%nat ->
    rep_loop (m false Dot) true 0 None k fuel n (prev, s) cs
    = longest_first (fun p => k p cs) prev s.
Proof.
  induction s as [|c s IH]; intros fuel n prev Hf.
  - destruct fuel; reflexivity.
  - destruct fuel as [|fuel]; [cbn in Hf; lia|].
    cbn [rep_loop longest_first below Nat.leb m snd].
    unfold shorter. cbn [snd length].
    rewrite (proj2 (Nat.ltb_lt _ _) (Nat.lt_succ_diag_r _)).
    rewrite IH by (cbn in Hf; lia). reflexivity.
Qed.

Lemma closing_none {R} (K : pos -> caps -> option R) :
  forall s prev,
    ~ In 125%N s ->
    longest_first (fun p => m false (Lit 125) p [] K) prev s = None.
Proof.
  induction s as [|c s IH]; intros prev Hn; [reflexivity|].
  cbn [longest_first]. rewrite IH by (intros H; apply Hn; now right).
  cbn [m snd char_eq]. destruct (125 =? c)%N eqn:E; [|reflexivity].
  apply N.eqb_eq in E. exfalso. apply Hn. now left.
Qed.

Lemma closing_last {R} (K : pos -> caps -> option R) post x :
  ~ In 125%N post ->
  K (Some 125%N, post) [] = Some x ->
  forall mid prev,
    longest_first (fun p => m false (Lit 125) p [] K) prev (mid ++ 125%N :: post)
    = Some x.
Proof.
  intros Hn HK. induction mid as [|c mid IH]; intros prev.
  - cbn [app longest_first]. rewrite closing_none by exact Hn.
    cbn [m snd char_eq]. now rewrite N.eqb_refl.
  - cbn [app longest_first]. now rewrite IH.
Qed.

Lemma match_at_braces_open start prev rest :
  match_at false Response.braces start (prev, 123%N :: rest)
  = longest_first
      (fun p => m false (Lit 125) p []
         (fun p' cs =>
            Some {| m_start := start;
                    m_whole := consumed (prev, 123%N :: rest) p';
                    m_groups := cs; m_after := snd p' |}))
      (Some 123%N) rest.
Proof.
  unfold match_at, Response.braces. cbn [seq m snd char_eq].
  rewrite N.eqb_refl. unfold star. cbn [m snd].
  apply (star_dot_longest_first
           (fun p' cs' =>
              m false (Lit 125) p' cs'
                (fun p'' cs =>
                   Some {| m_start := start;
                           m_whole := consumed (prev, 123%N :: rest) p'';
                           m_groups := cs; m_after := snd p'' |}))
           [] rest (length rest) 0 (Some 123%N) (le_n _)).
Qed.

Lemma match_at_braces_other start prev s :
  match s with 123%N :: _ => False | _ => True end ->
  match_at false Response.braces start (prev, s) = None.
Proof.
  unfold match_at, Response.braces. cbn [seq m snd char_eq].
  destruct s as [|c s]; [reflexivity|].
  destruct (123 =? c)%N eqn:E; [|reflexivity].
  apply N.eqb_eq in E. subst c. intros [].
Qed.

Lemma consumed_span prev mid post :
  consumed (prev, 123%N :: mid ++ 125%N :: post) (Some 125%N, post)
  = 123%N :: mid ++ [125%N].
Proof.
  unfold consumed. cbn [snd].
  replace (length (123%N :: mid ++ 125%N :: post) - length post)%nat
    with (length (123%N :: mid ++ [125%N])).
  - replace (123%N :: mid ++ 125%N :: post)
      with ((123%N :: mid ++ [125%N]) ++ post).
    + rewrite firstn_app, firstn_all, Nat.sub_diag. cbn [firstn].
      now rewrite app_nil_r.
    + cbn. now rewrite <- app_assoc.
  - cbn [length]. rewrite !length_app. cbn [length]. lia.
Qed.

(** The raw search finds the span from the first opening brace to the last
    closing brace. *)
Lemma braces_span pre mid post :
  ~ In 123%N pre -> ~ In 125%N post ->
  search false Response.braces (pre ++ 123%N :: mid ++ 125%N :: post)
  = Some {| m_start := length pre; m_whole := 123%N :: mid ++ [125%N];
            m_groups := []; m_after := post |}.
Proof.
  intros Hpre Hpost. unfold search.
  change (length pre) with (0 + length pre)%nat.
  generalize 0%nat as start. generalize (@None N) as prev.
  induction pre as [|c pre IH]; intros prev start.
  - cbn [app search_from]. rewrite match_at_braces_open.
    erewrite closing_last; [|exact Hpost|reflexivity].
    rewrite consumed_span. cbn [length snd]. now rewrite Nat.add_0_r.
  - cbn [app search_from]. rewrite match_at_braces_other.
    + rewrite IH by (intros H; apply Hpre; now right).
      cbn [length]. now rewrite Nat.add_succ_r.
    + destruct c as [|p]; [exact I|].
      destruct (N.eq_dec (N.pos p) 123) as [E|E].
      * exfalso. apply Hpre. left. exact E.
      * repeat (destruct p as [p|p|]; try exact I). exfalso. now apply E.
Qed.

(** Without an opening brace that has a closing brace after it, the raw
    search finds nothing. *)
Lemma braces_none text :
  (forall pre rest, text = pre ++ 123%N :: rest -> ~ In 125%N rest) ->
  search false Response.braces text = None.
Proof.
  unfold search. generalize 0%nat as start. generalize (@None N) as prev.
  induction text as [|c text IH]; intros prev start H.
  - cbn. reflexivity.
  - cbn [search_from].
    match goal with
    | |- match ?x with _ => _ end = _ => assert (Hm : x = None)
    end.
    { destruct (N.eq_dec c 123) as [->|E].
      - rewrite match_at_braces_open. apply closing_none.
        apply (H [] text). reflexivity.
      - apply match_at_braces_other.
        destruct c as [|p]; [exact I|].
        repeat (destruct p as [p|p|]; try exact I). now apply E. }
    rewrite Hm. apply IH. intros pre rest ->.
    apply (H (c :: pre) rest). reflexivity.
Qed.

Lemma fenced_shape :
  Response.fenced
  = Seq (Seq (Lit 96) (Seq (Lit 96) (Lit 96)))
        (Seq (opt (word "json"))
           (Seq (star s_)
              (Seq (Grp 1 (Seq (Lit 123) (Seq (star_lazy Dot) (Lit 125))))
                 (Seq (star s_) (word "```"))))).
Proof. reflexivity. Qed.

Lemma match_at_fenced_other start prev s :
  match s with 96%N :: _ => False | _ => True end ->
  match_at false Response.fenced start (prev, s) = None.
Proof.
  unfold match_at. rewrite fenced_shape. cbn [m snd char_eq].
  destruct s as [|c s]; [reflexivity|].
  destruct (96 =? c)%N eqn:E; [|reflexivity].
  apply N.eqb_eq in E. subst c. intros [].
Qed.

Lemma search_from_fenced_skip pre :
  ~ In 96%N pre ->
  forall start prev s,
  exists prev',
    search_from false Response.fenced start prev (pre ++ s)
    = search_from false Response.fenced (start + length pre) prev' s.
Proof.
  induction pre as [|c pre IH]; intros Hn start prev s.
  - exists prev. cbn [app length]. now rewrite Nat.add_0_r.
  - cbn [app search_from]. rewrite match_at_fenced_other.
    + destruct (IH (fun H => Hn (or_intror H)) (S start) (Some c) s)
        as [prev' ->].
      exists prev'. cbn [length]. now rewrite Nat.add_succ_r.
    + assert (E : c <> 96%N) by (intros ->; apply Hn; now left).
      destruct c as [|p]; [exact I|].
      repeat (destruct p as [p|p|]; try exact I). now apply E.
Qed.

(** A text without a backquote has no fenced block. *)
Lemma fenced_none text :
  ~ In 96%N text -> search false Response.fenced text = None.
Proof.
  intros Hn. unfold search.
  destruct (search_from_fenced_skip text Hn 0 None []) as [prev' H].
  rewrite app_nil_r in H. rewrite H. reflexivity.
Qed.

Lemma round_trip_after_prose pre :
  ~ In 96%N pre ->
  Response.extract_json_from_response (pre ++ round_trip_response)
  = inr (JDict [(u "document_type", JStr (u "prescription"));
                (u "medications", JList [])]).
Proof.
  intros Hn. unfold Response.extract_json_from_response, search.
  destruct (search_from_fenced_skip pre Hn 0 None round_trip_response)
    as [prev' ->].
  generalize (0 + length pre)%nat as start. intros start.
  vm_compute. reflexivity.
Qed.

(** *** A fenced block, with or without its tag *)

Lemma space_not_backquote c : isspace c = true -> (96 =? c)%N = false.
Proof.
  intros Hs. destruct (96 =? c)%N eqn:E; [|reflexivity].
  apply N.eqb_eq in E. subst c. discriminate Hs.
Qed.

Lemma fence_word_other {R} (k : pos -> caps -> option R) prev s cs :
  match s with c :: _ => c <> 96%N | [] => True end ->
  m false (word "```") (prev, s) cs k = None.
Proof.
  change (word "```") with (Seq (Lit 96) (Seq (Lit 96) (Lit 96))).
  cbn [m snd char_eq]. destruct s as [|c s]; [reflexivity|].
  intros Hc. destruct (96 =? c)%N eqn:E; [|reflexivity].
  apply N.eqb_eq in E. congruence.
Qed.

(** The greedy [\s*] takes a whole run of white space when what follows
    the run matches. *)
Lemma star_space_run {R} (k : pos -> caps -> option R) cs rest x :
  match rest with c :: _ => isspace c = false | [] => True end ->
  (forall prev', k (prev', rest) cs = Some x) ->
  forall ws fuel n prev,
    Forall (fun c => isspace c = true) ws ->
    (length ws <= fuel)%nat ->
    rep_loop (m false s_) true 0 None k fuel n (prev, ws ++ rest) cs = Some x.
Proof.
  intros Hrest Hk.
  induction ws as [|c ws IH]; intros fuel n prev Hws Hf.
  - cbn [app]. destruct fuel as [|fuel]; cbn [rep_loop Nat.leb]; [apply Hk|].
    cbn [below]. unfold s_ at 1. cbn [m snd].
    destruct rest as [|d rest]; [apply Hk|].
    cbn [existsb item_has xorb]. rewrite Hrest. cbn [orb]. apply Hk.
  - destruct fuel as [|fuel]; [cbn in Hf; lia|].
    inversion Hws as [|? ? Hc Hws']; subst.
    cbn [app rep_loop below]. unfold s_ at 1. cbn [m snd].
    cbn [existsb item_has xorb]. rewrite Hc. cbn [orb].
    unfold shorter. cbn [snd length].
    rewrite (proj2 (Nat.ltb_lt _ _) (Nat.lt_succ_diag_r _)).
    rewrite IH by (try assumption; cbn in Hf; lia). reflexivity.
Qed.

(** [\s*] followed by the closing fence fails on a text that, after its
    white space, goes on with a character other than a backquote. *)
Lemma star_space_no_fence {R} (k : pos -> caps -> option R) cs rest :
  match rest with
  | c :: _ => isspace c = false /\ c <> 96%N
  | [] => True
  end ->
  forall ws fuel n prev,
    Forall (fun c => isspace c = true) ws ->
    rep_loop (m false s_) true 0 None
      (fun p cs' => m false (word "```") p cs' k) fuel n (prev, ws ++ rest) cs
    = None.
Proof.
  intros Hrest.
  assert (Hstop : forall prev,
             m false (word "```") (prev, rest) cs k = None).
  { intros prev. apply fence_word_other.
    destruct rest as [|d rest]; [exact I | exact (proj2 Hrest)]. }
  induction ws as [|c ws IH]; intros fuel n prev Hws.
  - cbn [app]. destruct fuel as [|fuel]; cbn [rep_loop Nat.leb];
      [apply Hstop|].
    cbn [below]. unfold s_ at 1. cbn [m snd].
    destruct rest as [|d rest]; [apply Hstop|].
    cbn [existsb item_has xorb]. rewrite (proj1 Hrest). cbn [orb].
    apply Hstop.
  - inversion Hws as [|? ? Hc Hws']; subst.
    assert (Hhere : m false (word "```") (prev, (c :: ws) ++ rest) cs k
                    = None).
    { apply fence_word_other. cbn [app]. intros ->. discriminate Hc. }
    destruct fuel as [|fuel]; cbn [rep_loop Nat.leb]; [exact Hhere|].
    cbn [below]. unfold s_ at 1. cbn [app m snd].
    cbn [existsb item_has xorb]. rewrite Hc. cbn [orb].
    unfold shorter. cbn [snd length].
    rewrite (proj2 (Nat.ltb_lt _ _) (Nat.lt_succ_diag_r _)).
    rewrite IH by assumption. exact Hhere.
Qed.

(** After white space, a text without a backquote that is followed by a
    closing brace goes on with a character other than a backquote. *)
Lemma interior_split mid tail :
  ~ In 96%N mid ->
  exists ws rest,
    mid ++ 125%N :: tail = ws ++ rest
    /\ Forall (fun c => isspace c = true) ws
    /\ match rest with
       | c :: _ => isspace c = false /\ c <> 96%N
       | [] => True
       end.
Proof.
  induction mid as [|c mid IH]; intros Hn.
  - exists [], (125%N :: tail). repeat split; [constructor | discriminate].
  - destruct (isspace c) eqn:Hc.
    + destruct (IH (fun H => Hn (or_intror H))) as (ws & rest & E & Hws & Hr).
      exists (c :: ws), rest. cbn [app]. rewrite E.
      repeat split; [now constructor | exact Hr].
    + exists [], (c :: mid ++ 125%N :: tail).
      repeat split; [constructor | exact Hc |].
      intros ->. apply Hn. now left.
Qed.

(** The lazy [.*?] stops at the first closing brace that the rest of the
    pattern accepts: in an interior without a backquote, the one before the
    closing fence. *)
Lemma lazy_dot_interior {R} (f : pos -> caps -> caps)
    (k : pos -> caps -> option R) cs tail x :
  (forall prev', m false (Lit 125) (prev', 125%N :: tail) cs
                   (fun p cs' =>
                      m false (Seq (star s_) (word "```")) p (f p cs') k)
                 = Some x) ->
  forall mid fuel n prev,
    ~ In 96%N mid ->
    (length mid <= fuel)%nat ->
    rep_loop (m false Dot) false 0 None
      (fun p cs' =>
         m false (Lit 125) p cs'
           (fun p' cs'' =>
              m false (Seq (star s_) (word "```")) p' (f p' cs'') k))
      fuel n (prev, mid ++ 125%N :: tail) cs
    = Some x.
Proof.
  intros Hlast.
  induction mid as [|c mid IH]; intros fuel n prev Hn Hf.
  - cbn [app]. destruct fuel as [|fuel]; cbn [rep_loop Nat.leb];
      now rewrite Hlast.
  - destruct fuel as [|fuel]; [cbn in Hf; lia|].
    cbn [app rep_loop Nat.leb below].
    assert (Hhere :
      m false (Lit 125) (prev, c :: mid ++ 125%N :: tail) cs
        (fun p' cs'' =>
           m false (Seq (star s_) (word "```")) p' (f p' cs'') k)
      = None).
    { cbn [m snd char_eq]. destruct (125 =? c)%N; [|reflexivity].
      destruct (interior_split mid tail (fun H => Hn (or_intror H)))
        as (ws & rest & E & Hws & Hr).
      rewrite E. unfold star.
      exact (star_space_no_fence k (f (Some c, ws ++ rest) cs) rest Hr ws
               (length (ws ++ rest)) 0 (Some c) Hws). }
    rewrite Hhere. cbn [m snd]. unfold shorter. cbn [snd length].
    rewrite (proj2 (Nat.ltb_lt _ _) (Nat.lt_succ_diag_r _)).
    apply IH; [intros H; apply Hn; now right | cbn in Hf; lia].
Qed.

Lemma consumed_prefix prev a b prev' :
  consumed (prev, a ++ b) (prev', b) = a.
Proof.
  unfold consumed. cbn [snd]. rewrite length_app.
  replace (length a + length b - length b)%nat with (length a) by lia.
  rewrite firstn_app, firstn_all, Nat.sub_diag. cbn [firstn].
  now rewrite app_nil_r.
Qed.

Lemma fence_open {R} (k : pos -> caps -> option R) prev s cs r :
  m false (Seq (Seq (Lit 96) (Seq (Lit 96) (Lit 96))) r)
    (prev, 96%N :: 96%N :: 96%N :: s) cs k
  = m false r (Some 96%N, s) cs k.
Proof. cbn [m snd char_eq]. now rewrite !N.eqb_refl. Qed.

(** The optional tag: passed over before another character, taken when it
    is there and the rest matches. *)
Lemma opt_json_skip {R} (k : pos -> caps -> option R) prev s cs x :
  match s with c :: _ => c <> 106%N | [] => True end ->
  k (prev, s) cs = Some x ->
  m false (opt (word "json")) (prev, s) cs k = Some x.
Proof.
  intros Hs Hk. unfold opt. cbn [m snd].
  destruct s as [|c s]; [exact Hk|].
  cbn [length rep_loop below Nat.ltb Nat.leb].
  change (word "json") with (Seq (Lit 106) (Seq (Lit 115) (Seq (Lit 111) (Lit 110)))).
  cbn [m snd char_eq].
  destruct (106 =? c)%N eqn:E; [|exact Hk].
  apply N.eqb_eq in E. congruence.
Qed.

Lemma opt_json_take {R} (k : pos -> caps -> option R) prev s cs x :
  k (Some 110%N, s) cs = Some x ->
  m false (opt (word "json")) (prev, u "json" ++ s) cs k = Some x.
Proof.
  intros Hk. unfold opt.
  change (u "json" ++ s) with (106%N :: 115%N :: 111%N :: 110%N :: s).
  cbn [m snd length rep_loop below Nat.ltb Nat.leb].
  change (word "json") with (Seq (Lit 106) (Seq (Lit 115) (Seq (Lit 111) (Lit 110)))).
  cbn [m snd char_eq]. rewrite !N.eqb_refl.
  unfold shorter. cbn [snd length].
  replace (length s <? S (S (S (S (length s)))))%nat
    with true by (symmetry; apply Nat.ltb_lt; lia).
  match goal with
  | |- match ?t with _ => _ end = _ =>
      assert (E : t = Some x) by exact Hk; now rewrite E
  end.
Qed.

(** The fence pattern on a fenced block: group 1 is the interior. *)
Lemma match_at_fenced_block start prev tag ws1 mid ws2 post :
  tag = [] \/ tag = u "json" ->
  Forall (fun c => isspace c = true) ws1 ->
  Forall (fun c => isspace c = true) ws2 ->
  ~ In 96%N mid ->
  exists mt,
    match_at false Response.fenced start
      (prev, u "```" ++ tag ++ ws1 ++ 123%N :: mid ++ 125%N :: ws2
               ++ u "```" ++ post) = Some mt
    /\ group mt 1 = Some (123%N :: mid ++ [125%N]).
Proof.
  intros Htag Hws1 Hws2 Hmid.
  set (p0 := (prev, u "```" ++ tag ++ ws1 ++ 123%N :: mid ++ 125%N :: ws2
                      ++ u "```" ++ post)).
  set (kf := fun (p' : pos) (cs : caps) =>
               Some {| m_start := start; m_whole := consumed p0 p';
                       m_groups := cs; m_after := snd p' |}).
  set (inner := 123%N :: mid ++ 125%N :: ws2 ++ u "```" ++ post).
  set (g := 123%N :: mid ++ [125%N]).
  set (x := {| m_start := start;
               m_whole := consumed p0 (Some 96%N, post);
               m_groups := [(1%nat, g)]; m_after := post |}).
  (* from the opening brace on *)
  assert (Hgrp : forall prev1,
    m false (Grp 1 (Seq (Lit 123) (Seq (star_lazy Dot) (Lit 125))))
      (prev1, inner) []
      (fun p cs => m false (Seq (star s_) (word "```")) p cs kf) = Some x).
  { intros prev1. subst inner. cbn [m snd char_eq]. rewrite N.eqb_refl.
    refine (lazy_dot_interior
              (fun p' cs' =>
                 (1%nat,
                  consumed (prev1, 123%N :: mid ++ 125%N :: ws2
                                     ++ u "```" ++ post) p') :: cs')
              kf [] (ws2 ++ u "```" ++ post) x _ mid _ 0 (Some 123%N) Hmid _).
    - intros prev'. cbn [m snd char_eq]. rewrite N.eqb_refl.
      refine (star_space_run _ _ (u "```" ++ post) x _ _ ws2 _ 0 (Some 125%N)
                Hws2 _).
      + reflexivity.
      + intros prev''.
        change (u "```" ++ post) with (96%N :: 96%N :: 96%N :: post).
        change (word "```") with (Seq (Lit 96) (Seq (Lit 96) (Lit 96))).
        cbn [m snd char_eq]. rewrite !N.eqb_refl. unfold kf, x. cbn [snd].
        replace (123%N :: mid ++ 125%N :: ws2 ++ 96%N :: 96%N :: 96%N :: post)
          with (g ++ (ws2 ++ 96%N :: 96%N :: 96%N :: post))
          by (subst g; cbn; now rewrite <- app_assoc).
        now rewrite consumed_prefix.
      + cbn [snd]; rewrite length_app; lia.
    - cbn [snd]; rewrite length_app; lia. }
  (* the white space before the brace *)
  assert (Hsp : forall prev1,
    m false (Seq (star s_)
               (Seq (Grp 1 (Seq (Lit 123) (Seq (star_lazy Dot) (Lit 125))))
                    (Seq (star s_) (word "```"))))
      (prev1, ws1 ++ inner) [] kf = Some x).
  { intros prev1. cbn [m]. unfold star at 1.
    change (m false (Rep true 0 None s_) (prev1, ws1 ++ inner) [] ?k)
      with (rep_loop (m false s_) true 0 None k
              (length (ws1 ++ inner)) 0 (prev1, ws1 ++ inner) []).
    apply star_space_run.
    - reflexivity.
    - intros prev'. apply Hgrp.
    - exact Hws1.
    - cbn [snd]; rewrite length_app; lia. }
  exists x. split; [|reflexivity].
  unfold match_at. fold kf. rewrite fenced_shape. subst p0.
  change (u "```" ++ tag ++ ws1 ++ inner)
    with (96%N :: 96%N :: 96%N :: tag ++ ws1 ++ inner).
  refine (eq_trans (fence_open kf prev (tag ++ ws1 ++ inner) [] _) _).
  change (m false (opt (word "json")) (Some 96%N, tag ++ ws1 ++ inner) []
            (fun p' cs' =>
               m false
                 (Seq (star s_)
                    (Seq (Grp 1 (Seq (Lit 123)
                                   (Seq (star_lazy Dot) (Lit 125))))
                         (Seq (star s_) (word "```")))) p' cs' kf)
          = Some x).
  destruct Htag as [->| ->].
  - apply opt_json_skip; [|apply Hsp].
    cbn [app]. destruct ws1 as [|c ws1]; [discriminate|].
    inversion Hws1 as [|? ? Hc _]; subst. cbn [app].
    intros ->. discriminate Hc.
  - apply opt_json_take. apply Hsp.
Qed.

Lemma search_from_here ic r start prev s mt :
  match_at ic r start (prev, s) = Some mt ->
  search_from ic r start prev s = Some mt.
Proof. intros H. destruct s; cbn [search_from]; now rewrite H. Qed.

(** A fenced block is found wherever it stands after a text without a
    backquote, whatever braces that text holds. *)
Lemma fenced_block pre tag ws1 mid ws2 post :
  ~ In 96%N pre -> ~ In 96%N mid ->
  tag = [] \/ tag = u "json" ->
  Forall (fun c => isspace c = true) ws1 ->
  Forall (fun c => isspace c = true) ws2 ->
  Response.extract_json_from_response
    (pre ++ u "```" ++ tag ++ ws1 ++ 123%N :: mid ++ 125%N :: ws2
         ++ u "```" ++ post)
  = Json.loads (123%N :: mid ++ [125%N]).
Proof.
  intros Hpre Hmid Htag Hws1 Hws2.
  unfold Response.extract_json_from_response, search.
  destruct (search_from_fenced_skip pre Hpre 0 None
              (u "```" ++ tag ++ ws1 ++ 123%N :: mid ++ 125%N :: ws2
                 ++ u "```" ++ post)) as [prev' ->].
  destruct (match_at_fenced_block (0 + length pre) prev' tag ws1 mid ws2 post
              Htag Hws1 Hws2 Hmid) as (mt & Hm & Hg).
  assert (Hs : search_from false Response.fenced (0 + length pre) prev'
                 (u "```" ++ tag ++ ws1 ++ 123%N :: mid ++ 125%N :: ws2
                    ++ u "```" ++ post) = Some mt).
  { apply search_from_here. exact Hm. }
  rewrite Hs, Hg. reflexivity.
Qed.

Lemma in_unit_spec q : in_unit q = true -> (0 <= q)%Q /\ (q <= 1)%Q.
Proof.
  unfold in_unit. intros H. apply andb_true_iff in H as [H1 H2].
  split; now apply Qle_bool_iff.
Qed.

Lemma at_loc_inr {A} key (r : res A) a : at_loc key r = inr a -> r = inr a.
Proof. destruct r as [[]|]; cbn; congruence. Qed.

Lemma as_unit_float_unit v q :
  as_unit_float v = inr q -> (0 <= q)%Q /\ (q <= 1)%Q.
Proof.
  unfold as_unit_float, rbind, check_unit, bad, raise, ok.
  destruct (as_float v) as [e|[q0|]]; try discriminate.
  destruct (in_unit q0) eqn:E; try discriminate.
  intros H. injection H as <-. now apply in_unit_spec.
Qed.

Lemma optional_inv {A} (c : conv A) v o :
  optional c v = inr o ->
  (v = JNull /\ o = None) \/ (exists a, c v = inr a /\ o = Some a).
Proof.
  unfold optional, rbind, ok.
  destruct v; try (intros H; injection H as <-; now left);
    (destruct (c _) as [e|a] eqn:E; [discriminate|];
     intros H; injection H as <-; right; eauto).
Qed.

Lemma optional_unit v o :
  optional as_unit_float v = inr o -> unit_or_absent o.
Proof.
  intros H. apply optional_inv in H as [[_ ->]|(q & Hq & ->)]; [exact I|].
  now apply as_unit_float_unit in Hq.
Qed.

Lemma field_unit d key o :
  field d key None (optional as_unit_float) = inr o -> unit_or_absent o.
Proof.
  unfold field. destruct (Dict.get (u key) d).
  - intros H. apply at_loc_inr in H. eapply optional_unit; eassumption.
  - intros H. injection H as <-. exact I.
Qed.

Ltac step_fields H :=
  repeat match type of H with
         | rbind ?x _ = inr _ =>
             let E := fresh "E" in
             destruct x eqn:E; [discriminate H|]; cbn [rbind] in H
         end.

Lemma SignatureInfo_validate_unit v s :
  SignatureInfo.validate v = inr s ->
  unit_or_absent (SignatureInfo.confidence s).
Proof.
  unfold SignatureInfo.validate. destruct v; try discriminate.
  intros H. step_fields H. injection H as <-. cbn.
  eapply field_unit; eassumption.
Qed.

Lemma optional_signature_unit v o :
  optional SignatureInfo.validate v = inr o ->
  forall s, o = Some s -> unit_or_absent (SignatureInfo.confidence s).
Proof.
  intros H s Hs. apply optional_inv in H as [[_ ->]|(a & Ha & ->)];
    [discriminate|].
  injection Hs as <-. eapply SignatureInfo_validate_unit; eassumption.
Qed.

Lemma field_signature_unit d key o :
  field d key None (optional SignatureInfo.validate) = inr o ->
  forall s, o = Some s -> unit_or_absent (SignatureInfo.confidence s).
Proof.
  unfold field. destruct (Dict.get (u key) d).
  - intros H. apply at_loc_inr in H. eapply optional_signature_unit; eassumption.
  - intros H. injection H as <-. discriminate.
Qed.

Lemma DoctorInfo_validate_unit v doc :
  DoctorInfo.validate v = inr doc ->
  forall s, DoctorInfo.signature doc = Some s ->
            unit_or_absent (SignatureInfo.confidence s).
Proof.
  unfold DoctorInfo.validate. destruct v; try discriminate.
  intros H. step_fields H. injection H as <-. cbn.
  eapply field_signature_unit; eassumption.
Qed.

Lemma HandwritingAnalysis_validate_unit v h :
  HandwritingAnalysis.validate v = inr h ->
  unit_or_absent (HandwritingAnalysis.ocr_confidence h).
Proof.
  unfold HandwritingAnalysis.validate. destruct v; try discriminate.
  intros H. step_fields H. injection H as <-. cbn.
  eapply field_unit; eassumption.
Qed.

Lemma ExtractedPrescription_validate_unit v p :
  ExtractedPrescription.validate v = inr p ->
  unit_or_absent (ExtractedPrescription.confidence_score p)
  /\ unit_or_absent (ExtractedPrescription.ocr_confidence p)
  /\ (forall s, ExtractedPrescription.doctor_signature p = Some s ->
                unit_or_absent (SignatureInfo.confidence s))
  /\ (forall s, DoctorInfo.signature (ExtractedPrescription.doctor p) = Some s ->
                unit_or_absent (SignatureInfo.confidence s))
  /\ (forall h, ExtractedPrescription.handwriting_analysis p = Some h ->
                unit_or_absent (HandwritingAnalysis.ocr_confidence h)).
Proof.
  unfold ExtractedPrescription.validate. destruct v; try discriminate.
  intros H. step_fields H. injection H as <-. cbn.
  split; [eapply field_unit; eassumption|].
  split; [eapply field_unit; eassumption|].
  split; [eapply field_signature_unit; eassumption|].
  split.
  - match goal with
    | E : field d "doctor" _ _ = inr _ |- _ =>
        unfold field in E; destruct (Dict.get (u "doctor") d);
        [apply at_loc_inr in E; eapply DoctorInfo_validate_unit; eassumption
        |injection E as <-; discriminate]
    end.
  - match goal with
    | E : field d "handwriting_analysis" _ _ = inr _ |- _ =>
        unfold field in E;
        destruct (Dict.get (u "handwriting_analysis") d);
        [apply at_loc_inr in E | injection E as <-; discriminate];
        intros h Hh;
        apply optional_inv in E as [[_ ->]|(a & Ha & ->)]; [discriminate|];
        injection Hh as <-;
        eapply HandwritingAnalysis_validate_unit; eassumption
    end.
Qed.

Lemma vo_bad {A} : validation_only (@bad A).
Proof. intros e H. injection H as <-. eauto. Qed.

Lemma vo_ok {A} (a : A) : validation_only (ok a).
Proof. intros e H. discriminate. Qed.

Lemma vo_bind {A B} (x : res A) (f : A -> res B) :
  validation_only x -> (forall a, validation_only (f a)) ->
  validation_only (rbind x f).
Proof.
  intros Hx Hf e. destruct x as [e'|a]; cbn.
  - intros H. injection H as <-. now apply Hx.
  - apply Hf.
Qed.

Lemma vo_at_loc {A} key (r : res A) :
  validation_only r -> validation_only (at_loc key r).
Proof.
  intros Hr e. destruct r as [e'|a]; cbn; [|discriminate].
  destruct (Hr e' eq_refl) as [loc ->]. intros H. injection H as <-. eauto.
Qed.

Lemma vo_field {A} d key (dflt : A) c :
  conv_validation_only c -> validation_only (field d key dflt c).
Proof.
  intros Hc. unfold field. destruct (Dict.get (u key) d).
  - apply vo_at_loc, Hc.
  - apply vo_ok.
Qed.

Lemma vo_required {A} d key (c : conv A) :
  conv_validation_only c -> validation_only (required d key c).
Proof.
  intros Hc. unfold required. destruct (Dict.get (u key) d).
  - apply vo_at_loc, Hc.
  - intros e H. injection H as <-. eauto.
Qed.

Lemma vo_optional {A} (c : conv A) :
  conv_validation_only c -> conv_validation_only (optional c).
Proof.
  intros Hc v. unfold optional.
  destruct v; try apply vo_ok; (apply vo_bind; [apply Hc | intros; apply vo_ok]).
Qed.

Lemma vo_items {A} (c : conv A) :
  conv_validation_only c -> forall l i, validation_only (items c i l).
Proof.
  intros Hc. induction l as [|v l IH]; intros i; cbn [items].
  - apply vo_ok.
  - apply vo_bind; [apply vo_at_loc, Hc|]. intros a.
    apply vo_bind; [apply IH|]. intros; apply vo_ok.
Qed.

Lemma vo_list_of {A} (c : conv A) :
  conv_validation_only c -> conv_validation_only (list_of c).
Proof.
  intros Hc v. unfold list_of. destruct v; try apply vo_bad.
  now apply vo_items.
Qed.

Ltac vo_cases :=
  repeat (apply vo_ok || apply vo_bad
          || match goal with
             | |- validation_only (if ?c then _ else _) => destruct c
             | |- validation_only (match ?x with _ => _ end) => destruct x
             end).

Lemma vo_as_str : conv_validation_only as_str.
Proof. intros v. unfold as_str. vo_cases. Qed.

Lemma vo_as_bool : conv_validation_only as_bool.
Proof. intros v. unfold as_bool. vo_cases. Qed.

Lemma vo_as_float : conv_validation_only as_float.
Proof. intros v. unfold as_float. vo_cases. Qed.

Lemma vo_as_int : conv_validation_only as_int.
Proof. intros v. unfold as_int. vo_cases. Qed.

Lemma vo_as_unit_float : conv_validation_only as_unit_float.
Proof.
  intros v. unfold as_unit_float. apply vo_bind; [apply vo_as_float|].
  intros f. unfold check_unit. vo_cases.
Qed.

Lemma vo_as_PrescriptionType : conv_validation_only as_PrescriptionType.
Proof. intros v. unfold as_PrescriptionType. vo_cases. Qed.

Create HintDb vo.

#[local] Hint Resolve vo_as_str vo_as_bool vo_as_float vo_as_int
  vo_as_unit_float vo_as_PrescriptionType vo_optional vo_list_of
  vo_field vo_required vo_ok vo_bad : vo.

Ltac vo_chain :=
  repeat (apply vo_bind; [auto 6 with vo | intros ?]); auto with vo.

Lemma vo_SignatureInfo : conv_validation_only SignatureInfo.validate.
Proof.
  intros v. unfold SignatureInfo.validate. destruct v; try apply vo_bad.
  vo_chain.
Qed.

Lemma vo_MedicationItem : conv_validation_only MedicationItem.validate.
Proof.
  intros v. unfold MedicationItem.validate. destruct v; try apply vo_bad.
  vo_chain.
Qed.

Lemma vo_PatientInfo : conv_validation_only PatientInfo.validate.
Proof.
  intros v. unfold PatientInfo.validate. destruct v; try apply vo_bad.
  vo_chain.
Qed.

#[local] Hint Resolve vo_SignatureInfo vo_MedicationItem vo_PatientInfo : vo.

Lemma vo_DoctorInfo : conv_validation_only DoctorInfo.validate.
Proof.
  intros v. unfold DoctorInfo.validate. destruct v; try apply vo_bad.
  vo_chain.
Qed.

Lemma vo_HospitalInfo : conv_validation_only HospitalInfo.validate.
Proof.
  intros v. unfold HospitalInfo.validate. destruct v; try apply vo_bad.
  vo_chain.
Qed.

Lemma vo_HandwritingAnalysis :
  conv_validation_only HandwritingAnalysis.validate.
Proof.
  intros v. unfold HandwritingAnalysis.validate. destruct v; try apply vo_bad.
  vo_chain.
Qed.

#[local] Hint Resolve vo_DoctorInfo vo_HospitalInfo vo_HandwritingAnalysis : vo.

Lemma vo_ExtractedPrescription :
  conv_validation_only ExtractedPrescription.validate.
Proof.
  intros v. unfold ExtractedPrescription.validate. destruct v; try apply vo_bad.
  vo_chain.
Qed.

(** A field that is present and does not validate makes the constructor
    fail. *)
Lemma field_rejects {A} d key (dflt : A) c v e :
  Dict.get (u key) d = Some v -> c v = inl e ->
  forall a, field d key dflt c <> inr a.
Proof.
  intros Hg Hc a. unfold field. rewrite Hg, Hc.
  destruct e; cbn; discriminate.
Qed.

Lemma validate_rejects_confidence_score d q :
  Dict.get (u "confidence_score") d = Some (JFloat q) ->
  in_unit q = false ->
  exists loc, ExtractedPrescription.validate (JDict d)
              = inl (ValidationError loc).
Proof.
  intros Hg Hq.
  destruct (ExtractedPrescription.validate (JDict d)) as [e|p] eqn:H.
  - destruct (vo_ExtractedPrescription (JDict d) e H) as [loc ->]. eauto.
  - exfalso. unfold ExtractedPrescription.validate in H.
    step_fields H.
    match goal with
    | E : field d "confidence_score" _ _ = inr _ |- _ =>
        revert E; eapply field_rejects; [exact Hg|]
    end.
    cbn. unfold as_unit_float, check_unit. cbn. rewrite Hq. reflexivity.
Qed.

Lemma validate_rejects_null_medications d :
  Dict.get (u "medications") d = Some JNull ->
  exists loc, ExtractedPrescription.validate (JDict d)
              = inl (ValidationError loc).
Proof.
  intros Hg.
  destruct (ExtractedPrescription.validate (JDict d)) as [e|p] eqn:H.
  - destruct (vo_ExtractedPrescription (JDict d) e H) as [loc ->]. eauto.
  - exfalso. unfold ExtractedPrescription.validate in H.
    step_fields H.
    match goal with
    | E : field d "medications" _ _ = inr _ |- _ =>
        revert E; eapply field_rejects; [exact Hg|]
    end.
    reflexivity.
Qed.

Lemma validate_default_medications d p :
  Dict.get (u "medications") d = None ->
  ExtractedPrescription.validate (JDict d) = inr p ->
  ExtractedPrescription.medications p = [].
Proof.
  intros Hg H. unfold ExtractedPrescription.validate in H.
  step_fields H. injection H as <-. cbn.
  match goal with
  | E : field d "medications" _ _ = inr _ |- _ =>
      unfold field in E; rewrite Hg in E; injection E as <-
  end.
  reflexivity.
Qed.

(** C6.  A record the schema constructs has every confidence field absent
    or in [0, 1] and a medications list that is never null (a null is
    rejected, an absent key gives the empty list); a response whose
    [confidence_score] is 1.5 is rejected with a validation error. *)
Theorem C6_confidence_fields_in_unit_interval :
  (forall v p,
      ExtractedPrescription.validate v = inr p ->
      unit_or_absent (ExtractedPrescription.confidence_score p)
      /\ unit_or_absent (ExtractedPrescription.ocr_confidence p)
      /\ (forall s, ExtractedPrescription.doctor_signature p = Some s ->
                    unit_or_absent (SignatureInfo.confidence s))
      /\ (forall s, DoctorInfo.signature (ExtractedPrescription.doctor p)
                    = Some s ->
                    unit_or_absent (SignatureInfo.confidence s))
      /\ (forall h, ExtractedPrescription.handwriting_analysis p = Some h ->
                    unit_or_absent (HandwritingAnalysis.ocr_confidence h)))
  /\ (forall v s,
         SignatureInfo.validate v = inr s ->
         unit_or_absent (SignatureInfo.confidence s))
  /\ (forall text c p,
         OCRTextParser.parse text c = inr p ->
         unit_or_absent (ExtractedPrescription.confidence_score p)
         /\ unit_or_absent (ExtractedPrescription.ocr_confidence p)
         /\ ExtractedPrescription.doctor_signature p = None)
  /\ (forall d,
         Dict.get (u "medications") d = Some JNull ->
         exists loc, ExtractedPrescription.validate (JDict d)
                     = inl (ValidationError loc))
  /\ (forall d p,
         Dict.get (u "medications") d = None ->
         ExtractedPrescription.validate (JDict d) = inr p ->
         ExtractedPrescription.medications p = [])
  /\ (forall d,
         Dict.get (u "confidence_score") d = Some (JFloat 1.5%Q) ->
         exists loc, ExtractedPrescription.validate (JDict d)
                     = inl (ValidationError loc))
  /\ text_attempt
       (inr (uq "{'document_type': 'prescription', 'confidence_score': 1.5}"))
     = inl (ValidationError (u "confidence_score")).
Proof.
  split; [apply ExtractedPrescription_validate_unit|].
  split; [apply SignatureInfo_validate_unit|].
  split.
  { intros text c p H. unfold OCRTextParser.parse, check_unit, at_loc, rbind,
      bad, raise, ok in H.
    destruct (in_unit c) eqn:E; [|discriminate].
    injection H as <-. cbn. apply in_unit_spec in E. tauto. }
  split; [apply validate_rejects_null_medications|].
  split; [apply validate_default_medications|].
  split.
  { intros d H. eapply validate_rejects_confidence_score; [exact H|].
    reflexivity. }
  vm_compute. reflexivity.
Qed.

Lemma C6_witness :
  (exists p,
      ExtractedPrescription.validate
        (JDict [(u "confidence_score", JFloat 0.85%Q);
                (u "doctor_signature",
                 JDict [(u "is_present", JBool true);
                        (u "confidence", JInt 1)])])
      = inr p
      /\ unit_or_absent (ExtractedPrescription.confidence_score p)
      /\ unit_or_absent (ExtractedPrescription.ocr_confidence p)
      /\ ExtractedPrescription.medications p = [])
  /\ unit_or_absent (Some 0.25%Q)
  /\ (exists p,
         OCRTextParser.parse Scenario.amoxicillin_line 0.8%Q = inr p
         /\ unit_or_absent (ExtractedPrescription.confidence_score p))
  /\ (exists loc,
         ExtractedPrescription.validate (JDict [(u "medications", JNull)])
         = inl (ValidationError loc))
  /\ (exists loc,
         ExtractedPrescription.validate
           (JDict [(u "confidence_score", JFloat 1.5%Q)])
         = inl (ValidationError loc)).
Proof.
  destruct C6_confidence_fields_in_unit_interval
    as (H1 & H2 & H3 & H4 & H5 & H6 & _).
  split; [|split; [|split; [|split]]].
  - eexists. split; [vm_compute; reflexivity|].
    edestruct (H1 (JDict [(u "confidence_score", JFloat 0.85%Q);
                           (u "doctor_signature",
                            JDict [(u "is_present", JBool true);
                                   (u "confidence", JInt 1)])]))
      as (A & B & _); [vm_compute; reflexivity|].
    split; [exact A|]. split; [exact B|].
    eapply (H5 [(u "confidence_score", JFloat 0.85%Q);
                (u "doctor_signature",
                 JDict [(u "is_present", JBool true);
                        (u "confidence", JInt 1)])]).
    + reflexivity.
    + vm_compute. reflexivity.
  - apply (H2 (JDict [(u "confidence", JFloat 0.25%Q)])
              (SignatureInfo.mk false None None None None (Some 0.25%Q))).
    vm_compute. reflexivity.
  - eexists. split; [vm_compute; reflexivity|].
    edestruct (H3 Scenario.amoxicillin_line 0.8%Q) as (A & _);
      [vm_compute; reflexivity|].
    exact A.
  - apply (H4 [(u "medications", JNull)]). reflexivity.
  - apply (H6 [(u "confidence_score", JFloat 1.5%Q)]). reflexivity.
Defined.

(** C5 (as the code has it).  The parser first looks for a fenced block,
    with or without the json tag, whose interior is a brace-delimited span,
    and parses that interior; only when there is no such block it parses
    the span from the first opening brace to the last closing brace; when
    there is neither it raises the ValueError.  A fenced block that follows
    a text without a backquote is found whether it has the tag or not,
    with or without white space around its interior, and whatever braces
    the text before it holds.  The round-trip response, also after any
    prose without a backquote, gives a record with no medications and
    document type "prescription". *)
Theorem C5_structured_response_parser :
  (forall text mt g,
      Re.search false Response.fenced text = Some mt ->
      Re.group mt 1 = Some g ->
      Response.extract_json_from_response text = Json.loads g)
  /\ (forall text mt,
         Re.search false Response.fenced text = None ->
         Re.search false Response.braces text = Some mt ->
         Response.extract_json_from_response text
         = Json.loads (Re.m_whole mt))
  /\ (forall text,
         Re.search false Response.fenced text = None ->
         Re.search false Response.braces text = None ->
         Response.extract_json_from_response text
         = inl (ValueError (u "No valid JSON found in LLM response")))
  /\ (forall pre tag ws1 mid ws2 post,
         ~ In 96%N pre -> ~ In 96%N mid ->
         tag = [] \/ tag = u "json" ->
         Forall (fun c => isspace c = true) ws1 ->
         Forall (fun c => isspace c = true) ws2 ->
         Response.extract_json_from_response
           (pre ++ u "```" ++ tag ++ ws1 ++ 123%N :: mid ++ 125%N :: ws2
                ++ u "```" ++ post)
         = Json.loads (123%N :: mid ++ [125%N]))
  /\ (forall pre mid post,
         ~ In 96%N (pre ++ 123%N :: mid ++ 125%N :: post) ->
         ~ In 123%N pre -> ~ In 125%N post ->
         Response.extract_json_from_response
           (pre ++ 123%N :: mid ++ 125%N :: post)
         = Json.loads (123%N :: mid ++ [125%N]))
  /\ (forall text,
         ~ In 96%N text ->
         (forall pre rest, text = pre ++ 123%N :: rest -> ~ In 125%N rest) ->
         Response.extract_json_from_response text
         = inl (ValueError (u "No valid JSON found in LLM response")))
  /\ (forall pre,
         ~ In 96%N pre ->
         Response.extract_json_from_response (pre ++ round_trip_response)
         = inr (JDict [(u "document_type", JStr (u "prescription"));
                       (u "medications", JList [])]))
  /\ (exists p,
         text_attempt (inr round_trip_response) = inr p
         /\ ExtractedPrescription.medications p = []
         /\ ExtractedPrescription.document_type p = u "prescription")
  /\ Response.extract_json_from_response (uq "Here it is: ```{'a': 1}``` done")
     = inr (JDict [(u "a", JInt 1)])
  /\ Response.extract_json_from_response (uq "{'b':2} ```{'a':1}```")
     = inr (JDict [(u "a", JInt 1)]).
Proof.
  split; [|split; [|split; [|split; [|split; [|split; [|split; [|split;
    [|split]]]]]]]].
  - intros text mt g Hs Hg. unfold Response.extract_json_from_response.
    now rewrite Hs, Hg.
  - intros text mt Hf Hb. unfold Response.extract_json_from_response.
    now rewrite Hf, Hb.
  - intros text Hf Hb. unfold Response.extract_json_from_response.
    now rewrite Hf, Hb.
  - intros. now apply fenced_block.
  - intros pre mid post Hq Hpre Hpost.
    unfold Response.extract_json_from_response.
    rewrite fenced_none by exact Hq.
    rewrite braces_span by assumption. reflexivity.
  - intros text Hq Hb. unfold Response.extract_json_from_response.
    rewrite fenced_none by exact Hq. rewrite braces_none by exact Hb.
    reflexivity.
  - apply round_trip_after_prose.
  - eexists. split; [vm_compute; reflexivity|]. split; reflexivity.
  - vm_compute. reflexivity.
  - vm_compute. reflexivity.
Qed.

Ltac not_in :=
  let H := fresh in
  intros H; vm_compute in H;
  repeat (destruct H as [H|H]; [discriminate H|]); exact H.

Ltac all_spaces := repeat (constructor; [reflexivity|]); constructor.

Lemma C5_witness :
  Response.extract_json_from_response round_trip_response
  = inr (JDict [(u "document_type", JStr (u "prescription"));
                (u "medications", JList [])])
  /\ Response.extract_json_from_response (uq "The result is {'a': [1, 2]} .")
     = inr (JDict [(u "a", JList [JInt 1; JInt 2])])
  /\ Response.extract_json_from_response (u "plain prose")
     = inl (ValueError (u "No valid JSON found in LLM response"))
  /\ Response.extract_json_from_response
       (uq "{'b':2} " ++ u "```" ++ [] ++ [] ++ 123%N :: uq "'a':1"
           ++ 125%N :: [] ++ u "```" ++ [])
     = inr (JDict [(u "a", JInt 1)])
  /\ Response.extract_json_from_response
       (uq "Result {'b':2}: " ++ u "```" ++ u "json" ++ [10%N; 32%N]
           ++ 123%N :: uq "'a':1" ++ 125%N :: [10%N] ++ u "```"
           ++ u " (end)")
     = inr (JDict [(u "a", JInt 1)])
  /\ Response.extract_json_from_response
       (u "Note: " ++ 123%N :: uq "'a': 1" ++ 125%N :: u " (end)")
     = inr (JDict [(u "a", JInt 1)])
  /\ Response.extract_json_from_response (u "no brace pair } here {")
     = inl (ValueError (u "No valid JSON found in LLM response"))
  /\ Response.extract_json_from_response
       (u "The document reads: " ++ round_trip_response)
     = inr (JDict [(u "document_type", JStr (u "prescription"));
                   (u "medications", JList [])]).
Proof.
  destruct C5_structured_response_parser
    as (H1 & H2 & H3 & H4 & H5 & H6 & H7 & _).
  split; [|split; [|split; [|split; [|split; [|split; [|split]]]]]].
  - eapply eq_trans.
    + eapply (H1 round_trip_response).
      * vm_compute. reflexivity.
      * vm_compute. reflexivity.
    + vm_compute. reflexivity.
  - eapply eq_trans.
    + eapply (H2 (uq "The result is {'a': [1, 2]} .")).
      * vm_compute. reflexivity.
      * vm_compute. reflexivity.
    + vm_compute. reflexivity.
  - apply (H3 (u "plain prose")); vm_compute; reflexivity.
  - eapply eq_trans.
    + apply (H4 (uq "{'b':2} ") [] [] (uq "'a':1") [] []);
        [not_in | not_in | left; reflexivity | all_spaces | all_spaces].
    + vm_compute. reflexivity.
  - eapply eq_trans.
    + apply (H4 (uq "Result {'b':2}: ") (u "json") [10%N; 32%N]
                (uq "'a':1") [10%N] (u " (end)"));
        [not_in | not_in | right; reflexivity | all_spaces | all_spaces].
    + vm_compute. reflexivity.
  - eapply eq_trans.
    + apply (H5 (u "Note: ") (uq "'a': 1") (u " (end)")); not_in.
    + vm_compute. reflexivity.
  - apply (H6 (u "no brace pair } here {")); [not_in|].
    intros pre rest E.
    destruct rest as [|c rest]; [intros []|].
    exfalso.
    assert (Hin : In 123%N (removelast (u "no brace pair } here {"))).
    { rewrite E. rewrite removelast_app by discriminate.
      apply in_or_app. right. now left. }
    revert Hin. not_in.
  - apply (H7 (u "The document reads: ")). not_in.
Defined.

Lemma C5_counterexample :
  Re.search false ResponseSpec.fenced_json (uq "{'b':2} ```{'a':1}```") = None
  /\ Response.extract_json_from_response (uq "{'b':2} ```{'a':1}```")
     = inr (JDict [(u "a", JInt 1)])
  /\ ResponseSpec.extract_json_spec (uq "{'b':2} ```{'a':1}```")
     = inl (JSONDecodeError (u "Extra data"))
  /\ Response.extract_json_from_response (uq "{'b':2} ```{'a':1}```")
     <> ResponseSpec.extract_json_spec (uq "{'b':2} ```{'a':1}```").
Proof.
  split; [vm_compute; reflexivity|].
  split; [vm_compute; reflexivity|].
  split; [vm_compute; reflexivity|].
  intros H. vm_compute in H. discriminate H.
Qed.




(* ================================================================= *)
(** ** Further properties of the code

    Error and edge behaviour, invariants and compositions of the functions
    embedded above, each read off the source. *)

(** *** The JSON scanner: fuel, errors and objects *)

Lemma after_length c s t : Json.after c s = Some t -> length s = S (length t).
Proof.
  destruct s as [|d s]; cbn; [discriminate|].
  destruct (d =? c)%N; [|discriminate]. intros H. now injection H as ->.
Qed.

Lemma skip_ws_length s : (length (Json.skip_ws s) <= length s)%nat.
Proof.
  induction s as [|c s IH]; cbn; [lia|].
  destruct (Json.is_ws c); cbn; lia.
Qed.

Lemma startswith_length s p :
  startswith s p = true -> (length p <= length s)%nat.
Proof.
  revert s. induction p as [|x p IH]; intros [|y s]; cbn; try lia;
    try discriminate.
  intros H. apply andb_true_iff in H as [_ H]. apply IH in H. lia.
Qed.

Lemma scan_string_shorter :
  forall n s acc v rest,
    (length s <= n)%nat ->
    Json.scan_string acc s = inr (v, rest) -> (length rest < length s)%nat.
Proof.
  induction n as [|n IH]; intros s acc v rest Hn H.
  - destruct s; [cbn in H; discriminate|cbn in Hn; lia].
  - destruct s as [|c s]; [cbn in H; discriminate|].
    cbn [Json.scan_string] in H. cbn [length] in *.
    destruct (c =? 34)%N.
    { injection H as _ <-. lia. }
    destruct (c =? 92)%N.
    + destruct s as [|e s]; [discriminate|]. cbn [length] in *.
      destruct (e =? 117)%N.
      * destruct s as [|a [|b [|c2 [|d s]]]]; try discriminate.
        cbn [length] in *.
        destruct (Json.hex4 a b c2 d); [|discriminate].
        destruct s as [|b1 [|u1 [|a2 [|b2 [|c3 [|d2 s]]]]]];
          try (apply IH in H; cbn [length] in *; lia).
        destruct (Json.hex4 a2 b2 c3 d2);
          [|apply IH in H; cbn [length] in *; lia].
        destruct (_ && _); apply IH in H; cbn [length] in *; lia.
      * cbv zeta in H.
        repeat match type of H with
               | (if ?c then _ else _) = _ => destruct c
               end;
          try discriminate; apply IH in H; cbn [length] in *; lia.
    + destruct (c <? 32)%N; [discriminate|]. apply IH in H; lia.
Qed.

Lemma scan_string_no_recursion :
  forall n s acc,
    (length s <= n)%nat -> Json.scan_string acc s <> inl RecursionError.
Proof.
  induction n as [|n IH]; intros s acc Hn.
  - destruct s; [cbn; discriminate|cbn in Hn; lia].
  - destruct s as [|c s]; [cbn; discriminate|].
    cbn [Json.scan_string]. cbn [length] in *.
    destruct (c =? 34)%N; [discriminate|].
    destruct (c =? 92)%N.
    + destruct s as [|e s]; [discriminate|]. cbn [length] in *.
      destruct (e =? 117)%N.
      * destruct s as [|a [|b [|c2 [|d s]]]]; try discriminate.
        cbn [length] in *.
        destruct (Json.hex4 a b c2 d); [|discriminate].
        destruct s as [|b1 [|u1 [|a2 [|b2 [|c3 [|d2 s]]]]]];
          try (apply IH; cbn [length] in *; lia).
        destruct (Json.hex4 a2 b2 c3 d2);
          [|apply IH; cbn [length] in *; lia].
        destruct (_ && _); apply IH; cbn [length] in *; lia.
      * cbv zeta.
        repeat match goal with
               | |- (if ?c then _ else _) <> _ => destruct c
               end;
          try discriminate; apply IH; cbn [length] in *; lia.
    + destruct (c <? 32)%N; [discriminate|]. apply IH; lia.
Qed.

Lemma digits_length s :
  (length (snd (Json.digits s)) <= length s)%nat
  /\ (fst (Json.digits s) <> [] ->
      length (snd (Json.digits s)) < length s)%nat.
Proof.
  induction s as [|c s [IH1 IH2]]; cbn; [split; [lia|congruence]|].
  destruct (in_range 48 57 c).
  - destruct (Json.digits s) as [ds rest]. cbn in *. split; lia.
  - cbn. split; [lia|congruence].
Qed.

Lemma scan_fraction_length s :
  (length (snd (Json.scan_fraction s)) <= length s)%nat.
Proof.
  unfold Json.scan_fraction. destruct (Json.after 46 s) as [t|] eqn:E; [|cbn; lia].
  apply after_length in E. pose proof (proj1 (digits_length t)) as H.
  destruct (Json.digits t) as [[|d ds] rest]; cbn in *; lia.
Qed.

Lemma scan_exponent_length s :
  (length (snd (Json.scan_exponent s)) <= length s)%nat.
Proof.
  unfold Json.scan_exponent.
  destruct (match Json.after 101 s with Some t => Some t | None => Json.after 69 s end)
    as [t|] eqn:E; [|cbn; lia].
  assert (Ht : length s = S (length t)).
  { destruct (Json.after 101 s) eqn:E1.
    - injection E as <-. now apply after_length in E1.
    - now apply after_length in E. }
  assert (Ht' : forall t', (match Json.after 45 t, Json.after 43 t with
                            | Some t', _ => (true, t')
                            | None, Some t' => (false, t')
                            | None, None => (false, t)
                            end) = t' -> (length (snd t') <= length t)%nat).
  { intros t' <-. destruct (Json.after 45 t) eqn:E1.
    - apply after_length in E1. cbn. lia.
    - destruct (Json.after 43 t) eqn:E2; cbn; [|lia].
      apply after_length in E2. lia. }
  destruct (match Json.after 45 t, Json.after 43 t with
            | Some t', _ => (true, t')
            | None, Some t' => (false, t')
            | None, None => (false, t)
            end) as [eneg t'] eqn:E3.
  specialize (Ht' _ eq_refl). cbn in Ht'.
  pose proof (proj1 (digits_length t')) as H.
  destruct (Json.digits t') as [[|d ds] rest]; cbn in *; lia.
Qed.

Lemma scan_number_shorter s v rest :
  Json.scan_number s = Some (v, rest) -> (length rest < length s)%nat.
Proof.
  unfold Json.scan_number.
  destruct (match Json.after 45 s with
            | Some t => (true, t) | None => (false, s) end) as [neg s0] eqn:E0.
  assert (H0 : (length s0 <= length s)%nat).
  { destruct (Json.after 45 s) eqn:E; injection E0 as _ <-; [|lia].
    apply after_length in E. lia. }
  destruct (match Json.after 48 s0 with
            | Some t => ([0%N], t) | None => Json.digits s0 end)
    as [ip s1] eqn:E1.
  destruct ip as [|i ip]; [discriminate|].
  assert (H1 : (length s1 < length s0)%nat).
  { destruct (Json.after 48 s0) eqn:E.
    - injection E1 as _ _ <-. apply after_length in E. lia.
    - pose proof (proj2 (digits_length s0)) as H. rewrite E1 in H.
      cbn in H. apply H. discriminate. }
  pose proof (scan_fraction_length s1) as H2.
  destruct (Json.scan_fraction s1) as [fp s2]. cbn in H2.
  pose proof (scan_exponent_length s2) as H3.
  destruct (Json.scan_exponent s2) as [ex s3]. cbn in H3.
  cbv zeta. intros H.
  destruct fp, ex; injection H as _ <-; lia.
Qed.

Lemma skipn_shorter {A} n (s : list A) :
  (0 < n <= length s)%nat -> (length (skipn n s) < length s)%nat.
Proof. intros H. rewrite length_skipn. lia. Qed.

Ltac literal_case :=
  match goal with
  | |- (if startswith ?s ?p then _ else _) = _ -> _ =>
      let E := fresh "E" in
      let H := fresh "H" in
      destruct (startswith s p) eqn:E;
      [apply startswith_length in E;
       (let n := eval vm_compute in (length p) in
        change (length p) with n in E;
        intros H; injection H as _ <-; apply (skipn_shorter n s); lia)|]
  end.

Lemma scan_literal_shorter s v rest :
  Json.scan_literal s = inr (v, rest) -> (length rest < length s)%nat.
Proof.
  unfold Json.scan_literal, Json.err, raise, ok.
  literal_case. literal_case. literal_case.
  destruct (Json.scan_number s) as [[v' rest']|] eqn:En.
  - intros H. injection H as _ <-. eapply scan_number_shorter; eassumption.
  - literal_case. literal_case. literal_case. discriminate.
Qed.

Lemma scan_literal_no_recursion s :
  Json.scan_literal s <> inl RecursionError.
Proof.
  unfold Json.scan_literal, Json.err, raise, ok.
  repeat match goal with
         | |- (if ?c then _ else _) <> _ => destruct c; [discriminate|]
         end.
  destruct (Json.scan_number s); [discriminate|].
  repeat match goal with
         | |- (if ?c then _ else _) <> _ => destruct c; [discriminate|]
         end.
  discriminate.
Qed.

Ltac lengths :=
  repeat match goal with
         | E : Json.after _ _ = Some _ |- _ => apply after_length in E
         | |- context [Json.skip_ws ?s] =>
             lazymatch goal with
             | _ : (length (Json.skip_ws s) <= length s)%nat |- _ => fail
             | _ => pose proof (skip_ws_length s)
             end
         | _ : context [Json.skip_ws ?s] |- _ =>
             lazymatch goal with
             | _ : (length (Json.skip_ws s) <= length s)%nat |- _ => fail
             | _ => pose proof (skip_ws_length s)
             end
         end.

Lemma scan_progress :
  forall fuel md s,
    (forall v rest, Json.scan fuel md s = inr (v, rest) ->
                    (length rest < length s)%nat)
    /\ ((fuel_needed md s <= fuel)%nat ->
        Json.scan fuel md s <> inl RecursionError).
Proof.
  induction fuel as [|fuel IH]; intros md s.
  { split; [discriminate|]. destruct md; cbn; lia. }
  destruct md as [|acc|acc]; cbn [Json.scan fuel_needed].
  - (* a value *)
    destruct (Json.after 34 s) as [r1|] eqn:E1.
    { split.
      - intros v rest H. unfold rbind in H.
        destruct (Json.scan_string [] r1) as [e|[v' rest']] eqn:Es;
          [discriminate|]. injection H as _ <-.
        apply (scan_string_shorter (length r1)) in Es; [|lia].
        lengths. lia.
      - intros _. unfold rbind.
        destruct (Json.scan_string [] r1) as [e|[v' rest']] eqn:Es;
          [|discriminate].
        intros H. injection H as ->.
        now apply (scan_string_no_recursion (length r1) r1 []) in Es. }
    destruct (Json.after 123 s) as [r2|] eqn:E2.
    { destruct (Json.after 125 (Json.skip_ws r2)) as [r3|] eqn:E3.
      - split; [|discriminate].
        intros v rest H. injection H as _ <-. lengths. lia.
      - destruct (IH (Json.MMembers []) (Json.skip_ws r2)) as [IH1 IH2].
        split.
        + intros v rest H. apply IH1 in H. lengths. lia.
        + intros Hf. apply IH2. cbn [fuel_needed]. lengths. lia. }
    destruct (Json.after 91 s) as [r2|] eqn:E3.
    { destruct (Json.after 93 (Json.skip_ws r2)) as [r3|] eqn:E4.
      - split; [|discriminate].
        intros v rest H. injection H as _ <-. lengths. lia.
      - destruct (IH (Json.MElems []) (Json.skip_ws r2)) as [IH1 IH2].
        split.
        + intros v rest H. apply IH1 in H. lengths. lia.
        + intros Hf. apply IH2. cbn [fuel_needed]. lengths. lia. }
    split.
    + intros v rest. apply scan_literal_shorter.
    + intros _. apply scan_literal_no_recursion.
  - (* the elements of an array *)
    destruct (IH Json.MValue s) as [IHv1 IHv2].
    unfold rbind.
    destruct (Json.scan fuel Json.MValue s) as [e|[v1 r1]] eqn:Ev.
    { split; [discriminate|]. intros Hf H. injection H as ->.
      apply IHv2; [cbn [fuel_needed]; lia | reflexivity]. }
    specialize (IHv1 _ _ eq_refl). cbv beta iota.
    destruct (Json.after 93 (Json.skip_ws r1)) as [r2|] eqn:E1.
    { split; [|discriminate].
      intros v rest H. injection H as _ <-. lengths. lia. }
    destruct (Json.after 44 (Json.skip_ws r1)) as [r2|] eqn:E2;
      [|split; discriminate].
    destruct (IH (Json.MElems (acc ++ [v1])) (Json.skip_ws r2)) as [IH1 IH2].
    split.
    + intros v rest H. apply IH1 in H. lengths. lia.
    + intros Hf. apply IH2. cbn [fuel_needed]. lengths. lia.
  - (* the members of an object *)
    destruct (Json.after 34 s) as [r0|] eqn:E0; [|split; discriminate].
    unfold rbind.
    destruct (Json.scan_string [] r0) as [e|[k r1]] eqn:Es.
    { split; [discriminate|]. intros _ H. injection H as ->.
      now apply (scan_string_no_recursion (length r0) r0 []) in Es. }
    apply (scan_string_shorter (length r0)) in Es; [|lia].
    cbv beta iota.
    destruct (Json.after 58 (Json.skip_ws r1)) as [r2|] eqn:E1;
      [|split; discriminate].
    destruct (IH Json.MValue (Json.skip_ws r2)) as [IHv1 IHv2].
    destruct (Json.scan fuel Json.MValue (Json.skip_ws r2)) as [e|[v1 r3]] eqn:Ev.
    { split; [discriminate|]. intros Hf H. injection H as ->.
      apply IHv2; [cbn [fuel_needed]; lengths; lia | reflexivity]. }
    specialize (IHv1 _ _ eq_refl). cbv beta iota zeta.
    destruct (Json.after 125 (Json.skip_ws r3)) as [r4|] eqn:E2.
    { split; [|discriminate].
      intros v rest H. injection H as _ <-. lengths. lia. }
    destruct (Json.after 44 (Json.skip_ws r3)) as [r4|] eqn:E3;
      [|split; discriminate].
    destruct (IH (Json.MMembers (Dict.set k v1 acc)) (Json.skip_ws r4))
      as [IH1 IH2].
    split.
    + intros v rest H. apply IH1 in H. lengths. lia.
    + intros Hf. apply IH2. cbn [fuel_needed]. lengths. lia.
Qed.

(** The fuel [loads] gives the scanner is never used up. *)
Lemma loads_fuel_suffices s : Json.loads s <> inl RecursionError.
Proof.
  unfold Json.loads, rbind.
  destruct (Json.scan _ _ _) as [e|[v rest]] eqn:E.
  - intros H. injection H as ->.
    apply (proj2 (scan_progress _ _ _)) in E; [exact E|].
    cbn [fuel_needed]. pose proof (skip_ws_length s). lia.
  - destruct (Json.skip_ws rest); discriminate.
Qed.

Lemma in_unit_iff q : in_unit q = true <-> (0 <= q)%Q /\ (q <= 1)%Q.
Proof.
  unfold in_unit. rewrite andb_true_iff, !Qle_bool_iff. reflexivity.
Qed.

Lemma parse_eq text c :
  parse text c =
  if in_unit c
  then inr (ExtractedPrescription.mk
              (u "prescription")
              (Some (if Qltb c 0.5 then HANDWRITTEN
                     else if Qltb c 0.7 then MIXED else PRINTED))
              (_extract_prescription_number text) None (_extract_date text)
              (_extract_patient_info text) (_extract_doctor_info text)
              (_extract_hospital_info text) (_extract_diagnosis text)
              (_extract_medications text) None None None
              (Some (Z.of_nat (length (_extract_medications text))))
              (Some (u "ocr_only")) (Some c) (Some c) false (Some text))
  else inl (ValidationError (u "confidence_score")).
Proof.
  unfold parse, check_unit, at_loc, rbind, bad, raise, ok.
  destruct (in_unit c); reflexivity.
Qed.

(** X1.  [OCRTextParser.parse] returns a record exactly when the OCR
    confidence lies in [0, 1]; outside that interval the constructor raises
    a validation error located at [confidence_score]. *)
Theorem parse_returns_iff_confidence_in_unit :
  forall text c,
    ((0 <= c)%Q /\ (c <= 1)%Q ->
     exists p, parse text c = inr p
               /\ ExtractedPrescription.confidence_score p = Some c
               /\ ExtractedPrescription.ocr_confidence p = Some c)
    /\ (~ ((0 <= c)%Q /\ (c <= 1)%Q) ->
        parse text c = inl (ValidationError (u "confidence_score"))).
Proof.
  intros text c. rewrite parse_eq. split; intros H.
  - apply in_unit_iff in H. rewrite H. eexists. repeat split.
  - destruct (in_unit c) eqn:E; [|reflexivity].
    apply in_unit_iff in E. contradiction.
Qed.

Lemma parse_returns_iff_confidence_in_unit_witness :
  (exists p, parse Scenario.amoxicillin_line 0.8%Q = inr p
             /\ ExtractedPrescription.confidence_score p = Some 0.8%Q
             /\ ExtractedPrescription.ocr_confidence p = Some 0.8%Q)
  /\ parse Scenario.amoxicillin_line 80%Q
     = inl (ValidationError (u "confidence_score")).
Proof.
  split.
  - apply (proj1 (parse_returns_iff_confidence_in_unit
                    Scenario.amoxicillin_line 0.8%Q)).
    split; discriminate.
  - apply (proj2 (parse_returns_iff_confidence_in_unit
                    Scenario.amoxicillin_line 80%Q)).
    intros [_ H]. apply H. reflexivity.
Defined.

Lemma tier_cases w fv conf ty :
  match tier_of w fv conf ty with
  | ImageAnalysis => exists c, vision w = Some c
  | TextAnalysis => exists c, llm_text w = Some c
  | LocalFallback => llm_text w = None
  end.
Proof.
  destruct (tier_of w fv conf ty) eqn:Ht.
  - unfold tier_of, select_tier in Ht.
    destruct (llm_text w); [|reflexivity].
    destruct (_ && _); discriminate.
  - now apply tier_text_available in Ht.
  - now apply tier_image_available in Ht.
Qed.

(** The primary stage, tier by tier. *)
Lemma primary_stage_eq w path fv text conf ty md st :
  primary_stage w path fv text conf ty md st =
  match tier_of w fv conf ty with
  | LocalFallback =>
      match parse text conf with
      | inr p =>
          (inr (ExtractedPrescription.set_prescription_type (Some ty) p,
                add_stage StageRegex
                  (setm "vision_used" (MBool false)
                     (setm "extraction_method" (MStr (u "ocr_only_regex")) md))),
           st)
      | inl e => (inl e, st)
      end
  | TextAnalysis =>
      match llm_text w with
      | Some client =>
          let r := client (llm_calls st)
                     (ExtractionPrompt text (Some (u "prescription"))) in
          (inr (decorate (u "ocr_plus_llm_text") ty conf
                  (attempt_document (outcome r)),
                add_stage (StageLlmText (elapsed r) conf)
                  (setm "llm_text_used" (MBool true)
                     (setm "vision_used" (MBool false)
                        (setm "extraction_method"
                           (MStr (u "ocr_plus_llm_text")) md)))),
           after_text st (elapsed r))
      | None => (inl (ValueError []), st)
      end
  | ImageAnalysis =>
      match vision w with
      | Some client =>
          let md' := fun t =>
            add_stage (StageVision t ty conf)
              (setm "extraction_method" (MStr (u "ocr_plus_llm_vision"))
                 (setm "vision_used" (MBool true) md)) in
          if image_readable w path then
            let r := client (vision_calls st) path
                       (vision_prompt (Some text) (Some conf)) in
            (inr (decorate (u "ocr_plus_llm") ty conf
                    (vision_document (Some conf) (outcome r)),
                  md' (elapsed r)),
             after_vision st (elapsed r))
          else
            (inr (decorate (u "ocr_plus_llm") ty conf
                    VisionExtractor.failed_document, md' 0), st)
      | None => (inl (ValueError []), st)
      end
  end.
Proof.
  pose proof (tier_cases w fv conf ty) as Hc.
  destruct (tier_of w fv conf ty) eqn:Ht.
  - now apply primary_stage_local.
  - destruct Hc as [c Hc]. rewrite Hc.
    rewrite primary_stage_text with (client := c) by assumption.
    rewrite extract_eq. reflexivity.
  - destruct Hc as [c Hc]. rewrite Hc.
    rewrite primary_stage_image with (client := c) by assumption.
    rewrite extract_from_image_eq.
    destruct (image_readable w path) eqn:Hrd; reflexivity.
Qed.

Ltac unreadable :=
  match goal with
  | Hx : image_exists ?w ?p = false, Hr : image_readable ?w ?p = true |- _ =>
      rewrite (missing_unreadable _ _ Hx) in Hr; discriminate Hr
  end.

(** The signature stage always returns. *)
Lemma signature_stage_returns w path p md st :
  exists p' md' st',
    signature_stage w path p md st = (inr (p', md'), st')
    /\ llm_calls st' = llm_calls st
    /\ (vision_calls st <= vision_calls st' <= S (vision_calls st))%nat
    /\ (vision w = None -> vision_calls st' = vision_calls st)
    /\ (image_exists w path = false -> vision_calls st' = vision_calls st)
    /\ (ExtractedPrescription.doctor_signature p <> None ->
        vision_calls st' = vision_calls st)
    /\ (available (vision w) = true ->
        ExtractedPrescription.doctor_signature p' <> None).
Proof.
  rewrite signature_stage_eq.
  destruct (vision w) as [client|].
  - destruct (ExtractedPrescription.doctor_signature p) eqn:Hd.
    + do 3 eexists. split; [reflexivity|]. rewrite Hd.
      repeat split; try lia; try congruence.
    + rewrite analyze_signature_only_eq.
      destruct (image_readable w path) eqn:Hrd; cbv zeta;
        do 3 eexists; (split; [reflexivity|]); cbn;
        repeat split; try lia; try congruence; try discriminate;
        try (intros; unreadable).
  - do 3 eexists. split; [reflexivity|].
    repeat split; try lia; try congruence; try discriminate.
Qed.

(** X2.  [process] raises in two cases only: the OCR engine raised (the
    exception is passed on as it is), or the local fallback ran on an OCR
    confidence outside [0, 1] (a validation error at [confidence_score]).
    In both cases no remote call has been made. *)
Theorem process_raises_iff :
  forall w path force_vision st e st',
    process w path force_vision st = (inl e, st') <->
    st' = tick (elapsed (ocr_engine w path)) st
    /\ (outcome (ocr_engine w path) = inl e
        \/ exists text conf,
             outcome (ocr_engine w path) = inr (text, conf)
             /\ tier_of w force_vision conf
                  (classify_prescription_type path conf) = LocalFallback
             /\ ~ ((0 <= conf)%Q /\ (conf <= 1)%Q)
             /\ e = ValidationError (u "confidence_score")).
Proof.
  intros w path fv st e st'. rewrite process_eq. cbv zeta.
  destruct (outcome (ocr_engine w path)) as [e0|[text conf]].
  { split.
    - intros H. injection H as <- <-. split; [reflexivity|]. now left.
    - intros [-> [H|(text & conf & H & _)]]; [|discriminate].
      now injection H as ->. }
  rewrite primary_stage_eq.
  pose proof (tier_cases w fv conf (classify_prescription_type path conf)) as Hc.
  destruct (tier_of w fv conf (classify_prescription_type path conf)) eqn:Ht.
  - rewrite parse_eq. destruct (in_unit conf) eqn:Hu.
    + match goal with
      | |- context [signature_stage ?w ?p ?x ?md ?s] =>
          destruct (signature_stage_returns w p x md s)
            as (p' & md' & st2 & -> & _)
      end.
      split; [discriminate|].
      intros [_ [H|(text' & conf' & H & _ & Hn & _)]]; [discriminate|].
      injection H as <- <-. apply in_unit_iff in Hu. contradiction.
    + split.
      * intros H. injection H as <- <-. split; [reflexivity|]. right.
        exists text, conf. split; [reflexivity|]. split; [exact Ht|].
        split; [|reflexivity].
        intros Hq. apply in_unit_iff in Hq. congruence.
      * intros [-> [H|(text' & conf' & H & _ & _ & ->)]]; [discriminate|].
        reflexivity.
  - destruct Hc as [c ->]. cbv beta iota zeta.
    match goal with
    | |- context [signature_stage ?w ?p ?x ?md ?s] =>
        destruct (signature_stage_returns w p x md s)
          as (p' & md' & st2 & -> & _)
    end.
    split; [discriminate|].
    intros [_ [H|(text' & conf' & H & Ht' & _)]]; [discriminate|].
    injection H as <- <-. congruence.
  - destruct Hc as [c ->]. cbv beta iota zeta.
    destruct (image_readable w path) eqn:Hrd; cbv beta iota zeta;
      match goal with
      | |- context [signature_stage ?w ?p ?x ?md ?s] =>
          destruct (signature_stage_returns w p x md s)
            as (p' & md' & st2 & -> & _)
      end;
      (split; [discriminate|]);
      intros [_ [H|(text' & conf' & H & Ht' & _)]]; try discriminate;
      injection H as <- <-; congruence.
Qed.

Lemma process_raises_iff_witness :
  process Cases.ocr_failing Scenario.rx_path false Scenario.st0
  = (inl (CollaboratorError (u "OCR engine crashed")),
     {| clock := 2; llm_calls := 0; vision_calls := 0 |})
  /\ process Cases.percent_confidence Scenario.rx_path false Scenario.st0
     = (inl (ValidationError (u "confidence_score")),
        {| clock := 5; llm_calls := 0; vision_calls := 0 |}).
Proof.
  split.
  - apply (proj2 (process_raises_iff Cases.ocr_failing Scenario.rx_path false
                    Scenario.st0 _ _)).
    split; [reflexivity|]. left. reflexivity.
  - apply (proj2 (process_raises_iff Cases.percent_confidence Scenario.rx_path
                    false Scenario.st0 _ _)).
    split; [reflexivity|]. right.
    exists Scenario.amoxicillin_line, 80%Q.
    split; [reflexivity|]. split; [vm_compute; reflexivity|].
    split; [|reflexivity].
    intros [_ H]. apply H. reflexivity.
Defined.

Lemma primary_stage_counts w path fv text conf ty md st r st' :
  primary_stage w path fv text conf ty md st = (r, st') ->
  (llm_calls st <= llm_calls st' <= S (llm_calls st))%nat
  /\ (vision_calls st <= vision_calls st' <= S (vision_calls st))%nat
  /\ (llm_calls st' + vision_calls st' <= S (llm_calls st + vision_calls st))%nat
  /\ (llm_text w = None -> llm_calls st' = llm_calls st)
  /\ (vision w = None -> vision_calls st' = vision_calls st)
  /\ (image_exists w path = false -> vision_calls st' = vision_calls st)
  /\ (tier_of w fv conf ty = LocalFallback ->
      llm_calls st' = llm_calls st /\ vision_calls st' = vision_calls st).
Proof.
  rewrite primary_stage_eq.
  pose proof (tier_cases w fv conf ty) as Hc.
  destruct (tier_of w fv conf ty).
  - destruct (parse text conf); intros H; injection H as <- <-;
      repeat split; lia.
  - destruct Hc as [c ->]. cbv zeta. intros H. injection H as <- <-.
    cbn. repeat split; try lia; discriminate.
  - destruct Hc as [c ->]. cbv zeta.
    destruct (image_readable w path) eqn:Hrd; intros H; injection H as <- <-;
      cbn; repeat split; try lia; try discriminate; intros; unreadable.
Qed.

(** X3.  One run of [process] makes at most one text-analysis call and at
    most two image-analysis calls (the primary stage and the signature
    stage), never more than two remote calls in all; it makes no call to a
    strategy that is not available, and no image-analysis call when the
    image file does not exist. *)
Theorem process_remote_call_budget :
  forall w path force_vision st r st',
    process w path force_vision st = (r, st') ->
    (llm_calls st <= llm_calls st' <= llm_calls st + 1)%nat
    /\ (vision_calls st <= vision_calls st' <= vision_calls st + 2)%nat
    /\ (llm_calls st' + vision_calls st'
        <= llm_calls st + vision_calls st + 2)%nat
    /\ (llm_text w = None -> llm_calls st' = llm_calls st)
    /\ (vision w = None -> vision_calls st' = vision_calls st)
    /\ (image_exists w path = false -> vision_calls st' = vision_calls st).
Proof.
  intros w path fv st r st'. rewrite process_eq. cbv zeta.
  destruct (outcome (ocr_engine w path)) as [e|[text conf]].
  { intros H. injection H as <- <-. cbn. repeat split; lia. }
  destruct (primary_stage _ _ _ _ _ _ _ _) as [[e|[p1 md1]] st2] eqn:Hp;
    apply primary_stage_counts in Hp; cbn [tick llm_calls vision_calls] in Hp;
    destruct Hp as (H1 & H2 & H3 & H4 & H5 & H6 & _).
  { intros H. injection H as <- <-.
    repeat split; try lia; auto. }
  match goal with
  | |- context [signature_stage ?w ?p ?x ?md ?s] =>
      destruct (signature_stage_returns w p x md s)
        as (p' & md' & st3 & -> & G1 & G2 & G3 & G4 & _)
  end.
  intros H. injection H as <- <-.
  repeat split; try lia.
  - intros Hn. specialize (H4 Hn). lia.
  - intros Hn. specialize (H5 Hn). specialize (G3 Hn). lia.
  - intros Hn. specialize (H6 Hn). specialize (G4 Hn). lia.
Qed.

Lemma process_remote_call_budget_witness :
  exists r st',
    process Cases.image_missing Scenario.rx_path false Scenario.st0 = (r, st')
    /\ vision_calls st' = vision_calls Scenario.st0
    /\ (llm_calls st' <= 1)%nat.
Proof.
  destruct (process Cases.image_missing Scenario.rx_path false Scenario.st0)
    as [r st'] eqn:E.
  exists r, st'. split; [reflexivity|].
  destruct (process_remote_call_budget Cases.image_missing Scenario.rx_path
              false Scenario.st0 r st' E) as (H1 & _ & _ & _ & _ & H6).
  split; [apply H6; reflexivity | exact (proj2 H1)].
Defined.

Lemma attempt_document_unit r :
  unit_or_absent (ExtractedPrescription.confidence_score (attempt_document r)).
Proof.
  unfold attempt_document. destruct (text_attempt r) as [e|d] eqn:E; [exact I|].
  unfold text_attempt, rbind in E.
  destruct r as [e|text]; [discriminate|].
  destruct (Response.extract_json_from_response text); [discriminate|].
  now apply ExtractedPrescription_validate_unit in E.
Qed.

Lemma vision_document_unit c r :
  unit_or_absent (ExtractedPrescription.confidence_score (vision_document c r)).
Proof.
  unfold vision_document.
  destruct (vision_attempt c r) as [e|d] eqn:E; [exact I|].
  unfold vision_attempt, rbind in E.
  destruct r as [e|text]; [discriminate|].
  destruct (Response.extract_json_from_response text); [discriminate|].
  destruct (VisionExtractor.setitem _ _ _); [discriminate|].
  destruct (VisionExtractor.setitem _ _ _); [discriminate|].
  destruct (VisionExtractor.nonzero c);
    [destruct (VisionExtractor.setitem _ _ _); [discriminate|]|];
    now apply ExtractedPrescription_validate_unit in E.
Qed.

(** What the primary stage leaves in the record and in the metadata. *)
Lemma primary_stage_fields w path fv text conf ty md st p1 md1 st2 :
  primary_stage w path fv text conf ty md st = (inr (p1, md1), st2) ->
  ExtractedPrescription.prescription_type p1 = Some ty
  /\ ExtractedPrescription.ocr_confidence p1 = Some conf
  /\ ExtractedPrescription.llm_enhanced p1
     = match tier_of w fv conf ty with LocalFallback => false | _ => true end
  /\ unit_or_absent (ExtractedPrescription.confidence_score p1)
  /\ (tier_of w fv conf ty = LocalFallback ->
      ExtractedPrescription.confidence_score p1 = Some conf)
  /\ getm "vision_used" md1
     = Some (MBool match tier_of w fv conf ty with
                   | ImageAnalysis => true
                   | _ => false
                   end)
  /\ getm "llm_text_used" md1
     = match tier_of w fv conf ty with
       | TextAnalysis => Some (MBool true)
       | _ => getm "llm_text_used" md
       end
  /\ getm "file_name" md1 = getm "file_name" md
  /\ getm "file_path" md1 = getm "file_path" md
  /\ getm "ocr_used" md1 = getm "ocr_used" md.
Proof.
  rewrite primary_stage_eq.
  pose proof (tier_cases w fv conf ty) as Hc.
  destruct (tier_of w fv conf ty).
  - rewrite parse_eq. destruct (in_unit conf) eqn:Hu; [|discriminate].
    intros H. injection H as <- <- <-. cbn -[getm setm add_stage].
    apply in_unit_iff in Hu.
    repeat split; try tauto; md_simpl; reflexivity.
  - destruct Hc as [c ->]. cbv zeta. intros H. injection H as <- <- <-.
    cbn -[getm setm add_stage attempt_document].
    repeat split; try (md_simpl; reflexivity); try discriminate.
    apply attempt_document_unit.
  - destruct Hc as [c ->]. cbv zeta.
    destruct (image_readable w path) eqn:Hrd; intros H; injection H as <- <- <-;
      cbn -[getm setm add_stage vision_document];
      repeat split; try (md_simpl; reflexivity); try discriminate.
    apply vision_document_unit.
Qed.

(** The fields of a record [process] returns. *)
Lemma process_record_inv :
  forall w path force_vision st p md st' text conf,
    outcome (ocr_engine w path) = inr (text, conf) ->
    process w path force_vision st = (inr (p, md), st') ->
    ExtractedPrescription.ocr_text p = Some text
    /\ ExtractedPrescription.prescription_type p
       = Some (classify_prescription_type path conf)
    /\ ExtractedPrescription.ocr_confidence p = Some conf
    /\ ExtractedPrescription.llm_enhanced p
       = match select_tier force_vision conf
                 (classify_prescription_type path conf)
                 (available (vision w)) (available (llm_text w)) with
         | LocalFallback => false
         | _ => true
         end
    /\ (available (vision w) = true ->
        ExtractedPrescription.doctor_signature p <> None).
Proof.
  intros w path fv st p md st' text conf Hocr H.
  apply process_inv in H.
  destruct H as (text' & conf' & p1 & md1 & st2 & md2 & Hocr' & Hprim & Hsig & _).
  rewrite Hocr in Hocr'. injection Hocr' as <- <-.
  apply primary_stage_fields in Hprim.
  destruct Hprim as (H1 & H2 & H3 & _).
  match type of Hsig with
  | signature_stage ?w ?pa ?x ?m ?s = _ =>
      pose proof (signature_stage_returns w pa x m s) as Hr;
      pose proof (signature_stage_inv w pa x m s _ _ Hsig) as Hi
  end.
  destruct Hr as (p' & md' & st3 & Heq & _ & _ & _ & _ & _ & Hpresent).
  rewrite Hsig in Heq. injection Heq as <- <- <-.
  assert (Hsame :
    ExtractedPrescription.ocr_text p = Some text
    /\ ExtractedPrescription.prescription_type p
       = ExtractedPrescription.prescription_type p1
    /\ ExtractedPrescription.ocr_confidence p
       = ExtractedPrescription.ocr_confidence p1
    /\ ExtractedPrescription.llm_enhanced p
       = ExtractedPrescription.llm_enhanced p1).
  { clear Hpresent. destruct (vision w) as [client|].
    - destruct (ExtractedPrescription.doctor_signature
                  (ExtractedPrescription.set_ocr_text (Some text) p1)).
      + destruct Hi as [Hi _]. injection Hi as -> _. repeat split.
      + destruct Hi as (s & t & _ & Hi). injection Hi as -> _. repeat split.
    - destruct Hi as [Hi _]. injection Hi as -> _. repeat split. }
  destruct Hsame as (G1 & G2 & G3 & G4).
  rewrite G2, G3, G4. repeat split; assumption.
Qed.

(** X4.  Every record [process] returns carries the raw OCR text, the type
    the classifier gave the document and the OCR confidence; it is marked
    as enhanced exactly when a remote strategy produced it; and it has a
    signature object whenever image analysis is available. *)
Theorem process_record_fields :
  forall w path force_vision st p md st' text conf,
    outcome (ocr_engine w path) = inr (text, conf) ->
    process w path force_vision st = (inr (p, md), st') ->
    ExtractedPrescription.ocr_text p = Some text
    /\ ExtractedPrescription.prescription_type p
       = Some (classify_prescription_type path conf)
    /\ ExtractedPrescription.ocr_confidence p = Some conf
    /\ ExtractedPrescription.llm_enhanced p
       = match select_tier force_vision conf
                 (classify_prescription_type path conf)
                 (available (vision w)) (available (llm_text w)) with
         | LocalFallback => false
         | _ => true
         end
    /\ (available (vision w) = true ->
        ExtractedPrescription.doctor_signature p <> None).
Proof. exact process_record_inv. Qed.

Lemma process_record_fields_witness :
  exists p md st',
    process Scenario.text_only Scenario.rx_path false Scenario.st0
    = (inr (p, md), st')
    /\ ExtractedPrescription.ocr_text p = Some Scenario.amoxicillin_line
    /\ ExtractedPrescription.prescription_type p = Some PRINTED
    /\ ExtractedPrescription.ocr_confidence p = Some 0.8%Q
    /\ ExtractedPrescription.llm_enhanced p = true.
Proof.
  destruct (process Scenario.text_only Scenario.rx_path false Scenario.st0)
    as [[e|[p md]] st'] eqn:E; [vm_compute in E; discriminate E|].
  exists p, md, st'. split; [reflexivity|].
  destruct (process_record_fields Scenario.text_only Scenario.rx_path false
              Scenario.st0 p md st' Scenario.amoxicillin_line 0.8%Q
              eq_refl E) as (H1 & H2 & H3 & H4 & _).
  repeat split; assumption.
Defined.

(** X5.  The metadata of a returning run names the file, records that OCR
    was used, says whether image analysis was the primary strategy, has
    the key [llm_text_used] exactly when text analysis was, gives the time
    from the start to the end of the run, and lists two or three stages, the
    OCR stage first. *)
Theorem process_metadata_bookkeeping :
  forall w path force_vision st p md st' text conf,
    outcome (ocr_engine w path) = inr (text, conf) ->
    process w path force_vision st = (inr (p, md), st') ->
    let tier := select_tier force_vision conf
                  (classify_prescription_type path conf)
                  (available (vision w)) (available (llm_text w)) in
    getm "file_name" md = Some (MStr (Path.name path))
    /\ getm "file_path" md = Some (MStr (Path.to_str path))
    /\ getm "ocr_used" md = Some (MBool true)
    /\ getm "vision_used" md
       = Some (MBool match tier with ImageAnalysis => true | _ => false end)
    /\ getm "llm_text_used" md
       = match tier with TextAnalysis => Some (MBool true) | _ => None end
    /\ getm "total_processing_time" md = Some (MTime (clock st' - clock st))
    /\ (exists rest,
          stages md
          = StageOcr (elapsed (ocr_engine w path)) conf (length text) :: rest
          /\ (length rest = 1 \/ length rest = 2)%nat).
Proof.
  intros w path fv st p md st' text conf Hocr H. cbv zeta.
  pose proof H as Htr. apply process_trace in Htr.
  destruct Htr as (text0 & conf0 & p0 & md0 & st0 & s1 & Hocr0 & _ & _ & _ & _
                   & _ & Hst).
  rewrite Hocr in Hocr0. injection Hocr0 as <- <-.
  apply process_inv in H.
  destruct H as (text' & conf' & p1 & md1 & st2 & md2 & Hocr' & Hprim & Hsig & ->).
  rewrite Hocr in Hocr'. injection Hocr' as <- <-.
  apply primary_stage_fields in Hprim.
  destruct Hprim as (_ & _ & _ & _ & _ & Hv & Hl & Hn & Hp & Ho).
  fold (tier_of w fv conf (classify_prescription_type path conf)).
  assert (Hkeep : forall key,
             str_eqb (u key) (u "processing_stages") = false ->
             getm key md2 = getm key md1).
  { intros key Hk. apply signature_stage_inv in Hsig.
    destruct (vision w) as [client|].
    - destruct (ExtractedPrescription.doctor_signature
                  (ExtractedPrescription.set_ocr_text (Some text) p1)).
      + destruct Hsig as [Hi _]. now injection Hi as _ ->.
      + destruct Hsig as (s & t & _ & Hi). injection Hi as _ ->.
        now rewrite getm_add_stage.
    - destruct Hsig as [Hi _]. now injection Hi as _ ->. }
  md_simpl. rewrite !Hkeep by reflexivity.
  rewrite Hv, Hl, Hn, Hp, Ho. md_simpl.
  split; [reflexivity|]. split; [reflexivity|]. split; [reflexivity|].
  split; [reflexivity|].
  split; [destruct (tier_of _ _ _ _); reflexivity|].
  split; [reflexivity|].
  rewrite stages_setm in Hst by reflexivity.
  rewrite stages_setm in Hst by reflexivity.
  destruct (vision w) as [client|].
  - destruct (ExtractedPrescription.doctor_signature p0).
    + destruct Hst as (_ & _ & Hst).
      eexists. split; [exact Hst|]. left. reflexivity.
    + destruct Hst as (s & t & _ & _ & Hst).
      eexists. split; [exact Hst|]. right. reflexivity.
  - destruct Hst as (_ & _ & Hst).
    eexists. split; [exact Hst|]. left. reflexivity.
Qed.

Lemma process_metadata_bookkeeping_witness :
  exists p md st',
    process Scenario.vision_only Scenario.rx_path false Scenario.st0
    = (inr (p, md), st')
    /\ getm "file_name" md = Some (MStr (u "rx_001.png"))
    /\ getm "file_path" md = Some (MStr (u "uploads/rx_001.png"))
    /\ getm "vision_used" md = Some (MBool true)
    /\ getm "llm_text_used" md = None
    /\ getm "total_processing_time" md = Some (MTime (clock st' - 0)).
Proof.
  destruct (process Scenario.vision_only Scenario.rx_path false Scenario.st0)
    as [[e|[p md]] st'] eqn:E; [vm_compute in E; discriminate E|].
  exists p, md, st'. split; [reflexivity|].
  destruct (process_metadata_bookkeeping Scenario.vision_only Scenario.rx_path
              false Scenario.st0 p md st' Scenario.amoxicillin_line 0.45%Q
              eq_refl E) as (H1 & H2 & _ & H4 & H5 & H6 & _).
  repeat split; assumption.
Defined.

Lemma final_confidence_unit p conf :
  unit_or_absent (ExtractedPrescription.confidence_score p) ->
  (0 <= conf)%Q /\ (conf <= 1)%Q ->
  (0 <= final_confidence p conf)%Q /\ (final_confidence p conf <= 1)%Q.
Proof.
  unfold final_confidence, VisionExtractor.nonzero.
  destruct (ExtractedPrescription.confidence_score p) as [q|]; cbn; [|tauto].
  destruct (Qeq_bool q 0); tauto.
Qed.

(** X6.  The [final_confidence] of a returning run is the record's own
    confidence score when it has one that is not zero, and the OCR
    confidence otherwise; it lies in [0, 1] whenever the OCR confidence
    does, and in the local fallback it is the OCR confidence. *)
Theorem process_final_confidence :
  forall w path force_vision st p md st' text conf,
    outcome (ocr_engine w path) = inr (text, conf) ->
    process w path force_vision st = (inr (p, md), st') ->
    exists q,
      getm "final_confidence" md = Some (MFloat q)
      /\ q = match ExtractedPrescription.confidence_score p with
             | Some c => if Qeq_bool c 0 then conf else c
             | None => conf
             end
      /\ ((0 <= conf)%Q /\ (conf <= 1)%Q -> (0 <= q)%Q /\ (q <= 1)%Q)
      /\ (select_tier force_vision conf
            (classify_prescription_type path conf)
            (available (vision w)) (available (llm_text w)) = LocalFallback ->
          (q == conf)%Q).
Proof.
  intros w path fv st p md st' text conf Hocr H.
  apply process_inv in H.
  destruct H as (text' & conf' & p1 & md1 & st2 & md2 & Hocr' & Hprim & Hsig & ->).
  rewrite Hocr in Hocr'. injection Hocr' as <- <-.
  apply primary_stage_fields in Hprim.
  destruct Hprim as (_ & _ & _ & Hu & Hloc & _).
  assert (Hc : ExtractedPrescription.confidence_score p
               = ExtractedPrescription.confidence_score p1).
  { apply signature_stage_inv in Hsig.
    destruct (vision w) as [client|].
    - destruct (ExtractedPrescription.doctor_signature
                  (ExtractedPrescription.set_ocr_text (Some text) p1)).
      + destruct Hsig as [Hi _]. now injection Hi as -> _.
      + destruct Hsig as (s & t & _ & Hi). now injection Hi as -> _.
    - destruct Hsig as [Hi _]. now injection Hi as -> _. }
  exists (final_confidence p conf). md_simpl.
  split; [reflexivity|]. split.
  { unfold final_confidence, VisionExtractor.nonzero.
    destruct (ExtractedPrescription.confidence_score p) as [c|]; [|reflexivity].
    destruct (Qeq_bool c 0); reflexivity. }
  split.
  - apply final_confidence_unit. now rewrite Hc.
  - intros Ht. specialize (Hloc Ht).
    unfold final_confidence, VisionExtractor.nonzero. rewrite Hc, Hloc.
    destruct (Qeq_bool conf 0); reflexivity.
Qed.

Lemma process_final_confidence_witness :
  exists p md st' q,
    process (Scenario.local_only Scenario.amoxicillin_line) Scenario.rx_path
            false Scenario.st0 = (inr (p, md), st')
    /\ getm "final_confidence" md = Some (MFloat q)
    /\ ((0 <= q)%Q /\ (q <= 1)%Q)
    /\ (q == 0.8)%Q.
Proof.
  destruct (process (Scenario.local_only Scenario.amoxicillin_line)
              Scenario.rx_path false Scenario.st0)
    as [[e|[p md]] st'] eqn:E; [vm_compute in E; discriminate E|].
  destruct (process_final_confidence (Scenario.local_only Scenario.amoxicillin_line)
              Scenario.rx_path false Scenario.st0 p md st'
              Scenario.amoxicillin_line 0.8%Q eq_refl E)
    as (q & H1 & _ & H3 & H4).
  exists p, md, st', q. split; [reflexivity|]. split; [exact H1|]. split.
  - apply H3. split; discriminate.
  - apply H4. reflexivity.
Defined.

Lemma Qltb_weaken a b c : (b <= c)%Q -> Qltb a b = true -> Qltb a c = true.
Proof.
  intros Hbc H. apply Qltb_lt in H. apply Qltb_lt.
  eapply Qlt_le_trans; eassumption.
Qed.

Lemma Qltb_strengthen a b c : (b <= c)%Q -> Qltb a c = false -> Qltb a b = false.
Proof.
  intros Hbc H. destruct (Qltb a b) eqn:E; [|reflexivity].
  rewrite (Qltb_weaken a b c Hbc E) in H. discriminate.
Qed.

(** X7.  Without a folder hint the classifier and the enhancement test
    together ask for image analysis exactly when the OCR confidence is
    below 0.7; the 0.6 threshold of [needs_vision_enhancement] decides only
    for a document that a folder name declares printed or digital, and a
    folder that declares it handwritten or mixed asks for image analysis
    whatever the confidence. *)
Theorem effective_enhancement_threshold :
  (forall path c, no_hint path ->
      needs_vision_enhancement c (classify_prescription_type path c)
      = Qltb c 0.7)
  /\ (forall path c text_available, no_hint path ->
         (select_tier false c (classify_prescription_type path c) true
                      text_available = ImageAnalysis
          <-> (c < 0.7)%Q))
  /\ (forall path c,
         classify_prescription_type path c = PRINTED
         \/ classify_prescription_type path c = DIGITAL ->
         needs_vision_enhancement c (classify_prescription_type path c)
         = Qltb c 0.6)
  /\ (forall path c,
         classify_prescription_type path c = HANDWRITTEN
         \/ classify_prescription_type path c = MIXED ->
         needs_vision_enhancement c (classify_prescription_type path c) = true).
Proof.
  assert (H57 : (0.5 <= 0.7)%Q) by discriminate.
  assert (H67 : (0.6 <= 0.7)%Q) by discriminate.
  assert (Hfirst : forall path c, no_hint path ->
            needs_vision_enhancement c (classify_prescription_type path c)
            = Qltb c 0.7).
  { intros path c Hn. rewrite (classify_no_hint path c Hn).
    destruct (Qltb c 0.5) eqn:E5.
    - cbn. symmetry. exact (Qltb_weaken c 0.5 0.7 H57 E5).
    - destruct (Qltb c 0.7) eqn:E7; [reflexivity|].
      cbn. exact (Qltb_strengthen c 0.6 0.7 H67 E7). }
  split; [exact Hfirst|]. split.
  { intros path c ta Hn. unfold select_tier. cbn [orb].
    rewrite (Hfirst path c Hn). rewrite andb_true_r. rewrite <- Qltb_lt.
    destruct (Qltb c 0.7); [tauto|].
    destruct ta; split; discriminate. }
  split.
  - intros path c [-> | ->]; reflexivity.
  - intros path c [-> | ->]; reflexivity.
Qed.

Lemma effective_enhancement_threshold_witness :
  needs_vision_enhancement 0.65%Q
    (classify_prescription_type Scenario.rx_path 0.65%Q) = Qltb 0.65%Q 0.7
  /\ select_tier false 0.65%Q
       (classify_prescription_type Scenario.rx_path 0.65%Q) true true
     = ImageAnalysis
  /\ needs_vision_enhancement 0.65%Q
       (classify_prescription_type
          (Path.mk [] [u "data"; u "printed"; u "a.png"]) 0.65%Q)
     = Qltb 0.65%Q 0.6
  /\ needs_vision_enhancement 0.95%Q
       (classify_prescription_type
          (Path.mk [] [u "data"; u "Handwritten_2024"; u "a.png"]) 0.95%Q)
     = true.
Proof.
  destruct effective_enhancement_threshold as (H1 & H2 & H3 & H4).
  split; [apply H1; vm_compute; repeat split; reflexivity|].
  split; [apply H2; [vm_compute; repeat split; reflexivity | reflexivity]|].
  split; [apply H3; left; reflexivity|].
  apply H4; left; reflexivity.
Defined.

Lemma batch_loop_acc w fv :
  forall paths acc st,
    batch_loop w paths fv acc st
    = (rbind (fst (batch_loop w paths fv [] st)) (fun rs => ok (acc ++ rs)),
       snd (batch_loop w paths fv [] st)).
Proof.
  induction paths as [|path rest IH]; intros acc st.
  - cbn. unfold ret. cbn. now rewrite app_nil_r.
  - cbn [batch_loop]. unfold bind, try_except.
    destruct (process w path fv st) as [[e|entry] st1]; unfold ret;
      cbv beta iota; cbn [app];
      rewrite (IH [_]); rewrite (IH (acc ++ _));
      destruct (batch_loop w rest fv [] st1) as [[e'|rs] st2]; cbn;
      try reflexivity; now rewrite <- app_assoc.
Qed.

Lemma process_batch_app_eq :
  forall w paths1 paths2 force_vision st,
    process_batch w (paths1 ++ paths2) force_vision st
    = match process_batch w paths1 force_vision st with
      | (inr results1, st1) =>
          match process_batch w paths2 force_vision st1 with
          | (inr results2, st2) => (inr (results1 ++ results2), st2)
          | (inl e, st2) => (inl e, st2)
          end
      | (inl e, st1) => (inl e, st1)
      end.
Proof.
  intros w paths1 paths2 fv. unfold process_batch.
  induction paths1 as [|path rest IH]; intros st.
  - cbn. unfold ret.
    destruct (batch_loop w paths2 fv [] st) as [[e|rs] st2]; reflexivity.
  - cbn [app batch_loop]. unfold bind, try_except.
    destruct (process w path fv st) as [[e|entry] st1]; unfold ret;
      cbv beta iota; cbn [app];
      rewrite (batch_loop_acc w fv (rest ++ paths2)), IH;
      rewrite (batch_loop_acc w fv rest [_]);
      destruct (batch_loop w rest fv [] st1) as [[e1|rs1] st2]; cbn;
      try reflexivity;
      destruct (batch_loop w paths2 fv [] st2) as [[e2|rs2] st3]; reflexivity.
Qed.

(** X8.  Processing a batch that is two batches one after the other gives
    the results of the first followed by the results of the second, the
    second run starting in the state the first one left: a batch has no
    memory other than the clock and the call counters. *)
Theorem process_batch_app :
  forall w paths1 paths2 force_vision st,
  exists results1 st1 results2 st2,
    process_batch w paths1 force_vision st = (inr results1, st1)
    /\ process_batch w paths2 force_vision st1 = (inr results2, st2)
    /\ process_batch w (paths1 ++ paths2) force_vision st
       = (inr (results1 ++ results2), st2).
Proof.
  intros w paths1 paths2 fv st.
  destruct (batch_loop_trace w fv paths1 [] st) as (r1 & st1 & H1 & _).
  destruct (batch_loop_trace w fv paths2 [] st1) as (r2 & st2 & H2 & _).
  exists r1, st1, r2, st2. rewrite process_batch_app_eq.
  unfold process_batch. rewrite H1. cbn [app]. rewrite H2.
  repeat split.
Qed.

(** X9.  The local fallback and the classifier use the same breakpoints:
    without a folder hint the type [parse] gives the record is the
    classifier's, so with no remote strategy available [process] returns
    exactly the record of [OCRTextParser.parse]. *)
Theorem local_fallback_is_parse :
  (forall path text c p,
      no_hint path -> parse text c = inr p ->
      ExtractedPrescription.prescription_type p
      = Some (classify_prescription_type path c))
  /\ (forall w path force_vision st p md st' text conf,
         no_hint path -> vision w = None -> llm_text w = None ->
         outcome (ocr_engine w path) = inr (text, conf) ->
         process w path force_vision st = (inr (p, md), st') ->
         parse text conf = inr p).
Proof.
  assert (Hfirst : forall path text c p,
            no_hint path -> parse text c = inr p ->
            ExtractedPrescription.prescription_type p
            = Some (classify_prescription_type path c)).
  { intros path text c p Hn. rewrite parse_eq, (classify_no_hint path c Hn).
    destruct (in_unit c); [|discriminate].
    intros H. now injection H as <-. }
  split; [exact Hfirst|].
  intros w path fv st p md st' text conf Hn Hv Hl Hocr H.
  apply process_inv in H.
  destruct H as (text' & conf' & p1 & md1 & st2 & md2 & Hocr' & Hprim & Hsig & _).
  rewrite Hocr in Hocr'. injection Hocr' as <- <-.
  apply signature_stage_inv in Hsig. rewrite Hv in Hsig.
  destruct Hsig as [Hi _]. injection Hi as -> _.
  rewrite primary_stage_local in Hprim.
  2:{ unfold tier_of, select_tier. rewrite Hv, Hl. cbn.
      now rewrite andb_false_r. }
  destruct (parse text conf) as [e|p0] eqn:Hp; [discriminate|].
  injection Hprim as <- _ _.
  pose proof (Hfirst path text conf p0 Hn Hp) as Hty.
  rewrite parse_eq in Hp. destruct (in_unit conf); [|discriminate].
  injection Hp as <-. cbn in Hty. injection Hty as <-.
  reflexivity.
Qed.

Lemma local_fallback_is_parse_witness :
  exists p md st',
    process (Scenario.local_only Scenario.amoxicillin_line) Scenario.rx_path
            false Scenario.st0 = (inr (p, md), st')
    /\ parse Scenario.amoxicillin_line 0.8%Q = inr p
    /\ ExtractedPrescription.prescription_type p
       = Some (classify_prescription_type Scenario.rx_path 0.8%Q).
Proof.
  destruct (process (Scenario.local_only Scenario.amoxicillin_line)
              Scenario.rx_path false Scenario.st0)
    as [[e|[p md]] st'] eqn:E; [vm_compute in E; discriminate E|].
  exists p, md, st'. split; [reflexivity|].
  assert (Hn : no_hint Scenario.rx_path)
    by (vm_compute; repeat split; reflexivity).
  assert (Hp : parse Scenario.amoxicillin_line 0.8%Q = inr p).
  { exact (proj2 local_fallback_is_parse
             (Scenario.local_only Scenario.amoxicillin_line) Scenario.rx_path
             false Scenario.st0 p md st' Scenario.amoxicillin_line 0.8%Q
             Hn eq_refl eq_refl eq_refl E). }
  split; [exact Hp|].
  exact (proj1 local_fallback_is_parse Scenario.rx_path
           Scenario.amoxicillin_line 0.8%Q p Hn Hp).
Defined.

Ltac in_fields := simpl; repeat (first [left; reflexivity | right]).

Lemma validate_depends_on_fields d d' :
  (forall f, In f ExtractedPrescription_fields ->
             Dict.get (u f) d = Dict.get (u f) d') ->
  ExtractedPrescription.validate (JDict d)
  = ExtractedPrescription.validate (JDict d').
Proof.
  intros H. unfold ExtractedPrescription.validate, field.
  repeat match goal with
         | |- context [Dict.get (u ?f) d] => rewrite (H f) by in_fields
         end.
  reflexivity.
Qed.

(** X10.  The constructor of [ExtractedPrescription] reads its nineteen
    fields and nothing else: two objects that agree on them give the same
    result, so a key the schema does not declare is dropped without an
    error.  The [follow_up_date] the text-analysis prompt asks the service
    for is such a key. *)
Theorem validate_ignores_unknown_keys :
  (forall d d',
      (forall f, In f ExtractedPrescription_fields ->
                 Dict.get (u f) d = Dict.get (u f) d') ->
      ExtractedPrescription.validate (JDict d)
      = ExtractedPrescription.validate (JDict d'))
  /\ (forall d key v,
         known_key key = false ->
         ExtractedPrescription.validate (JDict (Dict.set key v d))
         = ExtractedPrescription.validate (JDict d))
  /\ (forall d v,
         ExtractedPrescription.validate
           (JDict (Dict.set (u "follow_up_date") v d))
         = ExtractedPrescription.validate (JDict d)).
Proof.
  assert (Hset : forall d key v,
            known_key key = false ->
            ExtractedPrescription.validate (JDict (Dict.set key v d))
            = ExtractedPrescription.validate (JDict d)).
  { intros d key v Hk. apply validate_depends_on_fields. intros f Hf.
    apply Dict_get_set_other.
    unfold known_key in Hk.
    destruct (str_eqb (u f) key) eqn:E; [|reflexivity].
    assert (Hex : existsb (fun f => str_eqb (u f) key)
                    ExtractedPrescription_fields = true).
    { apply existsb_exists. exists f. split; assumption. }
    congruence. }
  split; [exact validate_depends_on_fields|]. split; [exact Hset|].
  intros d v. apply Hset. reflexivity.
Qed.

Lemma validate_ignores_unknown_keys_witness :
  ExtractedPrescription.validate
    (JDict (Dict.set (u "follow_up_date") (JStr (u "2023-09-04"))
              [(u "diagnosis", JStr (u "MALARIA"))]))
  = ExtractedPrescription.validate (JDict [(u "diagnosis", JStr (u "MALARIA"))])
  /\ text_attempt (inr (uq "{'diagnosis': 'MALARIA', 'follow_up_date': '2023-09-04'}"))
     = text_attempt (inr (uq "{'diagnosis': 'MALARIA'}")).
Proof.
  split.
  - apply (proj1 (proj2 validate_ignores_unknown_keys)). reflexivity.
  - vm_compute. reflexivity.
Defined.

Lemma items_rejects {A} (c : conv A) v e :
  c v = inl e ->
  forall l i, In v l -> forall r, items c i l <> inr r.
Proof.
  intros Hc. induction l as [|x l IH]; intros i Hin r; [contradiction|].
  cbn [items]. destruct Hin as [->|Hin].
  - rewrite Hc. destruct e; cbn; discriminate.
  - unfold rbind. destruct (at_loc _ (c x)); [discriminate|].
    destruct (items c (S i) l) eqn:E; [discriminate|].
    exfalso. exact (IH (S i) Hin _ E).
Qed.

Lemma MedicationItem_requires_name d :
  Dict.get (u "name") d = None ->
  MedicationItem.validate (JDict d) = inl (ValidationError (u "name")).
Proof.
  intros H. unfold MedicationItem.validate, required. now rewrite H.
Qed.

(** X11.  A medication is an object with a [name]; a list of medications
    with one element the item constructor rejects makes the constructor of
    the whole record raise a validation error, and text analysis then
    returns the minimal document of type "unknown": everything else the
    response held is lost. *)
Theorem invalid_medication_rejects_record :
  (forall m,
      Dict.get (u "name") m = None ->
      MedicationItem.validate (JDict m) = inl (ValidationError (u "name")))
  /\ (forall d meds item e,
         Dict.get (u "medications") d = Some (JList meds) ->
         In item meds ->
         MedicationItem.validate item = inl e ->
         exists loc,
           ExtractedPrescription.validate (JDict d)
           = inl (ValidationError loc))
  /\ (forall text d meds item e,
         Response.extract_json_from_response text = inr (JDict d) ->
         Dict.get (u "medications") d = Some (JList meds) ->
         In item meds ->
         MedicationItem.validate item = inl e ->
         attempt_document (inr text) = LLMExtractor.unknown_document).
Proof.
  assert (Hrec : forall d meds item e,
            Dict.get (u "medications") d = Some (JList meds) ->
            In item meds ->
            MedicationItem.validate item = inl e ->
            exists loc,
              ExtractedPrescription.validate (JDict d)
              = inl (ValidationError loc)).
  { intros d meds item e Hg Hin Hc.
    destruct (ExtractedPrescription.validate (JDict d)) as [e'|p] eqn:H.
    - destruct (vo_ExtractedPrescription (JDict d) e' H) as [loc ->]. eauto.
    - exfalso. unfold ExtractedPrescription.validate in H.
      step_fields H.
      match goal with
      | E : field d "medications" _ _ = inr _ |- _ =>
          unfold field in E; rewrite Hg in E; apply at_loc_inr in E;
          unfold list_of in E; revert E
      end.
      eapply items_rejects; eassumption. }
  split; [exact MedicationItem_requires_name|]. split; [exact Hrec|].
  intros text d meds item e Hj Hg Hin Hc.
  destruct (Hrec d meds item e Hg Hin Hc) as [loc Hloc].
  unfold attempt_document, text_attempt, rbind. now rewrite Hj, Hloc.
Qed.

Lemma invalid_medication_rejects_record_witness :
  MedicationItem.validate (JDict [(u "dosage", JStr (u "500mg"))])
  = inl (ValidationError (u "name"))
  /\ (exists loc,
         ExtractedPrescription.validate
           (JDict [(u "diagnosis", JStr (u "MALARIA"));
                   (u "medications",
                    JList [JDict [(u "name", JStr (u "Amoxicillin"))];
                           JDict [(u "dosage", JStr (u "500mg"))]])])
         = inl (ValidationError loc))
  /\ attempt_document
       (inr (uq "{'diagnosis': 'MALARIA', 'medications': [{'dosage': '500mg'}]}"))
     = LLMExtractor.unknown_document.
Proof.
  destruct invalid_medication_rejects_record as (H1 & H2 & H3).
  split; [apply H1; reflexivity|]. split.
  - eapply (H2 _ _ (JDict [(u "dosage", JStr (u "500mg"))]));
      [reflexivity | right; left; reflexivity | apply H1; reflexivity].
  - eapply (H3 _ [(u "diagnosis", JStr (u "MALARIA"));
                  (u "medications", JList [JDict [(u "dosage", JStr (u "500mg"))]])]
               _ (JDict [(u "dosage", JStr (u "500mg"))]));
      [vm_compute; reflexivity | reflexivity | left; reflexivity
      | apply H1; reflexivity].
Defined.

Lemma field_get_some {A} d key (dflt : A) c v a :
  Dict.get (u key) d = Some v -> field d key dflt c = inr a -> c v = inr a.
Proof.
  intros Hg. unfold field. rewrite Hg. apply at_loc_inr.
Qed.

Lemma vision_attempt_stamps conf r p :
  vision_attempt conf r = inr p ->
  ExtractedPrescription.extraction_method p = Some (u "llm_vision")
  /\ ExtractedPrescription.llm_enhanced p = true
  /\ (forall c, VisionExtractor.nonzero conf = Some c ->
                ExtractedPrescription.ocr_confidence p = Some c
                /\ (0 <= c)%Q /\ (c <= 1)%Q).
Proof.
  unfold vision_attempt, rbind.
  destruct r as [e|text]; [discriminate|].
  destruct (Response.extract_json_from_response text) as [e|j]; [discriminate|].
  destruct j as [| | | | | | |d]; try discriminate.
  cbn [VisionExtractor.setitem ok].
  set (d2 := Dict.set (u "llm_enhanced") (JBool true)
               (Dict.set (u "extraction_method") (JStr (u "llm_vision")) d)).
  assert (Hm : forall d3,
             Dict.get (u "extraction_method") d3
             = Some (JStr (u "llm_vision")) ->
             Dict.get (u "llm_enhanced") d3 = Some (JBool true) ->
             forall p, ExtractedPrescription.validate (JDict d3) = inr p ->
             ExtractedPrescription.extraction_method p = Some (u "llm_vision")
             /\ ExtractedPrescription.llm_enhanced p = true).
  { intros d3 G1 G2 q H. unfold ExtractedPrescription.validate in H.
    step_fields H. injection H as <-. cbn. split.
    - match goal with
      | E : field d3 "extraction_method" _ _ = inr _ |- _ =>
          apply (field_get_some _ _ _ _ _ _ G1) in E;
          unfold optional, as_str, rbind, ok in E; injection E as <-
      end. reflexivity.
    - match goal with
      | E : field d3 "llm_enhanced" _ _ = inr _ |- _ =>
          apply (field_get_some _ _ _ _ _ _ G2) in E;
          unfold as_bool, ok in E; injection E as <-
      end. reflexivity. }
  assert (G1 : Dict.get (u "extraction_method") d2 = Some (JStr (u "llm_vision"))).
  { unfold d2. rewrite Dict_get_set_other by reflexivity.
    apply Dict_get_set_same. }
  assert (G2 : Dict.get (u "llm_enhanced") d2 = Some (JBool true)).
  { unfold d2. apply Dict_get_set_same. }
  destruct (VisionExtractor.nonzero conf) as [c|].
  - cbn [VisionExtractor.setitem ok]. intros H.
    destruct (Hm (Dict.set (u "ocr_confidence") (JFloat c) d2)) with (p := p)
      as [H1 H2]; try assumption.
    + now rewrite Dict_get_set_other by reflexivity.
    + now rewrite Dict_get_set_other by reflexivity.
    + split; [exact H1|]. split; [exact H2|].
      intros c' Hc. injection Hc as <-.
      unfold ExtractedPrescription.validate in H. step_fields H.
      injection H as <-. cbn.
      match goal with
      | E : field _ "ocr_confidence" _ _ = inr _ |- _ =>
          apply (field_get_some _ _ _ _ (JFloat c) _) in E;
            [|apply Dict_get_set_same]; cbn in E
      end.
      match goal with
      | E : rbind (if in_unit c then _ else _) _ = inr _ |- _ =>
          destruct (in_unit c) eqn:Hu; [|discriminate E];
          unfold rbind, ok in E; injection E as <-
      end.
      apply in_unit_iff in Hu. tauto.
  - intros H. destruct (Hm d2 G1 G2 p H) as [H1 H2].
    split; [exact H1|]. split; [exact H2|]. discriminate.
Qed.

(** X12.  [extract_from_image] always returns, and whatever the service
    answered the record says [extraction_method = "llm_vision"] and
    [llm_enhanced = true]; an OCR confidence that is given and not zero
    replaces the one of the response, and when it is not in [0, 1] the
    record is the minimal one of the handlers.  With no image file no call
    is made. *)
Theorem extract_from_image_stamps :
  forall w client path ocr_text ocr_confidence st,
  exists p t st',
    VisionExtractor.extract_from_image w client path ocr_text ocr_confidence st
    = (inr (p, t), st')
    /\ ExtractedPrescription.extraction_method p = Some (u "llm_vision")
    /\ ExtractedPrescription.llm_enhanced p = true
    /\ (forall c, VisionExtractor.nonzero ocr_confidence = Some c ->
          (ExtractedPrescription.ocr_confidence p = Some c
           /\ (0 <= c)%Q /\ (c <= 1)%Q)
          \/ p = VisionExtractor.failed_document)
    /\ (image_exists w path = false ->
        p = VisionExtractor.failed_document /\ st' = st).
Proof.
  intros w client path ocr_text conf st.
  rewrite extract_from_image_eq.
  destruct (image_readable w path) eqn:Hrd.
  - cbv zeta. do 3 eexists. split; [reflexivity|].
    unfold vision_document.
    destruct (vision_attempt conf _) as [e|p] eqn:E.
    + split; [reflexivity|]. split; [reflexivity|].
      split; [intros; now right | intros; unreadable].
    + destruct (vision_attempt_stamps conf _ p E) as (H1 & H2 & H3).
      split; [exact H1|]. split; [exact H2|].
      split; [|intros; unreadable].
      intros c Hc. left. now apply H3.
  - do 3 eexists. split; [reflexivity|].
    repeat split; try reflexivity. intros; now right.
Qed.

Lemma extract_from_image_stamps_witness :
  exists p t st',
    VisionExtractor.extract_from_image Scenario.vision_signed
      Scenario.signing_client Scenario.rx_path (Some Scenario.amoxicillin_line)
      (Some 0.45%Q) Scenario.st0 = (inr (p, t), st')
    /\ ExtractedPrescription.extraction_method p = Some (u "llm_vision")
    /\ ExtractedPrescription.ocr_confidence p = Some 0.45%Q.
Proof.
  destruct (extract_from_image_stamps Scenario.vision_signed
              Scenario.signing_client Scenario.rx_path
              (Some Scenario.amoxicillin_line) (Some 0.45%Q) Scenario.st0)
    as (p & t & st' & H & H1 & _ & H3 & _).
  exists p, t, st'. split; [exact H|]. split; [exact H1|].
  destruct (H3 0.45%Q eq_refl) as [[Hc _]|Hf]; [exact Hc|].
  exfalso. rewrite Hf in H. vm_compute in H. discriminate H.
Defined.

Lemma retry_loop_bound client text dt :
  forall n st total doc t st',
    LLMExtractor.retry_loop client n text dt total st = (inr (doc, t), st') ->
    (llm_calls st <= llm_calls st' <= llm_calls st + n)%nat
    /\ vision_calls st' = vision_calls st
    /\ t = total + (clock st' - clock st)
    /\ (doc = LLMExtractor.unknown_document
        \/ ExtractedPrescription.document_type doc <> u "unknown").
Proof.
  induction n as [|n IH]; intros st total doc t st'.
  - cbn. unfold ret. intros H. injection H as <- <- <-.
    repeat split; try lia. now left.
  - cbn [LLMExtractor.retry_loop]. unfold bind at 1. unfold try_except.
    unfold bind at 1. rewrite extract_eq. cbv zeta.
    destruct (str_eqb _ (u "unknown")) eqn:E; cbn [negb ret].
    + intros H. apply IH in H. cbn [after_text llm_calls vision_calls clock] in H.
      destruct H as (H1 & H2 & H3 & H4).
      repeat split; try lia; assumption.
    + unfold ret. intros H. injection H as <- <- <-.
      cbn [after_text llm_calls vision_calls clock].
      repeat split; try lia. right. intros Hd.
      apply str_eqb_eq in Hd. congruence.
Qed.

(** X13.  [extract_with_retry] makes at most [max_retries + 1] calls, and
    none at all when [max_retries] is negative; the time it returns is the
    time its attempts took; and its result is either a document whose type is
    resolved or the minimal document of type "unknown", so what a failed
    attempt had extracted is never returned. *)
Theorem extract_with_retry_bounds :
  forall client ocr_text document_type max_retries st,
  exists doc t st',
    LLMExtractor.extract_with_retry client ocr_text document_type
      max_retries st = (inr (doc, t), st')
    /\ (llm_calls st <= llm_calls st'
        <= llm_calls st + Z.to_nat (max_retries + 1))%nat
    /\ vision_calls st' = vision_calls st
    /\ t = clock st' - clock st
    /\ (doc = LLMExtractor.unknown_document
        \/ ExtractedPrescription.document_type doc <> u "unknown")
    /\ (max_retries < 0 ->
        doc = LLMExtractor.unknown_document /\ t = 0 /\ st' = st).
Proof.
  intros client text dt mr st. unfold LLMExtractor.extract_with_retry.
  destruct (retry_loop_returns client text dt (Z.to_nat (mr + 1)) st 0)
    as (doc & t & st' & H).
  exists doc, t, st'. split; [exact H|].
  pose proof (retry_loop_bound client text dt _ _ _ _ _ _ H)
    as (H1 & H2 & H3 & H4).
  split; [exact H1|]. split; [exact H2|]. split; [lia|].
  split; [exact H4|].
  intros Hneg. replace (Z.to_nat (mr + 1)) with O in H by lia.
  cbn in H. unfold ret in H. injection H as <- <- <-. repeat split.
Qed.

Lemma extract_with_retry_bounds_witness :
  exists doc t st',
    LLMExtractor.extract_with_retry
      (Scenario.text_always (inr Scenario.prose) 7)
      Scenario.amoxicillin_line None (-1) Scenario.st0 = (inr (doc, t), st')
    /\ doc = LLMExtractor.unknown_document /\ t = 0 /\ st' = Scenario.st0.
Proof.
  destruct (extract_with_retry_bounds
              (Scenario.text_always (inr Scenario.prose) 7)
              Scenario.amoxicillin_line None (-1) Scenario.st0)
    as (doc & t & st' & H & _ & _ & _ & _ & H5).
  exists doc, t, st'. split; [exact H|]. apply H5. reflexivity.
Defined.

Lemma parse_medication_line_inv line item :
  _parse_medication_line line = Some item ->
  (2 <= length (MedicationItem.name item))%nat
  /\ MedicationItem.duration item = None
  /\ MedicationItem.instructions item = None
  /\ MedicationItem.is_handwritten item = None.
Proof.
  unfold _parse_medication_line. cbv zeta.
  destruct (length _ <? 3)%nat eqn:E3; [discriminate|].
  apply Nat.ltb_ge in E3.
  intros H. injection H as <-.
  cbn [MedicationItem.name MedicationItem.duration
       MedicationItem.instructions MedicationItem.is_handwritten].
  split; [|repeat split].
  match goal with
  | |- context [if ?c then _ else _] => destruct c eqn:E2
  end.
  - exact (Nat.le_trans _ _ _ (Nat.le_succ_diag_r 2) E3).
  - now apply Nat.ltb_ge in E2.
Qed.

Lemma flat_map_option_length {A B} (f : A -> list B) l :
  (forall x, length (f x) <= 1)%nat ->
  (length (flat_map f l) <= length l)%nat.
Proof.
  intros H. induction l as [|x l IH]; cbn; [lia|].
  rewrite length_app. specialize (H x). lia.
Qed.

Lemma flat_map_Forall {A B} (P : B -> Prop) (f : A -> list B) l :
  (forall x, Forall P (f x)) -> Forall P (flat_map f l).
Proof.
  intros H. induction l as [|x l IH]; cbn; [constructor|].
  apply Forall_app. split; [apply H | exact IH].
Qed.

Lemma extract_medications_inv text :
  (length (_extract_medications text) <= length (split_on 10 text))%nat
  /\ Forall (fun item =>
               (2 <= length (MedicationItem.name item))%nat
               /\ MedicationItem.duration item = None
               /\ MedicationItem.instructions item = None
               /\ MedicationItem.is_handwritten item = None)
            (_extract_medications text).
Proof.
  unfold _extract_medications. cbv zeta.
  match goal with
  | |- context [match ?first with [] => ?second | _ :: _ => _ end] =>
      assert (H1 : (length first <= length (split_on 10 text))%nat
                   /\ Forall (fun item =>
                        (2 <= length (MedicationItem.name item))%nat
                        /\ MedicationItem.duration item = None
                        /\ MedicationItem.instructions item = None
                        /\ MedicationItem.is_handwritten item = None) first);
      [|assert (H2 : (length second <= length (split_on 10 text))%nat
                   /\ Forall (fun item =>
                        (2 <= length (MedicationItem.name item))%nat
                        /\ MedicationItem.duration item = None
                        /\ MedicationItem.instructions item = None
                        /\ MedicationItem.is_handwritten item = None) second);
        [|destruct first; assumption]]
  end.
  - split.
    + apply flat_map_option_length. intros line.
      destruct (strip line); [cbn; lia|].
      destruct (_is_medication_line _); [|cbn; lia].
      destruct (_parse_medication_line _); cbn; lia.
    + apply flat_map_Forall. intros line.
      destruct (strip line) eqn:Es; [constructor|]. rewrite <- Es.
      destruct (_is_medication_line _); [|constructor].
      destruct (_parse_medication_line _) eqn:E; [|constructor].
      constructor; [|constructor].
      eapply parse_medication_line_inv; eassumption.
  - split.
    + apply flat_map_option_length. intros line.
      destruct (existsb _ _); [|cbn; lia].
      destruct (_parse_medication_line _); cbn; lia.
    + apply flat_map_Forall. intros line.
      destruct (existsb _ _); [|constructor].
      destruct (_parse_medication_line _) eqn:E; [|constructor].
      constructor; [|constructor].
      eapply parse_medication_line_inv; eassumption.
Qed.

(** X14.  The medications of the local fallback: at most one item for each
    line of the OCR text, every item with a name of two characters or more
    and without duration, instructions or handwriting flag; and
    [total_items] of the record [parse] returns is their number. *)
Theorem fallback_medications :
  (forall text,
      (length (_extract_medications text) <= length (split_on 10 text))%nat
      /\ Forall (fun item =>
                   (2 <= length (MedicationItem.name item))%nat
                   /\ MedicationItem.duration item = None
                   /\ MedicationItem.instructions item = None
                   /\ MedicationItem.is_handwritten item = None)
                (_extract_medications text))
  /\ (forall text c p,
         parse text c = inr p ->
         ExtractedPrescription.medications p = _extract_medications text
         /\ ExtractedPrescription.total_items p
            = Some (Z.of_nat (length (ExtractedPrescription.medications p)))).
Proof.
  split; [exact extract_medications_inv|].
  intros text c p. rewrite parse_eq.
  destruct (in_unit c); [|discriminate].
  intros H. injection H as <-. split; reflexivity.
Qed.

Lemma fallback_medications_witness :
  exists p,
    parse Scenario.amoxicillin_line 0.8%Q = inr p
    /\ ExtractedPrescription.total_items p = Some 1.
Proof.
  destruct (parse Scenario.amoxicillin_line 0.8%Q) as [e|p] eqn:E;
    [vm_compute in E; discriminate E|].
  exists p. split; [reflexivity|].
  destruct (proj2 fallback_medications Scenario.amoxicillin_line 0.8%Q p E)
    as [Hm Ht].
  rewrite Ht, Hm. vm_compute. reflexivity.
Defined.

(** *** Soundness of the matcher *)

Import ReSpec.

Lemma consumed_app (prev prev' : option N) (w s : str) :
  consumed (prev, w ++ s) (prev', s) = w.
Proof.
  unfold consumed. cbn [snd]. rewrite length_app.
  replace (length w + length s - length s)%nat with (length w) by lia.
  rewrite firstn_app, Nat.sub_diag, firstn_all, firstn_O. apply app_nil_r.
Qed.

Lemma consumed_suffix (p p' : pos) w :
  snd p = w ++ snd p' -> consumed p p' = w.
Proof.
  destruct p as [a s], p' as [b s']. cbn [snd]. intros ->.
  apply consumed_app.
Qed.

Lemma caps_ok_refl ic r cs : caps_ok ic r cs cs.
Proof. intros i. now left. Qed.

Lemma caps_ok_weaken ic r r' cs cs' :
  (forall i, incl (group_bodies i r) (group_bodies i r')) ->
  caps_ok ic r cs cs' -> caps_ok ic r' cs cs'.
Proof.
  intros Hincl H i. destruct (H i) as [E|(body & g & Hin & E & Hl)];
    [now left|right].
  exists body, g. split; [now apply (Hincl i)|]. now split.
Qed.

Lemma caps_ok_trans ic r cs cs1 cs2 :
  caps_ok ic r cs cs1 -> caps_ok ic r cs1 cs2 -> caps_ok ic r cs cs2.
Proof.
  intros H1 H2 i. destruct (H2 i) as [E|H]; [|now right].
  rewrite E. apply H1.
Qed.

Lemma caps_ok_mono ic r cs cs' i :
  caps_ok ic r cs cs' -> lookup i cs <> None -> lookup i cs' <> None.
Proof.
  intros H Hn. destruct (H i) as [E|(body & g & _ & E & _)];
    rewrite E; [exact Hn | discriminate].
Qed.

Lemma caps_set_none r cs :
  (forall i, sets_group i r = false) -> caps_set r cs.
Proof. intros H i Hi. rewrite H in Hi. discriminate. Qed.

Section Soundness.
Variable ic : bool.
Variable R : Type.

Lemma rep_loop_sound r greedy lo hi (k : K R) :
  sound_for ic r (m ic (R:=R) r) ->
  forall fuel n p cs x,
    match hi with Some h => (n <= h)%nat | None => True end ->
    rep_loop (m ic r) greedy lo hi k fuel n p cs = Some x ->
    exists p' cs' ws,
      k p' cs' = Some x /\ snd p = concat ws ++ snd p'
      /\ Forall (lang ic r) ws
      /\ (lo <= n + length ws)%nat
      /\ match hi with
         | Some h => (n + length ws <= h)%nat
         | None => True
         end
      /\ caps_ok ic r cs cs'
      /\ (ws <> [] -> caps_set r cs').
Proof.
  intros Hbody.
  assert (Hstop : forall n p cs x,
            match hi with Some h => (n <= h)%nat | None => True end ->
            (if (lo <=? n)%nat then k p cs else None) = Some x ->
            exists p' cs' ws,
              k p' cs' = Some x /\ snd p = concat ws ++ snd p'
              /\ Forall (lang ic r) ws
              /\ (lo <= n + length ws)%nat
              /\ match hi with
                 | Some h => (n + length ws <= h)%nat
                 | None => True
                 end
              /\ caps_ok ic r cs cs'
              /\ (ws <> [] -> caps_set r cs')).
  { intros n p cs x Hn H. destruct (lo <=? n)%nat eqn:E; [|discriminate].
    apply Nat.leb_le in E. exists p, cs, []. cbn.
    split; [exact H|]. split; [reflexivity|]. split; [constructor|].
    split; [lia|]. split; [destruct hi; [lia | exact I]|].
    split; [apply caps_ok_refl|]. congruence. }
  induction fuel as [|fuel IH]; intros n p cs x Hn H.
  - cbn in H. now apply Hstop.
  - cbn [rep_loop] in H. cbv zeta in H.
    assert (Hmore :
      (if below hi n
       then m ic r p cs
              (fun p' cs' =>
                 if shorter p' p
                 then rep_loop (m ic r) greedy lo hi k fuel (S n) p' cs'
                 else None)
       else None) = Some x ->
      exists p' cs' ws,
        k p' cs' = Some x /\ snd p = concat ws ++ snd p'
        /\ Forall (lang ic r) ws
        /\ (lo <= n + length ws)%nat
        /\ match hi with
           | Some h => (n + length ws <= h)%nat
           | None => True
           end
        /\ caps_ok ic r cs cs'
        /\ (ws <> [] -> caps_set r cs')).
    { intros Hm. destruct (below hi n) eqn:Eb; [|discriminate].
      apply Hbody in Hm.
      destruct Hm as (p1 & cs1 & w1 & Hk & Hs1 & Hl1 & Hc1 & Hg1).
      destruct (shorter p1 p); [|discriminate].
      apply IH in Hk.
      - destruct Hk as (p' & cs' & ws & Hk & Hs & Hf & Hlo & Hhi & Hc & _).
        exists p', cs', (w1 :: ws). cbn [concat length].
        split; [exact Hk|]. split; [now rewrite Hs1, Hs, app_assoc|].
        split; [now constructor|]. split; [lia|].
        split; [destruct hi; [lia | exact I]|].
        split; [eapply caps_ok_trans; eassumption|].
        intros _ i Hi. eapply caps_ok_mono; [exact Hc|]. now apply Hg1.
      - destruct hi as [h|]; [|exact I].
        cbn in Eb. apply Nat.ltb_lt in Eb. lia. }
    destruct greedy.
    + destruct (if below hi n then _ else None) as [y|] eqn:E.
      * injection H as ->. now apply Hmore.
      * now apply Hstop.
    + destruct (if (lo <=? n)%nat then k p cs else None) as [y|] eqn:E.
      * injection H as ->. now apply Hstop.
      * now apply Hmore.
Qed.

Lemma m_sound : forall r, sound_for ic r (m ic (R:=R) r).
Proof.
  induction r as [c| |neg l| |r1 IH1 r2 IH2|r1 IH1 r2 IH2
                 |greedy lo hi r1 IH1|i r1 IH1| | |];
    intros p cs k x H; cbn [m] in H.
  - destruct (snd p) as [|d s'] eqn:Es; [discriminate|].
    destruct (char_eq ic c d) eqn:E; [|discriminate].
    exists (Some d, s'), cs, [d]. cbn.
    split; [exact H|]. split; [reflexivity|]. split; [eauto|].
    split; [apply caps_ok_refl | now apply caps_set_none].
  - destruct (snd p) as [|d s'] eqn:Es; [discriminate|].
    exists (Some d, s'), cs, [d]. cbn.
    split; [exact H|]. split; [reflexivity|]. split; [eauto|].
    split; [apply caps_ok_refl | now apply caps_set_none].
  - destruct (snd p) as [|d s'] eqn:Es; [discriminate|].
    destruct (xorb neg _) eqn:E; [|discriminate].
    exists (Some d, s'), cs, [d]. cbn.
    split; [exact H|]. split; [reflexivity|]. split; [eauto|].
    split; [apply caps_ok_refl | now apply caps_set_none].
  - exists p, cs, []. cbn.
    split; [exact H|]. split; [reflexivity|]. split; [reflexivity|].
    split; [apply caps_ok_refl | now apply caps_set_none].
  - apply IH1 in H. destruct H as (p1 & cs1 & w1 & H & Hs1 & Hl1 & Hc1 & Hg1).
    apply IH2 in H. destruct H as (p2 & cs2 & w2 & H & Hs2 & Hl2 & Hc2 & Hg2).
    exists p2, cs2, (w1 ++ w2). split; [exact H|].
    split; [now rewrite Hs1, Hs2, app_assoc|]. split; [cbn; eauto|]. split.
    + intros i. destruct (Hc2 i) as [E|(body & g & Hin & E & Hl)].
      * rewrite E. destruct (Hc1 i) as [E1|(body & g & Hin & E1 & Hl)];
          [now left|right].
        exists body, g. cbn. split; [apply in_or_app; now left|]. now split.
      * right. exists body, g. cbn.
        split; [apply in_or_app; now right|]. now split.
    + intros i Hi. cbn [sets_group] in Hi.
      apply orb_true_iff in Hi as [Hi|Hi].
      * eapply caps_ok_mono; [exact Hc2|]. now apply Hg1.
      * now apply Hg2.
  - destruct (m ic r1 p cs k) as [y|] eqn:E.
    + injection H as ->. apply IH1 in E.
      destruct E as (p1 & cs1 & w1 & H & Hs1 & Hl1 & Hc1 & Hg1).
      exists p1, cs1, w1.
      split; [exact H|]. split; [exact Hs1|]. split; [now left|]. split.
      * eapply caps_ok_weaken; [|exact Hc1].
        intros i. cbn. apply incl_appl, incl_refl.
      * intros i Hi. cbn [sets_group] in Hi.
        apply andb_true_iff in Hi as [Hi _].
        now apply Hg1.
    + apply IH2 in H.
      destruct H as (p1 & cs1 & w1 & H & Hs1 & Hl1 & Hc1 & Hg1).
      exists p1, cs1, w1.
      split; [exact H|]. split; [exact Hs1|]. split; [now right|]. split.
      * eapply caps_ok_weaken; [|exact Hc1].
        intros i. cbn. apply incl_appr, incl_refl.
      * intros i Hi. cbn [sets_group] in Hi.
        apply andb_true_iff in Hi as [_ Hi].
        now apply Hg1.
  - apply (rep_loop_sound r1 greedy lo hi k IH1) in H.
    + destruct H as (p' & cs' & ws & H & Hs & Hf & Hlo & Hhi & Hc & Hg).
      exists p', cs', (concat ws).
      split; [exact H|]. split; [exact Hs|]. split.
      { cbn. exists ws. repeat split; assumption. }
      split; [exact Hc|].
      intros i Hi. cbn [sets_group] in Hi.
      apply andb_true_iff in Hi as [Hlo' Hi].
      apply Nat.ltb_lt in Hlo'.
      apply Hg; [|exact Hi]. destruct ws; [cbn in Hlo; lia | discriminate].
    + destruct hi; [lia | exact I].
  - apply IH1 in H. destruct H as (p1 & cs1 & w1 & H & Hs1 & Hl1 & Hc1 & Hg1).
    exists p1, ((i, consumed p p1) :: cs1), w1.
    split; [exact H|]. split; [exact Hs1|]. split; [exact Hl1|].
    rewrite (consumed_suffix p p1 w1 Hs1). split.
    + intros j. cbn [lookup group_bodies].
      destruct (j =? i)%nat eqn:E.
      * right. exists r1, w1. split; [now left|]. now split.
      * cbn [app]. apply Hc1.
    + intros j Hj. cbn [lookup sets_group] in *.
      destruct (j =? i)%nat; [discriminate|]. now apply Hg1.
  - destruct (fst p); [discriminate|].
    exists p, cs, []. cbn.
    split; [exact H|]. split; [reflexivity|]. split; [reflexivity|].
    split; [apply caps_ok_refl | now apply caps_set_none].
  - destruct (at_end p); [|discriminate].
    exists p, cs, []. cbn.
    split; [exact H|]. split; [reflexivity|]. split; [reflexivity|].
    split; [apply caps_ok_refl | now apply caps_set_none].
  - destruct (at_word_boundary p); [|discriminate].
    exists p, cs, []. cbn.
    split; [exact H|]. split; [reflexivity|]. split; [reflexivity|].
    split; [apply caps_ok_refl | now apply caps_set_none].
Qed.
End Soundness.

Lemma match_at_sound ic r start p mt :
  match_at ic r start p = Some mt -> sound_match ic r (snd p) mt.
Proof.
  unfold match_at. intros H. apply m_sound in H.
  destruct H as (p' & cs' & w & H & Hs & Hl & Hc & Hg).
  injection H as <-. unfold sound_match. cbn [m_whole m_groups m_after].
  rewrite (consumed_suffix p p' w Hs).
  split; [exact Hl|]. split; [exists []; exact Hs|]. split; [|exact Hg].
  intros i g Hi. destruct (Hc i) as [E|(body & g' & Hin & E & Hb)].
  - rewrite Hi in E. discriminate.
  - rewrite Hi in E. injection E as <-. eauto.
Qed.

Lemma match_at_whole ic r start p mt :
  match_at ic r start p = Some mt -> snd p = m_whole mt ++ m_after mt.
Proof.
  unfold match_at. intros H. apply m_sound in H.
  destruct H as (p' & cs' & w & H & Hs & _).
  injection H as <-. cbn [m_whole m_after].
  now rewrite (consumed_suffix p p' w Hs).
Qed.

Lemma search_from_sound ic r :
  forall s start prev mt,
    search_from ic r start prev s = Some mt -> sound_match ic r s mt.
Proof.
  induction s as [|c s IH]; intros start prev mt H; cbn [search_from] in H.
  - match type of H with
    | match ?x with _ => _ end = _ => destruct x as [y|] eqn:E
    end; [|discriminate H].
    injection H as ->. exact (match_at_sound _ _ _ _ _ E).
  - match type of H with
    | match ?x with _ => _ end = _ => destruct x as [y|] eqn:E
    end.
    + injection H as ->. exact (match_at_sound _ _ _ _ _ E).
    + apply IH in H. destruct H as (H1 & [pre H2] & H3).
      split; [exact H1|]. split; [|exact H3].
      exists (c :: pre). cbn. now rewrite H2.
Qed.

Lemma search_sound ic r s mt :
  search ic r s = Some mt -> sound_match ic r s mt.
Proof. apply search_from_sound. Qed.

Lemma re_match_sound ic r s mt :
  re_match ic r s = Some mt ->
  lang ic r (m_whole mt) /\ s = m_whole mt ++ m_after mt.
Proof.
  unfold re_match. intros H. split.
  - now apply match_at_sound in H as (H1 & _).
  - now apply match_at_whole in H.
Qed.

(** A group the pattern always sets is found in the match object, and
    holds a word of one of its bodies. *)
Lemma group_sound ic r s mt i :
  sound_match ic r s mt -> sets_group (S i) r = true ->
  exists g body,
    group mt (S i) = Some g /\ In body (group_bodies (S i) r)
    /\ lang ic body g.
Proof.
  intros (_ & _ & Hb & Hs) Hi. cbn [group].
  destruct (lookup (S i) (m_groups mt)) as [g|] eqn:E.
  - destruct (Hb _ _ E) as (body & Hin & Hl). eauto.
  - exfalso. exact (Hs _ Hi E).
Qed.

(** *** Characters and words *)

Ltac nbool :=
  repeat match goal with
         | H : (_ <=? _)%N = true |- _ => apply N.leb_le in H
         | H : (_ <=? _)%N = false |- _ => apply N.leb_gt in H
         | H : (_ =? _)%N = true |- _ => apply N.eqb_eq in H
         | H : (_ =? _)%N = false |- _ => apply N.eqb_neq in H
         end.

Ltac btrue :=
  repeat match goal with
         | H : _ && _ = true |- _ => apply andb_true_iff in H as [? ?]
         | H : _ || _ = true |- _ => apply orb_true_iff in H as [H|H]
         | H : negb _ = true |- _ => apply negb_true_iff in H
         | H : false = true |- _ => discriminate H
         end.

(** A character outside the interval [lo, hi]. *)
Lemma in_range_out lo hi c :
  (c < lo \/ hi < c)%N -> in_range lo hi c = false.
Proof.
  intros H. unfold in_range.
  destruct (lo <=? c)%N eqn:E1; [|reflexivity].
  destruct (c <=? hi)%N eqn:E2; [|reflexivity].
  nbool. lia.
Qed.

Lemma eqb_out (c d : N) : c <> d -> (c =? d)%N = false.
Proof. apply N.eqb_neq. Qed.

Lemma isspace_bound c : isspace c = true -> (c <= 12288)%N.
Proof.
  unfold isspace, in_range. intros H. btrue; nbool; lia.
Qed.

Lemma isspace_cases c :
  isspace c = true ->
  (9 <= c <= 13 \/ 28 <= c <= 32 \/ c = 133 \/ c = 160 \/ c = 5760
   \/ 8192 <= c <= 8202 \/ 8232 <= c <= 8233 \/ c = 8239 \/ c = 8287
   \/ c = 12288)%N.
Proof.
  unfold isspace, in_range. intros H. btrue; nbool; lia.
Qed.

Lemma isspace_values c :
  isspace c = true ->
  In c [9; 10; 11; 12; 13; 28; 29; 30; 31; 32; 133; 160; 5760; 8192; 8193;
        8194; 8195; 8196; 8197; 8198; 8199; 8200; 8201; 8202; 8232; 8233;
        8239; 8287; 12288]%N.
Proof. intros H. apply isspace_cases in H. cbn [In]. lia. Qed.

(** A property of every white-space character, by enumeration. *)
Lemma isspace_forall (P : N -> bool) :
  forallb P [9; 10; 11; 12; 13; 28; 29; 30; 31; 32; 133; 160; 5760; 8192;
             8193; 8194; 8195; 8196; 8197; 8198; 8199; 8200; 8201; 8202;
             8232; 8233; 8239; 8287; 12288]%N = true ->
  forall c, isspace c = true -> P c = true.
Proof.
  intros HP c Hc. apply isspace_values in Hc.
  rewrite forallb_forall in HP. now apply HP.
Qed.

Lemma isdecimal_not_space c : isdecimal c = true -> isspace c = false.
Proof.
  intros Hd. destruct (isspace c) eqn:Hs; [|reflexivity].
  apply (isspace_forall (fun c => negb (isdecimal c))) in Hs;
    [|vm_compute; reflexivity].
  rewrite Hd in Hs. discriminate Hs.
Qed.

Lemma isspace_lower_fix c : isspace c = true -> lower_char c = c.
Proof.
  intros Hs.
  apply (isspace_forall (fun c => (lower_char c =? c)%N)) in Hs;
    [|vm_compute; reflexivity].
  now apply N.eqb_eq in Hs.
Qed.

Lemma isspace_not_dotted c : isspace c = true -> (c =? 304)%N = false.
Proof.
  intros Hs.
  apply (isspace_forall (fun c => negb (c =? 304)%N)) in Hs;
    [|vm_compute; reflexivity].
  now apply negb_true_iff in Hs.
Qed.

(** *** The case tables *)

Lemma case_lookup_cases table c :
  case_lookup table c = c
  \/ exists first last step image,
       In (first, last, step, image) table
       /\ (first <= c <= last)%N
       /\ case_lookup table c = (image + (c - first))%N.
Proof.
  induction table as [|[[[first last] step] image] table IH];
    cbn [case_lookup]; [now left|].
  destruct (c <? first)%N eqn:E1; [now left|].
  destruct ((c <=? last) && ((c - first) mod step =? 0))%N eqn:E2.
  - right. exists first, last, step, image.
    split; [now left|]. split; [|reflexivity].
    apply andb_true_iff in E2 as [E2 _].
    apply N.ltb_ge in E1. apply N.leb_le in E2. lia.
  - destruct IH as [IH|(f & l & st & i & Hin & Hr & IH)]; [now left|].
    right. exists f, l, st, i. split; [now right|]. now split.
Qed.

(** A character that no run of the table reaches is the image of itself
    only. *)
Lemma case_lookup_preimage table c x :
  forallb (fun e => match e with
                    | (first, last, _, image) =>
                        negb (in_range image (image + (last - first)) x)
                    end) table = true ->
  case_lookup table c = x -> c = x.
Proof.
  intros Ht H.
  destruct (case_lookup_cases table c)
    as [E|(first & last & step & image & Hin & Hr & E)]; [congruence|].
  rewrite forallb_forall in Ht. specialize (Ht _ Hin). cbn in Ht.
  apply negb_true_iff in Ht. unfold in_range in Ht.
  rewrite E in H. subst x.
  apply andb_false_iff in Ht as [Ht|Ht]; [apply N.leb_gt in Ht|
                                          apply N.leb_gt in Ht]; lia.
Qed.

Lemma lower_char_small c x :
  lower_char c = x -> (x < 97)%N -> c = x.
Proof.
  intros H Hx. unfold lower_char in H.
  destruct (case_lookup_cases lower_table c)
    as [E|(first & last & step & image & Hin & Hr & E)]; [congruence|].
  assert (Hall : forallb (fun e => match e with
                                   | (_, _, _, image) => (97 <=? image)%N
                                   end) lower_table = true)
    by (vm_compute; reflexivity).
  rewrite forallb_forall in Hall. specialize (Hall _ Hin). cbn in Hall.
  apply N.leb_le in Hall. rewrite E in H. lia.
Qed.

(** The dotless i is the lower case of itself only. *)
Lemma lower_char_dotless d : lower_char d = 305%N -> d = 305%N.
Proof.
  apply case_lookup_preimage. vm_compute. reflexivity.
Qed.

Lemma nonspace_of_lower c x :
  lower_char c = x -> isspace x = false -> isspace c = false.
Proof.
  intros Hl Hx. destruct (isspace c) eqn:E; [|reflexivity].
  pose proof (isspace_lower_fix c E) as Hfix. congruence.
Qed.

Lemma lstrip_id s :
  match s with c :: _ => isspace c = false | [] => True end -> lstrip s = s.
Proof. destruct s as [|c s]; cbn; [reflexivity|]. now intros ->. Qed.

Lemma strip_id s :
  Forall (fun c => isspace c = false) s -> strip s = s.
Proof.
  intros H. unfold strip, rstrip.
  rewrite (lstrip_id s) by (destruct H; [exact I | assumption]).
  rewrite (lstrip_id (rev s)), rev_involutive; [reflexivity|].
  apply Forall_rev in H. destruct H; [exact I | assumption].
Qed.

Lemma strip_digits s :
  Forall (fun c => isdecimal c = true) s -> strip s = s.
Proof.
  intros H. apply strip_id. revert H. apply Forall_impl.
  intros c. apply isdecimal_not_space.
Qed.

(** *** The words of the pattern shapes *)

Lemma lang_lits ic l :
  forall w, lang ic (seq (map Lit l)) w ->
            Forall2 (fun c d => char_eq ic c d = true) l w.
Proof.
  induction l as [|c l IH]; intros w H.
  - cbn in H. subst. constructor.
  - destruct l as [|c' l].
    + cbn in H. destruct H as (d & -> & H). repeat constructor. exact H.
    + change (seq (map Lit (c :: c' :: l)))
        with (Seq (Lit c) (seq (map Lit (c' :: l)))) in H.
      cbn [lang] in H. destruct H as (w1 & w2 & -> & (d & -> & Hd) & H2).
      constructor; [exact Hd | now apply IH].
Qed.

Lemma lits_exact l w :
  Forall2 (fun c d => char_eq false c d = true) l w -> w = l.
Proof.
  induction 1 as [|c d l w Hc _ IH]; [reflexivity|].
  cbn in Hc. apply N.eqb_eq in Hc. now subst.
Qed.

Lemma char_eq_uncased ic c d :
  iscased c = false -> char_eq ic c d = (c =? d)%N.
Proof. unfold char_eq. intros ->. now destruct ic. Qed.

(** What IGNORECASE lets a literal match: itself, or a character whose lower
    case is the lower case of the literal or one of its extra cases. *)
Lemma char_eq_ignorecase c d :
  char_eq true c d = true ->
  c = d \/ In (lower_char d) (lower_char c :: extra_cases (lower_char c)).
Proof.
  unfold char_eq. destruct (iscased c).
  - cbv zeta. intros H. right. apply existsb_exists in H.
    destruct H as (x & Hin & Hx). apply N.eqb_eq in Hx. now subst.
  - intros H. left. now apply N.eqb_eq in H.
Qed.

Lemma lower_chars_plain c d :
  extra_cases (lower_char c) = [] ->
  char_eq true c d = true ->
  lower_chars d = lower_chars c.
Proof.
  intros Hp H. apply char_eq_ignorecase in H. rewrite Hp in H.
  destruct H as [->|[H|[]]]; [reflexivity|].
  unfold lower_chars.
  destruct (d =? 304)%N eqn:Ed.
  { apply N.eqb_eq in Ed. subst d.
    change (lower_char 304) with 105%N in H. rewrite H in Hp.
    vm_compute in Hp. discriminate Hp. }
  destruct (c =? 304)%N eqn:Ec.
  { apply N.eqb_eq in Ec. subst c. vm_compute in Hp. discriminate Hp. }
  now rewrite H.
Qed.

(** A word without letters that have extra cases is matched, under
    IGNORECASE, by the texts that have its lower case. *)
Lemma lits_lower l w :
  Forall (fun c => extra_cases (lower_char c) = []) l ->
  Forall2 (fun c d => char_eq true c d = true) l w -> lower w = lower l.
Proof.
  intros Hp H. induction H as [|c d l w Hc _ IH]; [reflexivity|].
  inversion Hp as [|? ? Hpc Hpl]; subst.
  unfold lower in *. cbn [flat_map].
  now rewrite (lower_chars_plain c d Hpc Hc), (IH Hpl).
Qed.

Lemma lang_word_exact s w : lang false (word s) w -> w = u s.
Proof. intros H. apply lits_exact. now apply lang_lits. Qed.

Lemma lang_word_lower s w :
  Forall (fun c => extra_cases (lower_char c) = []) (u s) ->
  lang true (word s) w -> lower w = lower (u s).
Proof. intros Hp H. apply lits_lower; [exact Hp|]. now apply lang_lits. Qed.

Lemma concat_singletons {A} (P : A -> Prop) (ws : list (list A)) :
  Forall (fun w => exists d, w = [d] /\ P d) ws ->
  Forall P (concat ws) /\ length (concat ws) = length ws.
Proof.
  induction 1 as [|w ws (d & -> & Hd) _ [IH1 IH2]]; cbn.
  - split; [constructor | reflexivity].
  - split; [now constructor | now rewrite IH2].
Qed.

(** A repeated character class: its characters are in the class and their
    number is within the bounds. *)
Lemma lang_rep_cls ic greedy lo hi neg l w :
  lang ic (Rep greedy lo hi (Cls neg l)) w ->
  Forall (fun d => in_class ic neg l d = true) w
  /\ (lo <= length w)%nat
  /\ match hi with Some h => (length w <= h)%nat | None => True end.
Proof.
  cbn [lang]. intros (ws & -> & Hf & Hlo & Hhi).
  apply concat_singletons in Hf. destruct Hf as [Hf Hlen].
  rewrite Hlen. repeat split; assumption.
Qed.

Lemma in_class_digit ic d : in_class ic false [IDigit] d = isdecimal d.
Proof. unfold in_class. cbn. now rewrite orb_false_r. Qed.

Lemma in_class_space ic d : in_class ic false [ISpace] d = isspace d.
Proof. unfold in_class. cbn. now rewrite orb_false_r. Qed.

Lemma lang_digits ic greedy lo hi w :
  lang ic (Rep greedy lo hi d_) w ->
  Forall (fun c => isdecimal c = true) w
  /\ (lo <= length w)%nat
  /\ match hi with Some h => (length w <= h)%nat | None => True end.
Proof.
  intros H. apply lang_rep_cls in H. destruct H as (H & Hlo & Hhi).
  split; [|now split].
  revert H. apply Forall_impl. intros c Hc. now rewrite in_class_digit in Hc.
Qed.

Lemma lang_spaces ic greedy lo hi w :
  lang ic (Rep greedy lo hi s_) w -> Forall (fun c => isspace c = true) w.
Proof.
  intros H. apply lang_rep_cls in H. destruct H as (H & _).
  revert H. apply Forall_impl. intros c Hc. now rewrite in_class_space in Hc.
Qed.

Lemma lang_plus_digits ic w : lang ic (plus d_) w -> all_digits w.
Proof.
  intros H. apply lang_digits in H. destruct H as (H & Hlo & _).
  split; [|exact H]. destruct w; [cbn in Hlo; lia | discriminate].
Qed.

(** An optional literal character. *)
Lemma lang_opt_lit c w : lang false (opt (Lit c)) w -> w = [] \/ w = [c].
Proof.
  unfold opt. cbn [lang]. intros (ws & -> & Hf & _ & Hhi).
  destruct ws as [|w [|w' ws]]; [now left| |cbn in Hhi; lia].
  right. apply Forall_inv in Hf. destruct Hf as (d & -> & Hd).
  cbn in Hd. apply N.eqb_eq in Hd. now subst.
Qed.

(** What [_find_first_match] returns is group 1 of the first pattern that
    is found, stripped. *)
Lemma find_first_match_inv text :
  forall patterns a,
    _find_first_match text patterns = Some a ->
    exists pattern mt g,
      In pattern patterns /\ search true pattern text = Some mt
      /\ group mt 1 = Some g /\ a = strip g.
Proof.
  induction patterns as [|pattern rest IH]; intros a H; [discriminate|].
  cbn [_find_first_match] in H.
  destruct (search true pattern text) as [mt|] eqn:E.
  - destruct (group mt 1) as [g|] eqn:Eg; [|discriminate].
    injection H as <-. exists pattern, mt, g.
    repeat split; try assumption. now left.
  - apply IH in H. destruct H as (p & mt & g & Hin & H).
    exists p, mt, g. split; [now right | exact H].
Qed.

(** A value found by patterns whose group 1 is a run of digits. *)
Lemma find_first_match_digits text patterns a :
  Forall (fun pattern =>
            Forall (fun body => exists greedy lo hi,
                       body = Rep greedy (S lo) hi d_)
                   (group_bodies 1 pattern)) patterns ->
  _find_first_match text patterns = Some a ->
  all_digits a.
Proof.
  intros Hp H. apply find_first_match_inv in H.
  destruct H as (pattern & mt & g & Hin & Hs & Hg & ->).
  rewrite Forall_forall in Hp. specialize (Hp _ Hin).
  apply search_sound in Hs. destruct Hs as (_ & _ & Hb & _).
  cbn [group] in Hg. destruct (Hb _ _ Hg) as (body & Hbody & Hl).
  rewrite Forall_forall in Hp. destruct (Hp _ Hbody) as (gr & lo & hi & ->).
  apply lang_digits in Hl. destruct Hl as (Hd & Hlo & _).
  rewrite (strip_digits g Hd). split; [|exact Hd].
  destruct g; [cbn in Hlo; lia | discriminate].
Qed.

Lemma lower_nonspace g x :
  lower g = x -> Forall (fun c => isspace c = false) x ->
  Forall (fun c => isspace c = false) g.
Proof.
  intros <-. unfold lower. induction g as [|c g IH]; cbn [flat_map];
    [constructor|].
  intros H. apply Forall_app in H as [Hc Hg].
  constructor; [|now apply IH].
  destruct (isspace c) eqn:Hs; [|reflexivity].
  unfold lower_chars in Hc. rewrite (isspace_not_dotted c Hs) in Hc.
  rewrite (isspace_lower_fix c Hs) in Hc.
  inversion Hc; subst. congruence.
Qed.

(** One of several words, letter case aside. *)
Lemma lang_alt_words (l : list string) w :
  Forall (fun s => Forall (fun c => extra_cases (lower_char c) = []) (u s)) l ->
  lang true (alt (map word l)) w -> exists s, In s l /\ lower w = lower (u s).
Proof.
  induction l as [|s l IH]; intros Hp.
  - cbn [map alt lang]. unfold in_class. cbn [existsb xorb].
    intros (d & _ & H). discriminate.
  - inversion Hp as [|? ? Hs Hl]; subst.
    destruct l as [|s' l].
    + cbn [map alt]. intros H. exists s. split; [now left|].
      now apply lang_word_lower.
    + change (alt (map word (s :: s' :: l)))
        with (Alt (word s) (alt (map word (s' :: l)))).
      cbn [lang]. intros [H|H].
      * exists s. split; [now left|]. now apply lang_word_lower.
      * destruct (IH Hl H) as (t & Hin & Ht). exists t. split; [now right|].
        exact Ht.
Qed.

(** One of several words, as IGNORECASE spells them. *)
Lemma lang_alt_spelled (l : list string) w :
  lang true (alt (map word l)) w ->
  exists s, In s l
            /\ Forall2 (fun c d => char_eq true c d = true) (u s) w.
Proof.
  induction l as [|s l IH].
  - cbn [map alt lang]. unfold in_class. cbn [existsb xorb].
    intros (d & _ & H). discriminate.
  - destruct l as [|s' l].
    + cbn [map alt]. intros H. exists s. split; [now left|].
      now apply lang_lits.
    + change (alt (map word (s :: s' :: l)))
        with (Alt (word s) (alt (map word (s' :: l)))).
      cbn [lang]. intros [H|H].
      * exists s. split; [now left|]. now apply lang_lits.
      * destruct (IH H) as (t & Hin & Ht). exists t. split; [now right|].
        exact Ht.
Qed.

Lemma plain_words (l : list string) :
  forallb (fun s => forallb (fun c => match extra_cases (lower_char c) with
                                      | [] => true
                                      | _ => false
                                      end) (u s)) l = true ->
  Forall (fun s => Forall (fun c => extra_cases (lower_char c) = []) (u s)) l.
Proof.
  intros H. rewrite forallb_forall in H. apply Forall_forall. intros s Hs.
  specialize (H s Hs). rewrite forallb_forall in H.
  apply Forall_forall. intros c Hc. specialize (H c Hc).
  now destruct (extra_cases (lower_char c)).
Qed.

(** What a search for one of the patterns of a list finds in group 1. *)
Lemma find_first_match_lang text patterns a :
  _find_first_match text patterns = Some a ->
  exists pattern body g,
    In pattern patterns /\ In body (group_bodies 1 pattern)
    /\ lang true body g /\ a = strip g.
Proof.
  intros H. apply find_first_match_inv in H.
  destruct H as (pattern & mt & g & Hin & Hs & Hg & ->).
  apply search_sound in Hs. destruct Hs as (_ & _ & Hb & _).
  cbn [group] in Hg. destruct (Hb _ _ Hg) as (body & Hbody & Hl).
  exists pattern, body, g. repeat split; assumption.
Qed.

Lemma age_patterns_digits :
  Forall (fun pattern =>
            Forall (fun body => exists greedy lo hi,
                       body = Rep greedy (S lo) hi d_)
                   (group_bodies 1 pattern)) PATIENT_AGE_PATTERNS.
Proof.
  repeat (constructor; [constructor; [do 3 eexists; reflexivity|constructor]|]).
  constructor.
Qed.

Lemma number_patterns_digits :
  Forall (fun pattern =>
            Forall (fun body => exists greedy lo hi,
                       body = Rep greedy (S lo) hi d_)
                   (group_bodies 1 pattern)) PRESCRIPTION_NUMBER_PATTERNS.
Proof.
  repeat (constructor; [constructor; [do 3 eexists; reflexivity|constructor]|]).
  constructor.
Qed.

Lemma nonspace_forallb l :
  forallb (fun c => negb (isspace c)) l = true ->
  Forall (fun c => isspace c = false) l.
Proof.
  intros H. rewrite forallb_forall in H. apply Forall_forall.
  intros c Hc. specialize (H c Hc). now apply negb_true_iff in H.
Qed.

Lemma gender_words g :
  lang true (alt [word "Nam"; word "Nữ"; word "Male"; word "Female"]) g
  \/ lang true (alt [word "Nam"; word "Nữ"]) g ->
  In (lower g) genders /\ strip g = g.
Proof.
  intros H.
  assert (Hs : exists s, In s ["Nam"; "Nữ"; "Male"; "Female"]%string
                         /\ lower g = lower (u s)).
  { destruct H as [H|H].
    - refine (lang_alt_words ["Nam"; "Nữ"; "Male"; "Female"]%string g _ H).
      apply plain_words. vm_compute. reflexivity.
    - assert (Hp : Forall (fun s => Forall (fun c => extra_cases (lower_char c)
                                                     = []) (u s))
                          ["Nam"; "Nữ"]%string)
        by (apply plain_words; vm_compute; reflexivity).
      destruct (lang_alt_words ["Nam"; "Nữ"]%string g Hp H)
        as (s & Hin & Hl).
      exists s. split; [|exact Hl]. cbn in Hin |- *. tauto. }
  destruct Hs as (s & Hin & Hl).
  assert (Hg : In (lower g) genders
               /\ Forall (fun c => isspace c = false) (lower g)).
  { rewrite Hl. cbn [In] in Hin.
    destruct Hin as [<-|[<-|[<-|[<-|[]]]]];
      (split; [vm_compute; tauto
              |apply nonspace_forallb; vm_compute; reflexivity]). }
  split; [exact (proj1 Hg)|].
  apply strip_id. exact (lower_nonspace g (lower g) eq_refl (proj2 Hg)).
Qed.

(** X15.  The patient fields of the local fallback: an age, when one is
    found, is a non-empty run of decimal digits; a gender, when one is
    found, is one of Nam, Nữ, Male and Female in the letter case of the
    text; phone and patient number are never filled. *)
Theorem fallback_patient_fields :
  forall text,
    (forall a, PatientInfo.age (_extract_patient_info text) = Some a ->
               all_digits a)
    /\ (forall g, PatientInfo.gender (_extract_patient_info text) = Some g ->
                  In (lower g) genders)
    /\ PatientInfo.phone (_extract_patient_info text) = None
    /\ PatientInfo.patient_id (_extract_patient_info text) = None.
Proof.
  intros text. unfold _extract_patient_info. cbv zeta.
  cbn [PatientInfo.age PatientInfo.gender PatientInfo.phone
       PatientInfo.patient_id].
  split; [|split; [|split; reflexivity]].
  - intros a H.
    exact (find_first_match_digits text _ a age_patterns_digits H).
  - intros g H. apply find_first_match_lang in H.
    destruct H as (pattern & body & g0 & Hin & Hbody & Hl & ->).
    assert (Hw : lang true
                   (alt [word "Nam"; word "Nữ"; word "Male"; word "Female"]) g0
                 \/ lang true (alt [word "Nam"; word "Nữ"]) g0).
    { destruct Hin as [<-|[<-|[]]].
      - left. destruct Hbody as [<-|[]]. exact Hl.
      - right. destruct Hbody as [<-|[]]. exact Hl. }
    apply gender_words in Hw. destruct Hw as [Hg Hs]. now rewrite Hs.
Qed.

Lemma fallback_patient_fields_witness :
  PatientInfo.age (_extract_patient_info (u "Tuổi: 65  Giới tính: NAM"))
    = Some (u "65")
  /\ all_digits (u "65")
  /\ PatientInfo.gender (_extract_patient_info (u "Tuổi: 65  Giới tính: NAM"))
     = Some (u "NAM")
  /\ In (lower (u "NAM")) genders.
Proof.
  assert (Ha : PatientInfo.age
                 (_extract_patient_info (u "Tuổi: 65  Giới tính: NAM"))
               = Some (u "65")) by (vm_compute; reflexivity).
  assert (Hg : PatientInfo.gender
                 (_extract_patient_info (u "Tuổi: 65  Giới tính: NAM"))
               = Some (u "NAM")) by (vm_compute; reflexivity).
  destruct (fallback_patient_fields (u "Tuổi: 65  Giới tính: NAM"))
    as (H1 & H2 & _).
  split; [exact Ha|]. split; [exact (H1 _ Ha)|]. split; [exact Hg|].
  exact (H2 _ Hg).
Defined.

Lemma date_sep_char d :
  in_class true false [IChar 47; IChar 45] d = true -> In d [47; 45]%N.
Proof.
  unfold in_class. cbn [existsb item_has xorb].
  rewrite !char_eq_uncased by reflexivity.
  rewrite orb_false_r. intros H. apply orb_true_iff in H as [H|H];
    apply N.eqb_eq in H; subst; cbn; tauto.
Qed.

Lemma lang_date_shape g : lang true date_shape g -> date_like g /\ strip g = g.
Proof.
  unfold date_shape. cbn [seq lang].
  intros (d1 & r1 & -> & H1 & (x1 & r2 & -> & (s1 & -> & Hs1)
          & (d2 & r3 & -> & H2 & (x2 & d3 & -> & (s2 & -> & Hs2) & H3)))).
  apply lang_digits in H1, H2, H3.
  destruct H1 as (F1 & L1 & U1), H2 as (F2 & L2 & U2), H3 as (F3 & L3 & U3).
  apply date_sep_char in Hs1, Hs2.
  split.
  - exists d1, s1, d2, s2, d3. cbn [app].
    split; [reflexivity|]. split; [now rewrite !Forall_app|].
    repeat split; assumption.
  - apply strip_id. cbn [app].
    assert (Hsep : forall s, In s [47; 45]%N -> isspace s = false).
    { intros s [<-|[<-|[]]]; reflexivity. }
    assert (Hdig : forall l, Forall (fun c => isdecimal c = true) l ->
                             Forall (fun c => isspace c = false) l).
    { intros l. apply Forall_impl. intros c. apply isdecimal_not_space. }
    rewrite Forall_app. split; [now apply Hdig|].
    constructor; [now apply Hsep|].
    rewrite Forall_app. split; [now apply Hdig|].
    constructor; [now apply Hsep | now apply Hdig].
Qed.

(** X16.  The date and the prescription number of the local fallback: a
    date, when one is found, is one or two digits, a slash or a hyphen, one
    or two digits, a slash or a hyphen and two to four digits; a
    prescription number is a non-empty run of decimal digits. *)
Theorem fallback_date_and_number :
  forall text,
    (forall d, _extract_date text = Some d -> date_like d)
    /\ (forall n, _extract_prescription_number text = Some n ->
                  all_digits n).
Proof.
  intros text. split.
  - intros d H. unfold _extract_date in H.
    apply find_first_match_lang in H.
    destruct H as (pattern & body & g & Hin & Hbody & Hl & ->).
    assert (Hb : body = date_shape).
    { destruct Hin as [<-|[<-|[]]]; destruct Hbody as [<-|[]]; reflexivity. }
    subst body. apply lang_date_shape in Hl. destruct Hl as [Hd Hs].
    now rewrite Hs.
  - intros n H.
    exact (find_first_match_digits text _ n number_patterns_digits H).
Qed.

Lemma fallback_date_and_number_witness :
  _extract_date (u "Ngày: 14/09/2022  Mã: 22001918442") = Some (u "14/09/2022")
  /\ date_like (u "14/09/2022")
  /\ _extract_prescription_number (u "Ngày: 14/09/2022  Mã: 22001918442")
     = Some (u "22001918442")
  /\ all_digits (u "22001918442").
Proof.
  assert (Hd : _extract_date (u "Ngày: 14/09/2022  Mã: 22001918442")
               = Some (u "14/09/2022")) by (vm_compute; reflexivity).
  assert (Hn : _extract_prescription_number
                 (u "Ngày: 14/09/2022  Mã: 22001918442")
               = Some (u "22001918442")) by (vm_compute; reflexivity).
  destruct (fallback_date_and_number (u "Ngày: 14/09/2022  Mã: 22001918442"))
    as (H1 & H2).
  split; [exact Hd|]. split; [exact (H1 _ Hd)|]. split; [exact Hn|].
  exact (H2 _ Hn).
Defined.

(** The letters of the units, under IGNORECASE. *)
Lemma unit_letter c d :
  In c [109; 103; 108; 99; 105; 117]%N ->
  char_eq true c d = true ->
  lower_char d = c \/ (c = 105 /\ d = 305)%N.
Proof.
  intros Hc H. apply char_eq_ignorecase in H.
  cbn [In] in Hc.
  destruct Hc as [<-|[<-|[<-|[<-|[<-|[<-|[]]]]]]];
    (destruct H as [<-|H]; [left; reflexivity|]);
    match type of H with
    | In _ ?l =>
        let l' := eval vm_compute in l in
        change l with l' in H
    end;
    cbn [In] in H;
    repeat match goal with
           | H : _ \/ _ |- _ => destruct H as [H|H]
           | H : False |- _ => destruct H
           end;
    try (left; symmetry; exact H).
  right. split; [reflexivity|]. apply lower_char_dotless. now symmetry.
Qed.

Lemma spelled_unit (s : string) un :
  forallb (fun c => existsb (N.eqb c) [109; 103; 108; 99; 105; 117]%N) (u s)
  = true ->
  Forall2 (fun c d => char_eq true c d = true) (u s) un ->
  spells (u s) un.
Proof.
  intros Hs H. unfold spells. rewrite forallb_forall in Hs.
  induction H as [|c d l w Hc _ IH]; [constructor|].
  constructor.
  - apply unit_letter; [|exact Hc].
    specialize (Hs c (or_introl eq_refl)).
    apply existsb_exists in Hs. destruct Hs as (x & Hin & Hx).
    apply N.eqb_eq in Hx. now subst.
  - apply IH. intros x Hx. apply Hs. now right.
Qed.

Lemma lang_dosage g :
  lang true (seq [plus d_; star s_;
                  alt [word "mg"; word "ml"; word "g"; word "mcg"; word "iu"]])
       g ->
  exists ds ws un,
    g = ds ++ ws ++ un /\ all_digits ds
    /\ Forall (fun c => isspace c = true) ws
    /\ exists unit, In unit dosage_units /\ spells unit un.
Proof.
  cbn [seq lang]. intros (ds & r1 & -> & H1 & (ws & un & -> & H2 & H3)).
  exists ds, ws, un. split; [reflexivity|].
  split; [now apply (lang_plus_digits true)|].
  split; [now apply (lang_spaces true) in H2|].
  destruct (lang_alt_spelled ["mg"; "ml"; "g"; "mcg"; "iu"]%string un H3)
    as (s & Hin & Hsp).
  exists (u s). split.
  - unfold dosage_units. now apply in_map.
  - apply spelled_unit; [|exact Hsp].
    cbn [In] in Hin.
    destruct Hin as [<-|[<-|[<-|[<-|[<-|[]]]]]]; reflexivity.
Qed.

(** X17.  The dosage and the quantity of a medication of the local
    fallback: a dosage is digits, white space if any, and one of the units
    mg, ml, g, mcg and iu spelled as IGNORECASE accepts it, that is, each
    letter in either case and the i also as a dotless i (U+0131; the
    dotted capital U+0130 has i as its lower case); a quantity is a
    non-empty run of decimal digits. *)
Theorem fallback_dosage_and_quantity :
  forall line item,
    _parse_medication_line line = Some item ->
    (forall d, MedicationItem.dosage item = Some d ->
       exists ds ws un,
         d = ds ++ ws ++ un /\ all_digits ds
         /\ Forall (fun c => isspace c = true) ws
         /\ exists unit, In unit dosage_units /\ spells unit un)
    /\ (forall q, MedicationItem.quantity item = Some q -> all_digits q).
Proof.
  intros line item. unfold _parse_medication_line. cbv zeta.
  destruct (length _ <? 3)%nat; [discriminate|].
  intros H. injection H as <-.
  cbn [MedicationItem.dosage MedicationItem.quantity].
  set (l := strip (sub false bulleted [] (sub false numbered [] line))).
  split.
  - intros d Hd.
    destruct (search true dosage_re l) as [mt|] eqn:Es; [|discriminate].
    apply search_sound in Es. destruct Es as (_ & _ & Hb & _).
    cbn [group] in Hd. destruct (Hb _ _ Hd) as (body & Hbody & Hl).
    destruct Hbody as [<-|[]]. now apply lang_dosage.
  - intros q Hq.
    destruct (search true qty_re l) as [mt|] eqn:Es; [|discriminate].
    apply search_sound in Es. destruct Es as (_ & _ & Hb & _).
    assert (Hg : exists i, (i = 1 \/ i = 2)%nat
                           /\ lookup i (m_groups mt) = Some q).
    { cbn [group] in Hq.
      destruct (lookup 1 (m_groups mt)) as [[|c g]|] eqn:E1; cbn [truthy] in Hq.
      - exists 2%nat. split; [now right | exact Hq].
      - exists 1%nat. split; [now left|]. now rewrite E1.
      - exists 2%nat. split; [now right | exact Hq]. }
    destruct Hg as (i & Hi & Hg).
    destruct (Hb _ _ Hg) as (body & Hbody & Hl).
    assert (Hbd : body = plus d_).
    { destruct Hi as [-> | ->]; destruct Hbody as [<-|[]]; reflexivity. }
    subst body. now apply (lang_plus_digits true).
Qed.

Lemma fallback_dosage_and_quantity_witness :
  (exists item,
      _parse_medication_line Scenario.amoxicillin_line = Some item
      /\ MedicationItem.dosage item = Some (u "500mg")
      /\ MedicationItem.quantity item = Some (u "2")
      /\ all_digits (u "2"))
  /\ (exists item ds ws un unit,
         _parse_medication_line (u "Vitamin D 1000ıU") = Some item
         /\ MedicationItem.dosage item = Some (u "1000ıU")
         /\ u "1000ıU" = ds ++ ws ++ un
         /\ In unit dosage_units /\ spells unit un).
Proof.
  split.
  - destruct (_parse_medication_line Scenario.amoxicillin_line)
      as [item|] eqn:E; [|vm_compute in E; discriminate E].
    exists item. split; [reflexivity|].
    assert (Hd : MedicationItem.dosage item = Some (u "500mg")
                 /\ MedicationItem.quantity item = Some (u "2")).
    { vm_compute in E. injection E as <-. split; reflexivity. }
    destruct Hd as [Hd Hq]. split; [exact Hd|]. split; [exact Hq|].
    exact (proj2 (fallback_dosage_and_quantity Scenario.amoxicillin_line
                    item E) _ Hq).
  - destruct (_parse_medication_line (u "Vitamin D 1000ıU"))
      as [item|] eqn:E; [|vm_compute in E; discriminate E].
    assert (Hd : MedicationItem.dosage item = Some (u "1000ıU")).
    { vm_compute in E. injection E as <-. reflexivity. }
    destruct (proj1 (fallback_dosage_and_quantity (u "Vitamin D 1000ıU")
                       item E) _ Hd)
      as (ds & ws & un & Heq & _ & _ & unit & Hin & Hsp).
    exists item, ds, ws, un, unit. repeat split; assumption.
Defined.

Lemma lang_title t : lang false title_re t -> In t doctor_titles.
Proof.
  unfold title_re. cbn [lang alt seq].
  intros H.
  repeat match goal with
         | H : _ \/ _ |- _ => destruct H as [H|H]
         | H : exists _, _ |- _ => destruct H as (? & H)
         | H : _ /\ _ |- _ => destruct H as (? & H)
         end;
    repeat match goal with
           | H : lang false (word _) _ |- _ => apply lang_word_exact in H
           | H : lang false (opt (Lit _)) _ |- _ =>
               apply lang_opt_lit in H; destruct H
           end;
    subst; vm_compute; tauto.
Qed.

(** X18.  The doctor fields of the local fallback: a title, when one is
    split off the name, is one of the spellings ThS.BS, TS.BS, PGS.TS,
    GS.TS (each with or without its dot), BS, Dr. and Dr, in exactly that
    letter case; no other field than name and title is filled. *)
Theorem fallback_doctor_fields :
  forall text,
    (forall t, DoctorInfo.title (_extract_doctor_info text) = Some t ->
               In t doctor_titles)
    /\ DoctorInfo.specialty (_extract_doctor_info text) = None
    /\ DoctorInfo.license_number (_extract_doctor_info text) = None
    /\ DoctorInfo.phone (_extract_doctor_info text) = None
    /\ DoctorInfo.signature (_extract_doctor_info text) = None.
Proof.
  intros text. unfold _extract_doctor_info. cbv zeta.
  destruct (truthy (_find_first_match text DOCTOR_NAME_PATTERNS)) as [n|];
    [|repeat split; discriminate].
  destruct (re_match false title_re n) as [mt|] eqn:E;
    [|repeat split; discriminate].
  cbn. split; [|repeat split].
  intros t Ht. injection Ht as <-.
  apply re_match_sound in E. destruct E as [E _]. now apply lang_title.
Qed.

Lemma fallback_doctor_fields_witness :
  DoctorInfo.title (_extract_doctor_info (u "Bác sĩ: ThS.BS Bùi Văn Đoàn"))
    = Some (u "ThS.BS")
  /\ In (u "ThS.BS") doctor_titles.
Proof.
  assert (Ht : DoctorInfo.title
                 (_extract_doctor_info (u "Bác sĩ: ThS.BS Bùi Văn Đoàn"))
               = Some (u "ThS.BS")) by (vm_compute; reflexivity).
  split; [exact Ht|].
  exact (proj1 (fallback_doctor_fields (u "Bác sĩ: ThS.BS Bùi Văn Đoàn")) _ Ht).
Defined.

(** What the scanner returns for the members of an object is a [dict]. *)
Lemma scan_members_dict :
  forall fuel acc s v rest,
    Json.scan fuel (Json.MMembers acc) s = inr (v, rest) ->
    exists d, v = JDict d.
Proof.
  induction fuel as [|fuel IH]; intros acc s v rest; [discriminate|].
  cbn [Json.scan].
  destruct (Json.after 34 s) as [r0|]; [|discriminate].
  unfold rbind.
  destruct (Json.scan_string [] r0) as [e'|[k r1]]; [discriminate|].
  cbv beta iota.
  destruct (Json.after 58 (Json.skip_ws r1)) as [r2|]; [|discriminate].
  destruct (Json.scan fuel Json.MValue (Json.skip_ws r2)) as [e'|[v1 r3]];
    [discriminate|].
  cbv beta iota zeta.
  destruct (Json.after 125 (Json.skip_ws r3)) as [r4|].
  { intros H. injection H as <- _. eauto. }
  destruct (Json.after 44 (Json.skip_ws r3)) as [r4|]; [|discriminate].
  apply IH.
Qed.

(** A text that begins with an opening brace loads as a [dict]. *)
Lemma loads_object t v :
  Json.loads (123%N :: t) = inr v -> exists d, v = JDict d.
Proof.
  unfold Json.loads, rbind.
  change (Json.skip_ws (123%N :: t)) with (123%N :: t).
  destruct (Json.scan _ _ _) as [e|[v0 rest]] eqn:E; [discriminate|].
  destruct (Json.skip_ws rest); [|discriminate].
  intros H. injection H as <-.
  cbn [Json.scan Nat.mul Nat.add length] in E.
  change (Json.after 34 (123%N :: t)) with (@None str) in E.
  change (Json.after 123 (123%N :: t)) with (Some t) in E.
  cbv beta iota in E.
  destruct (Json.after 125 (Json.skip_ws t)).
  - injection E as <- _. eauto.
  - exact (scan_members_dict _ _ _ _ _ E).
Qed.

Lemma lang_fenced_group g :
  lang false (seq [Lit 123; star_lazy Dot; Lit 125]) g ->
  exists mid, g = 123%N :: mid ++ [125%N].
Proof.
  cbn [seq lang].
  intros (w1 & r1 & -> & (d & -> & Hd) & (mid & w3 & -> & _ & (d' & -> & Hd'))).
  cbn [char_eq] in Hd, Hd'. apply N.eqb_eq in Hd, Hd'. subst. now exists mid.
Qed.

Lemma lang_fenced_group_greedy g :
  lang false (seq [Lit 123; star Dot; Lit 125]) g ->
  exists mid, g = 123%N :: mid ++ [125%N].
Proof.
  cbn [seq lang].
  intros (w1 & r1 & -> & (d & -> & Hd) & (mid & w3 & -> & _ & (d' & -> & Hd'))).
  cbn [char_eq] in Hd, Hd'. apply N.eqb_eq in Hd, Hd'. subst. now exists mid.
Qed.

Lemma fenced_group text mt :
  search false Response.fenced text = Some mt ->
  exists mid, group mt 1 = Some (123%N :: mid ++ [125%N])
              /\ In 123%N text /\ In 125%N text.
Proof.
  intros H. apply search_sound in H.
  destruct (group_sound false Response.fenced text mt 0 H eq_refl)
    as (g & body & Hg & Hbody & Hl).
  destruct Hbody as [<-|[]]. apply lang_fenced_group in Hl.
  destruct Hl as [mid ->]. exists mid. split; [exact Hg|].
  destruct H as (Hw & [pre ->] & _).
  unfold Response.fenced in Hw. cbn [seq lang] in Hw.
  destruct Hw as (w1 & r1 & -> & _ & (w2 & r2 & -> & _ & (w3 & r3 & -> & _
                  & (w4 & r4 & -> & H4 & _)))).
  apply lang_fenced_group in H4. destruct H4 as [mid' ->].
  split; rewrite !in_app_iff; right; left; right; right; right; left.
  - now left.
  - right. rewrite in_app_iff. right. now left.
Qed.

Lemma braces_whole text mt :
  search false Response.braces text = Some mt ->
  exists mid, m_whole mt = 123%N :: mid ++ [125%N]
              /\ In 123%N text /\ In 125%N text.
Proof.
  intros H. apply search_sound in H. destruct H as (Hw & [pre ->] & _).
  unfold Response.braces in Hw. apply lang_fenced_group_greedy in Hw.
  destruct Hw as [mid Hm]. exists mid. split; [exact Hm|]. rewrite Hm.
  split; rewrite !in_app_iff; right; left.
  - now left.
  - right. rewrite in_app_iff. right. now left.
Qed.

(** X19.  [extract_json_from_response] returns nothing else than a
    [dict], so the item assignments and the keyword expansion that follow
    it in the extractors always apply; and it raises the [ValueError] "No
    valid JSON found in LLM response" for every text without an opening or
    without a closing brace. *)
Theorem extract_json_returns_object :
  (forall text v,
      Response.extract_json_from_response text = inr v ->
      exists d, v = JDict d)
  /\ (forall text v key value,
         Response.extract_json_from_response text = inr v ->
         exists d, VisionExtractor.setitem v key value
                   = inr (JDict (Dict.set (u key) value d)))
  /\ (forall text,
         ~ In 123%N text \/ ~ In 125%N text ->
         Response.extract_json_from_response text
         = inl (ValueError (u "No valid JSON found in LLM response"))).
Proof.
  assert (H1 : forall text v,
             Response.extract_json_from_response text = inr v ->
             exists d, v = JDict d).
  { intros text v. unfold Response.extract_json_from_response.
    destruct (search false Response.fenced text) as [mt|] eqn:Ef.
    - destruct (fenced_group text mt Ef) as (mid & -> & _).
      apply loads_object.
    - destruct (search false Response.braces text) as [mt|] eqn:Eb;
        [|discriminate].
      destruct (braces_whole text mt Eb) as (mid & -> & _).
      apply loads_object. }
  split; [exact H1|]. split.
  - intros text v key value Ht. destruct (H1 text v Ht) as [d ->].
    exists d. reflexivity.
  - intros text Hno. unfold Response.extract_json_from_response.
    destruct (search false Response.fenced text) as [mt|] eqn:Ef.
    { destruct (fenced_group text mt Ef) as (mid & _ & Ho & Hc). tauto. }
    destruct (search false Response.braces text) as [mt|] eqn:Eb;
      [|reflexivity].
    destruct (braces_whole text mt Eb) as (mid & _ & Ho & Hc). tauto.
Qed.

Lemma extract_json_returns_object_witness :
  (exists d, Response.extract_json_from_response
               (uq "Here it is: {'a': 1}") = inr (JDict d))
  /\ Response.extract_json_from_response (u "no closing brace { here")
     = inl (ValueError (u "No valid JSON found in LLM response")).
Proof.
  destruct extract_json_returns_object as (H1 & _ & H3).
  split.
  - destruct (Response.extract_json_from_response (uq "Here it is: {'a': 1}"))
      as [e|v] eqn:E; [vm_compute in E; discriminate E|].
    destruct (H1 _ v E) as [d ->]. now exists d.
  - apply H3. right. vm_compute. intros H.
    repeat (destruct H as [H|H]; [discriminate H|]). exact H.
Defined.

(** *** [re.sub] on the two patterns of [_clean_text] *)

Lemma sub_go_skip_all ic r repl :
  forall s prev, sub_go ic r repl (length s) prev s = [].
Proof. induction s as [|c s IH]; intros prev; cbn; [reflexivity | apply IH]. Qed.

(** A greedy repetition of a class over a text that is all in the class
    runs to the end of the text. *)
Lemma plus_cls_all {R} (k : K R) l x cs :
  (forall prev, k (prev, []) cs = Some x) ->
  forall s fuel n prev,
    forallb (fun d => existsb (item_has false d) l) s = true ->
    (length s <= fuel)%nat -> (1 <= n + length s)%nat ->
    rep_loop (m false (Cls false l)) true 1 None k fuel n (prev, s) cs = Some x.
Proof.
  intros Hk. induction s as [|c s IH]; intros fuel n prev Hall Hf Hn.
  - cbn in Hn. destruct fuel as [|fuel]; cbn.
    + destruct n; [lia|]. apply Hk.
    + destruct n; [lia|]. apply Hk.
  - destruct fuel as [|fuel]; [cbn in Hf; lia|].
    cbn [forallb] in Hall. apply andb_true_iff in Hall as [Hc Hall].
    cbn [rep_loop]. cbv zeta. cbn [below m snd xorb]. rewrite Hc.
    unfold shorter. cbn [snd length].
    replace (length s <? S (length s))%nat with true
      by (symmetry; apply Nat.ltb_lt; lia).
    rewrite IH; [reflexivity | exact Hall | cbn in Hf; lia | cbn in Hn; lia].
Qed.

Lemma forallb_same {A} (f g : A -> bool) l :
  (forall x, f x = g x) -> forallb f l = forallb g l.
Proof.
  intros H. induction l as [|x l IH]; cbn; [reflexivity|].
  now rewrite H, IH.
Qed.

Lemma in_class_punct d :
  existsb (item_has false d) [IChar 58; ISpace; IChar 44] = punct d.
Proof.
  unfold punct. cbn [existsb item_has char_eq].
  rewrite orb_false_r, (N.eqb_sym 58 d), (N.eqb_sym 44 d).
  now rewrite orb_assoc.
Qed.

Lemma match_at_trailing_all prev c s :
  forallb punct (c :: s) = true ->
  exists mt, match_at false trailing_punct 0 (prev, c :: s) = Some mt
             /\ m_whole mt = c :: s.
Proof.
  intros Hall.
  exists {| m_start := 0; m_whole := c :: s; m_groups := []; m_after := [] |}.
  split; [|reflexivity].
  unfold match_at, trailing_punct. cbn [seq m plus].
  apply plus_cls_all.
  - intros prev'. cbn [m at_end snd].
    pose proof (consumed_app prev prev' (c :: s) []) as Hc.
    rewrite app_nil_r in Hc. do 2 f_equal. exact Hc.
  - rewrite <- Hall. apply forallb_same. intros d. apply in_class_punct.
  - cbn [snd]. lia.
  - cbn [length]. lia.
Qed.

Lemma match_at_trailing_none prev s :
  forallb punct s = false ->
  match_at false trailing_punct 0 (prev, s) = None.
Proof.
  intros Hall.
  destruct (match_at false trailing_punct 0 (prev, s)) as [mt|] eqn:E;
    [exfalso|reflexivity].
  unfold match_at, trailing_punct in E. cbn [seq m] in E.
  apply (m_sound false) in E.
  destruct E as (p1 & cs1 & w & Hk & Hs & Hl & _).
  cbn [snd] in Hs.
  assert (Hrem : forallb punct (snd p1) = true).
  { unfold at_end in Hk. destruct (snd p1) as [|d [|d' rem]];
      [reflexivity| |discriminate].
    destruct (d =? 10)%N eqn:Ed; [|discriminate].
    apply N.eqb_eq in Ed. subst. reflexivity. }
  apply lang_rep_cls in Hl. destruct Hl as (Hw & _).
  assert (Hw' : forallb punct w = true).
  { apply forallb_forall. rewrite Forall_forall in Hw. intros d Hd.
    specialize (Hw d Hd). unfold in_class in Hw. cbn [xorb] in Hw.
    now rewrite in_class_punct in Hw. }
  rewrite Hs, forallb_app, Hw', Hrem in Hall. discriminate.
Qed.

(** Puts the value a lemma gives for the attempt at the current position
    into the goal. *)
Ltac attempt_is v H :=
  match goal with
  | |- context [match ?x with Some _ => _ | None => _ end] =>
      replace x with v by (symmetry; exact H)
  end.

Lemma sub_trailing_punct :
  forall s prev,
    sub_go false trailing_punct [] 0 prev s = drop_trailing punct s.
Proof.
  induction s as [|c s IH]; intros prev; [reflexivity|].
  cbn [sub_go drop_trailing].
  destruct (forallb punct (c :: s)) eqn:Hall.
  - destruct (match_at_trailing_all prev c s Hall) as (mt & Hm & Hw).
    attempt_is (Some mt) Hm. rewrite Hw.
    cbn [length app]. apply sub_go_skip_all.
  - attempt_is (@None Match) (match_at_trailing_none prev (c :: s) Hall).
    now rewrite IH.
Qed.

Lemma after_spaces_length s :
  length s = (count_spaces s + length (after_spaces s))%nat.
Proof.
  induction s as [|c s IH]; [reflexivity|]. cbn.
  destruct (isspace c); cbn; lia.
Qed.

Lemma plus_space_run {R} (k : K R) cs :
  (forall p, k p cs <> None) ->
  (forall prev prev' s, k (prev, s) cs = k (prev', s) cs) ->
  forall s fuel n prev,
    (length s <= fuel)%nat -> (1 <= n + count_spaces s)%nat ->
    rep_loop (m false s_) true 1 None k fuel n (prev, s) cs
    = k (None, after_spaces s) cs.
Proof.
  intros Htot Hprev. induction s as [|c s IH]; intros fuel n prev Hf Hn.
  - cbn in Hn. destruct fuel; cbn; (destruct n; [lia|]); apply Hprev.
  - destruct fuel as [|fuel]; [cbn in Hf; lia|].
    cbn [rep_loop]. cbv zeta. unfold s_ at 1. cbn [below m snd xorb existsb item_has].
    rewrite orb_false_r. cbn [count_spaces after_spaces] in *.
    destruct (isspace c) eqn:Ec.
    + unfold shorter. cbn [snd length].
      replace (length s <? S (length s))%nat with true
        by (symmetry; apply Nat.ltb_lt; lia).
      rewrite IH by (cbn in Hf; lia).
      destruct (k (None, after_spaces s) cs) eqn:Ek; [reflexivity|].
      exfalso. exact (Htot _ Ek).
    + destruct n; [lia|]. cbn. apply Hprev.
Qed.

Lemma match_at_spaces prev c s :
  isspace c = true ->
  exists mt, match_at false spaces 0 (prev, c :: s) = Some mt
             /\ length (m_whole mt) = S (count_spaces s).
Proof.
  intros Hc. eexists. split.
  - unfold match_at, spaces, plus. cbn [m snd].
    rewrite plus_space_run.
    + reflexivity.
    + discriminate.
    + reflexivity.
    + lia.
    + cbn [count_spaces]. rewrite Hc. lia.
  - cbn [m_whole]. unfold consumed. cbn [snd after_spaces]. rewrite Hc.
    rewrite length_firstn.
    pose proof (after_spaces_length s) as Hl. cbn [length]. lia.
Qed.

Lemma match_at_spaces_none prev s :
  match s with c :: _ => isspace c = false | [] => True end ->
  match_at false spaces 0 (prev, s) = None.
Proof.
  intros Hs.
  destruct (match_at false spaces 0 (prev, s)) as [mt|] eqn:E;
    [exfalso|reflexivity].
  pose proof (match_at_whole _ _ _ _ _ E) as Hw.
  apply match_at_sound in E. destruct E as (Hl & _).
  unfold spaces in Hl. apply lang_rep_cls in Hl.
  destruct Hl as (Hf & Hlo & _).
  cbn [snd] in Hw.
  destruct (m_whole mt) as [|d w]; [cbn in Hlo; lia|].
  subst s. cbn [app] in Hs. apply Forall_inv in Hf.
  rewrite in_class_space in Hf. congruence.
Qed.

Lemma sub_spaces :
  forall s prev,
    sub_go false spaces [32%N] 0 prev s = collapse_go false s
    /\ sub_go false spaces [32%N] (count_spaces s) prev s = collapse_go true s.
Proof.
  induction s as [|c s IH]; intros prev; [split; reflexivity|].
  assert (H0 : sub_go false spaces [32%N] 0 prev (c :: s)
               = collapse_go false (c :: s)).
  { cbn [sub_go collapse_go]. destruct (isspace c) eqn:Ec.
    - destruct (match_at_spaces prev c s Ec) as (mt & Hm & Hw).
      attempt_is (Some mt) Hm. rewrite Hw.
      cbn [app]. now rewrite (proj2 (IH (Some c))).
    - attempt_is (@None Match) (match_at_spaces_none prev (c :: s) Ec).
      now rewrite (proj1 (IH (Some c))). }
  split; [exact H0|].
  cbn [count_spaces]. destruct (isspace c) eqn:Ec.
  - cbn [sub_go collapse_go]. rewrite Ec. apply (proj2 (IH (Some c))).
  - rewrite H0. cbn [collapse_go]. now rewrite Ec.
Qed.

Lemma clean_text_eq text :
  _clean_text text =
  match text with
  | None | Some [] => None
  | Some t => truthy (Some (drop_trailing punct (strip (collapse t))))
  end.
Proof.
  unfold _clean_text. destruct text as [[|c t]|]; try reflexivity.
  cbn [truthy]. cbv zeta. unfold sub. change (u " ") with [32%N].
  rewrite (proj1 (sub_spaces (c :: t) None)).
  now rewrite sub_trailing_punct.
Qed.

(** *** The normal form of a cleaned text *)

Lemma drop_trailing_nil P s :
  drop_trailing P s = [] <-> forallb P s = true.
Proof.
  destruct s as [|c s]; [cbn; tauto|]. cbn [drop_trailing].
  destruct (forallb P (c :: s)); split; try reflexivity; discriminate.
Qed.

Lemma drop_trailing_prefix P s :
  exists w, s = drop_trailing P s ++ w /\ forallb P w = true.
Proof.
  induction s as [|c s (w & Hw & Hp)]; [exists []; split; reflexivity|].
  cbn [drop_trailing]. destruct (forallb P (c :: s)) eqn:E.
  - exists (c :: s). split; [reflexivity | exact E].
  - exists w. split; [cbn; now rewrite <- Hw | exact Hp].
Qed.

Lemma drop_trailing_last P s r c :
  drop_trailing P s = r ++ [c] -> P c = false.
Proof.
  revert r. induction s as [|x s IH]; intros r H.
  - destruct r; discriminate.
  - cbn [drop_trailing] in H.
    destruct (forallb P (x :: s)) eqn:E; [destruct r; discriminate|].
    destruct r as [|y r].
    + cbn in H. injection H as -> H. apply drop_trailing_nil in H.
      cbn [forallb] in E. rewrite H, andb_true_r in E. exact E.
    + cbn in H. injection H as _ H. exact (IH r H).
Qed.

Lemma drop_trailing_id P r c :
  P c = false -> drop_trailing P (r ++ [c]) = r ++ [c].
Proof.
  intros Hc. induction r as [|x r IH].
  - cbn. now rewrite Hc.
  - cbn [app drop_trailing]. rewrite IH.
    replace (forallb P (x :: r ++ [c])) with false; [reflexivity|].
    symmetry. cbn [forallb]. rewrite forallb_app. cbn. rewrite Hc.
    now rewrite andb_false_r, andb_false_r.
Qed.

Lemma lstrip_suffix s : exists w, s = w ++ lstrip s.
Proof.
  induction s as [|c s [w Hw]]; [exists []; reflexivity|]. cbn.
  destruct (isspace c).
  - exists (c :: w). cbn. now rewrite <- Hw.
  - exists []. reflexivity.
Qed.

Lemma lstrip_head s c r : lstrip s = c :: r -> isspace c = false.
Proof.
  induction s as [|x s IH]; [discriminate|]. cbn.
  destruct (isspace x) eqn:E; [exact IH|].
  intros H. now injection H as <- _.
Qed.

Lemma rstrip_prefix s : exists w, s = rstrip s ++ w.
Proof.
  unfold rstrip. destruct (lstrip_suffix (rev s)) as [w Hw].
  exists (rev w). rewrite <- rev_app_distr, <- Hw. now rewrite rev_involutive.
Qed.

Lemma rstrip_last s r c : rstrip s = r ++ [c] -> isspace c = false.
Proof.
  unfold rstrip. intros H. apply (f_equal (@rev N)) in H.
  rewrite rev_involutive, rev_app_distr in H. cbn in H.
  exact (lstrip_head _ _ _ H).
Qed.

Lemma rstrip_id r c : isspace c = false -> rstrip (r ++ [c]) = r ++ [c].
Proof.
  intros Hc. unfold rstrip. rewrite rev_app_distr. cbn. rewrite Hc.
  cbn. now rewrite rev_involutive.
Qed.

Lemma strip_head s c r : strip s = c :: r -> isspace c = false.
Proof.
  unfold strip. intros H.
  destruct (rstrip_prefix (lstrip s)) as [w Hw]. rewrite H in Hw.
  cbn in Hw. exact (lstrip_head _ _ _ Hw).
Qed.

Lemma single_spaced_app a b :
  single_spaced (a ++ b) = true ->
  single_spaced a = true /\ single_spaced b = true.
Proof.
  induction a as [|c a IH]; [cbn; tauto|].
  cbn [app single_spaced]. intros H. apply andb_true_iff in H as [Hc H].
  destruct (IH H) as [Ha Hb]. split; [|exact Hb].
  rewrite Ha, andb_true_r.
  destruct (isspace c); [|reflexivity].
  apply andb_true_iff in Hc as [H1 H2]. rewrite H1. cbn.
  destruct a as [|d a]; [reflexivity | exact H2].
Qed.

Lemma collapse_go_spaced :
  forall s b,
    single_spaced (collapse_go b s) = true
    /\ match collapse_go true s with
       | d :: _ => isspace d = false
       | [] => True
       end.
Proof.
  induction s as [|c s IH]; intros b; [split; [reflexivity | exact I]|].
  cbn [collapse_go]. destruct (isspace c) eqn:Ec.
  - split; [|apply (IH true)].
    destruct b; [apply (IH true)|].
    cbn [single_spaced]. rewrite (proj1 (IH true)).
    change (isspace 32) with true. cbn.
    destruct (IH true) as [_ H].
    destruct (collapse_go true s); [reflexivity|]. now rewrite H.
  - split; [|exact Ec].
    cbn [single_spaced]. rewrite Ec. apply (IH false).
Qed.

Lemma collapse_go_true_head s :
  match s with d :: _ => isspace d = false | [] => True end ->
  collapse_go true s = collapse_go false s.
Proof. destruct s as [|d s]; [reflexivity|]. cbn. now intros ->. Qed.

Lemma collapse_id r : single_spaced r = true -> collapse r = r.
Proof.
  unfold collapse. induction r as [|c r IH]; [reflexivity|].
  cbn [single_spaced collapse_go]. intros H.
  apply andb_true_iff in H as [Hc H]. specialize (IH H).
  destruct (isspace c); [|now rewrite IH].
  apply andb_true_iff in Hc as [H1 H2]. apply N.eqb_eq in H1. subst c.
  rewrite collapse_go_true_head, IH; [reflexivity|].
  destruct r; [exact I | now apply negb_true_iff in H2].
Qed.

Lemma punct_space c : isspace c = true -> punct c = true.
Proof. unfold punct. intros ->. now rewrite orb_true_r. Qed.

Lemma nonempty_last {A} (r : list A) :
  r <> [] -> exists r' c, r = r' ++ [c].
Proof.
  intros H. destruct (exists_last H) as (r' & c & ->). eauto.
Qed.

(** X20.  [_clean_text] gives [None] for no text, for the empty text and
    for a text of white space, colons and commas only; otherwise it gives a
    text in normal form: not empty, not beginning with white space, not
    ending with white space, a colon or a comma, and with single spaces as
    its only white space.  Cleaning a cleaned text changes nothing. *)
Theorem clean_text_normal_form :
  _clean_text None = None
  /\ (forall t, forallb punct t = true -> _clean_text (Some t) = None)
  /\ (forall x r,
         _clean_text x = Some r ->
         r <> []
         /\ (forall c r', r = c :: r' -> isspace c = false)
         /\ (forall r' c, r = r' ++ [c] -> punct c = false)
         /\ single_spaced r = true
         /\ _clean_text (Some r) = Some r).
Proof.
  split; [reflexivity|]. split.
  - intros t Ht. rewrite clean_text_eq. destruct t as [|c t]; [reflexivity|].
    assert (Hc : forallb punct (collapse (c :: t)) = true).
    { clear -Ht. unfold collapse. generalize false. revert Ht.
      generalize (c :: t). induction l as [|x l IH]; intros Hl b;
        [reflexivity|].
      cbn [forallb] in Hl. apply andb_true_iff in Hl as [Hx Hl].
      cbn [collapse_go]. destruct (isspace x).
      - destruct b; [now apply IH|]. cbn [forallb]. now rewrite IH.
      - cbn [forallb]. now rewrite Hx, IH. }
    assert (Hs : forallb punct (strip (collapse (c :: t))) = true).
    { unfold strip.
      destruct (lstrip_suffix (collapse (c :: t))) as [w Hw].
      rewrite Hw, forallb_app in Hc. apply andb_true_iff in Hc as [_ Hc].
      destruct (rstrip_prefix (lstrip (collapse (c :: t)))) as [w' Hw'].
      rewrite Hw', forallb_app in Hc. now apply andb_true_iff in Hc as [Hc _]. }
    apply drop_trailing_nil in Hs. now rewrite Hs.
  - intros x r H. rewrite clean_text_eq in H.
    destruct x as [[|c0 t]|]; try discriminate.
    set (t2 := strip (collapse (c0 :: t))) in *.
    destruct (drop_trailing punct t2) as [|c r0] eqn:Ed; [discriminate|].
    cbn [truthy] in H. injection H as <-.
    destruct (drop_trailing_prefix punct t2) as (w & Hw & _).
    rewrite Ed in Hw.
    assert (Hhead : isspace c = false).
    { apply (strip_head (collapse (c0 :: t)) c (r0 ++ w)). exact Hw. }
    assert (Hlast : forall r' d, c :: r0 = r' ++ [d] -> punct d = false).
    { intros r' d Hr. rewrite Hr in Ed. exact (drop_trailing_last _ _ _ _ Ed). }
    assert (Hsp : single_spaced (c :: r0) = true).
    { pose proof (proj1 (collapse_go_spaced (c0 :: t) false)) as Hc.
      fold (collapse (c0 :: t)) in Hc.
      destruct (lstrip_suffix (collapse (c0 :: t))) as [w1 Hw1].
      rewrite Hw1 in Hc. apply single_spaced_app in Hc as [_ Hc].
      destruct (rstrip_prefix (lstrip (collapse (c0 :: t)))) as [w2 Hw2].
      rewrite Hw2 in Hc. apply single_spaced_app in Hc as [Hc _].
      fold (strip (collapse (c0 :: t))) in Hc. fold t2 in Hc.
      rewrite Hw in Hc. change (c :: r0 ++ w) with ((c :: r0) ++ w) in Hc.
      now apply single_spaced_app in Hc as [Hc _]. }
    split; [discriminate|]. split.
    { intros c' r' Hr. now injection Hr as <- _. }
    split; [exact Hlast|]. split; [exact Hsp|].
    rewrite clean_text_eq. rewrite (collapse_id _ Hsp).
    destruct (nonempty_last (c :: r0)) as (r' & d & Hr); [discriminate|].
    pose proof (Hlast r' d Hr) as Hd.
    assert (Hds : isspace d = false).
    { destruct (isspace d) eqn:E; [|reflexivity].
      apply punct_space in E. congruence. }
    assert (Hstrip : strip (c :: r0) = c :: r0).
    { unfold strip. rewrite (lstrip_id (c :: r0)) by exact Hhead.
      rewrite Hr. now apply rstrip_id. }
    rewrite Hstrip, Hr, (drop_trailing_id punct r' d Hd), <- Hr.
    reflexivity.
Qed.

Lemma clean_text_normal_form_witness :
  _clean_text (Some (u " : , ")) = None
  /\ _clean_text (Some (u "  Nguyễn   Văn  A :, ")) = Some (u "Nguyễn Văn A")
  /\ _clean_text (Some (u "Nguyễn Văn A")) = Some (u "Nguyễn Văn A").
Proof.
  destruct clean_text_normal_form as (_ & H2 & H3).
  split; [apply H2; reflexivity|].
  assert (H : _clean_text (Some (u "  Nguyễn   Văn  A :, "))
              = Some (u "Nguyễn Văn A")) by (vm_compute; reflexivity).
  split; [exact H|].
  exact (proj2 (proj2 (proj2 (proj2 (H3 _ _ H))))).
Defined.

(** *** File name suffixes *)

Lemma rfind_none c s : ~ In c s -> Path.rfind c s = None.
Proof.
  induction s as [|d s IH]; [reflexivity|]. intros H. cbn.
  rewrite IH by (intros Hin; apply H; now right).
  destruct (d =? c)%N eqn:E; [|reflexivity].
  apply N.eqb_eq in E. exfalso. apply H. now left.
Qed.

Lemma rfind_last c stem e :
  ~ In c e -> Path.rfind c (stem ++ c :: e) = Some (length stem).
Proof.
  intros H. induction stem as [|d stem IH]; cbn.
  - now rewrite (rfind_none c e H), N.eqb_refl.
  - now rewrite IH.
Qed.

Lemma suffix_of_name p stem e :
  Path.name p = stem ++ 46%N :: e -> stem <> [] -> e <> [] -> ~ In 46%N e ->
  Path.suffix p = 46%N :: e.
Proof.
  intros Hn Hs He Hd. unfold Path.suffix. rewrite Hn. cbv zeta.
  rewrite (rfind_last 46 stem e Hd).
  assert (H1 : (0 <? length stem)%nat = true).
  { apply Nat.ltb_lt. destruct stem; [contradiction|cbn; lia]. }
  assert (H2 : (length stem <? length (stem ++ 46%N :: e) - 1)%nat = true).
  { apply Nat.ltb_lt. rewrite length_app. cbn [length].
    destruct e; [contradiction|cbn; lia]. }
  rewrite H1, H2. cbn [andb].
  rewrite skipn_app, Nat.sub_diag, skipn_all. reflexivity.
Qed.

Lemma suffix_no_dot p : ~ In 46%N (Path.name p) -> Path.suffix p = [].
Proof.
  intros H. unfold Path.suffix. cbv zeta. now rewrite (rfind_none _ _ H).
Qed.

Lemma lower_keeps_dot e : In 46%N e -> In 46%N (lower e).
Proof.
  unfold lower. induction e as [|c e IH]; [intros []|].
  cbn [flat_map]. intros [->|H]; apply in_or_app.
  - left. now left.
  - right. now apply IH.
Qed.

Lemma lower_dot_suffix ext x :
  lower ext = 46%N :: x -> x <> [] -> ~ In 46%N x ->
  exists e, ext = 46%N :: e /\ e <> [] /\ ~ In 46%N e.
Proof.
  destruct ext as [|c e]; [discriminate|].
  unfold lower. cbn [flat_map]. unfold lower_chars at 1.
  destruct (c =? 304)%N; [discriminate|]. cbn [app].
  intros H Hx Hd. injection H as Hc He.
  apply lower_char_small in Hc; [|reflexivity]. subst c.
  exists e. split; [reflexivity|]. split.
  - intros ->. cbn in He. congruence.
  - intros Hin. apply Hd. rewrite <- He. now apply lower_keeps_dot.
Qed.

Lemma media_type_key ext t :
  Dict.get (lower ext) VisionExtractor.media_types = Some t ->
  In t (map u ["image/jpeg"; "image/png"; "image/gif"; "image/webp"]%string)
  /\ exists e, ext = 46%N :: e /\ e <> [] /\ ~ In 46%N e.
Proof.
  unfold VisionExtractor.media_types. cbn [Dict.get].
  repeat match goal with
         | |- (if str_eqb ?a ?b then _ else _) = _ -> _ =>
             let E := fresh "E" in
             destruct (str_eqb a b) eqn:E;
             [apply str_eqb_eq in E; intros H; injection H as <-;
              split; [vm_compute; tauto|];
              apply (lower_dot_suffix ext _ E);
              [discriminate
              |vm_compute; intros Hin;
               repeat (destruct Hin as [Hin|Hin]; [discriminate Hin|]);
               exact Hin]
             |]
         end.
  discriminate.
Qed.

(** X21.  [get_image_media_type] returns one of four media types,
    whatever the path; it is the type the table lists for the extension
    when the file name is a stem that is not made of dots only, followed by
    that extension in any letter case, and JPEG for a name without a dot. *)
Theorem media_type_of_extension :
  (forall p,
      In (VisionExtractor.get_image_media_type p)
         (map u ["image/jpeg"; "image/png"; "image/gif"; "image/webp"]%string))
  /\ (forall p stem ext t,
         Path.name p = stem ++ ext ->
         (exists c, In c stem /\ c <> 46%N) ->
         Dict.get (lower ext) VisionExtractor.media_types = Some t ->
         VisionExtractor.get_image_media_type p = t)
  /\ (forall p, ~ In 46%N (Path.name p) ->
                VisionExtractor.get_image_media_type p = u "image/jpeg").
Proof.
  split; [|split].
  - intros p. unfold VisionExtractor.get_image_media_type. cbv zeta.
    destruct (Dict.get _ _) as [t|] eqn:E; [|vm_compute; tauto].
    now apply media_type_key in E.
  - intros p stem ext t Hn (c & Hc & _) Hg.
    assert (Hs : stem <> []) by (intros ->; exact Hc).
    destruct (media_type_key ext t Hg) as (_ & e & -> & He & Hd).
    unfold VisionExtractor.get_image_media_type. cbv zeta.
    rewrite (suffix_of_name p stem e Hn Hs He Hd). now rewrite Hg.
  - intros p H. unfold VisionExtractor.get_image_media_type. cbv zeta.
    now rewrite (suffix_no_dot p H).
Qed.

Lemma media_type_of_extension_witness :
  VisionExtractor.get_image_media_type
    (Path.mk [] [u "uploads"; u "Scan.01.PNG"]) = u "image/png"
  /\ VisionExtractor.get_image_media_type (Path.mk [] [u "uploads"; u "scan"])
     = u "image/jpeg".
Proof.
  destruct media_type_of_extension as (_ & H2 & H3). split.
  - apply (H2 _ (u "Scan.01") (u ".PNG")); [reflexivity | |reflexivity].
    exists 83%N. split; [left; reflexivity | discriminate].
  - apply H3. vm_compute. intros H.
    repeat (destruct H as [H|H]; [discriminate H|]). exact H.
Defined.

(** *** [read_handwritten_text] *)

Lemma read_handwritten_text_eq w client path hint st :
  VisionExtractor.read_handwritten_text w client path hint st =
  if image_readable w path then
    let r := client (vision_calls st) path
               (HandwritingPrompt (VisionExtractor.nonempty hint)) in
    (inr (match outcome r with inr text => text | inl _ => [] end, elapsed r),
     after_vision st (elapsed r))
  else (inr ([], 0), st).
Proof.
  unfold VisionExtractor.read_handwritten_text, VisionExtractor.encode_image,
    bind, try_except, now, call_transcription, ret, throw, after_vision.
  unfold image_readable.
  destruct (image_exists w path); [|cbn [andb clock]; run_eq].
  destruct (image_open w path) as [oe|]; cbn [andb clock]; [run_eq|].
  destruct (outcome (client (vision_calls st) path _)) as [e|txt];
    cbn [clock]; run_eq.
Qed.

(** X22.  [read_handwritten_text] always returns.  When the image file
    does not exist or cannot be opened and read, it makes no call and
    returns the empty string; when the file can be read it makes one call
    and returns the transcription of the service, or the empty string when
    the call fails. *)
Theorem read_handwritten_text_never_raises :
  forall w client path region_hint st,
  exists text t st',
    VisionExtractor.read_handwritten_text w client path region_hint st
    = (inr (text, t), st')
    /\ (vision_calls st' <= S (vision_calls st))%nat
    /\ llm_calls st' = llm_calls st
    /\ t = clock st' - clock st
    /\ (image_exists w path = false -> text = [] /\ st' = st)
    /\ (forall e, image_open w path = Some e -> text = [] /\ st' = st)
    /\ (image_exists w path = true -> image_open w path = None ->
        let r := client (vision_calls st) path
                   (HandwritingPrompt (VisionExtractor.nonempty region_hint)) in
        vision_calls st' = S (vision_calls st)
        /\ (forall e, outcome r = inl e -> text = [])
        /\ (forall s, outcome r = inr s -> text = s)).
Proof.
  intros w client path hint st. rewrite read_handwritten_text_eq.
  destruct (image_readable w path) eqn:Hrd.
  - cbv zeta. do 3 eexists. split; [reflexivity|]. cbn.
    split; [lia|]. split; [reflexivity|]. split; [lia|].
    split; [intros; unreadable|].
    split.
    { intros e He. rewrite (unopened_unreadable _ _ _ He) in Hrd.
      discriminate Hrd. }
    intros _ _. split; [reflexivity|]. split.
    + intros e ->. reflexivity.
    + intros s ->. reflexivity.
  - do 3 eexists. split; [reflexivity|].
    split; [lia|]. split; [reflexivity|]. split; [lia|].
    split; [tauto|]. split; [tauto|].
    intros He Ho. unfold image_readable in Hrd. rewrite He, Ho in Hrd.
    discriminate Hrd.
Qed.

Lemma read_handwritten_text_never_raises_witness :
  (exists text t st',
      VisionExtractor.read_handwritten_text Cases.image_unreadable
        (fun _ _ _ => {| outcome := inr Scenario.prose; elapsed := 4 |})
        Scenario.rx_path None Scenario.st0 = (inr (text, t), st')
      /\ text = [] /\ st' = Scenario.st0)
  /\ (exists text t st',
         VisionExtractor.read_handwritten_text Scenario.vision_only
           (fun _ _ _ => {| outcome := inr Scenario.prose; elapsed := 4 |})
           Scenario.rx_path None Scenario.st0 = (inr (text, t), st')
         /\ text = Scenario.prose /\ vision_calls st' = 1%nat).
Proof.
  split.
  - destruct (read_handwritten_text_never_raises Cases.image_unreadable
                (fun _ _ _ => {| outcome := inr Scenario.prose; elapsed := 4 |})
                Scenario.rx_path None Scenario.st0)
      as (text & t & st' & H & _ & _ & _ & _ & Hu & _).
    exists text, t, st'. split; [exact H|].
    apply (Hu (OSError (u "[Errno 21] Is a directory"))). reflexivity.
  - destruct (read_handwritten_text_never_raises Scenario.vision_only
                (fun _ _ _ => {| outcome := inr Scenario.prose; elapsed := 4 |})
                Scenario.rx_path None Scenario.st0)
      as (text & t & st' & H & _ & _ & _ & _ & _ & Hr).
    exists text, t, st'. split; [exact H|].
    destruct (Hr eq_refl eq_refl) as (Hc & _ & Hs).
    split; [apply Hs; reflexivity | exact Hc].
Defined.

(** *** The badges and the statistics of the application *)

Lemma type_badge_known ty :
  App.get_prescription_type_badge (PrescriptionType_value ty)
  <> (u "❓ Unknown", u "secondary").
Proof. destruct ty; vm_compute; discriminate. Qed.

(** X23.  For a record and a metadata dictionary returned by [process],
    the library shows the badge of the type the classifier gave the
    document, never the Unknown badge, and the method badge of the tier
    that produced the record: LLM Vision, LLM Text or Regex, and never
    the generic LLM badge. *)
Theorem library_badges_of_process :
  forall w path force_vision st p md st' text conf,
    outcome (ocr_engine w path) = inr (text, conf) ->
    process w path force_vision st = (inr (p, md), st') ->
    App.rx_type_str p
    = PrescriptionType_value (classify_prescription_type path conf)
    /\ App.get_prescription_type_badge (App.rx_type_str p)
       <> (u "❓ Unknown", u "secondary")
    /\ App.method_badge md p
       = match select_tier force_vision conf
                 (classify_prescription_type path conf)
                 (available (vision w)) (available (llm_text w)) with
         | ImageAnalysis => (u "👁️ LLM Vision", u "info")
         | TextAnalysis => (u "🤖 LLM Text", u "warning")
         | LocalFallback => (u "📝 Regex", u "secondary")
         end
    /\ App.method_badge md p <> (u "🤖 LLM", u "info").
Proof.
  intros w path fv st p md st' text conf Hocr H.
  destruct (process_record_inv w path fv st p md st' text conf Hocr H)
    as (_ & Hty & _ & Hen & _).
  apply process_trace in H.
  destruct H as (text' & conf' & p1 & md1 & st2 & s1 & Hocr' & _ & _ & Hm & _).
  rewrite Hocr in Hocr'. injection Hocr' as <- <-.
  assert (Hr : App.rx_type_str p
               = PrescriptionType_value (classify_prescription_type path conf)).
  { unfold App.rx_type_str. now rewrite Hty. }
  assert (Hb : App.method_badge md p
       = match select_tier fv conf (classify_prescription_type path conf)
                 (available (vision w)) (available (llm_text w)) with
         | ImageAnalysis => (u "👁️ LLM Vision", u "info")
         | TextAnalysis => (u "🤖 LLM Text", u "warning")
         | LocalFallback => (u "📝 Regex", u "secondary")
         end).
  { unfold App.method_badge. rewrite Hm, Hen. unfold tier_of.
    destruct (select_tier _ _ _ _ _); reflexivity. }
  split; [exact Hr|]. split; [rewrite Hr; apply type_badge_known|].
  split; [exact Hb|]. rewrite Hb.
  destruct (select_tier _ _ _ _ _); vm_compute; discriminate.
Qed.

Lemma library_badges_of_process_witness :
  exists p md st',
    process Scenario.text_only Scenario.rx_path false Scenario.st0
    = (inr (p, md), st')
    /\ App.get_prescription_type_badge (App.rx_type_str p)
       = (u "🖨️ Printed", u "success")
    /\ App.method_badge md p = (u "🤖 LLM Text", u "warning").
Proof.
  destruct (process Scenario.text_only Scenario.rx_path false Scenario.st0)
    as [[e|[p md]] st'] eqn:E; [vm_compute in E; discriminate E|].
  exists p, md, st'. split; [reflexivity|].
  destruct (library_badges_of_process Scenario.text_only Scenario.rx_path
              false Scenario.st0 p md st' Scenario.amoxicillin_line 0.8%Q
              eq_refl E) as (H1 & _ & H3 & _).
  split; [rewrite H1; reflexivity | exact H3].
Defined.

Lemma list_sum_indicator {A} (f : A -> bool) l :
  (list_sum (map (fun x => if f x then 1 else 0) l) <= length l)%nat.
Proof.
  induction l as [|x l IH]; [cbn; lia|].
  cbn [map length]. change (list_sum (?a :: ?l)) with (a + list_sum l)%nat.
  destruct (f x); lia.
Qed.

Lemma stats_fields l :
  App.total (App.get_prescription_stats l) = length l
  /\ App.with_signature (App.get_prescription_stats l)
     = list_sum (map (fun p => if App.signature_present (App.prescription p)
                               then 1 else 0)%nat l)
  /\ App.total_meds (App.get_prescription_stats l)
     = list_sum (map (fun p => length (ExtractedPrescription.medications
                                         (App.prescription p))) l)
  /\ App.llm_enhanced (App.get_prescription_stats l)
     = list_sum (map (fun p => if ExtractedPrescription.llm_enhanced
                                    (App.prescription p)
                               then 1 else 0)%nat l).
Proof. destruct l; repeat split. Qed.

(** X24.  The statistics of the session list: the total is the number of
    entries, the signature and enhancement counts never exceed it, and
    each count of a list made of two lists is the sum of their counts. *)
Theorem prescription_stats_counts :
  forall a b,
    let s := App.get_prescription_stats in
    App.total (s a) = length a
    /\ (App.with_signature (s a) <= App.total (s a))%nat
    /\ (App.llm_enhanced (s a) <= App.total (s a))%nat
    /\ App.total (s (a ++ b)) = (App.total (s a) + App.total (s b))%nat
    /\ App.with_signature (s (a ++ b))
       = (App.with_signature (s a) + App.with_signature (s b))%nat
    /\ App.total_meds (s (a ++ b))
       = (App.total_meds (s a) + App.total_meds (s b))%nat
    /\ App.llm_enhanced (s (a ++ b))
       = (App.llm_enhanced (s a) + App.llm_enhanced (s b))%nat.
Proof.
  intros a b s. subst s.
  destruct (stats_fields a) as (Ta & Sa & Ma & La).
  destruct (stats_fields b) as (Tb & Sb & Mb & Lb).
  destruct (stats_fields (a ++ b)) as (Tab & Sab & Mab & Lab).
  rewrite Ta, Sa, Ma, La, Tb, Sb, Mb, Lb, Tab, Sab, Mab, Lab.
  rewrite !map_app, !list_sum_app, length_app.
  split; [reflexivity|].
  split; [apply (list_sum_indicator
                   (fun p => App.signature_present (App.prescription p)))|].
  split; [apply (list_sum_indicator
                   (fun p => ExtractedPrescription.llm_enhanced
                               (App.prescription p)))|].
  repeat split.
Qed.
